(** * DeployKnot: a shallow embedding of the deployment orchestration core

    The development follows the Go sources of the repository:

    - [internal/models/deployment.go]   request validation, port conversion;
    - [internal/services/deployment.go] (current revision) the deployment
      coordinator: container names, initial steps, creation, reads;
    - [internal/database/repository.go] the PostgreSQL repository;
    - [internal/services/queue.go]      the Redis job queue;
    - package [handlers]                the HTTP handlers and the log stream;
    - package [main] of the worker      the worker and its step pipeline.

    Go strings are embedded as lists of runes, stateful code as explicit
    state passing over a [World] record, and everything the code cannot
    control (random ids, the wall clock, database, Redis and SSH outcomes)
    as oracles indexed by a counter of environment interactions. *)

From Stdlib Require Import NArith ZArith Lia.
From stdpp Require Import base option list strings gmap.

Local Open Scope N_scope.

(* ===================================================================== *)
(** * Go strings                                                          *)
(* ===================================================================== *)

(** A Go string is modelled by the sequence of runes that [range] yields on
    it (for well-formed UTF-8 this determines the string).  All separators
    and cut sets used by the code are ASCII, so splitting and trimming on
    runes agrees with the byte-level library functions. *)
Abbreviation rune := N (only parsing).
Abbreviation gostring := (list N) (only parsing).

(** String literals of the sources (ASCII only). *)
Definition str (s : string) : gostring :=
  List.map Ascii.N_of_ascii (String.list_ascii_of_string s).

Module strings.

(** [unicode.IsSpace]. *)
Definition isSpace (r : rune) : bool :=
  ((9 <=? r) && (r <=? 13)) || (r =? 32) || (r =? 133) || (r =? 160)
  || (r =? 5760) || ((8192 <=? r) && (r <=? 8202))
  || (r =? 8232) || (r =? 8233) || (r =? 8239) || (r =? 8287)
  || (r =? 12288).

Fixpoint TrimLeftFunc (f : rune -> bool) (s : gostring) : gostring :=
  match s with
  | [] => []
  | c :: s' => if f c then TrimLeftFunc f s' else s
  end.

Definition TrimRightFunc (f : rune -> bool) (s : gostring) : gostring :=
  rev (TrimLeftFunc f (rev s)).

Definition TrimFunc (f : rune -> bool) (s : gostring) : gostring :=
  TrimRightFunc f (TrimLeftFunc f s).

Definition TrimSpace (s : gostring) : gostring := TrimFunc isSpace s.

Definition inCutset (cutset : gostring) (r : rune) : bool :=
  existsb (N.eqb r) cutset.

Definition Trim (s cutset : gostring) : gostring :=
  TrimFunc (inCutset cutset) s.

Fixpoint HasPrefix (s prefix : gostring) : bool :=
  match prefix, s with
  | [], _ => true
  | _ :: _, [] => false
  | p :: ps, c :: cs => (c =? p) && HasPrefix cs ps
  end.

Fixpoint Contains (s substr : gostring) : bool :=
  HasPrefix s substr
  || match s with
     | [] => false
     | _ :: s' => Contains s' substr
     end.

Definition TrimPrefix (s prefix : gostring) : gostring :=
  if HasPrefix s prefix then drop (length prefix) s else s.

Definition HasSuffix (s suffix : gostring) : bool :=
  HasPrefix (rev s) (rev suffix).

Definition TrimSuffix (s suffix : gostring) : gostring :=
  if HasSuffix s suffix then take (length s - length suffix)%nat s else s.

(** [strings.Split(s, sep)] for a separator of one rune. *)
Fixpoint Split (s : gostring) (sep : rune) : list gostring :=
  match s with
  | [] => [[]]
  | c :: s' =>
      if c =? sep then [] :: Split s' sep
      else match Split s' sep with
           | [] => [[c]]
           | w :: ws => (c :: w) :: ws
           end
  end.

(** The text before and after the first occurrence of [sep]. *)
Fixpoint Cut (s : gostring) (sep : rune) : option (gostring * gostring) :=
  match s with
  | [] => None
  | c :: s' =>
      if c =? sep then Some ([], s')
      else match Cut s' sep with
           | Some (a, b) => Some (c :: a, b)
           | None => None
           end
  end.

(** [strings.SplitN(s, sep, 2)] for a separator of one rune. *)
Definition SplitN2 (s : gostring) (sep : rune) : list gostring :=
  match Cut s sep with
  | Some (a, b) => [a; b]
  | None => [s]
  end.

Fixpoint Join (elems : list gostring) (sep : gostring) : gostring :=
  match elems with
  | [] => []
  | [x] => x
  | x :: xs => x ++ sep ++ Join xs sep
  end.

(** [unicode.ToLower] as far as the callers can observe it: ASCII capitals,
    and the two runes outside ASCII whose lower case is an ASCII letter
    (U+0130 and the Kelvin sign U+212A).  Every other rune outside ASCII
    stays outside ASCII. *)
Definition toLowerRune (r : rune) : rune :=
  if (65 <=? r) && (r <=? 90) then r + 32
  else if r =? 304 then 105
  else if r =? 8490 then 107
  else r.

Definition ToLower (s : gostring) : gostring := List.map toLowerRune s.

(** Byte-wise comparison [a < b] of two strings. *)
Fixpoint ltb (a b : gostring) : bool :=
  match a, b with
  | _, [] => false
  | [], _ :: _ => true
  | x :: a', y :: b' => (x <? y) || ((x =? y) && ltb a' b')
  end.

End strings.

(* ===================================================================== *)
(** * strconv and fmt                                                     *)
(* ===================================================================== *)

Module strconv.

Definition isDigit (r : rune) : bool := (48 <=? r) && (r <=? 57).

Fixpoint digits (acc : Z) (s : gostring) : option Z :=
  match s with
  | [] => Some acc
  | r :: s' =>
      if isDigit r then digits (acc * 10 + (Z.of_N r - 48)) s' else None
  end.

Definition minInt : Z := - 2 ^ 63.
Definition maxInt : Z := 2 ^ 63 - 1.

(** [strconv.Atoi] on a 64-bit platform: an optional sign, then one or
    more decimal digits, and the value must fit an [int]. *)
Definition Atoi (s : gostring) : option Z :=
  let '(neg, body) :=
    match s with
    | 43 :: t => (false, t)
    | 45 :: t => (true, t)
    | _ => (false, s)
    end in
  match body with
  | [] => None
  | _ =>
      match digits 0 body with
      | None => None
      | Some v =>
          let n := if neg then (- v)%Z else v in
          if ((minInt <=? n) && (n <=? maxInt))%Z then Some n else None
      end
  end.

Fixpoint itoaPos (fuel : nat) (n : N) (acc : gostring) : gostring :=
  match fuel with
  | O => acc
  | S fuel' =>
      let acc' := (48 + n mod 10) :: acc in
      if n / 10 =? 0 then acc' else itoaPos fuel' (n / 10) acc'
  end.

(** [strconv.Itoa], also the [%d] verb of [fmt.Sprintf]. *)
Definition Itoa (z : Z) : gostring :=
  let n := Z.abs_N z in
  let ds := itoaPos (S (N.to_nat (N.log2 n))) n [] in
  if (z <? 0)%Z then 45 :: ds else ds.

End strconv.

(** Go's [(T, error)] results; an error is represented by its message. *)
Inductive result (A : Type) : Type :=
| Ok (a : A)
| Err (msg : gostring).
Arguments Ok {A} a.
Arguments Err {A} msg.

Definition isOk {A} (r : result A) : bool :=
  match r with Ok _ => true | Err _ => false end.

(** [fmt.Errorf("prefix: %w", err)]. *)
Definition wrap (prefix : string) (err : gostring) : gostring :=
  str prefix ++ str ": " ++ err.


(* ===================================================================== *)
(** * github.com/google/uuid and time                                     *)
(* ===================================================================== *)

Module uuid.

(** A UUID is its 128-bit value. *)
Abbreviation UUID := N (only parsing).

Definition Nil : UUID := 0.

Definition hexDigit (n : N) : rune := if n <? 10 then 48 + n else 87 + n.

Fixpoint hex (width : nat) (v : N) : gostring :=
  match width with
  | O => []
  | S w => hex w (v / 16) ++ [hexDigit (v mod 16)]
  end.

(** [UUID.String]: the canonical form xxxxxxxx-xxxx-xxxx-xxxx-xxxxxxxxxxxx. *)
Definition String (u : UUID) : gostring :=
  let h := hex 32 u in
  take 8 h ++ [45] ++ take 4 (drop 8 h) ++ [45] ++ take 4 (drop 12 h)
    ++ [45] ++ take 4 (drop 16 h) ++ [45] ++ drop 20 h.

End uuid.

(** A [time.Time] is a number of nanoseconds since the epoch. *)
Abbreviation time := Z (only parsing).

(** [now.Sub(t).Milliseconds()]. *)
Definition sub_ms (now t : time) : Z := ((now - t) ÷ 1000000)%Z.

(* ===================================================================== *)
(** * internal/models                                                     *)
(* ===================================================================== *)

Module models.

Inductive DeploymentStatus :=
| DeploymentStatusPending
| DeploymentStatusRunning
| DeploymentStatusCompleted
| DeploymentStatusFailed
| DeploymentStatusCancelled
| DeploymentStatusAborted.

#[global] Instance DeploymentStatus_eq_dec : EqDecision DeploymentStatus.
Proof. solve_decision. Defined.

(** A decoded JSON value, as found in [map[string]interface{}]: numbers
    are the integral ones; [JOther] stands for booleans, arrays and
    objects and carries the text that the [%v] verb prints for it. *)
Inductive JVal :=
| JNull
| JString (s : gostring)
| JNumber (z : Z)
| JOther (rendering : gostring).

Module Deployment.
Record t := mk {
  ID : uuid.UUID;
  CreatedAt : time;
  UpdatedAt : time;
  Status : DeploymentStatus;
  TargetIP : gostring;
  SSHUsername : gostring;
  SSHPasswordEncrypted : option gostring;
  GitHubRepoURL : gostring;
  GitHubPATEncrypted : option gostring;
  GitHubBranch : gostring;
  EnvironmentVars : option gostring;
  AdditionalVars : option JVal;
  Port : Z;
  ContainerName : option gostring;
  StartedAt : option time;
  CompletedAt : option time;
  ErrorMessage : option gostring;
  CreatedBy : option gostring;
  ProjectName : option gostring;
  DeploymentName : option gostring;
  UserID : option uuid.UUID;
}.
End Deployment.

Module CreateDeploymentRequest.
Record t := mk {
  TargetIP : gostring;
  SSHUsername : gostring;
  SSHPassword : gostring;
  GitHubRepoURL : gostring;
  GitHubPAT : gostring;
  GitHubBranch : gostring;
  Port : gostring;
  ContainerName : option gostring;
  ProjectName : option gostring;
  DeploymentName : option gostring;
  AdditionalVars : option JVal;
}.

Definition Validate (req : t) : option gostring :=
  if bool_decide (TargetIP req = []) then Some (str "target_ip is required")
  else if bool_decide (SSHUsername req = []) then Some (str "ssh_username is required")
  else if bool_decide (SSHPassword req = []) then Some (str "ssh_password is required")
  else if bool_decide (GitHubRepoURL req = []) then Some (str "github_repo_url is required")
  else if bool_decide (GitHubPAT req = []) then Some (str "github_pat is required")
  else if bool_decide (Port req = []) then Some (str "port is required")
  else None.

Definition GetPortAsInt (r : t) : result Z :=
  if bool_decide (Port r = []) then Err (str "port is required")
  else match strconv.Atoi (Port r) with
       | None => Err (str "invalid port number: " ++ Port r)
       | Some port =>
           if ((port <? 1) || (65535 <? port))%Z
           then Err (str "port must be between 1 and 65535")
           else Ok port
       end.
End CreateDeploymentRequest.

Module EnvironmentVariable.
Record t := mk {
  Key : gostring;
  Value : gostring;
}.
End EnvironmentVariable.

(** [fmt.Sprintf("%s=%s", env.Key, env.Value)] *)
Definition envLine (env : EnvironmentVariable.t) : gostring :=
  EnvironmentVariable.Key env ++ str "=" ++ EnvironmentVariable.Value env.

(** [EnvironmentVariables.ToEnvFile]: one line per variable, in order. *)
Definition ToEnvFile (ev : list EnvironmentVariable.t) : gostring :=
  strings.Join (List.map envLine ev) [10].

(** [FromEnvFile]: the body of the loop for one line; [None] stands for a
    line that adds nothing. *)
Definition parseLine (line : gostring) : option EnvironmentVariable.t :=
  let line := strings.TrimSpace line in
  if bool_decide (line = []) || strings.HasPrefix line (str "#") then None
  else if strings.Contains line (str "=") then
    match strings.SplitN2 line 61 with
    | [part0; part1] =>
        let key := strings.TrimSpace part0 in
        let value := strings.TrimSpace part1 in
        let value := strings.Trim value [34; 39] in
        Some (EnvironmentVariable.mk key value)
    | _ => None
    end
  else None.

Fixpoint parseLines (lines : list gostring) (envVars : list EnvironmentVariable.t)
    : list EnvironmentVariable.t :=
  match lines with
  | [] => envVars
  | line :: rest =>
      match parseLine line with
      | Some env => parseLines rest (envVars ++ [env])
      | None => parseLines rest envVars
      end
  end.

Definition FromEnvFile (content : gostring) : list EnvironmentVariable.t :=
  parseLines (strings.Split content 10) [].

Module DeploymentResponse.
Record t := mk {
  ID : uuid.UUID;
  Status : DeploymentStatus;
  TargetIP : gostring;
  GitHubRepoURL : gostring;
  GitHubBranch : gostring;
  Port : Z;
  ContainerName : option gostring;
  CreatedAt : time;
  StartedAt : option time;
  CompletedAt : option time;
  ErrorMessage : option gostring;
  ProjectName : option gostring;
  DeploymentName : option gostring;
}.
End DeploymentResponse.

Module DeploymentLog.
Record t := mk {
  ID : uuid.UUID;
  DeploymentID : uuid.UUID;
  CreatedAt : time;
  LogLevel : gostring;
  Message : gostring;
  TaskName : option gostring;
  StepOrder : option Z;
}.
End DeploymentLog.

Module DeploymentStep.
Record t := mk {
  ID : uuid.UUID;
  DeploymentID : uuid.UUID;
  StepName : gostring;
  Status : DeploymentStatus;
  StartedAt : option time;
  CompletedAt : option time;
  DurationMs : option Z;
  ErrorMessage : option gostring;
  StepOrder : Z;
}.
End DeploymentStep.

End models.
Import models.

(* ===================================================================== *)
(** * The environment and the state of the system                         *)
(* ===================================================================== *)

Module Job.
Inductive JobStatus :=
| JobStatusPending | JobStatusRunning | JobStatusCompleted | JobStatusFailed.

#[global] Instance JobStatus_eq_dec : EqDecision JobStatus.
Proof. solve_decision. Defined.

Record t := mk {
  ID : uuid.UUID;
  Status : JobStatus;
  Data : gmap gostring JVal;
  CreatedAt : time;
  StartedAt : option time;
  CompletedAt : option time;
  ErrorMessage : option gostring;
  DeploymentID : uuid.UUID;
}.
End Job.

(** What the code cannot control.  Every interaction with the outside
    world consumes one index [n]; an oracle tells what happens at [n].  A
    failing call carries the message of the error it returns. *)
Record Env := mkEnv {
  rand : nat -> uuid.UUID;                 (* uuid.New() *)
  clock : nat -> time;                     (* time.Now() and SQL NOW() *)
  db_error : nat -> option gostring;       (* database/sql: Exec, Query *)
  redis_error : nat -> option gostring;    (* go-redis commands *)
  ssh_dial_error : nat -> option gostring; (* ssh.Dial *)
  ssh_session_error : nat -> option gostring;           (* client.NewSession *)
  ssh_output : nat -> gostring -> gostring * option gostring;
                                           (* session.CombinedOutput(cmd) *)
  sftp_error : nat -> option gostring;     (* os.Open, sftp.NewClient, Create, io.Copy *)
}.

(** The persistent state: the three tables of the store in insertion
    order, the Redis list of the queue (head = left end), the Redis job
    records, and the number of environment interactions so far. *)
Record World := mkWorld {
  deployments : list Deployment.t;
  deployment_steps : list DeploymentStep.t;
  deployment_logs : list DeploymentLog.t;
  queue : list Job.t;
  job_records : gmap uuid.UUID Job.t;
  seq : nat;
}.

Definition set_deployments (f : list Deployment.t -> list Deployment.t) (w : World) : World :=
  mkWorld (f (deployments w)) (deployment_steps w) (deployment_logs w)
          (queue w) (job_records w) (seq w).
Definition set_deployment_steps (f : list DeploymentStep.t -> list DeploymentStep.t) (w : World) : World :=
  mkWorld (deployments w) (f (deployment_steps w)) (deployment_logs w)
          (queue w) (job_records w) (seq w).
Definition set_deployment_logs (f : list DeploymentLog.t -> list DeploymentLog.t) (w : World) : World :=
  mkWorld (deployments w) (deployment_steps w) (f (deployment_logs w))
          (queue w) (job_records w) (seq w).
Definition set_queue (f : list Job.t -> list Job.t) (w : World) : World :=
  mkWorld (deployments w) (deployment_steps w) (deployment_logs w)
          (f (queue w)) (job_records w) (seq w).
Definition set_job_records (f : gmap uuid.UUID Job.t -> gmap uuid.UUID Job.t) (w : World) : World :=
  mkWorld (deployments w) (deployment_steps w) (deployment_logs w)
          (queue w) (f (job_records w)) (seq w).
Definition set_seq (f : nat -> nat) (w : World) : World :=
  mkWorld (deployments w) (deployment_steps w) (deployment_logs w)
          (queue w) (job_records w) (f (seq w)).

Definition empty_world : World := mkWorld [] [] [] [] ∅ 0.

(** Stateful code is a function from the world to a value and a new world. *)
Definition M (A : Type) : Type := World -> A * World.

Definition ret {A} (a : A) : M A := fun w => (a, w).
Definition bind {A B} (m : M A) (k : A -> M B) : M B :=
  fun w => let (a, w') := m w in k a w'.
Definition modify (f : World -> World) : M unit := fun w => (tt, f w).
Definition gets {A} (f : World -> A) : M A := fun w => (f w, w).

Notation "'let*' x ':=' m 'in' k" := (bind m (fun x => k))
  (at level 10, x name, m at level 100, k at level 200).
Notation "m '>>' k" := (bind m (fun _ => k))
  (at level 100, k at level 200, right associativity).

(** One interaction with the environment. *)
Definition ask {A} (oracle : nat -> A) : M A :=
  fun w => (oracle (seq w), set_seq S w).

(** [for _, x := range xs { body x }] *)
Fixpoint forEach {A} (xs : list A) (body : A -> M unit) : M unit :=
  match xs with
  | [] => ret tt
  | x :: xs' => body x >> forEach xs' body
  end.

(** The rows of a query in the order of an [ORDER BY] clause: a stable
    insertion sort ([le x y] holds when [x] may precede [y]). *)
Fixpoint insertBy {A} (le : A -> A -> bool) (x : A) (l : list A) : list A :=
  match l with
  | [] => [x]
  | y :: l' => if le x y then x :: l else y :: insertBy le x l'
  end.

Definition orderBy {A} (le : A -> A -> bool) (l : list A) : list A :=
  foldr (insertBy le) [] l.

(* ===================================================================== *)
(** * internal/database: the repository                                   *)
(* ===================================================================== *)

(** Calls to the logger have no effect on the state and are left out. *)

Module database.
Section Repository.
Variable E : Env.

(** The columns written by the INSERT; the others take their defaults. *)
Definition inserted_row (d : Deployment.t) : Deployment.t :=
  Deployment.mk (Deployment.ID d) (Deployment.CreatedAt d) (Deployment.UpdatedAt d)
    (Deployment.Status d) (Deployment.TargetIP d) (Deployment.SSHUsername d)
    (Deployment.SSHPasswordEncrypted d) (Deployment.GitHubRepoURL d)
    (Deployment.GitHubPATEncrypted d) (Deployment.GitHubBranch d)
    None (Deployment.AdditionalVars d) (Deployment.Port d)
    (Deployment.ContainerName d) None None None (Deployment.CreatedBy d)
    (Deployment.ProjectName d) (Deployment.DeploymentName d) (Deployment.UserID d).

Definition CreateDeployment (deployment : Deployment.t) : M (option gostring) :=
  let* err := ask (db_error E) in
  match err with
  | Some e => ret (Some (wrap "failed to create deployment" e))
  | None =>
      modify (set_deployments (fun rows => rows ++ [inserted_row deployment]))
      >> ret None
  end.

(** The row as [Scan] fills the struct: [user_id] is not selected. *)
Definition scanned_without_user (d : Deployment.t) : Deployment.t :=
  Deployment.mk (Deployment.ID d) (Deployment.CreatedAt d) (Deployment.UpdatedAt d)
    (Deployment.Status d) (Deployment.TargetIP d) (Deployment.SSHUsername d)
    (Deployment.SSHPasswordEncrypted d) (Deployment.GitHubRepoURL d)
    (Deployment.GitHubPATEncrypted d) (Deployment.GitHubBranch d)
    None (Deployment.AdditionalVars d) (Deployment.Port d)
    (Deployment.ContainerName d) (Deployment.StartedAt d)
    (Deployment.CompletedAt d) (Deployment.ErrorMessage d)
    (Deployment.CreatedBy d) (Deployment.ProjectName d)
    (Deployment.DeploymentName d) None.

Definition GetDeployment (id : uuid.UUID) : M (result Deployment.t) :=
  let* err := ask (db_error E) in
  match err with
  | Some e => ret (Err (wrap "failed to get deployment" e))
  | None =>
      let* rows := gets deployments in
      match List.find (fun d => Deployment.ID d =? id) rows with
      | None => ret (Err (str "deployment not found"))
      | Some d => ret (Ok (scanned_without_user d))
      end
  end.

Definition with_status (status : DeploymentStatus) (updated : time)
    (errorMessage : option gostring) (d : Deployment.t) : Deployment.t :=
  Deployment.mk (Deployment.ID d) (Deployment.CreatedAt d) updated
    status (Deployment.TargetIP d) (Deployment.SSHUsername d)
    (Deployment.SSHPasswordEncrypted d) (Deployment.GitHubRepoURL d)
    (Deployment.GitHubPATEncrypted d) (Deployment.GitHubBranch d)
    (Deployment.EnvironmentVars d) (Deployment.AdditionalVars d) (Deployment.Port d)
    (Deployment.ContainerName d) (Deployment.StartedAt d)
    (Deployment.CompletedAt d) errorMessage
    (Deployment.CreatedBy d) (Deployment.ProjectName d)
    (Deployment.DeploymentName d) (Deployment.UserID d).

(** The trigger [update_deployments_updated_at] stamps [updated_at] with
    the database's NOW() on every UPDATE. *)
Definition UpdateDeploymentStatus (id : uuid.UUID) (status : DeploymentStatus)
    (errorMessage : option gostring) : M (option gostring) :=
  let* _now := ask (clock E) in
  let* err := ask (db_error E) in
  match err with
  | Some e => ret (Some (wrap "failed to update deployment status" e))
  | None =>
      let* stamp := ask (clock E) in
      modify (set_deployments (List.map (fun d =>
        if Deployment.ID d =? id then with_status status stamp errorMessage d else d)))
      >> ret None
  end.

Definition with_timing (startedAt completedAt : option time) (updated : time)
    (d : Deployment.t) : Deployment.t :=
  Deployment.mk (Deployment.ID d) (Deployment.CreatedAt d) updated
    (Deployment.Status d) (Deployment.TargetIP d) (Deployment.SSHUsername d)
    (Deployment.SSHPasswordEncrypted d) (Deployment.GitHubRepoURL d)
    (Deployment.GitHubPATEncrypted d) (Deployment.GitHubBranch d)
    (Deployment.EnvironmentVars d) (Deployment.AdditionalVars d) (Deployment.Port d)
    (Deployment.ContainerName d) startedAt completedAt (Deployment.ErrorMessage d)
    (Deployment.CreatedBy d) (Deployment.ProjectName d)
    (Deployment.DeploymentName d) (Deployment.UserID d).

Definition UpdateDeploymentTiming (id : uuid.UUID) (startedAt completedAt : option time)
    : M (option gostring) :=
  let* _now := ask (clock E) in
  let* err := ask (db_error E) in
  match err with
  | Some e => ret (Some (wrap "failed to update deployment timing" e))
  | None =>
      let* stamp := ask (clock E) in
      modify (set_deployments (List.map (fun d =>
        if Deployment.ID d =? id then with_timing startedAt completedAt stamp d else d)))
      >> ret None
  end.

Definition CreateDeploymentLog (log : DeploymentLog.t) : M (option gostring) :=
  let* err := ask (db_error E) in
  match err with
  | Some e => ret (Some (wrap "failed to create deployment log" e))
  | None => modify (set_deployment_logs (fun rows => rows ++ [log])) >> ret None
  end.

Definition GetDeploymentLogs (deploymentID : uuid.UUID) (limit : Z)
    : M (result (list DeploymentLog.t)) :=
  let* err := ask (db_error E) in
  match err with
  | Some e => ret (Err (wrap "failed to get deployment logs" e))
  | None =>
      if (limit <? 0)%Z
      then ret (Err (wrap "failed to get deployment logs"
                          (str "pq: LIMIT must not be negative")))
      else
        let* rows := gets deployment_logs in
        ret (Ok (take (Z.to_nat limit)
                   (orderBy (fun x y => (DeploymentLog.CreatedAt x <=? DeploymentLog.CreatedAt y)%Z)
                      (List.filter (fun l => DeploymentLog.DeploymentID l =? deploymentID) rows))))
  end.

Definition CreateDeploymentStep (step : DeploymentStep.t) : M (option gostring) :=
  let* err := ask (db_error E) in
  match err with
  | Some e => ret (Some (wrap "failed to create deployment step" e))
  | None => modify (set_deployment_steps (fun rows => rows ++ [step])) >> ret None
  end.

(** UPDATE ... SET status, started_at, completed_at, duration_ms,
    error_message WHERE id = $1. *)
Definition updated_step (step row : DeploymentStep.t) : DeploymentStep.t :=
  DeploymentStep.mk (DeploymentStep.ID row) (DeploymentStep.DeploymentID row)
    (DeploymentStep.StepName row) (DeploymentStep.Status step)
    (DeploymentStep.StartedAt step) (DeploymentStep.CompletedAt step)
    (DeploymentStep.DurationMs step) (DeploymentStep.ErrorMessage step)
    (DeploymentStep.StepOrder row).

Definition UpdateDeploymentStep (step : DeploymentStep.t) : M (option gostring) :=
  let* err := ask (db_error E) in
  match err with
  | Some e => ret (Some (wrap "failed to update deployment step" e))
  | None =>
      modify (set_deployment_steps (List.map (fun row =>
        if DeploymentStep.ID row =? DeploymentStep.ID step
        then updated_step step row else row)))
      >> ret None
  end.

Definition GetDeploymentSteps (deploymentID : uuid.UUID)
    : M (result (list DeploymentStep.t)) :=
  let* err := ask (db_error E) in
  match err with
  | Some e => ret (Err (wrap "failed to get deployment steps" e))
  | None =>
      let* rows := gets deployment_steps in
      ret (Ok (orderBy (fun x y => (DeploymentStep.StepOrder x <=? DeploymentStep.StepOrder y)%Z)
                 (List.filter (fun s => DeploymentStep.DeploymentID s =? deploymentID) rows)))
  end.

Definition GetDeploymentsByUserID (userID : uuid.UUID) (limit offset : Z)
    : M (result (list Deployment.t)) :=
  let* err := ask (db_error E) in
  match err with
  | Some e => ret (Err (wrap "failed to get deployments by user" e))
  | None =>
      if ((limit <? 0) || (offset <? 0))%Z
      then ret (Err (wrap "failed to get deployments by user"
                          (str "pq: LIMIT and OFFSET must not be negative")))
      else
        let* rows := gets deployments in
        let* err := ask (db_error E) in
        match err with
        | Some e => ret (Err (wrap "error iterating deployments" e))
        | None =>
            ret (Ok (take (Z.to_nat limit) (drop (Z.to_nat offset)
                       (orderBy (fun x y => (Deployment.CreatedAt y <=? Deployment.CreatedAt x)%Z)
                          (List.filter (fun d => bool_decide (Deployment.UserID d = Some userID))
                             rows)))))
        end
  end.

End Repository.
End database.

(* ===================================================================== *)
(** * internal/services                                                   *)
(* ===================================================================== *)

Module services.
Section Services.
Variable E : Env.

(** ** queue.go *)

Definition EnqueueDeploymentJob (deploymentID : uuid.UUID)
    (deploymentData : gmap gostring JVal) : M (option gostring) :=
  let* id := ask (rand E) in
  let* now := ask (clock E) in
  let job := Job.mk id Job.JobStatusPending deploymentData now None None None
                    deploymentID in
  let* err := ask (redis_error E) in       (* LPUSH *)
  match err with
  | Some e => ret (Some (wrap "failed to enqueue job" e))
  | None =>
      modify (set_queue (fun q => job :: q)) >>
      let* err := ask (redis_error E) in   (* SET, failure only logged *)
      match err with
      | Some _ => ret None
      | None => modify (set_job_records (insert id job)) >> ret None
      end
  end.

Definition started (now : time) (job : Job.t) : Job.t :=
  Job.mk (Job.ID job) Job.JobStatusRunning (Job.Data job) (Job.CreatedAt job)
         (Some now) (Job.CompletedAt job) (Job.ErrorMessage job)
         (Job.DeploymentID job).

(** BRPOP takes the job at the right end; [Ok None] is the timeout on an
    empty queue. *)
Definition DequeueJob : M (result (option Job.t)) :=
  let* err := ask (redis_error E) in
  match err with
  | Some e => ret (Err (wrap "failed to dequeue job" e))
  | None =>
      let* q := gets queue in
      match last q with
      | None => ret (Ok None)
      | Some job0 =>
          modify (set_queue (fun q => removelast q)) >>
          let* now := ask (clock E) in
          let job := started now job0 in
          let* err := ask (redis_error E) in   (* SET, result ignored *)
          match err with
          | Some _ => ret (Ok (Some job))
          | None =>
              modify (set_job_records (insert (Job.ID job) job))
              >> ret (Ok (Some job))
          end
      end
  end.

Definition UpdateJobStatus (jobID : uuid.UUID) (status : Job.JobStatus)
    (errorMessage : option gostring) : M (option gostring) :=
  let* err := ask (redis_error E) in       (* GET *)
  match err with
  | Some e => ret (Some (wrap "failed to get job" e))
  | None =>
      let* records := gets job_records in
      match records !! jobID with
      | None => ret (Some (wrap "failed to get job" (str "redis: nil")))
      | Some job0 =>
          let* completed :=
            if bool_decide (status = Job.JobStatusCompleted)
               || bool_decide (status = Job.JobStatusFailed)
            then let* now := ask (clock E) in ret (Some now)
            else ret (Job.CompletedAt job0) in
          let job := Job.mk (Job.ID job0) status (Job.Data job0) (Job.CreatedAt job0)
                       (Job.StartedAt job0) completed errorMessage
                       (Job.DeploymentID job0) in
          let* err := ask (redis_error E) in   (* SET *)
          match err with
          | Some e => ret (Some (wrap "failed to update job" e))
          | None => modify (set_job_records (insert jobID job)) >> ret None
          end
      end
  end.

Definition GetJob (jobID : uuid.UUID) : M (result Job.t) :=
  let* err := ask (redis_error E) in       (* GET *)
  match err with
  | Some e => ret (Err (wrap "failed to get job" e))
  | None =>
      let* records := gets job_records in
      match records !! jobID with
      | None => ret (Err (str "job not found"))
      | Some job => ret (Ok job)
      end
  end.

Definition GetQueueLength : M (result Z) :=
  let* err := ask (redis_error E) in       (* LLEN *)
  match err with
  | Some e => ret (Err (wrap "failed to get queue length" e))
  | None =>
      let* q := gets queue in
      ret (Ok (Z.of_nat (length q)))
  end.

(** ** deployment.go *)

(** [sanitizeContainerName]: the loop keeps [a-z0-9-] and writes a hyphen
    for every other rune; then hyphens are trimmed at both ends only. *)
Definition sanitizeRune (r : rune) : rune :=
  if ((97 <=? r) && (r <=? 122)) || ((48 <=? r) && (r <=? 57)) || (r =? 45)
  then r else 45.

Definition sanitizeContainerName (name : gostring) : gostring :=
  let result := List.map sanitizeRune (strings.ToLower name) in
  let sanitized := strings.Trim result (str "-") in
  let sanitized := match sanitized with [] => str "app" | _ => sanitized end in
  if (50 <? length sanitized)%nat then take 50 sanitized else sanitized.

Definition nonEmpty (s : option gostring) : option gostring :=
  match s with
  | Some (c :: s') => Some (c :: s')
  | _ => None
  end.

Definition generateContainerName (deploymentID : uuid.UUID)
    (containerName projectName deploymentName : option gostring) : gostring :=
  match nonEmpty containerName with
  | Some name => name
  | None =>
      match nonEmpty projectName, nonEmpty deploymentName with
      | Some p, Some d =>
          let project := sanitizeContainerName p in
          let deployment := sanitizeContainerName d in
          str "deployknot-" ++ project ++ str "-" ++ deployment
      | _, _ => str "deployknot-" ++ uuid.String deploymentID
      end
  end.

Definition initialSteps : list (string * Z) :=
  [ ("validate_credentials", 1%Z);
    ("git_clone", 2%Z);
    ("docker_build", 3%Z);
    ("docker_run", 4%Z);
    ("health_check", 5%Z) ].

(** The loop of [createInitialSteps]; it returns at the first failure. *)
Fixpoint createSteps (deploymentID : uuid.UUID) (steps : list (string * Z))
    : M (option gostring) :=
  match steps with
  | [] => ret None
  | (name, order) :: rest =>
      let* id := ask (rand E) in
      let step := DeploymentStep.mk id deploymentID (str name)
                    DeploymentStatusPending None None None None order in
      let* err := database.CreateDeploymentStep E step in
      match err with
      | Some e => ret (Some (str "failed to create step " ++ str name ++ str ": " ++ e))
      | None => createSteps deploymentID rest
      end
  end.

Definition createInitialSteps (deploymentID : uuid.UUID) : M (option gostring) :=
  createSteps deploymentID initialSteps.

Definition jsonOfString (s : option gostring) : JVal :=
  match s with Some v => JString v | None => JNull end.

Definition jsonOfVars (v : option JVal) : JVal :=
  match v with Some j => j | None => JNull end.

Definition deploymentData (req : CreateDeploymentRequest.t) (port : Z)
    (containerName : gostring) : gmap gostring JVal :=
  <[ str "target_ip" := JString (CreateDeploymentRequest.TargetIP req) ]>
  (<[ str "ssh_username" := JString (CreateDeploymentRequest.SSHUsername req) ]>
  (<[ str "ssh_password" := JString (CreateDeploymentRequest.SSHPassword req) ]>
  (<[ str "github_repo_url" := JString (CreateDeploymentRequest.GitHubRepoURL req) ]>
  (<[ str "github_pat" := JString (CreateDeploymentRequest.GitHubPAT req) ]>
  (<[ str "github_branch" := JString (CreateDeploymentRequest.GitHubBranch req) ]>
  (<[ str "port" := JNumber port ]>
  (<[ str "container_name" := JString containerName ]>
  (<[ str "project_name" := jsonOfString (CreateDeploymentRequest.ProjectName req) ]>
  (<[ str "deployment_name" := jsonOfString (CreateDeploymentRequest.DeploymentName req) ]>
  (<[ str "additional_vars" := jsonOfVars (CreateDeploymentRequest.AdditionalVars req) ]>
   ∅)))))))))).

Definition newDeployment (req : CreateDeploymentRequest.t) (deploymentID : uuid.UUID)
    (now : time) (port : Z) (containerName : gostring)
    (userID : option uuid.UUID) : Deployment.t :=
  Deployment.mk deploymentID now now DeploymentStatusPending
    (CreateDeploymentRequest.TargetIP req)
    (CreateDeploymentRequest.SSHUsername req)
    (Some (CreateDeploymentRequest.SSHPassword req))
    (CreateDeploymentRequest.GitHubRepoURL req)
    (Some (CreateDeploymentRequest.GitHubPAT req))
    (CreateDeploymentRequest.GitHubBranch req)
    None
    (CreateDeploymentRequest.AdditionalVars req)
    port (Some containerName) None None None None
    (CreateDeploymentRequest.ProjectName req)
    (CreateDeploymentRequest.DeploymentName req)
    userID.

Definition createdResponse (req : CreateDeploymentRequest.t) (deploymentID : uuid.UUID)
    (now : time) (port : Z) (containerName : gostring) : DeploymentResponse.t :=
  DeploymentResponse.mk deploymentID DeploymentStatusPending
    (CreateDeploymentRequest.TargetIP req)
    (CreateDeploymentRequest.GitHubRepoURL req)
    (CreateDeploymentRequest.GitHubBranch req)
    port (Some containerName) now None None None
    (CreateDeploymentRequest.ProjectName req)
    (CreateDeploymentRequest.DeploymentName req).

Definition CreateDeployment (req : CreateDeploymentRequest.t)
    : M (result DeploymentResponse.t) :=
  match CreateDeploymentRequest.GetPortAsInt req with
  | Err e => ret (Err (wrap "invalid port" e))
  | Ok port =>
      let* deploymentID := ask (rand E) in
      let* now := ask (clock E) in
      let containerName :=
        generateContainerName deploymentID
          (CreateDeploymentRequest.ContainerName req)
          (CreateDeploymentRequest.ProjectName req)
          (CreateDeploymentRequest.DeploymentName req) in
      let deployment := newDeployment req deploymentID now port containerName None in
      let* err := database.CreateDeployment E deployment in
      match err with
      | Some e => ret (Err (wrap "failed to create deployment" e))
      | None =>
          (* a failure is only logged *)
          let* _err := createInitialSteps deploymentID in
          let data := deploymentData req port containerName in
          (* a failure is only logged *)
          let* _err := EnqueueDeploymentJob deploymentID data in
          ret (Ok (createdResponse req deploymentID now port containerName))
      end
  end.

Definition CreateDeploymentWithEnvFile (req : CreateDeploymentRequest.t)
    (envFilePath : gostring) (userID : uuid.UUID)
    : M (result DeploymentResponse.t) :=
  match CreateDeploymentRequest.GetPortAsInt req with
  | Err e => ret (Err (wrap "invalid port" e))
  | Ok port =>
      let* deploymentID := ask (rand E) in
      let* now := ask (clock E) in
      let containerName :=
        generateContainerName deploymentID
          (CreateDeploymentRequest.ContainerName req)
          (CreateDeploymentRequest.ProjectName req)
          (CreateDeploymentRequest.DeploymentName req) in
      let deployment :=
        newDeployment req deploymentID now port containerName (Some userID) in
      let* err := database.CreateDeployment E deployment in
      match err with
      | Some e => ret (Err (wrap "failed to create deployment" e))
      | None =>
          (* a failure is only logged *)
          let* _err := createInitialSteps deploymentID in
          let data := deploymentData req port containerName in
          let data :=
            match envFilePath with
            | [] => data
            | _ => <[ str "env_file_path" := JString envFilePath ]> data
            end in
          (* a failure is only logged *)
          let* _err := EnqueueDeploymentJob deploymentID data in
          ret (Ok (createdResponse req deploymentID now port containerName))
      end
  end.

Definition ValidateDeploymentRequest (req : CreateDeploymentRequest.t)
    : option gostring :=
  if bool_decide (CreateDeploymentRequest.TargetIP req = [])
  then Some (str "target_ip is required")
  else if bool_decide (CreateDeploymentRequest.SSHUsername req = [])
  then Some (str "ssh_username is required")
  else if bool_decide (CreateDeploymentRequest.SSHPassword req = [])
  then Some (str "ssh_password is required")
  else if bool_decide (CreateDeploymentRequest.GitHubRepoURL req = [])
  then Some (str "github_repo_url is required")
  else if bool_decide (CreateDeploymentRequest.GitHubPAT req = [])
  then Some (str "github_pat is required")
  else if bool_decide (CreateDeploymentRequest.GitHubBranch req = [])
  then Some (str "github_branch is required")
  else match CreateDeploymentRequest.GetPortAsInt req with
       | Err e => Some (wrap "port validation failed" e)
       | Ok _ => None
       end.

Definition toResponse (deployment : Deployment.t) : DeploymentResponse.t :=
  DeploymentResponse.mk (Deployment.ID deployment) (Deployment.Status deployment)
    (Deployment.TargetIP deployment) (Deployment.GitHubRepoURL deployment)
    (Deployment.GitHubBranch deployment) (Deployment.Port deployment)
    (Deployment.ContainerName deployment) (Deployment.CreatedAt deployment)
    (Deployment.StartedAt deployment) (Deployment.CompletedAt deployment)
    (Deployment.ErrorMessage deployment) (Deployment.ProjectName deployment)
    (Deployment.DeploymentName deployment).

Definition GetDeployment (id : uuid.UUID) : M (result DeploymentResponse.t) :=
  let* r := database.GetDeployment E id in
  match r with
  | Err e => ret (Err (wrap "failed to get deployment" e))
  | Ok deployment => ret (Ok (toResponse deployment))
  end.

Definition GetDeploymentLogs (deploymentID : uuid.UUID) (limit : Z)
    : M (result (list DeploymentLog.t)) :=
  let* r := database.GetDeploymentLogs E deploymentID limit in
  match r with
  | Err e => ret (Err (wrap "failed to get deployment logs" e))
  | Ok logs => ret (Ok logs)
  end.

Definition GetDeploymentSteps (deploymentID : uuid.UUID)
    : M (result (list DeploymentStep.t)) :=
  let* r := database.GetDeploymentSteps E deploymentID in
  match r with
  | Err e => ret (Err (wrap "failed to get deployment steps" e))
  | Ok steps => ret (Ok steps)
  end.

Definition UpdateDeploymentStatus (deploymentID : uuid.UUID)
    (status : DeploymentStatus) (errorMessage : option gostring)
    : M (option gostring) :=
  let* err := database.UpdateDeploymentStatus E deploymentID status errorMessage in
  match err with
  | Some e => ret (Some (wrap "failed to update deployment status" e))
  | None => ret None
  end.

Definition AddDeploymentLog (deploymentID : uuid.UUID)
    (level message taskName : gostring) (stepOrder : option Z)
    : M (option gostring) :=
  let* id := ask (rand E) in
  let* now := ask (clock E) in
  let log := DeploymentLog.mk id deploymentID now level message
               (Some taskName) stepOrder in
  let* err := database.CreateDeploymentLog E log in
  match err with
  | Some e => ret (Some (wrap "failed to create deployment log" e))
  | None => ret None
  end.

Definition UpdateDeploymentStep (step : DeploymentStep.t) : M (option gostring) :=
  let* err := database.UpdateDeploymentStep E step in
  match err with
  | Some e => ret (Some (wrap "failed to update deployment step" e))
  | None => ret None
  end.

Definition GetDeploymentsByUser (userID : uuid.UUID) (limit offset : Z)
    : M (result (list DeploymentResponse.t)) :=
  let* r := database.GetDeploymentsByUserID E userID limit offset in
  match r with
  | Err e => ret (Err (wrap "failed to get deployments by user" e))
  | Ok deployments => ret (Ok (List.map toResponse deployments))
  end.

End Services.
End services.

(* ===================================================================== *)
(** * internal/handlers                                                   *)
(* ===================================================================== *)

(** Library functions that are used but not owned by the repository. *)
Record GoLib := mkGoLib {
  uuid_Parse : gostring -> option uuid.UUID;          (* uuid.Parse *)
  url_Parse : gostring -> option (gostring * gostring);
                                  (* url.Parse: Some (u.Host, u.Path) *)
  Sscanf_d : gostring -> option Z;                    (* fmt.Sscanf(s, "%d", &i) *)
  Sprintf_v : Z -> gostring;
                    (* fmt.Sprintf("%v", f) for the float64 f with this value *)
}.

(** What the API process does on its own host when a file is uploaded. *)
Record HostFS := mkHostFS {
  MkdirAll_error : nat -> option gostring;          (* os.MkdirAll *)
  SaveUploadedFile_error : nat -> option gostring;  (* c.SaveUploadedFile *)
  filepath_Join : gostring -> gostring -> gostring; (* filepath.Join *)
}.

Module middleware.

(** [extractToken] on the value of the Authorization header ([] when the
    header is absent). *)
Definition extractToken (authHeader : gostring) : gostring :=
  if bool_decide (authHeader = []) then []
  else if negb (strings.HasPrefix authHeader (str "Bearer ")) then []
  else strings.TrimPrefix authHeader (str "Bearer ").

End middleware.

Module handlers.

(** JSON bodies: [ErrorBody e m] is gin.H{"error": e, "message": m}. *)
Inductive Body :=
| ErrorBody (error message : gostring)
| DeploymentBody (deployment : DeploymentResponse.t)
| DeploymentsBody (deployments : list DeploymentResponse.t) (limit offset count : Z)
| LogsBody (deployment_id : uuid.UUID) (logs : list DeploymentLog.t)
| StepsBody (deployment_id : uuid.UUID) (steps : list DeploymentStep.t).

Record Response := mkResponse { code : Z; body : Body }.

Definition StatusOK : Z := 200.
Definition StatusCreated : Z := 201.
Definition StatusBadRequest : Z := 400.
Definition StatusUnauthorized : Z := 401.
Definition StatusNotFound : Z := 404.
Definition StatusInternalServerError : Z := 500.

(** Server-sent events of the log stream. *)
Inductive Event :=
| connected (deployment_id : gostring) (timestamp : time)
| log (row : DeploymentLog.t)
| heartbeat (timestamp : time).

Section Handlers.
Variable E : Env.
Variable L : GoLib.

(** GET /api/v1/deployments/:id *)
Definition GetDeployment (idStr : gostring) : M Response :=
  match uuid_Parse L idStr with
  | None =>
      ret (mkResponse StatusBadRequest
             (ErrorBody (str "Invalid deployment ID")
                        (str "Deployment ID must be a valid UUID")))
  | Some id =>
      let* r := services.GetDeployment E id in
      match r with
      | Err e =>
          if bool_decide (e = str "deployment not found")
          then ret (mkResponse StatusNotFound
                      (ErrorBody (str "Deployment not found")
                                 (str "The specified deployment does not exist")))
          else ret (mkResponse StatusInternalServerError
                      (ErrorBody (str "Failed to get deployment") e))
      | Ok deployment => ret (mkResponse StatusOK (DeploymentBody deployment))
      end
  end.

(** GET /api/v1/deployments; [user] is the user id found in the request
    context, [limitStr] and [offsetStr] the query parameters. *)
Definition GetDeployments (user : option uuid.UUID) (limitStr offsetStr : gostring)
    : M Response :=
  match user with
  | None =>
      ret (mkResponse StatusUnauthorized
             (ErrorBody (str "Unauthorized") (str "User not found in context")))
  | Some userID =>
      let limit :=
        match limitStr with
        | [] => 50%Z
        | _ => match strconv.Atoi limitStr with
               | Some l => if (0 <? l)%Z then l else 50%Z
               | None => 50%Z
               end
        end in
      let offset :=
        match offsetStr with
        | [] => 0%Z
        | _ => match strconv.Atoi offsetStr with
               | Some o => if (0 <=? o)%Z then o else 0%Z
               | None => 0%Z
               end
        end in
      let* r := services.GetDeploymentsByUser E userID limit offset in
      match r with
      | Err e =>
          ret (mkResponse StatusInternalServerError
                 (ErrorBody (str "Failed to get deployments") e))
      | Ok deployments =>
          ret (mkResponse StatusOK
                 (DeploymentsBody deployments limit offset
                    (Z.of_nat (length deployments))))
      end
  end.

(** [log.ID.String() > lastLogID.String()] *)
Definition newer (row : DeploymentLog.t) (lastLogID : uuid.UUID) : bool :=
  strings.ltb (uuid.String lastLogID) (uuid.String (DeploymentLog.ID row)).

(** The loop over the initial logs: every row is sent, the cursor keeps
    the greatest id seen. *)
Fixpoint sendInitial (logs : list DeploymentLog.t) (lastLogID : uuid.UUID)
    : list Event * uuid.UUID :=
  match logs with
  | [] => ([], lastLogID)
  | row :: rest =>
      let lastLogID' := if newer row lastLogID then DeploymentLog.ID row else lastLogID in
      let (events, final) := sendInitial rest lastLogID' in
      (log row :: events, final)
  end.

(** The loop over the rows of one poll. *)
Fixpoint sendNew (newLogs : list DeploymentLog.t) (lastLogID : uuid.UUID)
    : list Event * uuid.UUID :=
  match newLogs with
  | [] => ([], lastLogID)
  | row :: rest =>
      if newer row lastLogID
      then let (events, final) := sendNew rest (DeploymentLog.ID row) in
           (log row :: events, final)
      else sendNew rest lastLogID
  end.

(** [streamDeploymentLogs] up to the first tick of the ticker. *)
Definition streamAttach (deploymentID : uuid.UUID) : M (list Event * uuid.UUID) :=
  let* now := ask (clock E) in
  let hello := connected (uuid.String deploymentID) now in
  let* r := services.GetDeploymentLogs E deploymentID 50 in
  match r with
  | Err _ => ret ([hello], uuid.Nil)
  | Ok logs =>
      let (events, lastLogID) := sendInitial logs uuid.Nil in
      ret (hello :: events, lastLogID)
  end.

(** One tick of the ticker. *)
Definition streamTick (deploymentID lastLogID : uuid.UUID)
    : M (list Event * uuid.UUID) :=
  let* r := services.GetDeploymentLogs E deploymentID 100 in
  let (events, lastLogID') :=
    match r with
    | Err _ => ([], lastLogID)
    | Ok newLogs => sendNew newLogs lastLogID
    end in
  let* now := ask (clock E) in
  ret (events ++ [heartbeat now], lastLogID').

(** What happens while an observer is attached: the ticker fires, or
    another process appends a row to the log table.  The observer
    disconnects at the end of the schedule. *)
Inductive Action :=
| Tick
| Append (row : DeploymentLog.t).

Fixpoint streamLoop (deploymentID : uuid.UUID) (schedule : list Action)
    (lastLogID : uuid.UUID) : M (list Event * uuid.UUID) :=
  match schedule with
  | [] => ret ([], lastLogID)
  | Tick :: rest =>
      let* r := streamTick deploymentID lastLogID in
      let* r' := streamLoop deploymentID rest (snd r) in
      ret (fst r ++ fst r', snd r')
  | Append row :: rest =>
      modify (set_deployment_logs (fun rows => rows ++ [row])) >>
      streamLoop deploymentID rest lastLogID
  end.

Definition streamDeploymentLogs (deploymentID : uuid.UUID) (schedule : list Action)
    : M (list Event) :=
  let* r := streamAttach deploymentID in
  let* r' := streamLoop deploymentID schedule (snd r) in
  ret (fst r ++ fst r').

(** GET /api/v1/deployments/:id/logs; [accept] is the Accept header,
    [limitQuery] the query parameter limit when the request has one, and
    [schedule] what happens while a stream is open.  The answer is a JSON
    response or the events of a stream. *)
Definition GetDeploymentLogs (idStr accept : gostring) (limitQuery : option gostring)
    (schedule : list Action) : M (Response + list Event) :=
  match uuid_Parse L idStr with
  | None =>
      ret (inl (mkResponse StatusBadRequest
                  (ErrorBody (str "Invalid deployment ID")
                             (str "Deployment ID must be a valid UUID"))))
  | Some id =>
      if bool_decide (accept = str "text/event-stream")
      then let* events := streamDeploymentLogs id schedule in ret (inr events)
      else
        let limitStr := match limitQuery with Some s => s | None => str "100" end in
        let limit := match strconv.Atoi limitStr with Some l => l | None => 100%Z end in
        let* r := services.GetDeploymentLogs E id limit in
        match r with
        | Err e =>
            ret (inl (mkResponse StatusInternalServerError
                        (ErrorBody (str "Failed to get deployment logs") e)))
        | Ok logs => ret (inl (mkResponse StatusOK (LogsBody id logs)))
        end
  end.

(** GET /api/v1/deployments/:id/steps *)
Definition GetDeploymentSteps (idStr : gostring) : M Response :=
  match uuid_Parse L idStr with
  | None =>
      ret (mkResponse StatusBadRequest
             (ErrorBody (str "Invalid deployment ID")
                        (str "Deployment ID must be a valid UUID")))
  | Some id =>
      let* r := services.GetDeploymentSteps E id in
      match r with
      | Err e =>
          ret (mkResponse StatusInternalServerError
                 (ErrorBody (str "Failed to get deployment steps") e))
      | Ok steps => ret (mkResponse StatusOK (StepsBody id steps))
      end
  end.

(** POST /api/v1/deployments; [user] is the user id found in the request
    context, [bound] the outcome of [c.ShouldBind], [upload] the file name
    of the form file env_file when the request carries one. *)
Definition CreateDeployment (F : HostFS) (user : option uuid.UUID)
    (bound : result CreateDeploymentRequest.t) (upload : option gostring)
    : M Response :=
  match user with
  | None =>
      ret (mkResponse StatusUnauthorized
             (ErrorBody (str "Unauthorized") (str "User not found in context")))
  | Some userID =>
      match bound with
      | Err e => ret (mkResponse StatusBadRequest (ErrorBody (str "Invalid request") e))
      | Ok req =>
          match CreateDeploymentRequest.Validate req with
          | Some e =>
              ret (mkResponse StatusBadRequest (ErrorBody (str "Validation failed") e))
          | None =>
              let* saved :=
                match upload with
                | None => ret (Ok [])
                | Some filename =>
                    let tempDir := str "temp_env_files" in
                    let* err := ask (MkdirAll_error F) in
                    match err with
                    | Some _ =>
                        ret (Err (str "Failed to process environment file"))
                    | None =>
                        let* id := ask (rand E) in
                        let envFilePath :=
                          filepath_Join F tempDir
                            (uuid.String id ++ str "_" ++ filename) in
                        let* err := ask (SaveUploadedFile_error F) in
                        match err with
                        | Some _ => ret (Err (str "Failed to save environment file"))
                        | None => ret (Ok envFilePath)
                        end
                    end
                end in
              match saved with
              | Err message =>
                  ret (mkResponse StatusInternalServerError
                         (ErrorBody (str "Internal server error") message))
              | Ok envFilePath =>
                  let* r :=
                    services.CreateDeploymentWithEnvFile E req envFilePath userID in
                  match r with
                  | Err e =>
                      ret (mkResponse StatusInternalServerError
                             (ErrorBody (str "Failed to create deployment") e))
                  | Ok deployment =>
                      ret (mkResponse StatusCreated (DeploymentBody deployment))
                  end
              end
          end
      end
  end.

End Handlers.
End handlers.

(* ===================================================================== *)
(** * cmd/worker                                                          *)
(* ===================================================================== *)

Module worker.
Section Worker.
Variable E : Env.
Variable L : GoLib.

(** The job data has been through JSON: a value is a string, a number
    (float64, printed by the library's [%v], which turns to the exponent
    form from 1e+06 on), null, or something else that [%v] prints. *)
Definition getStringFromMap (m : gmap gostring JVal) (key : gostring) : gostring :=
  match m !! key with
  | Some (JString val) => val
  | Some (JNumber val) => Sprintf_v L val
  | Some JNull => []
  | Some (JOther rendering) => rendering
  | None => []
  end.

(** [int(val)] for a float64: the value when an int (64 bits) can hold it;
    beyond that the result depends on the platform, and amd64 gives the
    least int. *)
Definition intOfFloat (val : Z) : Z :=
  if ((- 9223372036854775808 <=? val) && (val <=? 9223372036854775807))%Z
  then val else (- 9223372036854775808)%Z.

Definition getIntFromMap (m : gmap gostring JVal) (key : gostring) : Z :=
  match m !! key with
  | Some (JNumber val) => intOfFloat val
  | Some (JString val) =>
      match Sscanf_d L val with
      | Some i => i
      | None => 0%Z
      end
  | _ => 0%Z
  end.

Definition normalizeRepoURL (raw : gostring) : gostring :=
  let raw :=
    match url_Parse L raw with
    | Some (host, path) =>
        match host with
        | [] => raw
        | _ => strings.TrimPrefix path (str "/")
        end
    | None => raw
    end in
  let raw := strings.TrimPrefix raw (str "/") in
  strings.TrimSuffix raw (str ".git").

(** [w.deploymentService.AddDeploymentLog(...)], result dropped. *)
Definition addLog (deploymentID : uuid.UUID) (level message taskName : string)
    (stepOrder : option Z) : M unit :=
  services.AddDeploymentLog E deploymentID (str level) (str message)
    (str taskName) stepOrder >> ret tt.

Definition addLogf (deploymentID : uuid.UUID) (level : string) (message : gostring)
    (taskName : string) (stepOrder : option Z) : M unit :=
  services.AddDeploymentLog E deploymentID (str level) message
    (str taskName) stepOrder >> ret tt.

Definition NewSession : M (option gostring) := ask (ssh_session_error E).

Definition CombinedOutput (cmd : gostring) : M (gostring * option gostring) :=
  ask (fun n => ssh_output E n cmd).

(** The assignments that [updateDeploymentStep] makes to the step it found:
    the status and the error message always, [StartedAt] when the new status
    is running, [CompletedAt] and (for a step that has started) the duration
    when it is completed or failed. *)
Definition transition (targetStep : DeploymentStep.t) (status : DeploymentStatus)
    (errorMessage : option gostring) (now : time) : DeploymentStep.t :=
  if bool_decide (status = DeploymentStatusRunning) then
    DeploymentStep.mk (DeploymentStep.ID targetStep)
      (DeploymentStep.DeploymentID targetStep) (DeploymentStep.StepName targetStep)
      status (Some now) (DeploymentStep.CompletedAt targetStep)
      (DeploymentStep.DurationMs targetStep) errorMessage
      (DeploymentStep.StepOrder targetStep)
  else if bool_decide (status = DeploymentStatusCompleted)
          || bool_decide (status = DeploymentStatusFailed) then
    DeploymentStep.mk (DeploymentStep.ID targetStep)
      (DeploymentStep.DeploymentID targetStep) (DeploymentStep.StepName targetStep)
      status (DeploymentStep.StartedAt targetStep) (Some now)
      (match DeploymentStep.StartedAt targetStep with
       | Some started => Some (sub_ms now started)
       | None => DeploymentStep.DurationMs targetStep
       end)
      errorMessage (DeploymentStep.StepOrder targetStep)
  else
    DeploymentStep.mk (DeploymentStep.ID targetStep)
      (DeploymentStep.DeploymentID targetStep) (DeploymentStep.StepName targetStep)
      status (DeploymentStep.StartedAt targetStep)
      (DeploymentStep.CompletedAt targetStep)
      (DeploymentStep.DurationMs targetStep) errorMessage
      (DeploymentStep.StepOrder targetStep).

Definition findStep (steps : list DeploymentStep.t) (stepOrder : Z)
    : option DeploymentStep.t :=
  List.find (fun step => (DeploymentStep.StepOrder step =? stepOrder)%Z) steps.

Definition updateDeploymentStep (deploymentID : uuid.UUID) (stepOrder : Z)
    (status : DeploymentStatus) (errorMessage : option gostring)
    : M (option gostring) :=
  let* r := services.GetDeploymentSteps E deploymentID in
  match r with
  | Err e => ret (Some e)
  | Ok steps =>
      match findStep steps stepOrder with
      | None => ret (Some (str "step not found"))
      | Some targetStep =>
          let* now := ask (clock E) in
          services.UpdateDeploymentStep E
            (transition targetStep status errorMessage now)
      end
  end.

Definition markStepAsFailed (stepOrder : Z) (deploymentID : uuid.UUID)
    (errorMsg : gostring) : M (option gostring) :=
  let* r := services.GetDeploymentSteps E deploymentID in
  let steps := match r with Ok steps => steps | Err _ => [] end in
  match findStep steps stepOrder with
  | None => ret (Some (str "step not found"))
  | Some targetStep =>
      let* now := ask (clock E) in
      let durationMs :=
        match DeploymentStep.StartedAt targetStep with
        | Some started => Some (sub_ms now started)
        | None => DeploymentStep.DurationMs targetStep
        end in
      services.UpdateDeploymentStep E
        (DeploymentStep.mk (DeploymentStep.ID targetStep)
           (DeploymentStep.DeploymentID targetStep)
           (DeploymentStep.StepName targetStep)
           DeploymentStatusFailed (DeploymentStep.StartedAt targetStep)
           (Some now) durationMs (Some errorMsg)
           (DeploymentStep.StepOrder targetStep))
  end.

(** The condition of the loop in [markRemainingStepsAsFailed]; in Go [&&]
    binds tighter than [||]. *)
Definition abandoned (failedStepOrder : Z) (step : DeploymentStep.t) : bool :=
  ((failedStepOrder <? DeploymentStep.StepOrder step)%Z
   && bool_decide (DeploymentStep.Status step = DeploymentStatusPending))
  || bool_decide (DeploymentStep.Status step = DeploymentStatusRunning).

Definition abandonReason (failedStepOrder : Z) : gostring :=
  str "Step abandoned due to failure in step " ++ strconv.Itoa failedStepOrder.

Definition markRemainingStepsAsFailed (deploymentID : uuid.UUID)
    (failedStepOrder : Z) : M unit :=
  let* r := services.GetDeploymentSteps E deploymentID in
  match r with
  | Err _ => ret tt
  | Ok steps =>
      forEach steps (fun step =>
        if abandoned failedStepOrder step
        then updateDeploymentStep deploymentID (DeploymentStep.StepOrder step)
               DeploymentStatusFailed (Some (abandonReason failedStepOrder))
             >> ret tt
        else ret tt)
  end.

Definition markAllStepsAsFailed (deploymentID : uuid.UUID) (errorMsg : gostring)
    : M unit :=
  let* r := services.GetDeploymentSteps E deploymentID in
  match r with
  | Err _ => ret tt
  | Ok steps =>
      forEach steps (fun step =>
        if negb (bool_decide (DeploymentStep.Status step = DeploymentStatusCompleted))
           && negb (bool_decide (DeploymentStep.Status step = DeploymentStatusFailed))
        then updateDeploymentStep deploymentID (DeploymentStep.StepOrder step)
               DeploymentStatusFailed (Some errorMsg)
             >> ret tt
        else ret tt)
  end.

Definition connectSSH (host username password : gostring) : M (option gostring) :=
  let* err := ask (ssh_dial_error E) in
  match err with
  | Some e => ret (Some (wrap "failed to dial SSH" e))
  | None => ret None
  end.

Definition failStep (deploymentID : uuid.UUID) (stepOrder : Z) (errorMsg : gostring)
    : M unit :=
  updateDeploymentStep deploymentID stepOrder DeploymentStatusFailed (Some errorMsg)
  >> ret tt.

Definition generatedName (deploymentID : uuid.UUID) : gostring :=
  str "deployknot-" ++ uuid.String deploymentID.

(** Step 1 *)
Definition cloneRepository (deploymentID : uuid.UUID) (repoURL pat branch : gostring)
    : M (option gostring) :=
  updateDeploymentStep deploymentID 1 DeploymentStatusRunning None >>
  addLog deploymentID "info" "Starting repository clone" "git_clone" (Some 1%Z) >>
  let* serr := NewSession in
  match serr with
  | Some e =>
      failStep deploymentID 1 (str "Failed to create SSH session for cleanup") >>
      ret (Some (wrap "failed to create SSH session for cleanup" e))
  | None =>
      let* cleanup := CombinedOutput (str "rm -rf /tmp/deployknot-app") in
      match snd cleanup with
      | Some e =>
          addLogf deploymentID "warn"
            (str "Cleanup warning: " ++ e ++ str ", output: " ++ fst cleanup)
            "git_cleanup" (Some 1%Z)
      | None =>
          addLog deploymentID "info" "Existing directory cleaned up"
            "git_cleanup" (Some 1%Z)
      end >>
      let* serr := NewSession in
      match serr with
      | Some e =>
          failStep deploymentID 1 (str "Failed to create SSH session for cloning") >>
          ret (Some (wrap "failed to create SSH session" e))
      | None =>
          let normalized := normalizeRepoURL repoURL in
          let cloneCmd :=
            str "git clone https://" ++ pat ++ str "@github.com/" ++ normalized
              ++ str ".git /tmp/deployknot-app" in
          let cloneCmd :=
            if bool_decide (branch = str "main") then cloneCmd
            else cloneCmd ++ str " && cd /tmp/deployknot-app && git checkout " ++ branch in
          let* out := CombinedOutput cloneCmd in
          match snd out with
          | Some e =>
              let errorMsg := str "Git clone failed: " ++ e ++ str ", output: " ++ fst out in
              addLogf deploymentID "error" errorMsg "git_clone" (Some 1%Z) >>
              failStep deploymentID 1 errorMsg >>
              ret (Some (str "git clone failed: " ++ e ++ str ", output: " ++ fst out))
          | None =>
              addLogf deploymentID "info"
                (str "Repository cloned successfully: " ++ fst out)
                "git_clone" (Some 1%Z) >>
              updateDeploymentStep deploymentID 1 DeploymentStatusCompleted None >>
              ret None
          end
      end
  end.

(** A best-effort cleanup command of [buildDockerImage]. *)
Definition bestEffort (deploymentID : uuid.UUID) (cmd warning : gostring)
    (success taskName : string) : M unit :=
  let* serr := NewSession in
  match serr with
  | Some _ => ret tt
  | None =>
      let* out := CombinedOutput cmd in
      match snd out with
      | Some e =>
          addLogf deploymentID "warn"
            (warning ++ e ++ str ", output: " ++ fst out) taskName (Some 2%Z)
      | None => addLog deploymentID "info" success taskName (Some 2%Z)
      end
  end.

(** Step 2 *)
Definition buildDockerImage (deploymentID : uuid.UUID) (containerName : gostring)
    : M (option gostring) :=
  updateDeploymentStep deploymentID 2 DeploymentStatusRunning None >>
  addLog deploymentID "info" "Starting Docker build" "docker_build" (Some 2%Z) >>
  let* containerName :=
    match containerName with
    | [] =>
        let name := generatedName deploymentID in
        addLogf deploymentID "info" (str "Using generated container name: " ++ name)
          "docker_build" (Some 2%Z) >> ret name
    | _ => ret containerName
    end in
  bestEffort deploymentID
    (str "docker rm -f " ++ containerName ++ str " 2>/dev/null || true")
    (str "Remove existing container warning: ")
    "Existing container removed successfully" "docker_rm" >>
  bestEffort deploymentID
    (str "docker rmi " ++ containerName ++ str ":latest 2>/dev/null || true")
    (str "Remove existing image warning: ")
    "Existing image removed successfully" "docker_rmi" >>
  bestEffort deploymentID (str "docker system prune -f")
    (str "Docker prune warning: ")
    "Docker system cleaned successfully" "docker_prune" >>
  let* serr := NewSession in
  match serr with
  | Some e =>
      failStep deploymentID 2 (str "Failed to create SSH session for Docker build") >>
      ret (Some (wrap "failed to create SSH session" e))
  | None =>
      let buildCmd :=
        str "cd /tmp/deployknot-app && docker build -t " ++ containerName
          ++ str ":latest ." in
      let* out := CombinedOutput buildCmd in
      match snd out with
      | Some e =>
          let errorMsg := str "Docker build failed: " ++ e ++ str ", output: " ++ fst out in
          addLogf deploymentID "error" errorMsg "docker_build" (Some 2%Z) >>
          failStep deploymentID 2 errorMsg >>
          ret (Some (str "docker build failed: " ++ e ++ str ", output: " ++ fst out))
      | None =>
          addLogf deploymentID "info"
            (str "Docker image built successfully: " ++ fst out)
            "docker_build" (Some 2%Z) >>
          updateDeploymentStep deploymentID 2 DeploymentStatusCompleted None >>
          ret None
      end
  end.

(** [processEnvironmentVariables]: the body of the loop for one line;
    [None] stands for [continue]. *)
Definition processLine (line : gostring) : option gostring :=
  let line := strings.TrimSpace line in
  match line with
  | [] => None
  | _ =>
      if strings.HasPrefix line (str "#") then None
      else if negb (strings.Contains line (str "=")) then None
      else
        match strings.SplitN2 line 61 with
        | [part0; part1] =>
            let key := strings.TrimSpace part0 in
            let value := strings.TrimSpace part1 in
            let value := strings.Trim value [34; 39] in
            Some (key ++ str "=" ++ value)
        | _ => None
        end
  end.

Fixpoint processLines (lines processedLines : list gostring) : list gostring :=
  match lines with
  | [] => processedLines
  | line :: rest =>
      match processLine line with
      | Some processed => processLines rest (processedLines ++ [processed])
      | None => processLines rest processedLines
      end
  end.

Definition processEnvironmentVariables (envVars : gostring) : gostring :=
  let lines := strings.Split envVars 10 in
  strings.Join (processLines lines []) [10].

(** Step 3, without an uploaded env file *)
Definition runDockerContainer (deploymentID : uuid.UUID) (envVars : gostring)
    (port : Z) (containerName : gostring) : M (option gostring) :=
  updateDeploymentStep deploymentID 3 DeploymentStatusRunning None >>
  addLog deploymentID "info" "Starting Docker container" "docker_run" (Some 3%Z) >>
  let* containerName :=
    match containerName with
    | [] =>
        let name := generatedName deploymentID in
        addLogf deploymentID "info" (str "Using generated container name: " ++ name)
          "docker_run" (Some 3%Z) >> ret name
    | _ => ret containerName
    end in
  let* serr := NewSession in
  match serr with
  | Some e =>
      failStep deploymentID 3 (str "Failed to create SSH session for stop") >>
      ret (Some (wrap "failed to create SSH session for stop" e))
  | None =>
      let stopCmd :=
        str "docker stop " ++ containerName ++ str " 2>/dev/null || true && docker rm "
          ++ containerName ++ str " 2>/dev/null || true && docker ps -a --filter name="
          ++ containerName
          ++ str " --format '{{.Names}}' | xargs -r docker rm -f 2>/dev/null || true" in
      let* stop := CombinedOutput stopCmd in
      match snd stop with
      | Some e =>
          addLogf deploymentID "warn"
            (str "Stop existing container warning: " ++ e ++ str ", output: " ++ fst stop)
            "docker_stop" (Some 3%Z)
      | None =>
          addLogf deploymentID "info"
            (str "Existing container cleanup completed: " ++ fst stop)
            "docker_stop" (Some 3%Z)
      end >>
      let* serr := NewSession in
      match serr with
      | Some e =>
          failStep deploymentID 3 (str "Failed to create SSH session for run") >>
          ret (Some (wrap "failed to create SSH session for run" e))
      | None =>
      let* serr := NewSession in
      match serr with
      | Some e =>
          failStep deploymentID 3 (str "Failed to create SSH session for docker check") >>
          ret (Some (wrap "failed to create SSH session for docker check" e))
      | None =>
      let* check := CombinedOutput (str "docker --version") in
      match snd check with
      | Some e =>
          addLogf deploymentID "error"
            (str "Docker not available: " ++ e ++ str ", output: " ++ fst check)
            "docker_check" (Some 3%Z) >>
          ret (Some (str "docker not available: " ++ e ++ str ", output: " ++ fst check))
      | None =>
      addLogf deploymentID "info" (str "Docker available: " ++ fst check)
        "docker_check" (Some 3%Z) >>
      let* env :=
        match envVars with
        | [] => ret (Ok [])
        | _ =>
            addLog deploymentID "info" "Creating .env file with environment variables"
              "env_setup" (Some 3%Z) >>
            let envFilePath :=
              str "/tmp/deployknot-env-" ++ uuid.String deploymentID ++ str ".env" in
            let* serr := NewSession in
            match serr with
            | Some e =>
                failStep deploymentID 3 (str "Failed to create SSH session for env file") >>
                ret (Err (wrap "failed to create SSH session for env file" e))
            | None =>
            let processedEnvVars := processEnvironmentVariables envVars in
            let envCmd :=
              str "cat > " ++ envFilePath ++ str " << 'EOF'" ++ [10]
                ++ processedEnvVars ++ [10] ++ str "EOF" in
            let* out := CombinedOutput envCmd in
            match snd out with
            | Some e =>
                let errorMsg :=
                  str "Failed to create .env file: " ++ e ++ str ", output: " ++ fst out in
                addLogf deploymentID "error" errorMsg "env_setup" (Some 3%Z) >>
                failStep deploymentID 3 errorMsg >>
                ret (Err (str "failed to create .env file: " ++ e
                            ++ str ", output: " ++ fst out))
            | None =>
            let* serr := NewSession in
            match serr with
            | Some e =>
                failStep deploymentID 3
                  (str "Failed to create SSH session for env verification") >>
                ret (Err (wrap "failed to create SSH session for env verification" e))
            | None =>
            let verifyCmd :=
              str "ls -la " ++ envFilePath
                ++ str " && echo '--- ENV FILE CONTENT ---' && cat " ++ envFilePath in
            let* verify := CombinedOutput verifyCmd in
            match snd verify with
            | Some e =>
                addLogf deploymentID "warn"
                  (str "Env file verification warning: " ++ e
                     ++ str ", output: " ++ fst verify)
                  "env_verify" (Some 3%Z)
            | None =>
                addLogf deploymentID "info"
                  (str "Environment file created and verified: " ++ fst verify)
                  "env_verify" (Some 3%Z)
            end >>
            addLog deploymentID "info" "Environment variables file created successfully"
              "env_setup" (Some 3%Z) >>
            ret (Ok envFilePath)
            end end end
        end in
      match env with
      | Err e => ret (Some e)
      | Ok envFilePath =>
      let runCmd :=
        match envFilePath with
        | [] =>
            str "docker run -d --name " ++ containerName ++ str " -p "
              ++ strconv.Itoa port ++ str ":" ++ strconv.Itoa port ++ str " "
              ++ containerName ++ str ":latest"
        | _ =>
            str "docker run -d --name " ++ containerName ++ str " -p "
              ++ strconv.Itoa port ++ str ":" ++ strconv.Itoa port
              ++ str " --env-file " ++ envFilePath ++ str " "
              ++ containerName ++ str ":latest"
        end in
      let* run := CombinedOutput runCmd in
      match snd run with
      | Some e =>
          let errorMsg := str "Docker run failed: " ++ e ++ str ", output: " ++ fst run in
          addLogf deploymentID "error" errorMsg "docker_run" (Some 3%Z) >>
          failStep deploymentID 3 errorMsg >>
          ret (Some (str "docker run failed: " ++ e ++ str ", output: " ++ fst run))
      | None =>
          addLogf deploymentID "info"
            (str "Docker container started successfully: " ++ fst run)
            "docker_run" (Some 3%Z) >>
          updateDeploymentStep deploymentID 3 DeploymentStatusCompleted None >>
          ret None
      end end end end end
  end.

(** Step 4 *)
Definition healthCheck (deploymentID : uuid.UUID) (containerName : gostring)
    : M (option gostring) :=
  updateDeploymentStep deploymentID 4 DeploymentStatusRunning None >>
  addLog deploymentID "info" "Starting health check" "health_check" (Some 4%Z) >>
  let* containerName :=
    match containerName with
    | [] =>
        let name := generatedName deploymentID in
        addLogf deploymentID "info"
          (str "Using generated container name for health check: " ++ name)
          "health_check" (Some 4%Z) >> ret name
    | _ => ret containerName
    end in
  let* serr := NewSession in
  match serr with
  | Some e =>
      failStep deploymentID 4 (str "Failed to create SSH session for health check") >>
      ret (Some (wrap "failed to create SSH session" e))
  | None =>
      let checkCmd :=
        str "docker ps --filter name=" ++ containerName
          ++ str " --format 'table {{.Names}}" ++ [9] ++ str "{{.Status}}'" in
      let* out := CombinedOutput checkCmd in
      match snd out with
      | Some e =>
          let errorMsg := str "Health check failed: " ++ e ++ str ", output: " ++ fst out in
          addLogf deploymentID "error" errorMsg "health_check" (Some 4%Z) >>
          failStep deploymentID 4 errorMsg >>
          ret (Some (str "health check failed: " ++ e ++ str ", output: " ++ fst out))
      | None =>
          addLogf deploymentID "info" (str "Health check passed: " ++ fst out)
            "health_check" (Some 4%Z) >>
          updateDeploymentStep deploymentID 4 DeploymentStatusCompleted None >>
          ret None
      end
  end.

(** The four calls that can fail: os.Open, sftp.NewClient, Create, io.Copy. *)
Definition copyEnvFileToTarget (deploymentID : uuid.UUID) (localEnvFilePath : gostring)
    : M (option gostring) :=
  addLog deploymentID "info" "Copying uploaded .env file to target instance"
    "env_upload" (Some 3%Z) >>
  let* err := ask (sftp_error E) in
  match err with
  | Some e => ret (Some (wrap "failed to open local env file" e))
  | None =>
  let* err := ask (sftp_error E) in
  match err with
  | Some e => ret (Some (wrap "failed to create SFTP client" e))
  | None =>
  let* err := ask (sftp_error E) in
  match err with
  | Some e => ret (Some (wrap "failed to create remote env file" e))
  | None =>
  let* err := ask (sftp_error E) in
  match err with
  | Some e => ret (Some (wrap "failed to copy env file to remote" e))
  | None =>
      addLog deploymentID "info" "Uploaded .env file to target instance"
        "env_upload" (Some 3%Z) >>
      ret None
  end end end end.

(** Step 3, with an uploaded env file *)
Definition runDockerContainerWithEnvFile (deploymentID : uuid.UUID)
    (envFilePath : gostring) (port : Z) (containerName : gostring)
    : M (option gostring) :=
  updateDeploymentStep deploymentID 3 DeploymentStatusRunning None >>
  addLog deploymentID "info" "Starting Docker container with uploaded .env file"
    "docker_run" (Some 3%Z) >>
  let* containerName :=
    match containerName with
    | [] =>
        let name := generatedName deploymentID in
        addLogf deploymentID "info" (str "Using generated container name: " ++ name)
          "docker_run" (Some 3%Z) >> ret name
    | _ => ret containerName
    end in
  let* serr := NewSession in
  match serr with
  | Some e =>
      failStep deploymentID 3 (str "Failed to create SSH session for env file check") >>
      ret (Some (wrap "failed to create SSH session for env file check" e))
  | None =>
  let remoteEnvPath := str "/tmp/deployknot-uploaded.env" in
  let checkEnvCmd :=
    str "ls -la " ++ remoteEnvPath ++ str " && echo '---ENV FILE CONTENT---' && cat "
      ++ remoteEnvPath in
  let* checkEnv := CombinedOutput checkEnvCmd in
  match snd checkEnv with
  | Some e =>
      let errorMsg :=
        str "Env file check failed: " ++ e ++ str ", output: " ++ fst checkEnv in
      addLogf deploymentID "error" errorMsg "env_check" (Some 3%Z) >>
      failStep deploymentID 3 errorMsg >>
      ret (Some (str "env file check failed: " ++ e ++ str ", output: " ++ fst checkEnv))
  | None =>
  addLogf deploymentID "info" (str "Env file verified: " ++ fst checkEnv)
    "env_check" (Some 3%Z) >>
  let* serr := NewSession in
  match serr with
  | Some e =>
      failStep deploymentID 3 (str "Failed to create SSH session for image check") >>
      ret (Some (wrap "failed to create SSH session for image check" e))
  | None =>
  let checkImageCmd :=
    str "docker images " ++ containerName
      ++ str ":latest --format '{{.Repository}}:{{.Tag}}'" in
  let* checkImage := CombinedOutput checkImageCmd in
  if bool_decide (snd checkImage <> None)
     || bool_decide (strings.TrimSpace (fst checkImage) = [])
  then
    let errorMsg := str "Docker image not found: " ++ containerName ++ str ":latest" in
    addLogf deploymentID "error" errorMsg "image_check" (Some 3%Z) >>
    failStep deploymentID 3 errorMsg >>
    ret (Some (str "docker image not found: " ++ containerName ++ str ":latest"))
  else
  addLogf deploymentID "info" (str "Docker image found: " ++ fst checkImage)
    "image_check" (Some 3%Z) >>
  let* serr := NewSession in
  match serr with
  | Some e =>
      failStep deploymentID 3 (str "Failed to create SSH session for run") >>
      ret (Some (wrap "failed to create SSH session for run" e))
  | None =>
  let copyEnvCmd := str "cp " ++ remoteEnvPath ++ str " ./deployknot.env" in
  let* copy := CombinedOutput copyEnvCmd in
  match snd copy with
  | Some e =>
      addLogf deploymentID "error" (str "Failed to copy env file: " ++ e)
        "env_copy" (Some 3%Z) >>
      failStep deploymentID 3 (str "Failed to copy env file: " ++ e) >>
      ret (Some (wrap "failed to copy env file" e))
  | None =>
  addLog deploymentID "info" "Env file copied successfully" "env_copy" (Some 3%Z) >>
  let runCmd :=
    str "docker run -d --name " ++ containerName ++ str " -p "
      ++ strconv.Itoa port ++ str ":" ++ strconv.Itoa port
      ++ str " --env-file ./deployknot.env " ++ containerName ++ str ":latest" in
  addLogf deploymentID "info" (str "Executing Docker run command: " ++ runCmd)
    "docker_run" (Some 3%Z) >>
  let* serr := NewSession in
  match serr with
  | Some e =>
      failStep deploymentID 3 (str "Failed to create SSH session for docker run") >>
      ret (Some (wrap "failed to create SSH session for docker run" e))
  | None =>
  let* run := CombinedOutput runCmd in
  match snd run with
  | Some e =>
      let errorMsg := str "Docker run failed: " ++ e in
      addLogf deploymentID "error" errorMsg "docker_run" (Some 3%Z) >>
      failStep deploymentID 3 errorMsg >>
      ret (Some (wrap "docker run failed" e))
  | None =>
  let containerID := strings.TrimSpace (fst run) in
  addLogf deploymentID "info"
    (str "Docker container started successfully with ID: " ++ containerID)
    "docker_run" (Some 3%Z) >>
  let* serr := NewSession in
  match serr with
  | Some _ => ret tt
  | None =>
      let checkRunningCmd :=
        str "docker ps --filter id=" ++ containerID
          ++ str " --format '{{.Names}} {{.Status}}'" in
      let* running := CombinedOutput checkRunningCmd in
      match snd running with
      | Some _ =>
          addLog deploymentID "warn" "Container verification failed"
            "container_check" (Some 3%Z)
      | None => ret tt
      end
  end >>
  updateDeploymentStep deploymentID 3 DeploymentStatusCompleted None >>
  ret None
  end end end end end end end.

Definition executeDeploymentSteps (deploymentID : uuid.UUID)
    (repoURL pat branch envFilePath envVars : gostring) (port : Z)
    (containerName : gostring) : M (option gostring) :=
  let* err := cloneRepository deploymentID repoURL pat branch in
  match err with
  | Some e =>
      markRemainingStepsAsFailed deploymentID 1 >>
      ret (Some (wrap "failed to clone repository" e))
  | None =>
  let* err := buildDockerImage deploymentID containerName in
  match err with
  | Some e =>
      markRemainingStepsAsFailed deploymentID 2 >>
      ret (Some (wrap "failed to build Docker image" e))
  | None =>
  let* err :=
    match envFilePath with
    | _ :: _ =>
        let* err := copyEnvFileToTarget deploymentID envFilePath in
        match err with
        | Some e =>
            markRemainingStepsAsFailed deploymentID 3 >>
            ret (Some (wrap "failed to copy env file to target" e))
        | None =>
            let* err :=
              runDockerContainerWithEnvFile deploymentID envFilePath port containerName in
            match err with
            | Some e =>
                markRemainingStepsAsFailed deploymentID 3 >>
                ret (Some (wrap "failed to run Docker container with env file" e))
            | None => ret None
            end
        end
    | [] =>
        let* err := runDockerContainer deploymentID envVars port containerName in
        match err with
        | Some e =>
            markRemainingStepsAsFailed deploymentID 3 >>
            ret (Some (wrap "failed to run Docker container" e))
        | None => ret None
        end
    end in
  match err with
  | Some e => ret (Some e)
  | None =>
  let* err := healthCheck deploymentID containerName in
  match err with
  | Some e =>
      markRemainingStepsAsFailed deploymentID 4 >>
      ret (Some (wrap "health check failed" e))
  | None => ret None
  end end end end.

Definition processDeploymentJob (job : Job.t) : M (option gostring) :=
  let deploymentID := Job.DeploymentID job in
  let* err :=
    services.UpdateDeploymentStatus E deploymentID DeploymentStatusRunning None in
  match err with
  | Some e => ret (Some (wrap "failed to update deployment status" e))
  | None =>
  addLog deploymentID "info" "Starting deployment process" "deployment_start" None >>
  let targetIP := getStringFromMap (Job.Data job) (str "target_ip") in
  let sshUsername := getStringFromMap (Job.Data job) (str "ssh_username") in
  let sshPassword := getStringFromMap (Job.Data job) (str "ssh_password") in
  let githubRepoURL := getStringFromMap (Job.Data job) (str "github_repo_url") in
  let githubPAT := getStringFromMap (Job.Data job) (str "github_pat") in
  let githubBranch := getStringFromMap (Job.Data job) (str "github_branch") in
  let port := getIntFromMap (Job.Data job) (str "port") in
  let containerName := getStringFromMap (Job.Data job) (str "container_name") in
  let envFilePath := getStringFromMap (Job.Data job) (str "env_file_path") in
  let environmentVars := getStringFromMap (Job.Data job) (str "environment_vars") in
  if bool_decide (targetIP = []) || bool_decide (sshUsername = [])
     || bool_decide (sshPassword = []) || bool_decide (githubRepoURL = [])
     || bool_decide (githubPAT = []) || bool_decide (githubBranch = [])
  then
    let errorMsg := str "missing required deployment parameters" in
    markAllStepsAsFailed deploymentID errorMsg >>
    ret (Some errorMsg)
  else
  let* err := connectSSH targetIP sshUsername sshPassword in
  match err with
  | Some e =>
      let errorMsg := str "Failed to connect to target server: " ++ e in
      addLogf deploymentID "error" errorMsg "ssh_connect" None >>
      markStepAsFailed 1 deploymentID errorMsg >>
      markRemainingStepsAsFailed deploymentID 1 >>
      services.UpdateDeploymentStatus E deploymentID DeploymentStatusFailed
        (Some errorMsg) >>
      ret (Some (wrap "failed to connect to target server" e))
  | None =>
  addLog deploymentID "info" "SSH connection established" "ssh_connect" None >>
  let* err :=
    executeDeploymentSteps deploymentID githubRepoURL githubPAT githubBranch
      envFilePath environmentVars port containerName in
  match err with
  | Some e =>
      let errorMsg := str "Deployment failed: " ++ e in
      addLogf deploymentID "error" errorMsg "deployment_failed" None >>
      services.UpdateDeploymentStatus E deploymentID DeploymentStatusFailed
        (Some errorMsg) >>
      ret (Some e)
  | None =>
  let* err :=
    services.UpdateDeploymentStatus E deploymentID DeploymentStatusCompleted None in
  match err with
  | Some e => ret (Some (wrap "failed to update deployment status" e))
  | None =>
      addLog deploymentID "info" "Deployment completed successfully"
        "deployment_complete" None >>
      services.UpdateJobStatus E (Job.ID job) Job.JobStatusCompleted None >>
      ret None
  end end end end.

(** One turn of the loop of [Start]: dequeue a job and process it. *)
Definition StartIteration : M unit :=
  let* r := services.DequeueJob E in
  match r with
  | Err _ => ret tt
  | Ok None => ret tt
  | Ok (Some job) =>
      let* err := processDeploymentJob job in
      match err with
      | Some errorMsg =>
          services.UpdateJobStatus E (Job.ID job) Job.JobStatusFailed (Some errorMsg)
          >> ret tt
      | None => ret tt
      end
  end.

End Worker.
End worker.

(* ===================================================================== *)
(** * Sample inputs                                                       *)
(* ===================================================================== *)

Module Samples.

(** An environment in which nothing fails: fresh ids 1000, 1001, ..., a
    clock that advances by one second per reading, remote commands that
    succeed with empty output. *)
Definition quiet : Env :=
  mkEnv (fun n => N.of_nat n + 1000) (fun n => (Z.of_nat n * 1000000000)%Z)
        (fun _ => None) (fun _ => None) (fun _ => None) (fun _ => None)
        (fun _ _ => ([], None)) (fun _ => None).

(** The same, except that the database fails at interaction [k]. *)
Definition dbFailsAt (k : nat) : Env :=
  mkEnv (rand quiet) (clock quiet)
        (fun n => if (n =? k)%nat then Some (str "pq: connection lost") else None)
        (redis_error quiet) (ssh_dial_error quiet) (ssh_session_error quiet)
        (ssh_output quiet) (sftp_error quiet).

(** The same, except that the target refuses the SSH connection. *)
Definition sshDown : Env :=
  mkEnv (rand quiet) (clock quiet) (db_error quiet) (redis_error quiet)
        (fun _ => Some (str "connection refused")) (ssh_session_error quiet)
        (ssh_output quiet) (sftp_error quiet).

(** The same, except that the target's [git clone] is refused by the
    repository host; git reports the URL that it could not read. *)
Definition cloneRefused : Env :=
  mkEnv (rand quiet) (clock quiet) (db_error quiet) (redis_error quiet)
        (ssh_dial_error quiet) (ssh_session_error quiet)
        (fun _ cmd =>
           match strings.Split cmd 32 with
           | git :: clone :: url :: _ =>
               if bool_decide (git = str "git") && bool_decide (clone = str "clone")
               then (str "fatal: unable to access '" ++ url
                       ++ str "/': The requested URL returned error: 403",
                     Some (str "Process exited with status 128"))
               else ([], None)
           | _ => ([], None)
           end)
        (sftp_error quiet).

(** The library functions on the inputs used below: [uuid.Parse] on the
    text of id 77, [url.Parse] on the sample repository URL and [%v] on
    the integral numbers of at most six digits, which it prints as they
    are. *)
Definition lib : GoLib :=
  mkGoLib (fun s => if bool_decide (s = uuid.String 77) then Some 77 else None)
          (fun s => if bool_decide (s = str "https://github.com/x/y.git")
                    then Some (str "github.com", str "/x/y.git") else None)
          (fun _ => None)
          strconv.Itoa.

(** The same library, with [uuid.Parse] reading the text of [id] only. *)
Definition libFor (id : uuid.UUID) : GoLib :=
  mkGoLib (fun s => if bool_decide (s = uuid.String id) then Some id else None)
          (url_Parse lib) (Sscanf_d lib) (Sprintf_v lib).

(** A host on which the upload directory and the uploaded file can be
    written; [filepath.Join] on two clean components. *)
Definition disk : HostFS :=
  mkHostFS (fun _ => None) (fun _ => None) (fun dir name => dir ++ str "/" ++ name).

Definition request (port : string) (containerName projectName deploymentName : option gostring)
    : CreateDeploymentRequest.t :=
  CreateDeploymentRequest.mk (str "10.0.0.5") (str "root") (str "pw")
    (str "https://github.com/x/y.git") (str "ghp_token") (str "main") (str port)
    containerName projectName deploymentName None.

Definition plain : CreateDeploymentRequest.t :=
  request "3000" None (Some (str "p")) (Some (str "d")).

(** [plain] with another SSH password and another access token. *)
Definition plainOtherSecrets : CreateDeploymentRequest.t :=
  CreateDeploymentRequest.mk (str "10.0.0.5") (str "root") (str "hunter2")
    (str "https://github.com/x/y.git") (str "ghp_other") (str "main") (str "3000")
    None (Some (str "p")) (Some (str "d")) None.

Definition user : uuid.UUID := 7.

Definition stepRow (id : uuid.UUID) (name : string) (order : Z)
    (status : DeploymentStatus) : DeploymentStep.t :=
  DeploymentStep.mk id 1 (str name) status None None None None order.

(** The steps of deployment 1 after a failure in the third step. *)
Definition midway : World :=
  mkWorld [] [ stepRow 11 "validate_credentials" 1 DeploymentStatusCompleted;
               stepRow 12 "git_clone" 2 DeploymentStatusRunning;
               stepRow 13 "docker_build" 3 DeploymentStatusFailed;
               stepRow 14 "docker_run" 4 DeploymentStatusPending;
               stepRow 15 "health_check" 5 DeploymentStatusPending ]
          [] [] ∅ 0.

Definition logRow (id : uuid.UUID) (createdAt : time) : DeploymentLog.t :=
  DeploymentLog.mk id 1 createdAt (str "info") (str "message") None None.

(** A log table with one row, whose id is 5. *)
Definition oneLog : World := mkWorld [] [] [logRow 5 1000] [] ∅ 0.

(** A deployment as creation leaves it, the job that the worker takes from
    the queue, and the last of the five step rows. *)
Definition created : World :=
  snd (services.CreateDeploymentWithEnvFile quiet plain [] user empty_world).

Definition idleJob : Job.t := Job.mk 0 Job.JobStatusPending ∅ 0%Z None None None 0.

Definition job : Job.t :=
  match fst (services.DequeueJob quiet created) with
  | Ok (Some job) => job
  | _ => idleJob
  end.

(** Two deployments of the same user, created one after the other. *)
Definition createdTwice : World :=
  snd (services.CreateDeploymentWithEnvFile quiet plain [] user created).

(** The rows of a successful query. *)
Definition rowsOf {A} (r : result (list A)) : list A :=
  match r with
  | Ok rows => rows
  | Err _ => []
  end.

(** The job as it waits in the queue of [created]. *)
Definition queuedJob : Job.t :=
  match queue created with
  | job :: _ => job
  | [] => idleJob
  end.

Definition dequeued : World := snd (services.DequeueJob quiet created).

(** The job of [created] as the worker takes it, had its data lost the
    target address. *)
Definition jobWithoutTarget : Job.t :=
  Job.mk (Job.ID job) (Job.Status job) (delete (str "target_ip") (Job.Data job))
         (Job.CreatedAt job) (Job.StartedAt job) (Job.CompletedAt job)
         (Job.ErrorMessage job) (Job.DeploymentID job).

(** The store after a creation request and one turn of the worker on a
    target that refuses the clone. *)
Definition refusedRun (req : CreateDeploymentRequest.t) : World :=
  snd (worker.StartIteration cloneRefused lib
         (snd (services.CreateDeploymentWithEnvFile cloneRefused req [] user
                 empty_world))).

Definition healthCheckRow : DeploymentStep.t :=
  DeploymentStep.mk 1011 1000 (str "health_check") DeploymentStatusPending
    None None None None 5.

(** The row of order 4 after the job of [created] has been processed. *)
Definition fourthRowDone : DeploymentStep.t :=
  DeploymentStep.mk 1009 1000 (str "docker_run") DeploymentStatusCompleted
    (Some 103000000000%Z) (Some 114000000000%Z) (Some 11000%Z) None 4.

End Samples.

Arguments str : simpl never.
Arguments wrap : simpl never.
Arguments uuid.String : simpl never.
Arguments strconv.Itoa : simpl never.

(** The name and the order of a step row. *)
Definition nameAndOrder (s : DeploymentStep.t) : gostring * Z :=
  (DeploymentStep.StepName s, DeploymentStep.StepOrder s).

(** The table of [createInitialSteps] as rows carry it. *)
Definition stepTable (steps : list (string * Z)) : list (gostring * Z) :=
  List.map (fun p => (str (fst p), snd p)) steps.

(** What a creation call does, by cases on the port conversion and on the
    write of the deployment row (the third interaction of the call, after
    the id and the time have been drawn). *)
Definition creation_outcome (E : Env) (req : CreateDeploymentRequest.t)
    (userID : option uuid.UUID) (w : World)
    (run : result DeploymentResponse.t * World) : Prop :=
  match CreateDeploymentRequest.GetPortAsInt req with
  | Err e => run = (Err (wrap "invalid port" e), w)
  | Ok port =>
      let id := rand E (seq w) in
      let now := clock E (S (seq w)) in
      let name := services.generateContainerName id
                    (CreateDeploymentRequest.ContainerName req)
                    (CreateDeploymentRequest.ProjectName req)
                    (CreateDeploymentRequest.DeploymentName req) in
      match db_error E (S (S (seq w))) with
      | Some e =>
          fst run = Err (wrap "failed to create deployment"
                           (wrap "failed to create deployment" e))
          /\ deployments (snd run) = deployments w
          /\ deployment_steps (snd run) = deployment_steps w
          /\ queue (snd run) = queue w
      | None =>
          fst run = Ok (services.createdResponse req id now port name)
          /\ deployments (snd run)
             = deployments w
                 ++ [database.inserted_row
                       (services.newDeployment req id now port name userID)]
          /\ (exists rows,
                deployment_steps (snd run) = deployment_steps w ++ rows
                /\ (exists k, List.map nameAndOrder rows
                              = take k (stepTable services.initialSteps))
                /\ Forall (fun s => DeploymentStep.DeploymentID s = id
                             /\ DeploymentStep.Status s = DeploymentStatusPending) rows
                /\ ((forall n, (seq w <= n)%nat -> db_error E n = None) ->
                    List.map nameAndOrder rows = stepTable services.initialSteps))
          /\ (queue (snd run) = queue w
              \/ exists job, queue (snd run) = job :: queue w
                             /\ Job.DeploymentID job = id)
          /\ ((forall n, redis_error E n = None) ->
              exists job, queue (snd run) = job :: queue w
                          /\ Job.DeploymentID job = id)
      end
  end.

(** Two requests that differ at most in the SSH password and in the GitHub
    access token. *)
Definition same_but_secrets (r1 r2 : CreateDeploymentRequest.t) : Prop :=
  CreateDeploymentRequest.TargetIP r1 = CreateDeploymentRequest.TargetIP r2
  /\ CreateDeploymentRequest.SSHUsername r1 = CreateDeploymentRequest.SSHUsername r2
  /\ CreateDeploymentRequest.GitHubRepoURL r1 = CreateDeploymentRequest.GitHubRepoURL r2
  /\ CreateDeploymentRequest.GitHubBranch r1 = CreateDeploymentRequest.GitHubBranch r2
  /\ CreateDeploymentRequest.Port r1 = CreateDeploymentRequest.Port r2
  /\ CreateDeploymentRequest.ContainerName r1 = CreateDeploymentRequest.ContainerName r2
  /\ CreateDeploymentRequest.ProjectName r1 = CreateDeploymentRequest.ProjectName r2
  /\ CreateDeploymentRequest.DeploymentName r1 = CreateDeploymentRequest.DeploymentName r2
  /\ CreateDeploymentRequest.AdditionalVars r1 = CreateDeploymentRequest.AdditionalVars r2.

(** A deployment row with the two secret columns blanked. *)
Definition redact (d : Deployment.t) : Deployment.t :=
  Deployment.mk (Deployment.ID d) (Deployment.CreatedAt d) (Deployment.UpdatedAt d)
    (Deployment.Status d) (Deployment.TargetIP d) (Deployment.SSHUsername d)
    None (Deployment.GitHubRepoURL d) None (Deployment.GitHubBranch d)
    (Deployment.EnvironmentVars d) (Deployment.AdditionalVars d) (Deployment.Port d)
    (Deployment.ContainerName d) (Deployment.StartedAt d)
    (Deployment.CompletedAt d) (Deployment.ErrorMessage d)
    (Deployment.CreatedBy d) (Deployment.ProjectName d)
    (Deployment.DeploymentName d) (Deployment.UserID d).

(** What the store shows of a world once the secrets are blanked; the
    queue and the job records, which the read API never consults, are
    dropped. *)
Definition public (w : World) : World :=
  mkWorld (List.map redact (deployments w)) (deployment_steps w)
          (deployment_logs w) [] ∅ (seq w).

(** A string does not begin, or does not end, with a rune that [f] trims. *)
Definition headOk (f : rune -> bool) (s : gostring) : Prop :=
  match s with
  | [] => True
  | c :: _ => f c = false
  end.

Definition lastOk (f : rune -> bool) (s : gostring) : Prop := headOk f (rev s).

(** A key does not begin with the comment sign. *)
Definition notHash (s : gostring) : Prop :=
  match s with
  | [] => True
  | c :: _ => c <> 35
  end.

(** The step rows of a deployment as [GetDeploymentSteps] returns them. *)
Definition stepsOf (deploymentID : uuid.UUID) (rows : list DeploymentStep.t)
    : list DeploymentStep.t :=
  orderBy (fun x y => (DeploymentStep.StepOrder x <=? DeploymentStep.StepOrder y)%Z)
    (List.filter (fun s => DeploymentStep.DeploymentID s =? deploymentID) rows).

(** The effect on the step table of a successful
    [updateDeploymentStep(deploymentID, order, failed, msg)] at time [now]. *)
Definition failByOrder (deploymentID : uuid.UUID) (order : Z) (msg : gostring)
    (now : time) (rows : list DeploymentStep.t) : list DeploymentStep.t :=
  match worker.findStep (stepsOf deploymentID rows) order with
  | None => rows
  | Some target =>
      List.map (fun row =>
        if DeploymentStep.ID row =? DeploymentStep.ID target
        then database.updated_step
               (worker.transition target DeploymentStatusFailed (Some msg) now) row
        else row) rows
  end.

(** The step tables that the loop of [markRemainingStepsAsFailed] can reach
    from a table when it runs over a snapshot [steps] and no call fails. *)
Inductive abandonLoop (deploymentID : uuid.UUID) (failedStepOrder : Z)
    : list DeploymentStep.t -> list DeploymentStep.t -> list DeploymentStep.t -> Prop :=
| abandonLoop_done rows :
    abandonLoop deploymentID failedStepOrder [] rows rows
| abandonLoop_skip step steps rows rows' :
    worker.abandoned failedStepOrder step = false ->
    abandonLoop deploymentID failedStepOrder steps rows rows' ->
    abandonLoop deploymentID failedStepOrder (step :: steps) rows rows'
| abandonLoop_fail step steps now rows rows' :
    worker.abandoned failedStepOrder step = true ->
    abandonLoop deploymentID failedStepOrder steps
      (failByOrder deploymentID (DeploymentStep.StepOrder step)
         (worker.abandonReason failedStepOrder) now rows) rows' ->
    abandonLoop deploymentID failedStepOrder (step :: steps) rows rows'.

(** A row and what [markRemainingStepsAsFailed] has made of it: marked
    failed with the abandonment reason, or left as it was. *)
Definition abandonedRow (failedStepOrder : Z) (row row' : DeploymentStep.t) : Prop :=
  DeploymentStep.Status row' = DeploymentStatusFailed
  /\ DeploymentStep.ErrorMessage row' = Some (worker.abandonReason failedStepOrder)
  /\ DeploymentStep.ID row' = DeploymentStep.ID row
  /\ DeploymentStep.DeploymentID row' = DeploymentStep.DeploymentID row
  /\ DeploymentStep.StepName row' = DeploymentStep.StepName row
  /\ DeploymentStep.StepOrder row' = DeploymentStep.StepOrder row
  /\ DeploymentStep.StartedAt row' = DeploymentStep.StartedAt row.

Definition markedIf (failedStepOrder : Z) (marked : DeploymentStep.t -> bool)
    (row row' : DeploymentStep.t) : Prop :=
  if marked row then abandonedRow failedStepOrder row row' else row' = row.

(** The cursor of the log stream has not moved, or has moved to an id whose
    text is greater. *)
Definition cursorLe (a b : uuid.UUID) : Prop :=
  a = b \/ strings.ltb (uuid.String a) (uuid.String b) = true.

(** The step orders that the worker's pipeline writes to. *)
Definition pipelineOrder (order : Z) : bool := ((1 <=? order) && (order <=? 4))%Z.

(** From [w] to [w'] the step ids stay unique and every step row whose
    order is not one of the pipeline's is still in the table, unchanged. *)
Definition keepsOtherSteps (w w' : World) : Prop :=
  List.NoDup (List.map DeploymentStep.ID (deployment_steps w)) ->
  List.NoDup (List.map DeploymentStep.ID (deployment_steps w'))
  /\ forall row, In row (deployment_steps w) ->
                 pipelineOrder (DeploymentStep.StepOrder row) = false ->
                 In row (deployment_steps w').

(** A computation keeps the other steps: always, or when it returns nil. *)
Definition frames {A} (m : M A) : Prop :=
  forall w, keepsOtherSteps w (snd (m w)).

Definition framesIfNil (m : M (option gostring)) : Prop :=
  forall w, fst (m w) = None -> keepsOtherSteps w (snd (m w)).

(** Every row of deployment [d] says completed. *)
Definition deploymentCompleted (d : uuid.UUID) (w : World) : Prop :=
  forall dep, In dep (deployments w) -> Deployment.ID dep = d ->
              Deployment.Status dep = DeploymentStatusCompleted.

(** A computation that never returns nil. *)
Definition fails (m : M (option gostring)) : Prop :=
  forall w, fst (m w) <> None.

(** A variable that an env file can carry as it is: the key is free of
    [=] and of line breaks, is not padded with white space and does not
    begin with the comment sign; the value is free of line breaks and is
    padded neither with white space nor with quotes. *)
Definition cleanVariable (env : EnvironmentVariable.t) : Prop :=
  ~ In 61 (EnvironmentVariable.Key env)
  /\ ~ In 10 (EnvironmentVariable.Key env)
  /\ headOk strings.isSpace (EnvironmentVariable.Key env)
  /\ lastOk strings.isSpace (EnvironmentVariable.Key env)
  /\ notHash (EnvironmentVariable.Key env)
  /\ ~ In 10 (EnvironmentVariable.Value env)
  /\ strings.TrimSpace (EnvironmentVariable.Value env) = EnvironmentVariable.Value env
  /\ strings.Trim (EnvironmentVariable.Value env) [34; 39]
     = EnvironmentVariable.Value env.

(** The runes of a generated container name: [a-z], [0-9] and the hyphen. *)
Definition nameRune (r : rune) : bool :=
  ((97 <=? r) && (r <=? 122)) || ((48 <=? r) && (r <=? 57)) || (r =? 45).

(** A list is in nondecreasing order of [key]. *)
Fixpoint sortedBy {A} (key : A -> Z) (l : list A) : Prop :=
  match l with
  | [] => True
  | x :: l' => Forall (fun y => (key x <= key y)%Z) l' /\ sortedBy key l'
  end.

(** The limit that the JSON branch of the logs handler passes on. *)
Definition effectiveLimit (limitQuery : option gostring) : Z :=
  match limitQuery with
  | None => 100%Z
  | Some s => match strconv.Atoi s with Some l => l | None => 100%Z end
  end.

(** [n] calls of [DequeueJob] in a row, with their results in order. *)
Fixpoint dequeueTimes (E : Env) (n : nat) : M (list (result (option Job.t))) :=
  match n with
  | O => ret []
  | S n' =>
      let* r := services.DequeueJob E in
      let* rs := dequeueTimes E n' in
      ret (r :: rs)
  end.

(** The deployment of the job that a call of [DequeueJob] returned. *)
Definition dequeuedDeployment (r : result (option Job.t)) : option uuid.UUID :=
  match r with
  | Ok (Some job) => Some (Job.DeploymentID job)
  | _ => None
  end.

(** The ids of the log rows among the events of a stream, in order. *)
Fixpoint loggedIDs (events : list handlers.Event) : list uuid.UUID :=
  match events with
  | [] => []
  | handlers.log row :: rest => DeploymentLog.ID row :: loggedIDs rest
  | _ :: rest => loggedIDs rest
  end.

(** Every text is smaller, in the order of Go's string comparison, than
    all the texts after it. *)
Fixpoint increasing (texts : list gostring) : Prop :=
  match texts with
  | [] => True
  | a :: rest => Forall (fun b => strings.ltb a b = true) rest /\ increasing rest
  end.

(** A computation takes every world to one that is related to it by [R]. *)
Definition keeps (R : World -> World -> Prop) {A} (m : M A) : Prop :=
  forall w, R w (snd (m w)).

(** The columns of a step row that no UPDATE of the repository writes. *)
Definition stepKey (s : DeploymentStep.t) : uuid.UUID * uuid.UUID * gostring * Z :=
  (DeploymentStep.ID s, DeploymentStep.DeploymentID s, DeploymentStep.StepName s,
   DeploymentStep.StepOrder s).

(** A deployment row with the columns status, updated_at and error_message
    blanked. *)
Definition withoutStatus (d : Deployment.t) : Deployment.t :=
  database.with_status DeploymentStatusPending 0%Z None d.

(** From [w] to [w'] both tables have kept their rows, in place: step rows
    differ at most in status, times, duration and error message, deployment
    rows at most in status, updated_at and error message. *)
Definition sameRows (w w' : World) : Prop :=
  List.map stepKey (deployment_steps w') = List.map stepKey (deployment_steps w)
  /\ List.map withoutStatus (deployments w') = List.map withoutStatus (deployments w).

(** From [w] to [w'] nothing has changed that belongs to another deployment
    than [d] or to another job than [j]: the step rows and the deployment
    rows of the others are the same (given that step ids are unique, which
    is also kept), every new log row is a row of [d], the queue is the same
    and so are the records of the other jobs. *)
Definition confinedTo (d j : uuid.UUID) (w w' : World) : Prop :=
  (List.NoDup (List.map DeploymentStep.ID (deployment_steps w)) ->
   List.NoDup (List.map DeploymentStep.ID (deployment_steps w'))
   /\ List.filter (fun s => negb (DeploymentStep.DeploymentID s =? d)) (deployment_steps w')
      = List.filter (fun s => negb (DeploymentStep.DeploymentID s =? d)) (deployment_steps w))
  /\ List.filter (fun r => negb (Deployment.ID r =? d)) (deployments w')
     = List.filter (fun r => negb (Deployment.ID r =? d)) (deployments w)
  /\ (exists new, deployment_logs w' = deployment_logs w ++ new
                  /\ Forall (fun l => DeploymentLog.DeploymentID l = d) new)
  /\ queue w' = queue w
  /\ (forall k, k <> j -> job_records w' !! k = job_records w !! k).

(** A row and what a loop that marks steps as failed with [msg] has made
    of it: status failed, the message, and the id, the deployment, the name,
    the order and the start time it had. *)
Definition failedRow (msg : gostring) (row row' : DeploymentStep.t) : Prop :=
  DeploymentStep.Status row' = DeploymentStatusFailed
  /\ DeploymentStep.ErrorMessage row' = Some msg
  /\ DeploymentStep.ID row' = DeploymentStep.ID row
  /\ DeploymentStep.DeploymentID row' = DeploymentStep.DeploymentID row
  /\ DeploymentStep.StepName row' = DeploymentStep.StepName row
  /\ DeploymentStep.StepOrder row' = DeploymentStep.StepOrder row
  /\ DeploymentStep.StartedAt row' = DeploymentStep.StartedAt row.

Definition failedIf (msg : gostring) (marked : DeploymentStep.t -> bool)
    (row row' : DeploymentStep.t) : Prop :=
  if marked row then failedRow msg row row' else row' = row.

(** The step tables that a loop over a snapshot [steps] can reach from a
    table when it marks as failed, by its order, every step that satisfies
    [p], and no call fails. *)
Inductive markLoop (deploymentID : uuid.UUID) (p : DeploymentStep.t -> bool)
    (msg : gostring)
    : list DeploymentStep.t -> list DeploymentStep.t -> list DeploymentStep.t -> Prop :=
| markLoop_done rows :
    markLoop deploymentID p msg [] rows rows
| markLoop_skip step steps rows rows' :
    p step = false ->
    markLoop deploymentID p msg steps rows rows' ->
    markLoop deploymentID p msg (step :: steps) rows rows'
| markLoop_fail step steps now rows rows' :
    p step = true ->
    markLoop deploymentID p msg steps
      (failByOrder deploymentID (DeploymentStep.StepOrder step) msg now rows) rows' ->
    markLoop deploymentID p msg (step :: steps) rows rows'.

(** The condition of the loop in [markAllStepsAsFailed]. *)
Definition unfinished (step : DeploymentStep.t) : bool :=
  negb (bool_decide (DeploymentStep.Status step = DeploymentStatusCompleted))
  && negb (bool_decide (DeploymentStep.Status step = DeploymentStatusFailed)).

(** The step table has unique ids and, within deployment [d], pairwise
    different step orders. *)
Definition stepsWellKeyed (d : uuid.UUID) (w : World) : Prop :=
  List.NoDup (List.map DeploymentStep.ID (deployment_steps w))
  /\ List.NoDup (List.map DeploymentStep.StepOrder
                   (List.filter (fun s => DeploymentStep.DeploymentID s =? d)
                      (deployment_steps w))).

(** No step of deployment [d] is running. *)
Definition noneRunning (d : uuid.UUID) (w : World) : Prop :=
  Forall (fun row => DeploymentStep.DeploymentID row = d ->
                     DeploymentStep.Status row <> DeploymentStatusRunning)
    (deployment_steps w).

(** Every row of deployment [d] has the given status. *)
Definition deploymentHasStatus (d : uuid.UUID) (status : DeploymentStatus) (w : World)
    : Prop :=
  forall dep, In dep (deployments w) -> Deployment.ID dep = d ->
              Deployment.Status dep = status.

(** The check of [processDeploymentJob] on the job's data: one of the six
    required strings is missing or empty. *)
Definition missingParameters (L : GoLib) (job : Job.t) : bool :=
  bool_decide (worker.getStringFromMap L (Job.Data job) (str "target_ip") = [])
  || bool_decide (worker.getStringFromMap L (Job.Data job) (str "ssh_username") = [])
  || bool_decide (worker.getStringFromMap L (Job.Data job) (str "ssh_password") = [])
  || bool_decide (worker.getStringFromMap L (Job.Data job) (str "github_repo_url") = [])
  || bool_decide (worker.getStringFromMap L (Job.Data job) (str "github_pat") = [])
  || bool_decide (worker.getStringFromMap L (Job.Data job) (str "github_branch") = []).

(** A computation that, started with well-keyed steps, keeps them so and,
    when it returns an error, leaves no step of [d] running. *)
Definition stopsSteps (d : uuid.UUID) (m : M (option gostring)) : Prop :=
  forall w, stepsWellKeyed d w ->
    stepsWellKeyed d (snd (m w))
    /\ (fst (m w) <> None -> noneRunning d (snd (m w))).

(** The record of a job that has been started: it carries the deployment
    and the data of the job and a start time. *)
Definition jobRecorded (job : Job.t) (w : World) : Prop :=
  exists rec, job_records w !! Job.ID job = Some rec
              /\ Job.DeploymentID rec = Job.DeploymentID job
              /\ Job.Data rec = Job.Data job
              /\ Job.StartedAt rec <> None.

(** If the job has a record, the record says completed, without an error
    message and with a completion time. *)
Definition recordedCompleted (jobID : uuid.UUID) (w : World) : Prop :=
  forall rec, job_records w !! jobID = Some rec ->
    Job.Status rec = Job.JobStatusCompleted
    /\ Job.ErrorMessage rec = None /\ Job.CompletedAt rec <> None.

(** Two responses agree in every field but the creation time (which the
    database keeps with a coarser resolution than the clock of the API). *)
Definition sameButCreatedAt (r1 r2 : DeploymentResponse.t) : Prop :=
  DeploymentResponse.ID r1 = DeploymentResponse.ID r2
  /\ DeploymentResponse.Status r1 = DeploymentResponse.Status r2
  /\ DeploymentResponse.TargetIP r1 = DeploymentResponse.TargetIP r2
  /\ DeploymentResponse.GitHubRepoURL r1 = DeploymentResponse.GitHubRepoURL r2
  /\ DeploymentResponse.GitHubBranch r1 = DeploymentResponse.GitHubBranch r2
  /\ DeploymentResponse.Port r1 = DeploymentResponse.Port r2
  /\ DeploymentResponse.ContainerName r1 = DeploymentResponse.ContainerName r2
  /\ DeploymentResponse.StartedAt r1 = DeploymentResponse.StartedAt r2
  /\ DeploymentResponse.CompletedAt r1 = DeploymentResponse.CompletedAt r2
  /\ DeploymentResponse.ErrorMessage r1 = DeploymentResponse.ErrorMessage r2
  /\ DeploymentResponse.ProjectName r1 = DeploymentResponse.ProjectName r2
  /\ DeploymentResponse.DeploymentName r1 = DeploymentResponse.DeploymentName r2.

(** Every step row of deployment [d] with the order [order] is completed:
    its status says so, it has a completion time and no error message. *)
Definition stepCompleted (d : uuid.UUID) (order : Z) (w : World) : Prop :=
  forall row, In row (deployment_steps w) ->
    DeploymentStep.DeploymentID row = d -> DeploymentStep.StepOrder row = order ->
    DeploymentStep.Status row = DeploymentStatusCompleted
    /\ DeploymentStep.CompletedAt row <> None
    /\ DeploymentStep.ErrorMessage row = None.

(** From [w] to [w'] the rows are kept and, if the steps are well keyed,
    each of the steps [orders] that was completed is still completed. *)
Definition staysCompleted (d : uuid.UUID) (orders : list Z) (w w' : World) : Prop :=
  sameRows w w'
  /\ (stepsWellKeyed d w ->
      forall order, In order orders -> stepCompleted d order w -> stepCompleted d order w').

(** A computation that has completed step [order] when it returns nil. *)
Definition completesStep (d : uuid.UUID) (order : Z) (m : M (option gostring)) : Prop :=
  forall w, stepsWellKeyed d w -> fst (m w) = None -> stepCompleted d order (snd (m w)).

(** A computation that, started on well-keyed steps of which [before] are
    completed, has the steps [after] completed when it returns nil. *)
Definition advances (d : uuid.UUID) (before after : list Z) (m : M (option gostring))
    : Prop :=
  forall w, stepsWellKeyed d w ->
    (forall order, In order before -> stepCompleted d order w) ->
    fst (m w) = None ->
    stepsWellKeyed d (snd (m w))
    /\ forall order, In order after -> stepCompleted d order (snd (m w)).

(** From the state [w] on, [uuid.New] never gives the same id twice, and
    never one that is the id or the deployment of a step row of [w]. *)
Definition freshIDs (E : Env) (w : World) : Prop :=
  (forall n m, (seq w <= n)%nat -> (seq w <= m)%nat -> rand E n = rand E m -> n = m)
  /\ forall n s, (seq w <= n)%nat -> In s (deployment_steps w) ->
       DeploymentStep.ID s <> rand E n /\ DeploymentStep.DeploymentID s <> rand E n.

(** The error message that a read of a deployment shows. *)
Definition errorMessageOf (r : result DeploymentResponse.t) : option gostring :=
  match r with
  | Ok resp => DeploymentResponse.ErrorMessage resp
  | Err _ => None
  end.

(* ===================================================================== *)
(** * Properties                                                          *)
(* ===================================================================== *)

(** ** Port conversion *)

Lemma Atoi_nil : strconv.Atoi [] = None.
Proof. reflexivity. Qed.

(** C9: [GetPortAsInt] rejects the ports 0 and 65536, accepts 1 and 65535,
    and on every input that [strconv.Atoi] reads as the number [n] it
    succeeds, with [n], exactly when [1 <= n <= 65535]. *)
Theorem GetPortAsInt_accepts_1_to_65535 :
  (isOk (CreateDeploymentRequest.GetPortAsInt (Samples.request "0" None None None)) = false
   /\ isOk (CreateDeploymentRequest.GetPortAsInt (Samples.request "65536" None None None)) = false
   /\ CreateDeploymentRequest.GetPortAsInt (Samples.request "1" None None None) = Ok 1%Z
   /\ CreateDeploymentRequest.GetPortAsInt (Samples.request "65535" None None None) = Ok 65535%Z)
  /\ forall (r : CreateDeploymentRequest.t) (n : Z),
       strconv.Atoi (CreateDeploymentRequest.Port r) = Some n ->
       (isOk (CreateDeploymentRequest.GetPortAsInt r) = true <-> (1 <= n <= 65535)%Z)
       /\ (forall port, CreateDeploymentRequest.GetPortAsInt r = Ok port -> port = n).
Proof.
  split.
  - repeat split; reflexivity.
  - intros r n Hn. unfold CreateDeploymentRequest.GetPortAsInt.
    destruct (bool_decide_reflect (CreateDeploymentRequest.Port r = [])) as [Hnil|_].
    + rewrite Hnil in Hn. discriminate.
    + rewrite Hn.
      destruct (Z.ltb_spec n 1); destruct (Z.ltb_spec 65535 n); simpl;
        (split; [split; intros; (discriminate || lia) | intros p Hp; congruence]).
Qed.

Lemma GetPortAsInt_accepts_1_to_65535_witness :
  strconv.Atoi (CreateDeploymentRequest.Port (Samples.request "8080" None None None))
    = Some 8080%Z
  /\ (isOk (CreateDeploymentRequest.GetPortAsInt (Samples.request "8080" None None None)) = true
      <-> (1 <= 8080 <= 65535)%Z).
Proof.
  split; [reflexivity|].
  apply (proj2 GetPortAsInt_accepts_1_to_65535
           (Samples.request "8080" None None None) 8080%Z).
  reflexivity.
Defined.

(** ** Container names *)

Lemma generateContainerName_supplied id c name projectName deploymentName :
  services.generateContainerName id (Some (c :: name)) projectName deploymentName
  = c :: name.
Proof. reflexivity. Qed.

Lemma generateContainerName_from_names id containerName c p c' d :
  services.nonEmpty containerName = None ->
  services.generateContainerName id containerName (Some (c :: p)) (Some (c' :: d))
  = str "deployknot-" ++ services.sanitizeContainerName (c :: p) ++ str "-"
      ++ services.sanitizeContainerName (c' :: d).
Proof. intros H. unfold services.generateContainerName. rewrite H. reflexivity. Qed.

Lemma generateContainerName_fallback id containerName projectName deploymentName :
  services.nonEmpty containerName = None ->
  services.nonEmpty projectName = None \/ services.nonEmpty deploymentName = None ->
  services.generateContainerName id containerName projectName deploymentName
  = str "deployknot-" ++ uuid.String id.
Proof.
  intros H [H'|H']; unfold services.generateContainerName; rewrite H, H';
    [reflexivity | destruct (services.nonEmpty projectName); reflexivity].
Qed.

(** C6: the precedence of [generateContainerName] is the stated one (a
    supplied name verbatim, else the two sanitized names, else the id), but
    on project [P! Q] and deployment [Dep 1] the code returns
    [deployknot-p--q-dep-1]: [sanitizeContainerName] writes one hyphen per
    replaced rune and never collapses a run of hyphens, so the expected
    [deployknot-p-q-dep-1] is not produced. *)
Theorem generateContainerName_keeps_hyphen_runs :
  forall id : uuid.UUID,
    services.generateContainerName id (Some (str "svc-a")) None None = str "svc-a"
    /\ services.generateContainerName id None None None
       = str "deployknot-" ++ uuid.String id
    /\ services.generateContainerName id None (Some (str "P! Q")) (Some (str "Dep 1"))
       = str "deployknot-p--q-dep-1"
    /\ services.generateContainerName id None (Some (str "P! Q")) (Some (str "Dep 1"))
       <> str "deployknot-p-q-dep-1".
Proof.
  intros id. repeat split; try reflexivity.
  vm_compute. discriminate.
Qed.

(** ** Reading a deployment *)

Lemma find_absent {A} (p : A -> bool) (l : list A) :
  (forall x, In x l -> p x = false) -> List.find p l = None.
Proof.
  induction l as [|a l IH]; intros H; simpl; [reflexivity|].
  rewrite (H a (or_introl eq_refl)). apply IH. intros x Hx. apply H. now right.
Qed.

Lemma wrapped_is_not_plain_not_found e :
  bool_decide (wrap "failed to get deployment" e = str "deployment not found") = false.
Proof. apply bool_decide_eq_false_2. unfold wrap. cbn. discriminate. Qed.

(** C5: a GET of a well-formed id that no deployment carries is answered
    with status 500, not 404: the service wraps the repository's
    "deployment not found" error, and the handler compares the wrapped
    message with the unwrapped text. *)
Theorem GetDeployment_unknown_id_is_500 :
  forall (E : Env) (L : GoLib) (idStr : gostring) (id : uuid.UUID) (w : World),
    uuid_Parse L idStr = Some id ->
    (forall d, In d (deployments w) -> Deployment.ID d <> id) ->
    handlers.code (fst (handlers.GetDeployment E L idStr w))
    = handlers.StatusInternalServerError
    /\ handlers.code (fst (handlers.GetDeployment E L idStr w))
       <> handlers.StatusNotFound.
Proof.
  intros E L idStr id w Hparse Habsent.
  assert (Hcode : handlers.code (fst (handlers.GetDeployment E L idStr w))
                  = handlers.StatusInternalServerError).
  { unfold handlers.GetDeployment. rewrite Hparse.
    unfold services.GetDeployment, database.GetDeployment, bind, ask, gets, ret.
    cbv beta iota.
    destruct (db_error E (seq w)) as [e|].
    - rewrite wrapped_is_not_plain_not_found. reflexivity.
    - cbn [deployments set_seq]. rewrite find_absent.
      + rewrite wrapped_is_not_plain_not_found. reflexivity.
      + intros d Hd. apply N.eqb_neq. now apply Habsent. }
  split; [exact Hcode|]. rewrite Hcode. discriminate.
Qed.

Lemma GetDeployment_unknown_id_is_500_witness :
  handlers.code (fst (handlers.GetDeployment Samples.quiet Samples.lib
                        (uuid.String 77) empty_world))
  = handlers.StatusInternalServerError
  /\ handlers.code (fst (handlers.GetDeployment Samples.quiet Samples.lib
                           (uuid.String 77) empty_world))
     <> handlers.StatusNotFound.
Proof.
  apply (GetDeployment_unknown_id_is_500 Samples.quiet Samples.lib
           (uuid.String 77) 77 empty_world).
  - reflexivity.
  - simpl. intros d [].
Defined.


(** ** Creation *)

Tactic Notation "run_monad" "in" hyp(H) :=
  cbv [bind ask modify gets ret] in H;
  cbn [fst snd seq deployments deployment_steps deployment_logs queue job_records
       set_seq set_deployments set_deployment_steps set_deployment_logs
       set_queue set_job_records] in H.

Tactic Notation "run_monad" :=
  cbv [bind ask modify gets ret];
  cbn [fst snd seq deployments deployment_steps deployment_logs queue job_records
       set_seq set_deployments set_deployment_steps set_deployment_logs
       set_queue set_job_records].

Lemma createSteps_rows (E : Env) (d : uuid.UUID) (steps : list (string * Z)) :
  forall w : World,
  exists rows : list DeploymentStep.t,
    deployment_steps (snd (services.createSteps E d steps w))
    = deployment_steps w ++ rows
    /\ (exists k, List.map nameAndOrder rows = take k (stepTable steps))
    /\ Forall (fun s => DeploymentStep.DeploymentID s = d
                        /\ DeploymentStep.Status s = DeploymentStatusPending) rows
    /\ (fst (services.createSteps E d steps w) = None ->
        List.map nameAndOrder rows = stepTable steps)
    /\ ((forall n, (seq w <= n)%nat -> db_error E n = None) ->
        fst (services.createSteps E d steps w) = None)
    /\ deployments (snd (services.createSteps E d steps w)) = deployments w
    /\ queue (snd (services.createSteps E d steps w)) = queue w
    /\ (seq w <= seq (snd (services.createSteps E d steps w)))%nat.
Proof.
  induction steps as [|[name order] rest IH]; intros w.
  - exists []. simpl. rewrite app_nil_r.
    repeat split; auto. exists 0%nat. reflexivity.
  - cbn [services.createSteps].
    unfold database.CreateDeploymentStep. run_monad.
    destruct (db_error E (S (seq w))) as [e|] eqn:Hdb.
    + exists []. run_monad. rewrite app_nil_r.
      split; [reflexivity|].
      split; [exists 0%nat; reflexivity|].
      split; [constructor|].
      split; [discriminate|].
      split; [intros H; rewrite H in Hdb by lia; discriminate|].
      split; [reflexivity|]. split; [reflexivity|]. lia.
    + match goal with
      | |- context [services.createSteps E d rest ?w2] =>
          destruct (IH w2) as (rows & Hrows & [k Hk] & Hall & Hfull & Hquiet & Hd & Hq & Hseq)
      end.
      run_monad.
      cbn [deployment_steps set_deployment_steps set_seq deployments queue seq] in *.
      eexists (_ :: rows). rewrite Hrows, <- app_assoc. cbn [app].
      split; [reflexivity|].
      split; [exists (S k); cbn; rewrite Hk; reflexivity|].
      split; [constructor; [split; reflexivity | exact Hall]|].
      split; [intros H; cbn; rewrite (Hfull H); reflexivity|].
      split; [intros H; apply Hquiet; intros n Hn; apply H; lia|].
      split; [exact Hd|]. split; [exact Hq|]. lia.
Qed.

Lemma EnqueueDeploymentJob_frame (E : Env) (d : uuid.UUID) (data : gmap gostring JVal)
    (w : World) :
  let w' := snd (services.EnqueueDeploymentJob E d data w) in
  deployments w' = deployments w
  /\ deployment_steps w' = deployment_steps w
  /\ (queue w' = queue w
      \/ exists job, queue w' = job :: queue w /\ Job.DeploymentID job = d)
  /\ (redis_error E (S (S (seq w))) = None ->
      exists job, queue w' = job :: queue w /\ Job.DeploymentID job = d).
Proof.
  unfold services.EnqueueDeploymentJob. run_monad.
  destruct (redis_error E (S (S (seq w)))) as [e|]; run_monad.
  - repeat split; auto. discriminate.
  - destruct (redis_error E (S (S (S (seq w))))) as [e|]; run_monad;
      (split; [reflexivity|]; split; [reflexivity|]; split;
       [right|intros _]; eexists; repeat split).
Qed.

Ltac creation_cases E req w :=
  let rows := fresh "rows" in
  let Hrows := fresh "Hrows" in
  let Hk := fresh "Hk" in
  let Hall := fresh "Hall" in
  let Hfull := fresh "Hfull" in
  let Hquiet := fresh "Hquiet" in
  let Hd := fresh "Hd" in
  let Hq := fresh "Hq" in
  let Hseq := fresh "Hseq" in
  let Hd' := fresh "Hd'" in
  let Hs' := fresh "Hs'" in
  let Hq' := fresh "Hq'" in
  let Hr' := fresh "Hr'" in
  let Hno := fresh "Hno" in
  unfold creation_outcome;
  destruct (CreateDeploymentRequest.GetPortAsInt req); [|reflexivity];
  unfold database.CreateDeployment; run_monad;
  destruct (db_error E (S (S (seq w)))); run_monad;
  [ repeat split; reflexivity | ];
  match goal with
  | |- context [services.createInitialSteps E ?id ?w1] =>
      pose proof (createSteps_rows E id services.initialSteps w1)
        as (rows & Hrows & Hk & Hall & Hfull & Hquiet & Hd & Hq & Hseq);
      fold (services.createInitialSteps E id) in *;
      destruct (services.createInitialSteps E id w1)
  end;
  match goal with
  | |- context [services.EnqueueDeploymentJob E ?id ?data ?w2] =>
      pose proof (EnqueueDeploymentJob_frame E id data w2) as (Hd' & Hs' & Hq' & Hr');
      destruct (services.EnqueueDeploymentJob E id data w2)
  end;
  run_monad; cbn [fst snd] in *;
  split; [reflexivity|];
  split; [rewrite Hd', Hd; reflexivity|];
  split;
  [ exists rows; rewrite Hs', Hrows;
    split; [reflexivity|]; split; [exact Hk|]; split; [exact Hall|];
    intros Hno; apply Hfull, Hquiet; intros; apply Hno;
    repeat match goal with
           | H : (_ <= _)%nat |- _ => progress run_monad in H
           end; lia
  | rewrite Hq in *; split; [exact Hq' | intros Hno; apply Hr', Hno] ].

Lemma CreateDeploymentWithEnvFile_outcome (E : Env) (req : CreateDeploymentRequest.t)
    (path : gostring) (user : uuid.UUID) (w : World) :
  creation_outcome E req (Some user) w
    (services.CreateDeploymentWithEnvFile E req path user w).
Proof. unfold services.CreateDeploymentWithEnvFile. creation_cases E req w. Qed.

Lemma CreateDeployment_outcome (E : Env) (req : CreateDeploymentRequest.t) (w : World) :
  creation_outcome E req None w (services.CreateDeployment E req w).
Proof. unfold services.CreateDeployment. creation_cases E req w. Qed.

Lemma creation_outcome_ok (E : Env) (req : CreateDeploymentRequest.t)
    (userID : option uuid.UUID) (w : World) (resp : DeploymentResponse.t) (w' : World) :
  creation_outcome E req userID w (Ok resp, w') ->
  DeploymentResponse.ID resp = rand E (seq w)
  /\ db_error E (S (S (seq w))) = None
  /\ (exists row, deployments w' = deployments w ++ [row]
                  /\ Deployment.ID row = DeploymentResponse.ID resp)
  /\ (exists rows,
        deployment_steps w' = deployment_steps w ++ rows
        /\ (exists k, List.map nameAndOrder rows
                      = take k (stepTable services.initialSteps))
        /\ Forall (fun s => DeploymentStep.DeploymentID s = DeploymentResponse.ID resp
                     /\ DeploymentStep.Status s = DeploymentStatusPending) rows
        /\ ((forall n, (seq w <= n)%nat -> db_error E n = None) ->
            List.map nameAndOrder rows = stepTable services.initialSteps))
  /\ (queue w' = queue w
      \/ exists job, queue w' = job :: queue w
                     /\ Job.DeploymentID job = DeploymentResponse.ID resp)
  /\ ((forall n, redis_error E n = None) ->
      exists job, queue w' = job :: queue w
                  /\ Job.DeploymentID job = DeploymentResponse.ID resp).
Proof.
  unfold creation_outcome.
  destruct (CreateDeploymentRequest.GetPortAsInt req) as [port|e]; [|discriminate].
  destruct (db_error E (S (S (seq w)))) as [e|]; cbn [fst snd].
  - intros (H & _). discriminate.
  - intros (Hresp & Hd & Hrows & Hq & Hr).
    injection Hresp as Hresp. subst resp.
    cbn [DeploymentResponse.ID services.createdResponse].
    split; [reflexivity|]. split; [reflexivity|].
    split; [eexists; split; [exact Hd | reflexivity]|].
    split; [exact Hrows|]. split; [exact Hq | exact Hr].
Qed.

Lemma creation_outcome_err (E : Env) (req : CreateDeploymentRequest.t)
    (userID : option uuid.UUID) (w : World) (e : gostring) (w' : World) :
  creation_outcome E req userID w (Err e, w') ->
  deployments w' = deployments w
  /\ deployment_steps w' = deployment_steps w
  /\ queue w' = queue w.
Proof.
  unfold creation_outcome.
  destruct (CreateDeploymentRequest.GetPortAsInt req) as [port|e'].
  - destruct (db_error E (S (S (seq w)))) as [e'|]; cbn [fst snd].
    + intros (_ & H). exact H.
    + intros (H & _). discriminate.
  - intros H. injection H as _ Hw. subst w'. auto.
Qed.

(** C1 (as amended): when no write to the database fails, a deployment
    created through [CreateDeployment] or [CreateDeploymentWithEnvFile] gets
    exactly five step rows, all pending, numbered 1 to 5 and named
    validate_credentials, git_clone, docker_build, docker_run,
    health_check. *)
Theorem creation_writes_five_step_rows :
  forall (E : Env) (req : CreateDeploymentRequest.t) (path : gostring)
         (user : uuid.UUID) (w : World) (resp : DeploymentResponse.t) (w' : World),
    (forall n, (seq w <= n)%nat -> db_error E n = None) ->
    services.CreateDeploymentWithEnvFile E req path user w = (Ok resp, w')
    \/ services.CreateDeployment E req w = (Ok resp, w') ->
    exists rows : list DeploymentStep.t,
      deployment_steps w' = deployment_steps w ++ rows
      /\ List.map nameAndOrder rows
         = [ (str "validate_credentials", 1%Z); (str "git_clone", 2%Z);
             (str "docker_build", 3%Z); (str "docker_run", 4%Z);
             (str "health_check", 5%Z) ]
      /\ Forall (fun s => DeploymentStep.DeploymentID s = DeploymentResponse.ID resp
                   /\ DeploymentStep.Status s = DeploymentStatusPending) rows.
Proof.
  intros E req path user w resp w' Hdb Hrun.
  assert (Hout : exists userID, creation_outcome E req userID w (Ok resp, w')).
  { destruct Hrun as [H|H]; eexists; rewrite <- H;
      [apply CreateDeploymentWithEnvFile_outcome | apply CreateDeployment_outcome]. }
  destruct Hout as [userID Hout].
  destruct (creation_outcome_ok _ _ _ _ _ _ Hout)
    as (_ & _ & _ & (rows & Hrows & _ & Hall & Hfull) & _).
  exists rows. split; [exact Hrows|]. split; [|exact Hall].
  rewrite (Hfull Hdb). reflexivity.
Qed.

Lemma creation_writes_five_step_rows_witness :
  exists rows : list DeploymentStep.t,
    deployment_steps
      (snd (services.CreateDeploymentWithEnvFile Samples.quiet Samples.plain []
              Samples.user empty_world))
    = deployment_steps empty_world ++ rows
    /\ List.map nameAndOrder rows
       = [ (str "validate_credentials", 1%Z); (str "git_clone", 2%Z);
           (str "docker_build", 3%Z); (str "docker_run", 4%Z);
           (str "health_check", 5%Z) ]
    /\ Forall (fun s => DeploymentStep.DeploymentID s = 1000
                 /\ DeploymentStep.Status s = DeploymentStatusPending) rows.
Proof.
  refine (creation_writes_five_step_rows Samples.quiet Samples.plain []
            Samples.user empty_world
            (services.createdResponse Samples.plain 1000 1000000000%Z 3000%Z
               (str "deployknot-p-d"))
            _ _ _).
  - intros n _. reflexivity.
  - left. vm_compute. reflexivity.
Defined.

(** C1, the claim as stated fails: in an environment where nothing fails
    the rows written are not the four rows git_clone (1), docker_build (2),
    docker_run (3), health_check (4). *)
Lemma creation_does_not_write_four_step_rows :
  List.map nameAndOrder
    (deployment_steps
       (snd (services.CreateDeploymentWithEnvFile Samples.quiet Samples.plain []
               Samples.user empty_world)))
  <> [ (str "git_clone", 1%Z); (str "docker_build", 2%Z);
       (str "docker_run", 3%Z); (str "health_check", 4%Z) ].
Proof. vm_compute. discriminate. Qed.

(** C4 (as amended): a creation call that returns an error has written no
    row and enqueued nothing; it returns an error whenever the port is
    invalid and whenever the write of the deployment row fails; a job is
    enqueued only when the deployment row was written; and once that row is
    written the call succeeds and, Redis permitting, enqueues the job
    whatever happens to the step rows. *)
Theorem creation_enqueues_iff_deployment_row_written :
  forall (E : Env) (req : CreateDeploymentRequest.t) (path : gostring)
         (user : uuid.UUID) (w : World)
         (r : result DeploymentResponse.t) (w' : World),
    services.CreateDeploymentWithEnvFile E req path user w = (r, w')
    \/ services.CreateDeployment E req w = (r, w') ->
    (forall e, r = Err e ->
       deployments w' = deployments w
       /\ deployment_steps w' = deployment_steps w
       /\ queue w' = queue w)
    /\ (forall e,
          CreateDeploymentRequest.GetPortAsInt req = Err e ->
          r = Err (wrap "invalid port" e))
    /\ (forall port e,
          CreateDeploymentRequest.GetPortAsInt req = Ok port ->
          db_error E (S (S (seq w))) = Some e ->
          r = Err (wrap "failed to create deployment"
                     (wrap "failed to create deployment" e)))
    /\ (queue w' <> queue w ->
        exists resp row job,
          r = Ok resp
          /\ deployments w' = deployments w ++ [row]
          /\ Deployment.ID row = DeploymentResponse.ID resp
          /\ queue w' = job :: queue w
          /\ Job.DeploymentID job = DeploymentResponse.ID resp)
    /\ (forall port,
          CreateDeploymentRequest.GetPortAsInt req = Ok port ->
          db_error E (S (S (seq w))) = None ->
          (forall n, redis_error E n = None) ->
          exists resp job,
            r = Ok resp /\ queue w' = job :: queue w
            /\ Job.DeploymentID job = DeploymentResponse.ID resp).
Proof.
  intros E req path user w r w' Hrun.
  assert (Hout : exists userID, creation_outcome E req userID w (r, w')).
  { destruct Hrun as [H|H]; eexists; rewrite <- H;
      [apply CreateDeploymentWithEnvFile_outcome | apply CreateDeployment_outcome]. }
  destruct Hout as [userID Hout].
  split; [|split; [|split; [|split]]].
  - intros e ->. exact (creation_outcome_err _ _ _ _ _ _ Hout).
  - intros e Hport. unfold creation_outcome in Hout. rewrite Hport in Hout.
    injection Hout as -> _. reflexivity.
  - intros port e Hport Hdb. unfold creation_outcome in Hout.
    rewrite Hport, Hdb in Hout. cbn [fst] in Hout. apply Hout.
  - intros Hq. destruct r as [resp|e].
    + destruct (creation_outcome_ok _ _ _ _ _ _ Hout)
        as (_ & _ & (row & Hrow & Hid) & _ & [Hsame|(job & Hjob & Hjid)] & _);
        [contradiction|].
      exists resp, row, job. auto.
    + destruct (creation_outcome_err _ _ _ _ _ _ Hout) as (_ & _ & Hsame).
      contradiction.
  - intros port Hport Hdb Hredis. unfold creation_outcome in Hout.
    rewrite Hport, Hdb in Hout. cbn [fst snd] in Hout.
    destruct Hout as (Hr & _ & _ & _ & Hjob).
    destruct (Hjob Hredis) as (job & Hq & Hjid).
    eexists _, job. split; [exact Hr|]. split; [exact Hq | exact Hjid].
Qed.

Lemma creation_enqueues_iff_deployment_row_written_witness :
  deployments (snd (services.CreateDeploymentWithEnvFile (Samples.dbFailsAt 2)
                      Samples.plain [] Samples.user empty_world))
  = deployments empty_world
  /\ deployment_steps (snd (services.CreateDeploymentWithEnvFile (Samples.dbFailsAt 2)
                              Samples.plain [] Samples.user empty_world))
     = deployment_steps empty_world
  /\ queue (snd (services.CreateDeploymentWithEnvFile (Samples.dbFailsAt 2)
                   Samples.plain [] Samples.user empty_world))
     = queue empty_world.
Proof.
  refine (proj1 (creation_enqueues_iff_deployment_row_written (Samples.dbFailsAt 2)
                   Samples.plain [] Samples.user empty_world
                   (fst (services.CreateDeploymentWithEnvFile (Samples.dbFailsAt 2)
                           Samples.plain [] Samples.user empty_world))
                   (snd (services.CreateDeploymentWithEnvFile (Samples.dbFailsAt 2)
                           Samples.plain [] Samples.user empty_world)) _)
            (wrap "failed to create deployment"
               (wrap "failed to create deployment" (str "pq: connection lost"))) _).
  - left. apply surjective_pairing.
  - vm_compute. reflexivity.
Defined.

(** C4, the claim as stated fails: the write of the first step row fails
    (the fifth interaction of the call), and yet the call returns a
    response and a job is enqueued. *)
Lemma step_write_failure_still_enqueues :
  db_error (Samples.dbFailsAt 4) 4 <> None
  /\ deployment_steps
       (snd (services.CreateDeploymentWithEnvFile (Samples.dbFailsAt 4) Samples.plain []
               Samples.user empty_world)) = []
  /\ ~ (isOk (fst (services.CreateDeploymentWithEnvFile (Samples.dbFailsAt 4)
                     Samples.plain [] Samples.user empty_world)) = false
        /\ queue (snd (services.CreateDeploymentWithEnvFile (Samples.dbFailsAt 4)
                         Samples.plain [] Samples.user empty_world))
           = queue empty_world).
Proof.
  split; [discriminate|]. split; [vm_compute; reflexivity|].
  intros [H _]. vm_compute in H. discriminate.
Qed.

(** ** Secrets and the read API *)

Lemma public_seq w w' : public w = public w' -> seq w = seq w'.
Proof. intros H. apply (f_equal seq) in H. exact H. Qed.

Lemma public_deployments w w' :
  public w = public w' ->
  List.map redact (deployments w) = List.map redact (deployments w').
Proof. intros H. apply (f_equal deployments) in H. exact H. Qed.

Lemma public_steps w w' :
  public w = public w' -> deployment_steps w = deployment_steps w'.
Proof. intros H. apply (f_equal deployment_steps) in H. exact H. Qed.

Lemma public_logs w w' :
  public w = public w' -> deployment_logs w = deployment_logs w'.
Proof. intros H. apply (f_equal deployment_logs) in H. exact H. Qed.

Lemma public_intro w w' :
  seq w = seq w' ->
  List.map redact (deployments w) = List.map redact (deployments w') ->
  deployment_steps w = deployment_steps w' ->
  deployment_logs w = deployment_logs w' ->
  public w = public w'.
Proof. intros H1 H2 H3 H4. unfold public. rewrite H1, H2, H3, H4. reflexivity. Qed.

Lemma createSteps_public (E : Env) (d : uuid.UUID) (steps : list (string * Z)) :
  forall w w',
    public w = public w' ->
    public (snd (services.createSteps E d steps w))
    = public (snd (services.createSteps E d steps w')).
Proof.
  induction steps as [|[name order] rest IH]; intros w w' H.
  - exact H.
  - cbn [services.createSteps]. unfold database.CreateDeploymentStep. run_monad.
    rewrite <- (public_seq _ _ H).
    destruct (db_error E (S (seq w))) as [e|]; run_monad.
    + apply public_intro; run_monad;
        [ rewrite (public_seq _ _ H); reflexivity
        | apply public_deployments, H | apply public_steps, H | apply public_logs, H ].
    + apply IH. apply public_intro; run_monad;
        [ rewrite (public_seq _ _ H); reflexivity
        | apply public_deployments, H
        | rewrite (public_steps _ _ H); reflexivity
        | apply public_logs, H ].
Qed.

Lemma EnqueueDeploymentJob_public (E : Env) (d : uuid.UUID)
    (data data' : gmap gostring JVal) (w w' : World) :
  public w = public w' ->
  public (snd (services.EnqueueDeploymentJob E d data w))
  = public (snd (services.EnqueueDeploymentJob E d data' w')).
Proof.
  intros H. unfold services.EnqueueDeploymentJob. run_monad.
  rewrite <- (public_seq _ _ H).
  destruct (redis_error E (S (S (seq w)))) as [e|]; run_monad;
    rewrite <- ?(public_seq _ _ H);
    [|destruct (redis_error E (S (S (S (seq w))))) as [e|]; run_monad];
    (apply public_intro; run_monad;
     [ rewrite (public_seq _ _ H); reflexivity
     | apply public_deployments, H | apply public_steps, H | apply public_logs, H ]).
Qed.

Lemma newDeployment_redacted req1 req2 id now port name userID :
  same_but_secrets req1 req2 ->
  redact (database.inserted_row (services.newDeployment req1 id now port name userID))
  = redact (database.inserted_row (services.newDeployment req2 id now port name userID)).
Proof.
  intros (H1 & H2 & H3 & H4 & H5 & H6 & H7 & H8 & H9).
  unfold redact, database.inserted_row, services.newDeployment. cbn.
  rewrite H1, H2, H3, H4, H7, H8, H9. reflexivity.
Qed.

Lemma createdResponse_redacted req1 req2 id now port name :
  same_but_secrets req1 req2 ->
  services.createdResponse req1 id now port name
  = services.createdResponse req2 id now port name.
Proof.
  intros (H1 & H2 & H3 & H4 & H5 & H6 & H7 & H8 & H9).
  unfold services.createdResponse. rewrite H1, H3, H4, H7, H8. reflexivity.
Qed.

Lemma GetPortAsInt_redacted req1 req2 :
  same_but_secrets req1 req2 ->
  CreateDeploymentRequest.GetPortAsInt req1 = CreateDeploymentRequest.GetPortAsInt req2.
Proof.
  intros (H1 & H2 & H3 & H4 & H5 & H6 & H7 & H8 & H9).
  unfold CreateDeploymentRequest.GetPortAsInt. rewrite H5. reflexivity.
Qed.

Ltac creation_public E w Hsame :=
  let Hs := fresh "Hs" in
  pose proof Hsame as Hs;
  destruct Hs as (_ & _ & _ & _ & _ & ? & ? & ? & _);
  rewrite (GetPortAsInt_redacted _ _ Hsame);
  match goal with
  | |- context [CreateDeploymentRequest.GetPortAsInt ?r] =>
      destruct (CreateDeploymentRequest.GetPortAsInt r)
  end; [|split; reflexivity];
  unfold database.CreateDeployment; run_monad;
  destruct (db_error E (S (S (seq w)))); run_monad; [split; reflexivity|];
  repeat match goal with
         | H : CreateDeploymentRequest.ContainerName _ = _ |- _ => rewrite H
         | H : CreateDeploymentRequest.ProjectName _ = _ |- _ => rewrite H
         | H : CreateDeploymentRequest.DeploymentName _ = _ |- _ => rewrite H
         end;
  repeat match goal with
         | |- context [services.createInitialSteps E ?id ?w1] =>
             let w2 := fresh "w2" in
             let H := fresh "Hsteps" in
             remember (services.createInitialSteps E id w1) as w2 eqn:H;
             apply (f_equal snd) in H; destruct w2
         end;
  repeat match goal with
         | |- context [services.EnqueueDeploymentJob E ?id ?data ?w2] =>
             let w3 := fresh "w3" in
             let H := fresh "Henq" in
             remember (services.EnqueueDeploymentJob E id data w2) as w3 eqn:H;
             apply (f_equal snd) in H; destruct w3
         end;
  run_monad; cbn [snd] in *; subst;
  split; [f_equal; apply createdResponse_redacted, Hsame|];
  apply EnqueueDeploymentJob_public, createSteps_public, public_intro; run_monad;
  [ reflexivity
  | rewrite !List.map_app; cbn [List.map]; f_equal; f_equal;
    apply newDeployment_redacted, Hsame
  | reflexivity | reflexivity ].

Lemma CreateDeploymentWithEnvFile_public (E : Env) req1 req2 path user w :
  same_but_secrets req1 req2 ->
  fst (services.CreateDeploymentWithEnvFile E req1 path user w)
  = fst (services.CreateDeploymentWithEnvFile E req2 path user w)
  /\ public (snd (services.CreateDeploymentWithEnvFile E req1 path user w))
     = public (snd (services.CreateDeploymentWithEnvFile E req2 path user w)).
Proof.
  intros Hsame. unfold services.CreateDeploymentWithEnvFile.
  creation_public E w Hsame.
Qed.

Lemma CreateDeployment_public (E : Env) req1 req2 w :
  same_but_secrets req1 req2 ->
  fst (services.CreateDeployment E req1 w) = fst (services.CreateDeployment E req2 w)
  /\ public (snd (services.CreateDeployment E req1 w))
     = public (snd (services.CreateDeployment E req2 w)).
Proof.
  intros Hsame. unfold services.CreateDeployment.
  creation_public E w Hsame.
Qed.

Lemma toResponse_redact d :
  services.toResponse (database.scanned_without_user (redact d))
  = services.toResponse (database.scanned_without_user d).
Proof. reflexivity. Qed.

Lemma toResponse_of_redacted d : services.toResponse (redact d) = services.toResponse d.
Proof. reflexivity. Qed.

Lemma find_map_redact (p : Deployment.t -> bool) (l : list Deployment.t) :
  (forall d, p (redact d) = p d) ->
  List.find p (List.map redact l) = option_map redact (List.find p l).
Proof.
  intros Hp. induction l as [|d l IH]; [reflexivity|].
  cbn [List.map List.find]. rewrite Hp. destruct (p d); [reflexivity | exact IH].
Qed.

Lemma filter_map_redact (p : Deployment.t -> bool) (l : list Deployment.t) :
  (forall d, p (redact d) = p d) ->
  List.filter p (List.map redact l) = List.map redact (List.filter p l).
Proof.
  intros Hp. induction l as [|d l IH]; [reflexivity|].
  cbn [List.map List.filter]. rewrite Hp, IH. destruct (p d); reflexivity.
Qed.

Lemma insertBy_map_redact (le : Deployment.t -> Deployment.t -> bool) x l :
  (forall a b, le (redact a) (redact b) = le a b) ->
  insertBy le (redact x) (List.map redact l) = List.map redact (insertBy le x l).
Proof.
  intros Hle. induction l as [|y l IH]; [reflexivity|].
  cbn [List.map insertBy]. rewrite Hle. destruct (le x y); [reflexivity|].
  rewrite IH. reflexivity.
Qed.

Lemma orderBy_map_redact (le : Deployment.t -> Deployment.t -> bool) l :
  (forall a b, le (redact a) (redact b) = le a b) ->
  orderBy le (List.map redact l) = List.map redact (orderBy le l).
Proof.
  intros Hle. induction l as [|y l IH]; [reflexivity|].
  unfold orderBy in *. cbn [List.map foldr]. rewrite IH.
  apply insertBy_map_redact, Hle.
Qed.

Lemma map_toResponse_redact l :
  List.map services.toResponse (List.map redact l) = List.map services.toResponse l.
Proof. rewrite List.map_map. apply List.map_ext. intros d. apply toResponse_of_redacted. Qed.

Lemma services_GetDeployment_public (E : Env) (id : uuid.UUID) (w w' : World) :
  public w = public w' ->
  fst (services.GetDeployment E id w) = fst (services.GetDeployment E id w').
Proof.
  intros H. unfold services.GetDeployment, database.GetDeployment. run_monad.
  rewrite <- (public_seq _ _ H).
  destruct (db_error E (seq w)) as [e|]; [reflexivity|]. run_monad.
  pose proof (find_map_redact (fun d => Deployment.ID d =? id) (deployments w)
                (fun d => eq_refl)) as H1.
  pose proof (find_map_redact (fun d => Deployment.ID d =? id) (deployments w')
                (fun d => eq_refl)) as H2.
  rewrite (public_deployments _ _ H) in H1. rewrite H1 in H2.
  destruct (List.find _ (deployments w)) as [d|];
    destruct (List.find _ (deployments w')) as [d'|]; try discriminate; [|reflexivity].
  cbn [option_map] in H2.
  assert (Hr : redact d = redact d') by congruence.
  cbn [fst].
  rewrite <- (toResponse_redact d), <- (toResponse_redact d'), Hr. reflexivity.
Qed.

Lemma services_GetDeploymentsByUser_public (E : Env) (userID : uuid.UUID)
    (limit offset : Z) (w w' : World) :
  public w = public w' ->
  fst (services.GetDeploymentsByUser E userID limit offset w)
  = fst (services.GetDeploymentsByUser E userID limit offset w').
Proof.
  intros H. unfold services.GetDeploymentsByUser, database.GetDeploymentsByUserID.
  run_monad. rewrite <- (public_seq _ _ H).
  destruct (db_error E (seq w)) as [e|]; [reflexivity|].
  destruct ((limit <? 0)%Z || (offset <? 0)%Z); [reflexivity|]. run_monad.
  rewrite <- (public_seq _ _ H).
  destruct (db_error E (S (seq w))) as [e|]; [reflexivity|]. cbn [fst].
  f_equal.
  rewrite <- (map_toResponse_redact (take _ (drop _ (orderBy _ (List.filter _ (deployments w)))))).
  rewrite <- (map_toResponse_redact (take _ (drop _ (orderBy _ (List.filter _ (deployments w')))))).
  f_equal.
  rewrite <- !List.firstn_map, <- !List.skipn_map.
  rewrite <- !orderBy_map_redact by reflexivity.
  rewrite <- !filter_map_redact by reflexivity.
  rewrite (public_deployments _ _ H). reflexivity.
Qed.

(** X28: two creation requests that differ only in [ssh_password] and
    [github_pat], served from the same state in the same environment, get
    the same creation response, and on the stores that the two calls leave
    (before a worker has processed the job) every GET of a deployment and
    every list of a user's deployments returns the same response in both
    runs; so do the reads of the step rows and of the log rows. *)
Theorem reads_do_not_depend_on_secrets :
  forall (E : Env) (L : GoLib) (req1 req2 : CreateDeploymentRequest.t)
         (path : gostring) (user : uuid.UUID) (w : World),
    same_but_secrets req1 req2 ->
    forall w1 w2 : World,
      (w1 = snd (services.CreateDeploymentWithEnvFile E req1 path user w)
       /\ w2 = snd (services.CreateDeploymentWithEnvFile E req2 path user w))
      \/ (w1 = snd (services.CreateDeployment E req1 w)
          /\ w2 = snd (services.CreateDeployment E req2 w)) ->
      (forall idStr,
         fst (handlers.GetDeployment E L idStr w1)
         = fst (handlers.GetDeployment E L idStr w2))
      /\ (forall requester limitStr offsetStr,
            fst (handlers.GetDeployments E requester limitStr offsetStr w1)
            = fst (handlers.GetDeployments E requester limitStr offsetStr w2))
      /\ (forall id,
            fst (services.GetDeploymentSteps E id w1)
            = fst (services.GetDeploymentSteps E id w2))
      /\ (forall id limit,
            fst (services.GetDeploymentLogs E id limit w1)
            = fst (services.GetDeploymentLogs E id limit w2))
      /\ fst (services.CreateDeploymentWithEnvFile E req1 path user w)
         = fst (services.CreateDeploymentWithEnvFile E req2 path user w)
      /\ fst (services.CreateDeployment E req1 w)
         = fst (services.CreateDeployment E req2 w).
Proof.
  intros E L req1 req2 path user w Hsame w1 w2 Hruns.
  assert (Hpub : public w1 = public w2).
  { destruct Hruns as [[-> ->]|[-> ->]].
    - apply CreateDeploymentWithEnvFile_public, Hsame.
    - apply CreateDeployment_public, Hsame. }
  split; [|split; [|split; [|split; [|split]]]].
  - intros idStr. unfold handlers.GetDeployment.
    destruct (uuid_Parse L idStr) as [id|]; [|reflexivity].
    pose proof (services_GetDeployment_public E id w1 w2 Hpub) as H.
    unfold bind.
    destruct (services.GetDeployment E id w1) as [r1 w1'].
    destruct (services.GetDeployment E id w2) as [r2 w2'].
    cbn [fst] in H. subst r2.
    destruct r1 as [d|e]; [reflexivity|].
    destruct (bool_decide (e = str "deployment not found")); reflexivity.
  - intros requester limitStr offsetStr. unfold handlers.GetDeployments.
    destruct requester as [userID|]; [|reflexivity].
    match goal with
    | |- context [services.GetDeploymentsByUser E userID ?l ?o] =>
        pose proof (services_GetDeploymentsByUser_public E userID l o w1 w2 Hpub) as H;
        unfold bind;
        destruct (services.GetDeploymentsByUser E userID l o w1) as [r1 w1'];
        destruct (services.GetDeploymentsByUser E userID l o w2) as [r2 w2']
    end.
    cbn [fst] in H. subst r2. destruct r1; reflexivity.
  - intros id. unfold services.GetDeploymentSteps, database.GetDeploymentSteps.
    run_monad. rewrite (public_seq _ _ Hpub).
    destruct (db_error E (seq w2)); [reflexivity|]. run_monad.
    rewrite (public_steps _ _ Hpub). reflexivity.
  - intros id limit. unfold services.GetDeploymentLogs, database.GetDeploymentLogs.
    run_monad. rewrite (public_seq _ _ Hpub).
    destruct (db_error E (seq w2)); [reflexivity|].
    destruct (limit <? 0)%Z; [reflexivity|]. run_monad.
    rewrite (public_logs _ _ Hpub). reflexivity.
  - apply CreateDeploymentWithEnvFile_public, Hsame.
  - apply CreateDeployment_public, Hsame.
Qed.

Lemma reads_do_not_depend_on_secrets_witness :
  fst (handlers.GetDeployment Samples.quiet (Samples.libFor 1000) (uuid.String 1000)
         (snd (services.CreateDeploymentWithEnvFile Samples.quiet Samples.plain []
                 Samples.user empty_world)))
  = fst (handlers.GetDeployment Samples.quiet (Samples.libFor 1000) (uuid.String 1000)
           (snd (services.CreateDeploymentWithEnvFile Samples.quiet
                   Samples.plainOtherSecrets [] Samples.user empty_world))).
Proof.
  refine (proj1 (reads_do_not_depend_on_secrets Samples.quiet (Samples.libFor 1000)
                   Samples.plain Samples.plainOtherSecrets [] Samples.user empty_world
                   _ _ _ (or_introl (conj eq_refl eq_refl)))
            (uuid.String 1000)).
  repeat split; reflexivity.
Defined.

(** The read of the witness above finds the deployment: the answer is 200
    and carries the deployment of the request. *)
Example read_after_creation_is_200 :
  handlers.code
    (fst (handlers.GetDeployment Samples.quiet (Samples.libFor 1000) (uuid.String 1000)
            (snd (services.CreateDeploymentWithEnvFile Samples.quiet Samples.plain []
                    Samples.user empty_world))))
  = handlers.StatusOK.
Proof. vm_compute. reflexivity. Qed.

(** C8: the claim fails on a target whose [git clone] is refused.  The
    worker stores the output of the command, in which git names the URL
    with the access token, in the error message of the deployment (and in
    two log rows).  After the worker's turn GET of the deployment shows the
    token, and both GET and the list of the user's deployments differ
    between two requests that differ in their secrets only. *)
Theorem refused_clone_shows_the_token_to_readers :
  same_but_secrets Samples.plain Samples.plainOtherSecrets
  /\ errorMessageOf
       (fst (services.GetDeployment Samples.cloneRefused 1000
               (Samples.refusedRun Samples.plain)))
     = Some (str "Deployment failed: failed to clone repository: git clone failed: "
             ++ str "Process exited with status 128, output: fatal: unable to access "
             ++ str "'https://ghp_token@github.com/x/y.git/': "
             ++ str "The requested URL returned error: 403")
  /\ fst (handlers.GetDeployment Samples.cloneRefused (Samples.libFor 1000)
            (uuid.String 1000) (Samples.refusedRun Samples.plain))
     <> fst (handlers.GetDeployment Samples.cloneRefused (Samples.libFor 1000)
               (uuid.String 1000) (Samples.refusedRun Samples.plainOtherSecrets))
  /\ fst (handlers.GetDeployments Samples.cloneRefused (Some Samples.user) [] []
            (Samples.refusedRun Samples.plain))
     <> fst (handlers.GetDeployments Samples.cloneRefused (Some Samples.user) [] []
               (Samples.refusedRun Samples.plainOtherSecrets)).
Proof.
  split; [repeat split; reflexivity|].
  split; [vm_compute; reflexivity|].
  split; intros H; vm_compute in H; discriminate H.
Qed.

(** ** Normalization of environment files *)

Section Trimming.
Variable f : rune -> bool.

Lemma TrimLeftFunc_headOk s : headOk f (strings.TrimLeftFunc f s).
Proof.
  induction s as [|c s IH]; cbn; [exact I|].
  destruct (f c) eqn:Hc; [exact IH | exact Hc].
Qed.

Lemma TrimLeftFunc_fixed s : headOk f s -> strings.TrimLeftFunc f s = s.
Proof. destruct s as [|c s]; cbn; [reflexivity|]. intros ->. reflexivity. Qed.

Lemma TrimLeftFunc_app c l t :
  f c = false ->
  strings.TrimLeftFunc f (l ++ c :: t) = strings.TrimLeftFunc f l ++ c :: t.
Proof.
  intros Hc. induction l as [|a l IH]; cbn.
  - rewrite Hc. reflexivity.
  - destruct (f a); [exact IH | reflexivity].
Qed.

Lemma TrimRightFunc_cons c s :
  f c = false ->
  strings.TrimRightFunc f (c :: s) = c :: strings.TrimRightFunc f s.
Proof.
  intros Hc. unfold strings.TrimRightFunc. cbn [rev].
  rewrite TrimLeftFunc_app by exact Hc. rewrite rev_app_distr. reflexivity.
Qed.

Lemma TrimRightFunc_lastOk s : lastOk f (strings.TrimRightFunc f s).
Proof.
  unfold lastOk, strings.TrimRightFunc. rewrite rev_involutive.
  apply TrimLeftFunc_headOk.
Qed.

Lemma TrimRightFunc_fixed s : lastOk f s -> strings.TrimRightFunc f s = s.
Proof.
  intros H. unfold strings.TrimRightFunc.
  rewrite TrimLeftFunc_fixed by exact H. apply rev_involutive.
Qed.

Lemma TrimRightFunc_headOk s : headOk f s -> headOk f (strings.TrimRightFunc f s).
Proof.
  destruct s as [|c s]; [intros _; exact I|]. cbn [headOk]. intros Hc.
  rewrite TrimRightFunc_cons by exact Hc. exact Hc.
Qed.

Lemma TrimFunc_headOk s : headOk f (strings.TrimFunc f s).
Proof. apply TrimRightFunc_headOk, TrimLeftFunc_headOk. Qed.

Lemma TrimFunc_lastOk s : lastOk f (strings.TrimFunc f s).
Proof. apply TrimRightFunc_lastOk. Qed.

Lemma TrimFunc_fixed s : headOk f s -> lastOk f s -> strings.TrimFunc f s = s.
Proof.
  intros Hh Hl. unfold strings.TrimFunc.
  rewrite TrimLeftFunc_fixed by exact Hh. apply TrimRightFunc_fixed, Hl.
Qed.

Lemma TrimFunc_idempotent s :
  strings.TrimFunc f (strings.TrimFunc f s) = strings.TrimFunc f s.
Proof. apply TrimFunc_fixed; [apply TrimFunc_headOk | apply TrimFunc_lastOk]. Qed.

Lemma TrimFunc_fixed_inv s : strings.TrimFunc f s = s -> headOk f s /\ lastOk f s.
Proof. intros H. rewrite <- H. split; [apply TrimFunc_headOk | apply TrimFunc_lastOk]. Qed.

Lemma TrimLeftFunc_In x s : In x (strings.TrimLeftFunc f s) -> In x s.
Proof.
  induction s as [|c s IH]; cbn; [tauto|].
  destruct (f c); [intros H; right; exact (IH H) | cbn; tauto].
Qed.

Lemma TrimFunc_In x s : In x (strings.TrimFunc f s) -> In x s.
Proof.
  unfold strings.TrimFunc, strings.TrimRightFunc. intros H.
  apply in_rev, TrimLeftFunc_In, in_rev in H. apply TrimLeftFunc_In, H.
Qed.

Lemma TrimFunc_cons_nonempty c s :
  f c = false -> exists t, strings.TrimFunc f (c :: s) = c :: t.
Proof.
  intros Hc. unfold strings.TrimFunc. cbn [strings.TrimLeftFunc]. rewrite Hc.
  rewrite TrimRightFunc_cons by exact Hc. eexists. reflexivity.
Qed.

End Trimming.

Lemma Split_nonempty s sep : strings.Split s sep <> [].
Proof.
  induction s as [|c s IH]; cbn; [discriminate|].
  destruct (c =? sep); [discriminate|].
  destruct (strings.Split s sep); [contradiction | discriminate].
Qed.

Lemma Split_without_sep s sep : ~ In sep s -> strings.Split s sep = [s].
Proof.
  induction s as [|c s IH]; cbn; [reflexivity|]. intros H.
  destruct (N.eqb_spec c sep) as [->|Hne]; [tauto|].
  rewrite IH by tauto. reflexivity.
Qed.

Lemma Split_app x rest sep :
  ~ In sep x -> strings.Split (x ++ sep :: rest) sep = x :: strings.Split rest sep.
Proof.
  induction x as [|c x IH]; cbn [app strings.Split]; intros H.
  - rewrite N.eqb_refl. reflexivity.
  - destruct (N.eqb_spec c sep) as [->|Hne]; [cbn in H; tauto|].
    rewrite IH by (cbn in H; tauto). reflexivity.
Qed.

Lemma Split_pieces s sep : Forall (fun l => ~ In sep l) (strings.Split s sep).
Proof.
  induction s as [|c s IH]; cbn.
  - constructor; [tauto | constructor].
  - destruct (N.eqb_spec c sep) as [->|Hne].
    + constructor; [tauto | exact IH].
    + destruct (strings.Split s sep) as [|w ws]; [repeat constructor; cbn; tauto|].
      inversion IH as [|? ? Hw Hws]; subst.
      constructor; [cbn; intros [H|H]; [congruence | tauto] | exact Hws].
Qed.

Lemma Split_Join (ls : list gostring) (sep : rune) :
  ls <> [] -> Forall (fun l => ~ In sep l) ls ->
  strings.Split (strings.Join ls [sep]) sep = ls.
Proof.
  induction ls as [|x ls IH]; [congruence|]. intros _ H.
  inversion H as [|? ? Hx Hls]; subst.
  destruct ls as [|y ls].
  - cbn. apply Split_without_sep, Hx.
  - change (strings.Join (x :: y :: ls) [sep])
      with (x ++ sep :: strings.Join (y :: ls) [sep]).
    rewrite Split_app by exact Hx. rewrite IH; [reflexivity | discriminate | exact Hls].
Qed.

Lemma Cut_Some s sep a b :
  strings.Cut s sep = Some (a, b) -> s = a ++ sep :: b /\ ~ In sep a.
Proof.
  revert a b. induction s as [|c s IH]; cbn; [discriminate|]. intros a b.
  destruct (N.eqb_spec c sep) as [->|Hne].
  - intros H. injection H as <- <-. split; [reflexivity | tauto].
  - destruct (strings.Cut s sep) as [[a' b']|]; [|discriminate].
    intros H. injection H as <- <-. destruct (IH a' b' eq_refl) as [-> Hn].
    split; [reflexivity|]. cbn. intros [H|H]; [congruence | tauto].
Qed.

Lemma Cut_app a b sep :
  ~ In sep a -> strings.Cut (a ++ sep :: b) sep = Some (a, b).
Proof.
  induction a as [|c a IH]; cbn [app strings.Cut]; intros H.
  - rewrite N.eqb_refl. reflexivity.
  - destruct (N.eqb_spec c sep) as [->|Hne]; [cbn in H; tauto|].
    rewrite IH by (cbn in H; tauto). reflexivity.
Qed.

Lemma HasPrefix_nil s : strings.HasPrefix s [] = true.
Proof. destruct s; reflexivity. Qed.

Lemma Contains_app a b sep : strings.Contains (a ++ sep :: b) [sep] = true.
Proof.
  induction a as [|c a IH]; cbn [app strings.Contains strings.HasPrefix].
  - rewrite N.eqb_refl, HasPrefix_nil. reflexivity.
  - rewrite IH. apply orb_true_r.
Qed.

Lemma processLines_acc lines acc :
  worker.processLines lines acc = acc ++ worker.processLines lines [].
Proof.
  revert acc. induction lines as [|l lines IH]; intros acc; cbn.
  - rewrite app_nil_r. reflexivity.
  - destruct (worker.processLine l) as [p|].
    + rewrite (IH (acc ++ [p])), (IH [p]), <- app_assoc. reflexivity.
    + apply IH.
Qed.

Lemma processLines_In lines L :
  In L (worker.processLines lines []) ->
  exists line, In line lines /\ worker.processLine line = Some L.
Proof.
  induction lines as [|l lines IH]; cbn; [tauto|].
  destruct (worker.processLine l) as [p|] eqn:Hp.
  - rewrite processLines_acc. cbn. intros [<-|H].
    + exists l. split; [now left | exact Hp].
    + destruct (IH H) as (line & Hin & Hl). exists line. split; [now right | exact Hl].
  - intros H. destruct (IH H) as (line & Hin & Hl). exists line. split; [now right | exact Hl].
Qed.

Lemma processLines_fixed ls :
  Forall (fun L => worker.processLine L = Some L) ls ->
  worker.processLines ls [] = ls.
Proof.
  induction 1 as [|L ls HL _ IH]; cbn; [reflexivity|].
  rewrite HL, processLines_acc, IH. reflexivity.
Qed.

Lemma headOk_app f a b : a <> [] -> headOk f a -> headOk f (a ++ b).
Proof. destruct a; [congruence|]. intros _ H. exact H. Qed.

Lemma processLine_Some line0 L :
  worker.processLine line0 = Some L ->
  exists key value,
    L = key ++ 61 :: value
    /\ ~ In 61 key
    /\ headOk strings.isSpace key /\ lastOk strings.isSpace key
    /\ notHash key
    /\ strings.Trim value [34; 39] = value
    /\ (forall x, In x L -> x = 61 \/ In x line0).
Proof.
  unfold worker.processLine.
  pose proof (TrimFunc_headOk strings.isSpace line0) as Hhead.
  pose proof (fun x => TrimFunc_In strings.isSpace x line0) as Hsub.
  fold (strings.TrimSpace line0) in Hhead, Hsub.
  destruct (strings.TrimSpace line0) as [|c line] eqn:Hline; [discriminate|].
  change (str "#") with [35]. change (str "=") with [61].
  cbn [strings.HasPrefix]. rewrite HasPrefix_nil, andb_true_r.
  destruct (N.eqb_spec c 35) as [->|Hc]; [discriminate|].
  destruct (strings.Contains (c :: line) [61]); [|discriminate]. cbn [negb].
  unfold strings.SplitN2.
  destruct (strings.Cut (c :: line) 61) as [[k v]|] eqn:Hcut; [|discriminate].
  intros H. injection H as <-.
  destruct (Cut_Some _ _ _ _ Hcut) as [Heq Hnk].
  exists (strings.TrimSpace k), (strings.Trim (strings.TrimSpace v) [34; 39]).
  split; [reflexivity|].
  split; [intros H; apply Hnk, (TrimFunc_In _ _ _ H)|].
  split; [apply TrimFunc_headOk|]. split; [apply TrimFunc_lastOk|].
  split.
  { destruct k as [|c' k]; [exact I|].
    injection Heq as <- _. cbn [headOk] in Hhead.
    destruct (TrimFunc_cons_nonempty strings.isSpace c k Hhead) as [t Ht].
    unfold strings.TrimSpace. rewrite Ht. exact Hc. }
  split; [apply TrimFunc_idempotent|].
  intros x Hx. apply in_app_or in Hx. destruct Hx as [Hx|[Hx|Hx]].
  - right. apply Hsub. rewrite Heq. apply in_or_app. left.
    exact (TrimFunc_In _ _ _ Hx).
  - left. congruence.
  - right. apply Hsub. rewrite Heq. apply in_or_app. right. right.
    apply (TrimFunc_In strings.isSpace), (TrimFunc_In (strings.inCutset [34; 39])), Hx.
Qed.

Lemma processLine_fixed key value :
  ~ In 61 key ->
  headOk strings.isSpace key -> lastOk strings.isSpace key -> notHash key ->
  strings.TrimSpace value = value ->
  strings.Trim value [34; 39] = value ->
  worker.processLine (key ++ 61 :: value) = Some (key ++ 61 :: value).
Proof.
  intros Hnk Hkh Hkl Hhash Hv Hq.
  destruct (TrimFunc_fixed_inv _ _ Hv) as [Hvh Hvl].
  assert (Hline : strings.TrimSpace (key ++ 61 :: value) = key ++ 61 :: value).
  { apply TrimFunc_fixed.
    - destruct key; [reflexivity | exact Hkh].
    - unfold lastOk. rewrite rev_app_distr. cbn [rev]. rewrite <- !app_assoc.
      destruct value as [|c v] using rev_ind; [reflexivity|].
      rewrite rev_app_distr. cbn.
      unfold lastOk in Hvl. rewrite rev_app_distr in Hvl. exact Hvl. }
  unfold worker.processLine. rewrite Hline.
  pose proof (Contains_app key value 61) as Hcontains.
  pose proof (Cut_app key value 61 Hnk) as Hcut.
  change (str "#") with [35]. change (str "=") with [61].
  assert (Hprefix : strings.HasPrefix (key ++ 61 :: value) [35] = false).
  { destruct key as [|c key]; cbn [app strings.HasPrefix].
    - reflexivity.
    - cbn [notHash] in Hhash. apply N.eqb_neq in Hhash. rewrite Hhash. reflexivity. }
  rewrite Hprefix, Hcontains. cbn [negb].
  unfold strings.SplitN2. rewrite Hcut.
  unfold strings.TrimSpace, strings.Trim in *.
  rewrite (TrimFunc_fixed _ key Hkh Hkl), Hv, Hq.
  destruct key; reflexivity.
Qed.

Lemma processed_line_shape s L :
  In L (worker.processLines (strings.Split s 10) []) ->
  ~ In 10 L
  /\ exists key value,
       L = key ++ 61 :: value
       /\ ~ In 61 key
       /\ headOk strings.isSpace key /\ lastOk strings.isSpace key
       /\ notHash key
       /\ strings.Trim value [34; 39] = value.
Proof.
  intros HL. destruct (processLines_In _ _ HL) as (line & Hline & Hp).
  destruct (processLine_Some _ _ Hp) as (key & value & HLeq & Hnk & Hh & Hl & Hhash & Hq & Hsub).
  split.
  - intros H10. destruct (Hsub _ H10) as [H|H]; [discriminate|].
    pose proof (Split_pieces s 10) as Hall.
    rewrite Forall_forall in Hall. apply (Hall line); [|exact H].
    apply list_elem_of_In, Hline.
  - exists key, value. auto 10.
Qed.

(** C7 (as amended): normalizing an env file twice gives the same text as
    normalizing it once, provided that in the normalized text no value (the
    part of a line after its first [=]) begins or ends with white space. *)
Theorem processEnvironmentVariables_idempotent_when_values_trimmed :
  forall s : gostring,
    (forall l k v,
       In l (strings.Split (worker.processEnvironmentVariables s) 10) ->
       strings.Cut l 61 = Some (k, v) ->
       strings.TrimSpace v = v) ->
    worker.processEnvironmentVariables (worker.processEnvironmentVariables s)
    = worker.processEnvironmentVariables s.
Proof.
  intros s Hvalues. unfold worker.processEnvironmentVariables in *.
  remember (worker.processLines (strings.Split s 10) []) as out eqn:Hout.
  destruct out as [|L0 out']; [reflexivity|].
  assert (Hsplit : strings.Split (strings.Join (L0 :: out') [10]) 10 = L0 :: out').
  { apply Split_Join; [discriminate|]. apply List.Forall_forall. intros L HL.
    rewrite Hout in HL. apply (processed_line_shape s L HL). }
  rewrite Hsplit in Hvalues |- *.
  rewrite processLines_fixed; [reflexivity|].
  apply List.Forall_forall. intros L HL.
  assert (HL' := HL). rewrite Hout in HL'.
  destruct (processed_line_shape s L HL')
    as (_ & key & value & -> & Hnk & Hh & Hl & Hhash & Hq).
  apply processLine_fixed; auto.
  apply (Hvalues _ key value HL). apply Cut_app, Hnk.
Qed.

Lemma processEnvironmentVariables_idempotent_when_values_trimmed_witness :
  worker.processEnvironmentVariables
    (worker.processEnvironmentVariables
       (str "# hdr" ++ [10] ++ str " A = 1 " ++ [10] ++ [10] ++ str "B='two'"))
  = worker.processEnvironmentVariables
      (str "# hdr" ++ [10] ++ str " A = 1 " ++ [10] ++ [10] ++ str "B='two'").
Proof.
  apply processEnvironmentVariables_idempotent_when_values_trimmed.
  intros l k v Hin Hcut. vm_compute in Hin.
  destruct Hin as [<-|[<-|[]]]; vm_compute in Hcut;
    injection Hcut as <- <-; reflexivity.
Defined.

(** The env file of the specification's third scenario. *)
Example processEnvironmentVariables_scenario :
  worker.processEnvironmentVariables
    (str "# hdr" ++ [10] ++ str "A=1" ++ [10] ++ [10]
       ++ str "B=" ++ [34] ++ str "two" ++ [34] ++ [10]
       ++ str "C='three'" ++ [10] ++ str "# trailing")
  = str "A=1" ++ [10] ++ str "B=two" ++ [10] ++ str "C=three".
Proof. vm_compute. reflexivity. Qed.

(** C7, the claim as stated fails: white space inside the quotes of a value
    survives the first pass, in which the quotes are stripped after the
    trimming, and is trimmed by the second pass. *)
Lemma processEnvironmentVariables_not_idempotent :
  worker.processEnvironmentVariables
    (worker.processEnvironmentVariables (str "A=' x '"))
  <> worker.processEnvironmentVariables (str "A=' x '").
Proof. vm_compute. discriminate. Qed.

(** ** Abandoning the remaining steps *)

Lemma updateDeploymentStep_failByOrder (E : Env) (d : uuid.UUID) (order : Z)
    (msg : gostring) (w : World) :
  (forall n, (seq w <= n)%nat -> db_error E n = None) ->
  let w' := snd (worker.updateDeploymentStep E d order DeploymentStatusFailed
                   (Some msg) w) in
  deployment_steps w'
  = failByOrder d order msg (clock E (S (seq w))) (deployment_steps w)
  /\ (seq w <= seq w')%nat.
Proof.
  intros Hdb.
  unfold worker.updateDeploymentStep, services.GetDeploymentSteps,
    database.GetDeploymentSteps, services.UpdateDeploymentStep,
    database.UpdateDeploymentStep, failByOrder.
  run_monad. rewrite (Hdb (seq w)) by lia. run_monad.
  fold (stepsOf d (deployment_steps w)).
  destruct (worker.findStep (stepsOf d (deployment_steps w)) order) as [target|];
    run_monad.
  - rewrite (Hdb (S (S (seq w)))) by lia. run_monad. split; [reflexivity | lia].
  - split; [reflexivity | lia].
Qed.

Lemma forEach_abandonLoop (E : Env) (d : uuid.UUID) (k : Z) (steps : list DeploymentStep.t) :
  forall w,
    (forall n, (seq w <= n)%nat -> db_error E n = None) ->
    abandonLoop d k steps (deployment_steps w)
      (deployment_steps
         (snd (forEach steps (fun step =>
                 if worker.abandoned k step
                 then worker.updateDeploymentStep E d (DeploymentStep.StepOrder step)
                        DeploymentStatusFailed (Some (worker.abandonReason k))
                      >> ret tt
                 else ret tt) w))).
Proof.
  induction steps as [|step steps IH]; intros w Hdb.
  - constructor.
  - cbn [forEach]. unfold bind at 1.
    destruct (worker.abandoned k step) eqn:Hab.
    + unfold bind at 1.
      destruct (updateDeploymentStep_failByOrder E d (DeploymentStep.StepOrder step)
                  (worker.abandonReason k) w Hdb) as [Hsteps Hseq].
      destruct (worker.updateDeploymentStep E d (DeploymentStep.StepOrder step)
                  DeploymentStatusFailed (Some (worker.abandonReason k)) w)
        as [err w1].
      cbn [snd] in Hsteps, Hseq. unfold ret at 1.
      eapply abandonLoop_fail; [exact Hab|]. rewrite <- Hsteps.
      apply IH. intros n Hn. apply Hdb. lia.
    + unfold ret at 1. apply abandonLoop_skip; [exact Hab|]. apply IH, Hdb.
Qed.

Lemma insertBy_Permutation {A} (le : A -> A -> bool) x l :
  Permutation (insertBy le x l) (x :: l).
Proof.
  induction l as [|y l IH]; cbn; [reflexivity|].
  destruct (le x y); [reflexivity|].
  rewrite IH. apply perm_swap.
Qed.

Lemma orderBy_Permutation {A} (le : A -> A -> bool) l : Permutation (orderBy le l) l.
Proof.
  induction l as [|x l IH]; [reflexivity|].
  unfold orderBy in *. cbn [foldr]. rewrite insertBy_Permutation, IH. reflexivity.
Qed.

Lemma stepsOf_In d rows s :
  In s (stepsOf d rows) <-> In s rows /\ DeploymentStep.DeploymentID s = d.
Proof.
  unfold stepsOf. split.
  - intros H. apply (Permutation_in _ (orderBy_Permutation _ _)) in H.
    apply List.filter_In in H. rewrite N.eqb_eq in H. exact H.
  - intros H. apply (Permutation_in _ (Permutation_sym (orderBy_Permutation _ _))).
    apply List.filter_In. rewrite N.eqb_eq. exact H.
Qed.

Lemma NoDup_map_filter {A B} (f : A -> B) (p : A -> bool) l :
  List.NoDup (List.map f l) -> List.NoDup (List.map f (List.filter p l)).
Proof.
  induction l as [|x l IH]; cbn; [auto|].
  intros H. apply List.NoDup_cons_iff in H as [Hx Hl].
  destruct (p x); [|auto]. cbn. apply List.NoDup_cons_iff. split; [|auto].
  intros Hin. apply Hx.
  apply List.in_map_iff in Hin as (y & Hy & Hin). apply List.in_map_iff.
  exists y. split; [exact Hy|]. apply List.filter_In in Hin. tauto.
Qed.

Lemma stepsOf_NoDup d rows :
  List.NoDup (List.map DeploymentStep.ID rows) ->
  List.NoDup (List.map DeploymentStep.ID (stepsOf d rows)).
Proof.
  intros H. unfold stepsOf.
  eapply Permutation_NoDup;
    [symmetry; apply Permutation_map, orderBy_Permutation|].
  apply NoDup_map_filter, H.
Qed.

Lemma NoDup_map_inj {A B} (f : A -> B) l a b :
  List.NoDup (List.map f l) -> In a l -> In b l -> f a = f b -> a = b.
Proof.
  induction l as [|x l IH]; cbn; [tauto|].
  intros H. apply List.NoDup_cons_iff in H as [Hx Hl].
  intros [->|Ha] [->|Hb] Hf; auto.
  - exfalso. apply Hx. rewrite Hf. apply List.in_map, Hb.
  - exfalso. apply Hx. rewrite <- Hf. apply List.in_map, Ha.
Qed.

Lemma Forall2_map_r_In {A B C} (R : A -> B -> Prop) (R' : A -> C -> Prop)
    (g : B -> C) l l' :
  (forall a b, In a l -> R a b -> R' a (g b)) ->
  Forall2 R l l' -> Forall2 R' l (List.map g l').
Proof.
  intros H HF. induction HF as [|a b l l' Hab _ IH]; cbn; constructor.
  - apply H; [now left | exact Hab].
  - apply IH. intros a' b' Ha'. apply H. now right.
Qed.

Lemma Forall2_impl_In {A B} (R R' : A -> B -> Prop) l l' :
  (forall a b, In a l -> R a b -> R' a b) ->
  Forall2 R l l' -> Forall2 R' l l'.
Proof.
  intros H HF. induction HF as [|a b l l' Hab _ IH]; constructor.
  - apply H; [now left | exact Hab].
  - apply IH. intros a' b' Ha'. apply H. now right.
Qed.

Lemma Forall2_In_r {A B} (R : A -> B -> Prop) l l' b :
  Forall2 R l l' -> In b l' -> exists a, In a l /\ R a b.
Proof.
  intros HF. induction HF as [|a b' l l' Hab _ IH]; cbn; [tauto|].
  intros [<-|Hb].
  - exists a. auto.
  - destruct (IH Hb) as (a' & Ha' & HR). exists a'. auto.
Qed.

Lemma Forall2_In_l {A B} (R : A -> B -> Prop) l l' a :
  Forall2 R l l' -> In a l -> exists b, In b l' /\ R a b.
Proof.
  intros HF. induction HF as [|a' b l l' Hab _ IH]; cbn; [tauto|].
  intros [<-|Ha].
  - exists b. auto.
  - destruct (IH Ha) as (b' & Hb' & HR). exists b'. auto.
Qed.

Lemma markedIf_keys k marked row row' :
  markedIf k marked row row' ->
  DeploymentStep.ID row' = DeploymentStep.ID row
  /\ DeploymentStep.DeploymentID row' = DeploymentStep.DeploymentID row
  /\ DeploymentStep.StepOrder row' = DeploymentStep.StepOrder row.
Proof.
  unfold markedIf, abandonedRow. destruct (marked row).
  - tauto.
  - intros ->. auto.
Qed.

Lemma findStep_Some steps order t :
  worker.findStep steps order = Some t ->
  In t steps /\ DeploymentStep.StepOrder t = order.
Proof.
  unfold worker.findStep. intros H. apply List.find_some in H as [Hin Ho].
  split; [exact Hin | apply Z.eqb_eq, Ho].
Qed.

Lemma findStep_In steps s :
  In s steps -> exists t, worker.findStep steps (DeploymentStep.StepOrder s) = Some t.
Proof.
  unfold worker.findStep. intros Hin.
  destruct (List.find _ steps) as [t|] eqn:Hfind; [eauto|].
  pose proof (List.find_none _ _ Hfind s Hin) as H. cbn in H.
  rewrite Z.eqb_refl in H. discriminate.
Qed.

Lemma failed_row_is_abandoned k now s :
  abandonedRow k s
    (database.updated_step
       (worker.transition s DeploymentStatusFailed (Some (worker.abandonReason k)) now) s).
Proof. repeat split. Qed.

Lemma abandonLoop_marks d k l T T' :
  abandonLoop d k l T T' ->
  forall (T0 : list DeploymentStep.t) (marked : DeploymentStep.t -> bool),
    List.NoDup (List.map DeploymentStep.ID T0) ->
    List.NoDup (List.map DeploymentStep.StepOrder
                  (List.filter (fun s => DeploymentStep.DeploymentID s =? d) T0)) ->
    List.NoDup (List.map DeploymentStep.ID l) ->
    (forall s, In s l ->
       In s T0 /\ DeploymentStep.DeploymentID s = d /\ marked s = false) ->
    Forall2 (markedIf k marked) T0 T ->
    Forall2 (markedIf k (fun r =>
               marked r
               || existsb (fun s => (DeploymentStep.ID s =? DeploymentStep.ID r)
                                    && worker.abandoned k s) l)) T0 T'.
Proof.
  induction 1 as [T | s l T T' Hab _ IH | s l now T T' Hab _ IH];
    intros T0 marked Hids Horders Hl Hin HF.
  - eapply Forall2_impl_In; [|exact HF]. intros a b _ H.
    unfold markedIf in *. cbn [existsb]. rewrite orb_false_r. exact H.
  - apply List.NoDup_cons_iff in Hl as [Hs Hl].
    specialize (IH T0 marked Hids Horders Hl
                  (fun s' Hs' => Hin s' (or_intror Hs')) HF).
    eapply Forall2_impl_In; [|exact IH]. intros a b _ H.
    unfold markedIf in *. cbn [existsb]. rewrite Hab, andb_false_r. exact H.
  - apply List.NoDup_cons_iff in Hl as [Hs Hl].
    destruct (Hin s (or_introl eq_refl)) as (Hs0 & Hsd & Hsm).
    set (marked1 := fun r => marked r || (DeploymentStep.ID s =? DeploymentStep.ID r)).
    assert (HF1 : Forall2 (markedIf k marked1) T0
                    (failByOrder d (DeploymentStep.StepOrder s)
                       (worker.abandonReason k) now T)).
    { (* the row that is looked up by its order is [s] itself *)
      assert (HsT : In s T).
      { destruct (Forall2_In_l _ _ _ _ HF Hs0) as (b & Hb & Hm).
        unfold markedIf in Hm. rewrite Hsm in Hm. subst b. exact Hb. }
      unfold failByOrder.
      destruct (findStep_In (stepsOf d T) s) as [t Ht].
      { apply stepsOf_In. auto. }
      rewrite Ht. apply findStep_Some in Ht as [HtT Hto].
      apply stepsOf_In in HtT as [HtT Htd].
      assert (t = s) as ->.
      { destruct (Forall2_In_r _ _ _ _ HF HtT) as (t0 & Ht0 & Hm).
        destruct (markedIf_keys _ _ _ _ Hm) as (Hid & Hdep & Hord).
        assert (t0 = s) as ->.
        { apply (NoDup_map_inj DeploymentStep.StepOrder _ _ _ Horders).
          - apply List.filter_In. split; [exact Ht0|]. apply N.eqb_eq. congruence.
          - apply List.filter_In. split; [exact Hs0|]. apply N.eqb_eq. congruence.
          - congruence. }
        unfold markedIf in Hm. rewrite Hsm in Hm. exact Hm. }
      eapply Forall2_map_r_In; [|exact HF]. intros a b Ha Hm.
      destruct (markedIf_keys _ _ _ _ Hm) as (Hid & _ & _).
      unfold markedIf, marked1 in *.
      destruct (N.eqb_spec (DeploymentStep.ID b) (DeploymentStep.ID s)) as [Heq|Hne].
      - assert (a = s) as ->.
        { apply (NoDup_map_inj DeploymentStep.ID _ _ _ Hids Ha Hs0). congruence. }
        rewrite Hsm in Hm. subst b. rewrite Hsm, N.eqb_refl. cbn [orb].
        apply failed_row_is_abandoned.
      - replace (DeploymentStep.ID s =? DeploymentStep.ID a) with false.
        + rewrite orb_false_r. exact Hm.
        + symmetry. apply N.eqb_neq. congruence. }
    assert (Hin1 : forall s', In s' l ->
              In s' T0 /\ DeploymentStep.DeploymentID s' = d /\ marked1 s' = false).
    { intros s' Hs'. destruct (Hin s' (or_intror Hs')) as (H1 & H2 & H3).
      split; [exact H1|]. split; [exact H2|]. unfold marked1. rewrite H3. cbn [orb].
      apply N.eqb_neq. intros Heq. apply Hs. rewrite Heq. apply List.in_map, Hs'. }
    specialize (IH T0 marked1 Hids Horders Hl Hin1 HF1).
    eapply Forall2_impl_In; [|exact IH]. intros a b _ H.
    unfold markedIf, marked1 in *. cbn [existsb]. rewrite Hab, andb_true_r.
    rewrite orb_assoc. exact H.
Qed.

Lemma abandoned_guard k row :
  worker.abandoned k row = true
  <-> ((k < DeploymentStep.StepOrder row)%Z
       /\ DeploymentStep.Status row = DeploymentStatusPending)
      \/ DeploymentStep.Status row = DeploymentStatusRunning.
Proof.
  unfold worker.abandoned.
  rewrite orb_true_iff, andb_true_iff, Z.ltb_lt, !bool_decide_eq_true. reflexivity.
Qed.

(** C10: when no database call fails, step ids are unique and the step
    orders of the deployment are pairwise different,
    [markRemainingStepsAsFailed] with failed step [k] rewrites, among the
    rows of the deployment, exactly those that are pending with an order
    above [k] or running with any order: each gets status failed and the
    reason "Step abandoned due to failure in step k" and keeps its id, name,
    order and start time; every other row of the table, in particular every
    completed or failed one, is left as it was. *)
Theorem markRemainingStepsAsFailed_marks_exactly :
  forall (E : Env) (d : uuid.UUID) (k : Z) (w : World),
    (forall n, (seq w <= n)%nat -> db_error E n = None) ->
    List.NoDup (List.map DeploymentStep.ID (deployment_steps w)) ->
    List.NoDup (List.map DeploymentStep.StepOrder
                  (List.filter (fun s => DeploymentStep.DeploymentID s =? d)
                     (deployment_steps w))) ->
    Forall2 (markedIf k (fun row => (DeploymentStep.DeploymentID row =? d)
                                    && worker.abandoned k row))
      (deployment_steps w)
      (deployment_steps (snd (worker.markRemainingStepsAsFailed E d k w)))
    /\ (forall row,
          worker.abandoned k row = true
          <-> ((k < DeploymentStep.StepOrder row)%Z
               /\ DeploymentStep.Status row = DeploymentStatusPending)
              \/ DeploymentStep.Status row = DeploymentStatusRunning)
    /\ (forall row,
          DeploymentStep.Status row = DeploymentStatusCompleted
          \/ DeploymentStep.Status row = DeploymentStatusFailed ->
          worker.abandoned k row = false)
    /\ worker.abandonReason k
       = str "Step abandoned due to failure in step " ++ strconv.Itoa k.
Proof.
  intros E d k w Hdb Hids Horders.
  split; [|split; [apply abandoned_guard|split; [|reflexivity]]].
  - unfold worker.markRemainingStepsAsFailed, services.GetDeploymentSteps,
      database.GetDeploymentSteps.
    run_monad. rewrite (Hdb (seq w)) by lia. run_monad.
    fold (stepsOf d (deployment_steps w)).
    match goal with
    | |- context [forEach ?steps ?body ?w1] =>
        pose proof (forEach_abandonLoop E d k steps w1) as Hloop
    end.
    cbn [seq set_seq deployment_steps] in Hloop.
    specialize (Hloop (fun n Hn => Hdb n ltac:(lia))).
    pose proof (abandonLoop_marks _ _ _ _ _ Hloop (deployment_steps w)
                  (fun _ => false) Hids Horders
                  (stepsOf_NoDup d _ Hids)) as Hmarks.
    eapply Forall2_impl_In; [|apply Hmarks].
    + intros a b Ha Hm. unfold markedIf in *. cbn [orb] in Hm.
      match type of Hm with
      | if ?x then _ else _ =>
          replace ((DeploymentStep.DeploymentID a =? d) && worker.abandoned k a)
            with x; [exact Hm|]
      end.
      apply eq_true_iff_eq. rewrite existsb_exists, andb_true_iff, N.eqb_eq. split.
      * intros (s & Hs & Hcond). apply andb_true_iff in Hcond as [Hid Hab].
        apply N.eqb_eq in Hid. apply stepsOf_In in Hs as [Hs Hsd].
        assert (s = a) as -> by (apply (NoDup_map_inj _ _ _ _ Hids Hs Ha Hid)).
        auto.
      * intros [Hd Hab]. exists a. split; [apply stepsOf_In; auto|].
        rewrite N.eqb_refl, Hab. reflexivity.
    + intros s Hs. apply stepsOf_In in Hs. tauto.
    + clear. induction (deployment_steps w); constructor;
        [reflexivity | assumption].
  - intros row [H|H]; unfold worker.abandoned; rewrite H;
      rewrite andb_false_r; reflexivity.
Qed.

Lemma markRemainingStepsAsFailed_marks_exactly_witness :
  Forall2 (markedIf 3 (fun row => (DeploymentStep.DeploymentID row =? 1)
                                  && worker.abandoned 3 row))
    (deployment_steps Samples.midway)
    (deployment_steps
       (snd (worker.markRemainingStepsAsFailed Samples.quiet 1 3 Samples.midway))).
Proof.
  refine (proj1 (markRemainingStepsAsFailed_marks_exactly Samples.quiet 1 3
                   Samples.midway _ _ _)).
  - intros n _. reflexivity.
  - cbn. repeat constructor; cbn; intuition discriminate.
  - cbn. repeat constructor; cbn; intuition discriminate.
Defined.

Example markRemainingStepsAsFailed_midway :
  List.map DeploymentStep.Status
    (deployment_steps
       (snd (worker.markRemainingStepsAsFailed Samples.quiet 1 3 Samples.midway)))
  = [ DeploymentStatusCompleted; DeploymentStatusFailed; DeploymentStatusFailed;
      DeploymentStatusFailed; DeploymentStatusFailed ].
Proof. vm_compute. reflexivity. Qed.

(** ** The log stream *)

Lemma ltb_trans a b c :
  strings.ltb a b = true -> strings.ltb b c = true -> strings.ltb a c = true.
Proof.
  revert b c. induction a as [|x a IH]; intros [|y b] [|z c]; cbn; try discriminate; auto.
  rewrite !orb_true_iff, !andb_true_iff, !N.ltb_lt, !N.eqb_eq.
  intros [Hxy|[Hxy Hab]] [Hyz|[Hyz Hbc]].
  - left. lia.
  - left. lia.
  - left. lia.
  - right. split; [congruence | eauto].
Qed.

Lemma cursorLe_ltb a b s :
  cursorLe a b -> strings.ltb (uuid.String b) s = true ->
  strings.ltb (uuid.String a) s = true.
Proof. intros [->|H] Hs; [exact Hs | eapply ltb_trans; eauto]. Qed.

Lemma cursorLe_trans a b c : cursorLe a b -> cursorLe b c -> cursorLe a c.
Proof.
  intros Hab [->|Hbc]; [exact Hab|]. right. eapply cursorLe_ltb; eauto.
Qed.

Lemma sendNew_above_cursor logs :
  forall lastLogID,
    cursorLe lastLogID (snd (handlers.sendNew logs lastLogID))
    /\ forall row, In (handlers.log row) (fst (handlers.sendNew logs lastLogID)) ->
                   handlers.newer row lastLogID = true.
Proof.
  induction logs as [|r logs IH]; intros lastLogID; cbn [handlers.sendNew].
  - split; [now left | intros row []].
  - destruct (handlers.newer r lastLogID) eqn:Hr.
    + destruct (IH (DeploymentLog.ID r)) as [Hle Hrows].
      destruct (handlers.sendNew logs (DeploymentLog.ID r)) as [events final].
      cbn [fst snd] in *. split.
      * eapply cursorLe_trans; [right; exact Hr | exact Hle].
      * intros row [Heq|Hin].
        -- injection Heq as <-. exact Hr.
        -- unfold handlers.newer in *. eapply ltb_trans; [exact Hr | exact (Hrows row Hin)].
    + apply IH.
Qed.

Lemma streamTick_above_cursor (E : Env) (d lastLogID : uuid.UUID) (w : World) :
  cursorLe lastLogID (snd (fst (handlers.streamTick E d lastLogID w)))
  /\ forall row,
       In (handlers.log row) (fst (fst (handlers.streamTick E d lastLogID w))) ->
       handlers.newer row lastLogID = true.
Proof.
  unfold handlers.streamTick. cbv [bind].
  destruct (services.GetDeploymentLogs E d 100 w) as [[newLogs|e] w1].
  - destruct (sendNew_above_cursor newLogs lastLogID) as [Hle Hrows].
    destruct (handlers.sendNew newLogs lastLogID) as [events final].
    run_monad. split; [exact Hle|]. intros row Hin.
    apply in_app_or in Hin as [Hin|[Hin|[]]]; [exact (Hrows row Hin) | discriminate].
  - run_monad. split; [now left|]. intros row [Hin|[]]. discriminate.
Qed.

Lemma streamLoop_above_cursor (E : Env) (d : uuid.UUID) (schedule : list handlers.Action) :
  forall (lastLogID : uuid.UUID) (w : World) (row : DeploymentLog.t),
    In (handlers.log row) (fst (fst (handlers.streamLoop E d schedule lastLogID w))) ->
    handlers.newer row lastLogID = true.
Proof.
  induction schedule as [|[|appended] schedule IH]; intros lastLogID w row;
    cbn [handlers.streamLoop].
  - intros [].
  - cbv [bind].
    destruct (streamTick_above_cursor E d lastLogID w) as [Hle Hrows].
    destruct (handlers.streamTick E d lastLogID w) as [[events cursor] w1].
    cbn [fst snd] in *.
    specialize (IH cursor w1 row).
    destruct (handlers.streamLoop E d schedule cursor w1) as [[events' cursor'] w2].
    run_monad. intros Hin. apply in_app_or in Hin as [Hin|Hin].
    + exact (Hrows row Hin).
    + unfold handlers.newer in *. eapply cursorLe_ltb; [exact Hle | exact (IH Hin)].
  - cbv [bind modify]. apply IH.
Qed.

Lemma streamTick_logs (E : Env) (d lastLogID : uuid.UUID) (w : World) :
  deployment_logs (snd (handlers.streamTick E d lastLogID w)) = deployment_logs w.
Proof.
  unfold handlers.streamTick, services.GetDeploymentLogs, database.GetDeploymentLogs.
  run_monad. destruct (db_error E (seq w)); run_monad.
  - reflexivity.
  - destruct (100 <? 0)%Z; run_monad.
    + reflexivity.
    + destruct (handlers.sendNew _ lastLogID). reflexivity.
Qed.

Lemma streamLoop_keeps_rows (E : Env) (d : uuid.UUID) (schedule : list handlers.Action) :
  forall (lastLogID : uuid.UUID) (w : World) (row : DeploymentLog.t),
    In row (deployment_logs w) ->
    In row (deployment_logs (snd (handlers.streamLoop E d schedule lastLogID w))).
Proof.
  induction schedule as [|[|appended] schedule IH]; intros lastLogID w row Hin;
    cbn [handlers.streamLoop].
  - exact Hin.
  - cbv [bind].
    pose proof (streamTick_logs E d lastLogID w) as Hlogs.
    destruct (handlers.streamTick E d lastLogID w) as [[events cursor] w1].
    cbn [fst snd] in *.
    specialize (IH cursor w1 row). rewrite Hlogs in IH. specialize (IH Hin).
    destruct (handlers.streamLoop E d schedule cursor w1) as [[events' cursor'] w2].
    exact IH.
  - cbv [bind modify]. apply IH. cbn. apply in_or_app. now left.
Qed.

(** C3: an observer attaches while the log table of deployment 1 holds one
    row, with id 5; the row sets the cursor.  A second row, with id 2 and
    a later [created_at], is appended afterwards.  Whatever happens next
    (ticks, further rows), the observer never receives the second row: the
    poll only emits rows whose id is greater than the cursor.  *)
Theorem log_stream_never_emits_row_below_cursor :
  forall schedule : list handlers.Action,
    In (Samples.logRow 2 2000)
       (deployment_logs
          (snd (handlers.streamDeploymentLogs Samples.quiet 1
                  (handlers.Append (Samples.logRow 2 2000) :: schedule)
                  Samples.oneLog)))
    /\ ~ In (handlers.log (Samples.logRow 2 2000))
         (fst (handlers.streamDeploymentLogs Samples.quiet 1
                 (handlers.Append (Samples.logRow 2 2000) :: schedule)
                 Samples.oneLog)).
Proof.
  intros schedule. unfold handlers.streamDeploymentLogs.
  cbv [bind].
  assert (Hattach : handlers.streamAttach Samples.quiet 1 Samples.oneLog
                    = ([handlers.connected (uuid.String 1) 0%Z;
                        handlers.log (Samples.logRow 5 1000)], 5,
                       set_seq (fun _ => 2%nat) Samples.oneLog))
    by (vm_compute; reflexivity).
  rewrite Hattach. cbn [fst snd handlers.streamLoop].
  cbv [bind modify].
  match goal with
  | |- context [handlers.streamLoop _ _ schedule 5 ?w1] =>
      pose proof (streamLoop_above_cursor Samples.quiet 1 schedule 5 w1
                    (Samples.logRow 2 2000)) as Hnever;
      pose proof (streamLoop_keeps_rows Samples.quiet 1 schedule 5 w1
                    (Samples.logRow 2 2000)) as Hkept;
      destruct (handlers.streamLoop Samples.quiet 1 schedule 5 w1)
        as [[events cursor] w2]
  end.
  cbn [fst snd ret] in *. split.
  - apply Hkept. cbn. auto.
  - intros [Hin|[Hin|Hin]]; [discriminate | discriminate |].
    specialize (Hnever Hin). vm_compute in Hnever. discriminate.
Qed.

(** ** The worker pipeline *)

Lemma keepsOtherSteps_refl w : keepsOtherSteps w w.
Proof. intros H. split; [exact H | auto]. Qed.

Lemma keepsOtherSteps_trans w1 w2 w3 :
  keepsOtherSteps w1 w2 -> keepsOtherSteps w2 w3 -> keepsOtherSteps w1 w3.
Proof.
  intros H12 H23 H1. destruct (H12 H1) as [H2 Hrows2].
  destruct (H23 H2) as [H3 Hrows3]. split; [exact H3 | auto].
Qed.

Lemma keepsOtherSteps_same_steps w w' :
  deployment_steps w' = deployment_steps w -> keepsOtherSteps w w'.
Proof. intros H. unfold keepsOtherSteps. rewrite H. auto. Qed.

Lemma frames_ret {A} (a : A) : frames (ret a).
Proof. intros w. apply keepsOtherSteps_refl. Qed.

Lemma frames_bind {A B} (m : M A) (k : A -> M B) :
  frames m -> (forall a, frames (k a)) -> frames (bind m k).
Proof.
  intros Hm Hk w. unfold bind. specialize (Hm w).
  destruct (m w) as [a w1]. eapply keepsOtherSteps_trans; [exact Hm | apply Hk].
Qed.

Lemma frames_ask {A} (oracle : nat -> A) : frames (ask oracle).
Proof. intros w. apply keepsOtherSteps_same_steps. reflexivity. Qed.

Lemma frames_gets {A} (f : World -> A) : frames (gets f).
Proof. intros w. apply keepsOtherSteps_refl. Qed.

Lemma framesIfNil_frames m : frames m -> framesIfNil m.
Proof. intros H w _. apply H. Qed.

Lemma framesIfNil_fails m : fails m -> framesIfNil m.
Proof. intros H w Hnil. destruct (H w Hnil). Qed.

Lemma framesIfNil_bind {A} (m : M A) (k : A -> M (option gostring)) :
  frames m -> (forall a, framesIfNil (k a)) -> framesIfNil (bind m k).
Proof.
  intros Hm Hk w. unfold bind. specialize (Hm w).
  destruct (m w) as [a w1]. intros Hnil.
  eapply keepsOtherSteps_trans; [exact Hm | apply Hk, Hnil].
Qed.

Lemma framesIfNil_bind_nil (m : M (option gostring))
    (k : option gostring -> M (option gostring)) :
  framesIfNil m -> (forall e, fails (k (Some e))) -> framesIfNil (k None) ->
  framesIfNil (bind m k).
Proof.
  intros Hm Hfail Hk w. unfold bind. specialize (Hm w).
  destruct (m w) as [[e|] w1]; intros Hnil.
  - destruct (Hfail e w1 Hnil).
  - eapply keepsOtherSteps_trans; [apply Hm; reflexivity | apply Hk, Hnil].
Qed.

Lemma fails_ret e : fails (ret (Some e)).
Proof. intros w. discriminate. Qed.

Lemma fails_bind {A} (m : M A) (k : A -> M (option gostring)) :
  (forall a, fails (k a)) -> fails (bind m k).
Proof. intros Hk w. unfold bind. destruct (m w) as [a w1]. apply Hk. Qed.

Lemma frames_AddDeploymentLog (E : Env) d level message taskName stepOrder :
  frames (services.AddDeploymentLog E d level message taskName stepOrder).
Proof.
  intros w. apply keepsOtherSteps_same_steps.
  unfold services.AddDeploymentLog, database.CreateDeploymentLog. run_monad.
  destruct (db_error E (S (S (seq w)))); reflexivity.
Qed.

Lemma frames_addLog (E : Env) d level message taskName stepOrder :
  frames (worker.addLog E d level message taskName stepOrder).
Proof.
  apply frames_bind; [apply frames_AddDeploymentLog | intros; apply frames_ret].
Qed.

Lemma frames_addLogf (E : Env) d level message taskName stepOrder :
  frames (worker.addLogf E d level message taskName stepOrder).
Proof.
  apply frames_bind; [apply frames_AddDeploymentLog | intros; apply frames_ret].
Qed.

Lemma frames_UpdateDeploymentStatus (E : Env) d status errorMessage :
  frames (services.UpdateDeploymentStatus E d status errorMessage).
Proof.
  intros w. apply keepsOtherSteps_same_steps.
  unfold services.UpdateDeploymentStatus, database.UpdateDeploymentStatus. run_monad.
  destruct (db_error E (S (seq w))); reflexivity.
Qed.

Lemma frames_UpdateJobStatus (E : Env) jobID status errorMessage :
  frames (services.UpdateJobStatus E jobID status errorMessage).
Proof.
  intros w. apply keepsOtherSteps_same_steps.
  unfold services.UpdateJobStatus. run_monad.
  destruct (redis_error E (seq w)); [reflexivity|]. run_monad.
  destruct (job_records w !! jobID); [|reflexivity].
  destruct (bool_decide (status = Job.JobStatusCompleted)
            || bool_decide (status = Job.JobStatusFailed)); run_monad;
    match goal with
    | |- context [redis_error E ?n] => destruct (redis_error E n); reflexivity
    end.
Qed.

Lemma map_ID_updated (g : DeploymentStep.t -> DeploymentStep.t) rows :
  (forall row, DeploymentStep.ID (g row) = DeploymentStep.ID row) ->
  List.map DeploymentStep.ID (List.map g rows) = List.map DeploymentStep.ID rows.
Proof. intros H. rewrite List.map_map. apply List.map_ext, H. Qed.

Lemma frames_updateDeploymentStep (E : Env) d order status errorMessage :
  pipelineOrder order = true ->
  frames (worker.updateDeploymentStep E d order status errorMessage).
Proof.
  intros Horder w.
  unfold worker.updateDeploymentStep, services.GetDeploymentSteps,
    database.GetDeploymentSteps, services.UpdateDeploymentStep,
    database.UpdateDeploymentStep.
  run_monad.
  destruct (db_error E (seq w)); [apply keepsOtherSteps_same_steps; reflexivity|].
  run_monad. fold (stepsOf d (deployment_steps w)).
  destruct (worker.findStep (stepsOf d (deployment_steps w)) order) as [target|] eqn:Hfind;
    [|apply keepsOtherSteps_same_steps; reflexivity].
  run_monad.
  destruct (db_error E (S (S (seq w)))); [apply keepsOtherSteps_same_steps; reflexivity|].
  run_monad. intros Hids.
  cbn [deployment_steps set_deployment_steps set_seq]. split.
  - rewrite map_ID_updated; [exact Hids|].
    intros row. destruct (DeploymentStep.ID row =? _); reflexivity.
  - intros row Hrow Hother.
    apply findStep_Some in Hfind as [Htarget Ho].
    apply stepsOf_In in Htarget as [Htarget _].
    apply List.in_map_iff. exists row. split; [|exact Hrow].
    destruct (N.eqb_spec (DeploymentStep.ID row)
                (DeploymentStep.ID (worker.transition target status errorMessage
                                      (clock E (S (seq w)))))) as [Heq|]; [|reflexivity].
    assert (row = target).
    { apply (NoDup_map_inj DeploymentStep.ID _ _ _ Hids Hrow Htarget).
      rewrite Heq. unfold worker.transition.
      destruct (bool_decide _); [reflexivity|]. destruct (_ || _); reflexivity. }
    subst row. congruence.
Qed.

Lemma frames_NewSession (E : Env) : frames (worker.NewSession E).
Proof. apply frames_ask. Qed.

Lemma frames_CombinedOutput (E : Env) cmd : frames (worker.CombinedOutput E cmd).
Proof. apply frames_ask. Qed.

Lemma frames_failStep (E : Env) d order errorMsg :
  pipelineOrder order = true -> frames (worker.failStep E d order errorMsg).
Proof.
  intros Horder. apply frames_bind; [|intros; apply frames_ret].
  apply frames_updateDeploymentStep, Horder.
Qed.

(** One step through a computation of the worker, chosen by its head. *)
Ltac frames_step :=
  lazymatch goal with
  | |- frames (ret _) => apply frames_ret
  | |- frames (bind _ _) => apply frames_bind; [|intros ?]
  | |- frames (worker.addLog _ _ _ _ _ _) => apply frames_addLog
  | |- frames (worker.addLogf _ _ _ _ _ _) => apply frames_addLogf
  | |- frames (worker.NewSession _) => apply frames_NewSession
  | |- frames (worker.CombinedOutput _ _) => apply frames_CombinedOutput
  | |- frames (ask _) => apply frames_ask
  | |- frames (worker.updateDeploymentStep _ _ _ _ _) =>
      apply frames_updateDeploymentStep; reflexivity
  | |- frames (worker.failStep _ _ _ _) => apply frames_failStep; reflexivity
  | |- frames (match ?x with _ => _ end) => destruct x
  | |- frames (let _ := _ in _) => cbv zeta
  end.

Lemma frames_bestEffort (E : Env) d cmd warning success taskName :
  frames (worker.bestEffort E d cmd warning success taskName).
Proof. unfold worker.bestEffort. repeat frames_step. Qed.

Lemma frames_cloneRepository (E : Env) (L : GoLib) d repoURL pat branch :
  frames (worker.cloneRepository E L d repoURL pat branch).
Proof. unfold worker.cloneRepository. repeat frames_step. Qed.

Lemma frames_buildDockerImage (E : Env) d containerName :
  frames (worker.buildDockerImage E d containerName).
Proof.
  unfold worker.buildDockerImage.
  repeat first [frames_step | apply frames_bestEffort].
Qed.

Lemma frames_runDockerContainer (E : Env) d envVars port containerName :
  frames (worker.runDockerContainer E d envVars port containerName).
Proof. unfold worker.runDockerContainer. repeat frames_step. Qed.

Lemma frames_healthCheck (E : Env) d containerName :
  frames (worker.healthCheck E d containerName).
Proof. unfold worker.healthCheck. repeat frames_step. Qed.

Lemma frames_copyEnvFileToTarget (E : Env) d localEnvFilePath :
  frames (worker.copyEnvFileToTarget E d localEnvFilePath).
Proof. unfold worker.copyEnvFileToTarget. repeat frames_step. Qed.

Lemma frames_runDockerContainerWithEnvFile (E : Env) d envFilePath port containerName :
  frames (worker.runDockerContainerWithEnvFile E d envFilePath port containerName).
Proof. unfold worker.runDockerContainerWithEnvFile. repeat frames_step. Qed.

(** A computation that ends in [return fmt.Errorf(...)]. *)
Ltac fails_step :=
  lazymatch goal with
  | |- fails (ret (Some _)) => apply fails_ret
  | |- fails (bind _ _) => apply fails_bind; intros ?
  | |- fails (let _ := _ in _) => cbv zeta
  end.

Lemma framesIfNil_executeDeploymentSteps (E : Env) (L : GoLib) d repoURL pat branch
    envFilePath envVars port containerName :
  framesIfNil (worker.executeDeploymentSteps E L d repoURL pat branch envFilePath
                 envVars port containerName).
Proof.
  unfold worker.executeDeploymentSteps.
  apply framesIfNil_bind; [apply frames_cloneRepository|].
  intros [e|]; [apply framesIfNil_fails; repeat fails_step|].
  apply framesIfNil_bind; [apply frames_buildDockerImage|].
  intros [e|]; [apply framesIfNil_fails; repeat fails_step|].
  apply framesIfNil_bind_nil.
  - destruct envFilePath.
    + apply framesIfNil_bind; [apply frames_runDockerContainer|].
      intros [e|]; [apply framesIfNil_fails; repeat fails_step|].
      apply framesIfNil_frames, frames_ret.
    + apply framesIfNil_bind; [apply frames_copyEnvFileToTarget|].
      intros [e|]; [apply framesIfNil_fails; repeat fails_step|].
      apply framesIfNil_bind; [apply frames_runDockerContainerWithEnvFile|].
      intros [e|]; [apply framesIfNil_fails; repeat fails_step|].
      apply framesIfNil_frames, frames_ret.
  - intros e. apply fails_ret.
  - apply framesIfNil_bind; [apply frames_healthCheck|].
    intros [e|]; [apply framesIfNil_fails; repeat fails_step|].
    apply framesIfNil_frames, frames_ret.
Qed.

Lemma framesIfNil_processDeploymentJob (E : Env) (L : GoLib) job :
  framesIfNil (worker.processDeploymentJob E L job).
Proof.
  unfold worker.processDeploymentJob. cbv zeta.
  apply framesIfNil_bind; [apply frames_UpdateDeploymentStatus|].
  intros [e|]; [apply framesIfNil_fails; repeat fails_step|].
  apply framesIfNil_bind; [apply frames_addLog|]. intros _.
  destruct (_ || _); [apply framesIfNil_fails; repeat fails_step|].
  apply framesIfNil_bind; [unfold worker.connectSSH; repeat frames_step|].
  intros [e|]; [apply framesIfNil_fails; repeat fails_step|].
  apply framesIfNil_bind; [apply frames_addLog|]. intros _.
  apply framesIfNil_bind_nil.
  - apply framesIfNil_executeDeploymentSteps.
  - intros e. repeat fails_step.
  - apply framesIfNil_frames.
    apply frames_bind; [apply frames_UpdateDeploymentStatus|].
    intros [e|]; [apply frames_ret|].
    apply frames_bind; [apply frames_addLog|]. intros _.
    apply frames_bind; [apply frames_UpdateJobStatus|]. intros _. apply frames_ret.
Qed.

Lemma nil_post_bind {A} (m : M A) (k : A -> M (option gostring)) (Q : World -> Prop) :
  (forall a w, fst (k a w) = None -> Q (snd (k a w))) ->
  forall w, fst (bind m k w) = None -> Q (snd (bind m k w)).
Proof. intros Hk w. unfold bind. destruct (m w) as [a w1]. apply Hk. Qed.

Lemma nil_post_fails (m : M (option gostring)) (Q : World -> Prop) :
  fails m -> forall w, fst (m w) = None -> Q (snd (m w)).
Proof. intros H w Hnil. destruct (H w Hnil). Qed.

Lemma deployments_addLog (E : Env) d level message taskName stepOrder w :
  deployments (snd (worker.addLog E d level message taskName stepOrder w))
  = deployments w.
Proof.
  unfold worker.addLog, services.AddDeploymentLog, database.CreateDeploymentLog.
  run_monad. destruct (db_error E (S (S (seq w)))); reflexivity.
Qed.

Lemma deployments_UpdateJobStatus (E : Env) jobID status errorMessage w :
  deployments (snd (services.UpdateJobStatus E jobID status errorMessage w))
  = deployments w.
Proof.
  unfold services.UpdateJobStatus. run_monad.
  destruct (redis_error E (seq w)); [reflexivity|]. run_monad.
  destruct (job_records w !! jobID); [|reflexivity].
  destruct (bool_decide (status = Job.JobStatusCompleted)
            || bool_decide (status = Job.JobStatusFailed)); run_monad;
    match goal with
    | |- context [redis_error E ?n] => destruct (redis_error E n); reflexivity
    end.
Qed.

Lemma UpdateDeploymentStatus_nil (E : Env) d w :
  fst (services.UpdateDeploymentStatus E d DeploymentStatusCompleted None w) = None ->
  deploymentCompleted d
    (snd (services.UpdateDeploymentStatus E d DeploymentStatusCompleted None w)).
Proof.
  unfold services.UpdateDeploymentStatus, database.UpdateDeploymentStatus. run_monad.
  destruct (db_error E (S (seq w))); [discriminate|]. run_monad.
  intros _ dep Hdep Hid. cbn [deployments set_deployments set_seq] in Hdep.
  apply List.in_map_iff in Hdep as [dep0 [Heq _]].
  destruct (N.eqb_spec (Deployment.ID dep0) d) as [Hd|Hd].
  - subst dep. reflexivity.
  - subst dep. contradiction.
Qed.

(** When the final status update succeeds, the rows of the deployment say
    completed; the log line and the job record that follow leave them. *)
Lemma processDeploymentJob_nil_completed (E : Env) (L : GoLib) job w :
  fst (worker.processDeploymentJob E L job w) = None ->
  deploymentCompleted (Job.DeploymentID job)
    (snd (worker.processDeploymentJob E L job w)).
Proof.
  revert w. unfold worker.processDeploymentJob. cbv zeta.
  apply nil_post_bind. intros [e|]; [apply nil_post_fails, fails_ret|].
  apply nil_post_bind. intros _.
  destruct (_ || _); [apply nil_post_fails; repeat fails_step|].
  apply nil_post_bind. intros [e|]; [apply nil_post_fails; repeat fails_step|].
  apply nil_post_bind. intros _.
  apply nil_post_bind. intros [e|]; [apply nil_post_fails; repeat fails_step|].
  intros w. cbv [bind ret].
  pose proof (UpdateDeploymentStatus_nil E (Job.DeploymentID job) w) as Hdone.
  destruct (services.UpdateDeploymentStatus E (Job.DeploymentID job)
              DeploymentStatusCompleted None w) as [[e|] w1]; [discriminate|].
  intros _. specialize (Hdone eq_refl). cbn [snd] in Hdone.
  unfold deploymentCompleted in *.
  pose proof (deployments_addLog E (Job.DeploymentID job) "info"
                "Deployment completed successfully" "deployment_complete" None w1) as Hlog.
  destruct (worker.addLog _ _ _ _ _ _ w1) as [[] w2].
  pose proof (deployments_UpdateJobStatus E (Job.ID job) Job.JobStatusCompleted None w2)
    as Hjob.
  destruct (services.UpdateJobStatus _ _ _ _ w2) as [r w3].
  cbn [snd] in *. rewrite Hjob, Hlog. exact Hdone.
Qed.

(** C2: whenever [processDeploymentJob] returns nil, every row of the
    job's deployment says completed, and every step row whose order is not
    one of 1, 2, 3, 4 is still in the table exactly as it was before the
    job: the pipeline writes to the orders 1 to 4 only.  Creation numbers
    the steps 1 to 5, so the row health_check (order 5) of a completed
    deployment is still pending. *)
Theorem completed_job_leaves_steps_beyond_four (E : Env) (L : GoLib) job w row :
  List.NoDup (List.map DeploymentStep.ID (deployment_steps w)) ->
  In row (deployment_steps w) ->
  pipelineOrder (DeploymentStep.StepOrder row) = false ->
  fst (worker.processDeploymentJob E L job w) = None ->
  deploymentCompleted (Job.DeploymentID job)
    (snd (worker.processDeploymentJob E L job w))
  /\ In row (deployment_steps (snd (worker.processDeploymentJob E L job w))).
Proof.
  intros Hids Hrow Horder Hnil. split.
  - apply processDeploymentJob_nil_completed, Hnil.
  - destruct (framesIfNil_processDeploymentJob E L job w Hnil Hids) as [_ Hkept].
    apply Hkept; assumption.
Qed.

Lemma completed_job_leaves_steps_beyond_four_witness :
  deploymentCompleted (Job.DeploymentID Samples.job)
    (snd (worker.processDeploymentJob Samples.quiet Samples.lib Samples.job
            Samples.dequeued))
  /\ In Samples.healthCheckRow
       (deployment_steps
          (snd (worker.processDeploymentJob Samples.quiet Samples.lib Samples.job
                  Samples.dequeued))).
Proof.
  apply (completed_job_leaves_steps_beyond_four Samples.quiet Samples.lib
           Samples.job Samples.dequeued Samples.healthCheckRow).
  - vm_compute. repeat constructor; cbn; intuition discriminate.
  - vm_compute. do 4 right. left. reflexivity.
  - reflexivity.
  - vm_compute. reflexivity.
Defined.

(** The same on a run: a deployment is created and its job is processed in
    an environment where nothing fails.  The worker marks the deployment
    completed while the step row health_check (order 5) is still pending. *)
Example completed_deployment_keeps_a_pending_step :
  List.map Deployment.Status
    (deployments
       (snd (worker.StartIteration Samples.quiet Samples.lib
               (snd (services.CreateDeploymentWithEnvFile Samples.quiet Samples.plain []
                       Samples.user empty_world)))))
  = [DeploymentStatusCompleted]
  /\ List.map (fun s => (nameAndOrder s, DeploymentStep.Status s))
       (deployment_steps
          (snd (worker.StartIteration Samples.quiet Samples.lib
                  (snd (services.CreateDeploymentWithEnvFile Samples.quiet Samples.plain []
                          Samples.user empty_world)))))
     = [ (str "validate_credentials", 1%Z, DeploymentStatusCompleted);
         (str "git_clone", 2%Z, DeploymentStatusCompleted);
         (str "docker_build", 3%Z, DeploymentStatusCompleted);
         (str "docker_run", 4%Z, DeploymentStatusCompleted);
         (str "health_check", 5%Z, DeploymentStatusPending) ].
Proof. split; vm_compute; reflexivity. Qed.

(* ===================================================================== *)
(** * Further properties                                                  *)
(* ===================================================================== *)

(** ** Env files: [ToEnvFile], [FromEnvFile] and the worker's normalization *)

Lemma parseLines_acc lines acc :
  parseLines lines acc = acc ++ parseLines lines [].
Proof.
  revert acc. induction lines as [|l lines IH]; intros acc; cbn.
  - rewrite app_nil_r. reflexivity.
  - destruct (parseLine l) as [p|].
    + rewrite (IH (acc ++ [p])), (IH [p]), <- app_assoc. reflexivity.
    + apply IH.
Qed.

Lemma processLine_parseLine line :
  worker.processLine line = option_map envLine (parseLine line).
Proof.
  unfold worker.processLine, parseLine.
  destruct (strings.TrimSpace line) as [|c l]; [reflexivity|].
  cbv beta iota zeta. rewrite bool_decide_eq_false_2 by discriminate. cbn [orb].
  destruct (strings.HasPrefix (c :: l) (str "#")); [reflexivity|].
  destruct (strings.Contains (c :: l) (str "=")); [|reflexivity]. cbn [negb].
  destruct (strings.SplitN2 (c :: l) 61) as [|p0 [|p1 [|p2 ps]]]; reflexivity.
Qed.

Lemma processLines_parseLines lines :
  worker.processLines lines [] = List.map envLine (parseLines lines []).
Proof.
  induction lines as [|l lines IH]; cbn; [reflexivity|].
  rewrite processLine_parseLine.
  destruct (parseLine l) as [p|]; cbn [option_map]; [|exact IH].
  rewrite processLines_acc, parseLines_acc, IH. reflexivity.
Qed.

(** X1: the worker's normalization of an env text is what the models package
    gives by parsing the text and printing the variables again. *)
Theorem processEnvironmentVariables_is_parse_then_print (s : gostring) :
  worker.processEnvironmentVariables s = ToEnvFile (FromEnvFile s).
Proof.
  unfold worker.processEnvironmentVariables, ToEnvFile, FromEnvFile.
  cbv zeta. rewrite processLines_parseLines. reflexivity.
Qed.

Lemma parseLine_envLine env :
  cleanVariable env -> parseLine (envLine env) = Some env.
Proof.
  destruct env as [key value]. unfold cleanVariable, envLine.
  cbn [EnvironmentVariable.Key EnvironmentVariable.Value].
  intros (Hnk & _ & Hkh & Hkl & Hhash & _ & Hv & Hq).
  change (str "=") with [61]. change (key ++ [61] ++ value) with (key ++ 61 :: value).
  destruct (TrimFunc_fixed_inv _ _ Hv) as [Hvh Hvl].
  assert (Hline : strings.TrimSpace (key ++ 61 :: value) = key ++ 61 :: value).
  { apply TrimFunc_fixed.
    - destruct key; [reflexivity | exact Hkh].
    - unfold lastOk. rewrite rev_app_distr. cbn [rev]. rewrite <- !app_assoc.
      destruct value as [|c v] using rev_ind; [reflexivity|].
      rewrite rev_app_distr. cbn.
      unfold lastOk in Hvl. rewrite rev_app_distr in Hvl. exact Hvl. }
  unfold parseLine. rewrite Hline.
  rewrite bool_decide_eq_false_2 by (destruct key; discriminate). cbn [orb].
  change (str "#") with [35]. change (str "=") with [61].
  assert (Hprefix : strings.HasPrefix (key ++ 61 :: value) [35] = false).
  { destruct key as [|c key]; cbn [app strings.HasPrefix].
    - reflexivity.
    - cbn [notHash] in Hhash. apply N.eqb_neq in Hhash. rewrite Hhash. reflexivity. }
  rewrite Hprefix, (Contains_app key value 61).
  unfold strings.SplitN2. rewrite (Cut_app key value 61 Hnk).
  unfold strings.TrimSpace, strings.Trim in *.
  rewrite (TrimFunc_fixed _ key Hkh Hkl), Hv, Hq. reflexivity.
Qed.

Lemma parseLines_envLines ev :
  Forall cleanVariable ev -> parseLines (List.map envLine ev) [] = ev.
Proof.
  induction 1 as [|env ev Henv _ IH]; cbn; [reflexivity|].
  rewrite (parseLine_envLine env Henv), parseLines_acc, IH. reflexivity.
Qed.

(** X2: printing clean variables to an env file and parsing the file gives the
    variables back, in order. *)
Theorem FromEnvFile_ToEnvFile (ev : list EnvironmentVariable.t) :
  Forall cleanVariable ev -> FromEnvFile (ToEnvFile ev) = ev.
Proof.
  intros Hev. unfold FromEnvFile, ToEnvFile.
  destruct ev as [|env ev]; [reflexivity|].
  rewrite Split_Join.
  - apply parseLines_envLines, Hev.
  - discriminate.
  - apply List.Forall_map. revert Hev. apply List.Forall_impl.
    intros [key value] (_ & Hk & _ & _ & _ & Hv & _). unfold envLine.
    cbn [EnvironmentVariable.Key EnvironmentVariable.Value] in *.
    intros H. apply in_app_or in H. destruct H as [H|[H|H]]; [tauto | discriminate | tauto].
Qed.

Lemma FromEnvFile_ToEnvFile_witness :
  FromEnvFile (ToEnvFile [ EnvironmentVariable.mk (str "PORT") (str "8080");
                           EnvironmentVariable.mk (str "GREETING") (str "hello world=1") ])
  = [ EnvironmentVariable.mk (str "PORT") (str "8080");
      EnvironmentVariable.mk (str "GREETING") (str "hello world=1") ].
Proof.
  apply FromEnvFile_ToEnvFile.
  repeat constructor; vm_compute; intuition discriminate.
Defined.

(** ** Container names *)

Lemma sanitizeRune_nameRune r : nameRune (services.sanitizeRune r) = true.
Proof.
  unfold services.sanitizeRune. fold (nameRune r).
  destruct (nameRune r) eqn:H; [exact H | reflexivity].
Qed.

Lemma Forall_TrimFunc (P : rune -> Prop) f s :
  Forall P s -> Forall P (strings.TrimFunc f s).
Proof.
  rewrite !List.Forall_forall. intros H x Hx. apply H, (TrimFunc_In f), Hx.
Qed.

Lemma Forall_take_list {A} (P : A -> Prop) n (l : list A) :
  Forall P l -> Forall P (take n l).
Proof.
  intros H. revert n. induction H as [|x l Hx _ IH]; intros [|n]; cbn;
    constructor; auto.
Qed.

Lemma sanitizeContainerName_runes (name : gostring) :
  services.sanitizeContainerName name <> []
  /\ (length (services.sanitizeContainerName name) <= 50)%nat
  /\ Forall (fun r => nameRune r = true) (services.sanitizeContainerName name)
  /\ headOk (N.eqb 45) (services.sanitizeContainerName name).
Proof.
  unfold services.sanitizeContainerName. cbv zeta.
  set (result := List.map services.sanitizeRune (strings.ToLower name)).
  assert (Hres : Forall (fun r => nameRune r = true) result).
  { apply List.Forall_map, List.Forall_forall. intros r _. apply sanitizeRune_nameRune. }
  pose proof (Forall_TrimFunc _ (strings.inCutset (str "-")) _ Hres) as Htrim.
  pose proof (TrimFunc_headOk (strings.inCutset (str "-")) result) as Hhead.
  fold (strings.Trim result (str "-")) in Htrim, Hhead.
  set (sanitized := match strings.Trim result (str "-") with
                    | [] => str "app"
                    | _ => strings.Trim result (str "-")
                    end).
  assert (Hs : sanitized <> [] /\ Forall (fun r => nameRune r = true) sanitized
               /\ headOk (N.eqb 45) sanitized).
  { subst sanitized. destruct (strings.Trim result (str "-")) as [|c t].
    - split; [discriminate|]. split; [|reflexivity].
      repeat constructor.
    - split; [discriminate|]. split; [exact Htrim|].
      cbn [headOk] in *. unfold strings.inCutset in Hhead.
      change (str "-") with [45] in Hhead. cbn [existsb] in Hhead.
      rewrite orb_false_r in Hhead. rewrite N.eqb_sym. exact Hhead. }
  destruct Hs as (Hne & Hall & Hh).
  destruct (50 <? length sanitized)%nat eqn:Hlen.
  - destruct sanitized as [|c t]; [congruence|].
    split; [discriminate|]. split; [rewrite length_take; lia|].
    split; [apply Forall_take_list, Hall | exact Hh].
  - apply Nat.ltb_ge in Hlen. auto.
Qed.

(** X3: whatever the input, [sanitizeContainerName] returns between 1 and 50
    runes, all of them in [a-z0-9-], and the first one is not a hyphen. *)
Theorem sanitizeContainerName_shape (name : gostring) :
  services.sanitizeContainerName name <> []
  /\ (length (services.sanitizeContainerName name) <= 50)%nat
  /\ Forall (fun r => nameRune r = true) (services.sanitizeContainerName name)
  /\ headOk (N.eqb 45) (services.sanitizeContainerName name).
Proof. apply sanitizeContainerName_runes. Qed.

Lemma hexDigit_nameRune n : n < 16 -> nameRune (uuid.hexDigit n) = true.
Proof.
  intros H. unfold uuid.hexDigit, nameRune.
  destruct (N.ltb_spec n 10).
  - apply orb_true_iff. left. apply orb_true_iff. right.
    apply andb_true_iff. split; apply N.leb_le; lia.
  - apply orb_true_iff. left. apply orb_true_iff. left.
    apply andb_true_iff. split; apply N.leb_le; lia.
Qed.

Lemma hex_nameRune width v : Forall (fun r => nameRune r = true) (uuid.hex width v).
Proof.
  revert v. induction width as [|w IH]; intros v; cbn [uuid.hex]; [constructor|].
  apply List.Forall_app. split; [apply IH|].
  constructor; [|constructor]. apply hexDigit_nameRune, N.mod_lt. discriminate.
Qed.

Lemma length_hex width v : length (uuid.hex width v) = width.
Proof.
  revert v. induction width as [|w IH]; intros v; cbn [uuid.hex]; [reflexivity|].
  rewrite length_app, IH. cbn. lia.
Qed.

Lemma Forall_drop_list {A} (P : A -> Prop) n (l : list A) :
  Forall P l -> Forall P (drop n l).
Proof.
  intros H. revert n. induction H as [|x l Hx Hl IH]; intros [|n]; cbn;
    auto.
Qed.

Lemma String_nameRune id :
  Forall (fun r => nameRune r = true) (uuid.String id)
  /\ length (uuid.String id) = 36%nat.
Proof.
  unfold uuid.String. cbv zeta.
  pose proof (hex_nameRune 32 id) as H. pose proof (length_hex 32 id) as Hlen.
  revert H Hlen. generalize (uuid.hex 32 id). intros h H Hlen. split.
  - rewrite !List.Forall_app.
    repeat split;
      first [ apply Forall_take_list, Forall_drop_list, H
            | apply Forall_take_list, H
            | apply Forall_drop_list, H
            | repeat constructor ].
  - rewrite !length_app, !length_take, !length_drop, Hlen. reflexivity.
Qed.

(** X4: when the request supplies no container name, the generated name begins
    with [deployknot-], consists of runes in [a-z0-9-] only and has at most
    112 of them. *)
Theorem generateContainerName_shape (id : uuid.UUID)
    (containerName projectName deploymentName : option gostring) :
  services.nonEmpty containerName = None ->
  exists rest,
    services.generateContainerName id containerName projectName deploymentName
    = str "deployknot-" ++ rest
    /\ Forall (fun r => nameRune r = true) rest
    /\ (1 <= length rest <= 101)%nat.
Proof.
  intros Hnone. unfold services.generateContainerName. rewrite Hnone.
  destruct (String_nameRune id) as [Hid Hidlen].
  destruct (services.nonEmpty projectName) as [p|];
    [destruct (services.nonEmpty deploymentName) as [d|]|].
  - cbv zeta.
    destruct (sanitizeContainerName_runes p) as (Hp0 & Hp1 & Hp2 & _).
    destruct (sanitizeContainerName_runes d) as (Hd0 & Hd1 & Hd2 & _).
    eexists. split; [reflexivity|]. split.
    + apply List.Forall_app. split; [exact Hp2|].
      apply List.Forall_app. split; [repeat constructor | exact Hd2].
    + rewrite !length_app. change (length (str "-")) with 1%nat. lia.
  - eexists. split; [reflexivity|]. split; [exact Hid | lia].
  - eexists. split; [reflexivity|]. split; [exact Hid | lia].
Qed.

Lemma generateContainerName_shape_witness :
  exists rest,
    services.generateContainerName 77 (Some []) (Some (str "My App")) (Some (str "v2"))
    = str "deployknot-" ++ rest
    /\ Forall (fun r => nameRune r = true) rest
    /\ (1 <= length rest <= 101)%nat.
Proof. apply generateContainerName_shape. reflexivity. Defined.

(** ** Validation *)

(** X5: the service's validator accepts exactly the requests that the model's
    validator accepts and that also name a branch and carry a port that
    [GetPortAsInt] converts. *)
Theorem ValidateDeploymentRequest_accepts (req : CreateDeploymentRequest.t) :
  services.ValidateDeploymentRequest req = None
  <-> CreateDeploymentRequest.Validate req = None
      /\ CreateDeploymentRequest.GitHubBranch req <> []
      /\ exists port, CreateDeploymentRequest.GetPortAsInt req = Ok port.
Proof.
  unfold services.ValidateDeploymentRequest, CreateDeploymentRequest.Validate.
  destruct (CreateDeploymentRequest.GetPortAsInt req) as [port|e] eqn:Hport.
  - assert (Hp : CreateDeploymentRequest.Port req <> []).
    { intros Hp. unfold CreateDeploymentRequest.GetPortAsInt in Hport.
      rewrite bool_decide_eq_true_2 in Hport by exact Hp. discriminate. }
    repeat case_bool_decide; split;
      first [ discriminate | congruence
            | intros (? & ? & ?); first [discriminate | congruence]
            | intros _; repeat split; eauto ].
  - repeat case_bool_decide; split;
      first [ discriminate | intros (_ & _ & ? & ?); discriminate ].
Qed.

(** ** Reading back what creation wrote *)

(** X6: a deployment that has just been created under an id that no earlier
    row uses is found by [GetDeployment], when the read reaches the
    database, and the answer agrees with what creation reported in the id,
    the status (pending), the target, the repository, the branch, the port,
    the container name and the project and deployment names. *)
Theorem GetDeployment_after_creation (E : Env) (req : CreateDeploymentRequest.t)
    (path : gostring) (user : uuid.UUID) (w : World) (resp : DeploymentResponse.t) :
  Forall (fun d => Deployment.ID d <> rand E (seq w)) (deployments w) ->
  fst (services.CreateDeploymentWithEnvFile E req path user w) = Ok resp ->
  db_error E (seq (snd (services.CreateDeploymentWithEnvFile E req path user w))) = None ->
  exists found,
    fst (services.GetDeployment E (DeploymentResponse.ID resp)
           (snd (services.CreateDeploymentWithEnvFile E req path user w)))
    = Ok found
    /\ sameButCreatedAt found resp.
Proof.
  intros Hfresh Hok Hread.
  pose proof (CreateDeploymentWithEnvFile_outcome E req path user w) as Hout.
  destruct (services.CreateDeploymentWithEnvFile E req path user w) as [r w'].
  cbn [fst snd] in *. subst r. unfold creation_outcome in Hout.
  destruct (CreateDeploymentRequest.GetPortAsInt req) as [port|e]; [|discriminate].
  destruct (db_error E (S (S (seq w)))) as [e|]; cbn [fst snd] in Hout.
  { destruct Hout as [H _]. discriminate. }
  destruct Hout as (Hresp & Hd & _). injection Hresp as ->.
  unfold services.GetDeployment, database.GetDeployment. run_monad.
  rewrite Hread. run_monad. rewrite Hd.
  cbn [services.createdResponse DeploymentResponse.ID].
  assert (Hfind : forall rows row,
            Forall (fun d => Deployment.ID d <> rand E (seq w)) rows ->
            Deployment.ID row = rand E (seq w) ->
            List.find (fun d => Deployment.ID d =? rand E (seq w)) (rows ++ [row])
            = Some row).
  { intros rows row Hrows Hrow. induction Hrows as [|d rows Hd' _ IH]; cbn.
    - rewrite Hrow, N.eqb_refl. reflexivity.
    - apply N.eqb_neq in Hd'. rewrite Hd'. exact IH. }
  rewrite Hfind; [|exact Hfresh | reflexivity].
  eexists. split; [reflexivity|]. repeat split.
Qed.

Lemma GetDeployment_after_creation_witness :
  exists found,
    fst (services.GetDeployment Samples.quiet
           (DeploymentResponse.ID
              (services.createdResponse Samples.plain 1000 1000000000 3000
                 (str "deployknot-p-d")))
           (snd (services.CreateDeploymentWithEnvFile Samples.quiet Samples.plain []
                   Samples.user empty_world)))
    = Ok found
    /\ sameButCreatedAt found
         (services.createdResponse Samples.plain 1000 1000000000 3000
            (str "deployknot-p-d")).
Proof.
  apply GetDeployment_after_creation.
  - constructor.
  - vm_compute. reflexivity.
  - reflexivity.
Defined.

(** ** Queries: order, bounds and pages *)

Lemma insertBy_sortedBy {A} (key : A -> Z) x l :
  sortedBy key l -> sortedBy key (insertBy (fun a b => (key a <=? key b)%Z) x l).
Proof.
  induction l as [|y l IH]; cbn; [auto|]. intros [Hy Hl].
  destruct (Z.leb_spec (key x) (key y)) as [Hle|Hlt]; cbn.
  - split; [|auto]. constructor; [exact Hle|].
    revert Hy. apply List.Forall_impl. intros; lia.
  - split; [|auto].
    apply List.Forall_forall. intros z Hz.
    apply (Permutation_in _ (insertBy_Permutation _ x l)) in Hz.
    destruct Hz as [<-|Hz]; [lia|].
    rewrite List.Forall_forall in Hy. apply Hy, Hz.
Qed.

Lemma orderBy_sortedBy {A} (key : A -> Z) l :
  sortedBy key (orderBy (fun a b => (key a <=? key b)%Z) l).
Proof.
  induction l as [|x l IH]; cbn; [exact I|]. apply insertBy_sortedBy, IH.
Qed.

Lemma sortedBy_app {A} (key : A -> Z) (a b : list A) :
  sortedBy key (a ++ b) ->
  sortedBy key a /\ sortedBy key b
  /\ forall x y, In x a -> In y b -> (key x <= key y)%Z.
Proof.
  induction a as [|c a IH]; cbn.
  - intros H. split; [exact I|]. split; [exact H | tauto].
  - intros [Hc Ha]. destruct (IH Ha) as (Ha' & Hb & Hab).
    apply List.Forall_app in Hc as [Hca Hcb].
    split; [split; assumption|]. split; [exact Hb|].
    intros x y [<-|Hx] Hy; [|auto].
    rewrite List.Forall_forall in Hcb. apply Hcb, Hy.
Qed.

Lemma sortedBy_take {A} (key : A -> Z) n (l : list A) :
  sortedBy key l -> sortedBy key (take n l).
Proof.
  intros H. rewrite <- (take_drop n l) in H. apply sortedBy_app in H. tauto.
Qed.

Lemma services_GetDeploymentSteps_Ok (E : Env) id w steps :
  fst (services.GetDeploymentSteps E id w) = Ok steps ->
  steps = stepsOf id (deployment_steps w)
  /\ deployment_steps (snd (services.GetDeploymentSteps E id w)) = deployment_steps w.
Proof.
  unfold services.GetDeploymentSteps, database.GetDeploymentSteps. run_monad.
  destruct (db_error E (seq w)); run_monad; [discriminate|].
  intros H. injection H as <-. split; reflexivity.
Qed.

(** X7: a 200 answer of the steps endpoint lists the step rows of the
    requested deployment, all of them and nothing else, in nondecreasing
    step order. *)
Theorem GetDeploymentSteps_lists_the_deployment_in_order (E : Env) (L : GoLib)
    (idStr : gostring) (w : World) (b : handlers.Body) :
  fst (handlers.GetDeploymentSteps E L idStr w)
  = handlers.mkResponse handlers.StatusOK b ->
  exists id steps,
    uuid_Parse L idStr = Some id
    /\ b = handlers.StepsBody id steps
    /\ sortedBy DeploymentStep.StepOrder steps
    /\ Permutation steps
         (List.filter (fun s => DeploymentStep.DeploymentID s =? id) (deployment_steps w)).
Proof.
  unfold handlers.GetDeploymentSteps.
  destruct (uuid_Parse L idStr) as [id|]; [|discriminate].
  unfold bind.
  pose proof (services_GetDeploymentSteps_Ok E id w) as Hsteps.
  destruct (services.GetDeploymentSteps E id w) as [[steps|e] w1]; [|discriminate].
  cbn [fst snd ret] in *. intros H. injection H as <-.
  destruct (Hsteps steps eq_refl) as [-> _].
  exists id, (stepsOf id (deployment_steps w)).
  split; [reflexivity|]. split; [reflexivity|].
  split; [apply orderBy_sortedBy | apply orderBy_Permutation].
Qed.

Lemma GetDeploymentSteps_lists_the_deployment_in_order_witness :
  exists id steps,
    uuid_Parse (Samples.libFor 1) (uuid.String 1) = Some id
    /\ handlers.StepsBody 1 (deployment_steps Samples.midway)
       = handlers.StepsBody id steps
    /\ sortedBy DeploymentStep.StepOrder steps
    /\ Permutation steps
         (List.filter (fun s => DeploymentStep.DeploymentID s =? id)
            (deployment_steps Samples.midway)).
Proof.
  apply (GetDeploymentSteps_lists_the_deployment_in_order Samples.quiet
           (Samples.libFor 1) (uuid.String 1) Samples.midway).
  vm_compute. reflexivity.
Defined.

Lemma services_GetDeploymentLogs_Ok (E : Env) id limit w logs :
  fst (services.GetDeploymentLogs E id limit w) = Ok logs ->
  (0 <= limit)%Z
  /\ logs = take (Z.to_nat limit)
              (orderBy (fun x y => (DeploymentLog.CreatedAt x <=? DeploymentLog.CreatedAt y)%Z)
                 (List.filter (fun l => DeploymentLog.DeploymentID l =? id)
                    (deployment_logs w))).
Proof.
  unfold services.GetDeploymentLogs, database.GetDeploymentLogs. run_monad.
  destruct (db_error E (seq w)); run_monad; [discriminate|].
  destruct (Z.ltb_spec limit 0) as [Hneg|Hpos]; run_monad; [discriminate|].
  intros H. injection H as <-. split; [lia | reflexivity].
Qed.

(** X8: a 200 answer of the logs endpoint (JSON branch) carries at most
    [limit] rows, 100 when the query gives no number; they are rows of the
    requested deployment in nondecreasing order of creation, and they are
    the oldest ones: no row of the deployment that is left out was created
    before a row that is returned. *)
Theorem GetDeploymentLogs_returns_the_oldest_rows (E : Env) (L : GoLib)
    (idStr accept : gostring) (limitQuery : option gostring)
    (schedule : list handlers.Action) (w : World) (b : handlers.Body) :
  accept <> str "text/event-stream" ->
  fst (handlers.GetDeploymentLogs E L idStr accept limitQuery schedule w)
  = inl (handlers.mkResponse handlers.StatusOK b) ->
  exists id logs,
    uuid_Parse L idStr = Some id
    /\ b = handlers.LogsBody id logs
    /\ (0 <= effectiveLimit limitQuery)%Z
    /\ (Z.of_nat (length logs) <= effectiveLimit limitQuery)%Z
    /\ sortedBy DeploymentLog.CreatedAt logs
    /\ Forall (fun l => In l (deployment_logs w) /\ DeploymentLog.DeploymentID l = id) logs
    /\ forall l r, In l logs -> In r (deployment_logs w) ->
                   DeploymentLog.DeploymentID r = id -> ~ In r logs ->
                   (DeploymentLog.CreatedAt l <= DeploymentLog.CreatedAt r)%Z.
Proof.
  intros Haccept. unfold handlers.GetDeploymentLogs.
  destruct (uuid_Parse L idStr) as [id|]; [|discriminate].
  rewrite bool_decide_eq_false_2 by exact Haccept. cbv zeta.
  replace (match strconv.Atoi match limitQuery with
                                | Some s => s
                                | None => str "100"
                                end with
           | Some l => l
           | None => 100%Z
           end) with (effectiveLimit limitQuery)
    by (destruct limitQuery; reflexivity).
  unfold bind.
  pose proof (services_GetDeploymentLogs_Ok E id (effectiveLimit limitQuery) w) as Hlogs.
  destruct (services.GetDeploymentLogs E id (effectiveLimit limitQuery) w)
    as [[logs|e] w1]; [|discriminate].
  cbn [fst snd ret] in *. intros H. injection H as <-.
  destruct (Hlogs logs eq_refl) as [Hlimit ->]. clear Hlogs.
  set (rows := List.filter (fun l => DeploymentLog.DeploymentID l =? id) (deployment_logs w)).
  set (sorted := orderBy _ rows).
  assert (Hperm : Permutation sorted rows) by apply orderBy_Permutation.
  assert (Hsorted : sortedBy DeploymentLog.CreatedAt sorted) by apply orderBy_sortedBy.
  exists id, (take (Z.to_nat (effectiveLimit limitQuery)) sorted).
  split; [reflexivity|]. split; [reflexivity|]. split; [exact Hlimit|].
  split; [rewrite length_take; lia|].
  split; [apply sortedBy_take, Hsorted|].
  split.
  - apply List.Forall_forall. intros l Hl.
    assert (Hin : In l rows).
    { apply (Permutation_in _ Hperm).
      rewrite <- (take_drop (Z.to_nat (effectiveLimit limitQuery)) sorted).
      apply in_or_app. left. exact Hl. }
    apply List.filter_In in Hin as [Hin Hid]. apply N.eqb_eq in Hid. auto.
  - intros l r Hl Hr Hid Hout.
    assert (Hrs : In r sorted).
    { apply (Permutation_in _ (Permutation_sym Hperm)).
      apply List.filter_In. split; [exact Hr | apply N.eqb_eq, Hid]. }
    rewrite <- (take_drop (Z.to_nat (effectiveLimit limitQuery)) sorted) in Hrs, Hsorted.
    apply in_app_or in Hrs as [Hrs|Hrs]; [contradiction|].
    apply sortedBy_app in Hsorted as (_ & _ & Hle). apply Hle; assumption.
Qed.

Lemma GetDeploymentLogs_returns_the_oldest_rows_witness :
  exists id logs,
    uuid_Parse (Samples.libFor 1) (uuid.String 1) = Some id
    /\ handlers.LogsBody 1 (deployment_logs Samples.oneLog)
       = handlers.LogsBody id logs
    /\ (0 <= effectiveLimit (Some (str "5")))%Z
    /\ (Z.of_nat (length logs) <= effectiveLimit (Some (str "5")))%Z
    /\ sortedBy DeploymentLog.CreatedAt logs
    /\ Forall (fun l => In l (deployment_logs Samples.oneLog)
                        /\ DeploymentLog.DeploymentID l = id) logs
    /\ forall l r, In l logs -> In r (deployment_logs Samples.oneLog) ->
                   DeploymentLog.DeploymentID r = id -> ~ In r logs ->
                   (DeploymentLog.CreatedAt l <= DeploymentLog.CreatedAt r)%Z.
Proof.
  apply (GetDeploymentLogs_returns_the_oldest_rows Samples.quiet (Samples.libFor 1)
           (uuid.String 1) (str "application/json") (Some (str "5")) []
           Samples.oneLog).
  - vm_compute. discriminate.
  - vm_compute. reflexivity.
Defined.

Lemma services_GetDeploymentsByUser_Ok (E : Env) u limit offset w resps :
  fst (services.GetDeploymentsByUser E u limit offset w) = Ok resps ->
  (0 <= limit)%Z /\ (0 <= offset)%Z
  /\ resps
     = List.map services.toResponse
         (take (Z.to_nat limit) (drop (Z.to_nat offset)
            (orderBy (fun x y => (Deployment.CreatedAt y <=? Deployment.CreatedAt x)%Z)
               (List.filter (fun d => bool_decide (Deployment.UserID d = Some u))
                  (deployments w)))))
  /\ deployments (snd (services.GetDeploymentsByUser E u limit offset w)) = deployments w.
Proof.
  unfold services.GetDeploymentsByUser, database.GetDeploymentsByUserID. run_monad.
  destruct (db_error E (seq w)); run_monad; [discriminate|].
  destruct (Z.ltb_spec limit 0) as [Hl|Hl]; destruct (Z.ltb_spec offset 0) as [Ho|Ho];
    cbn [orb]; run_monad; try discriminate.
  destruct (db_error E (S (seq w))); run_monad; [discriminate|].
  intros H. injection H as <-. repeat split; lia.
Qed.

(** X9: two consecutive pages of a user's deployments, read while the table
    does not change, are together the one page that spans both: paging
    leaves no gap and gives no row twice.  (The creation times of the user's
    deployments are taken to differ, so that ORDER BY fixes the order.) *)
Theorem GetDeploymentsByUser_pages_compose (E : Env) (u : uuid.UUID)
    (limit1 limit2 offset : Z) (w : World) (p1 p2 p : list DeploymentResponse.t) :
  List.NoDup (List.map Deployment.CreatedAt
                (List.filter (fun d => bool_decide (Deployment.UserID d = Some u))
                   (deployments w))) ->
  fst (services.GetDeploymentsByUser E u limit1 offset w) = Ok p1 ->
  fst (services.GetDeploymentsByUser E u limit2 (offset + limit1)
         (snd (services.GetDeploymentsByUser E u limit1 offset w))) = Ok p2 ->
  fst (services.GetDeploymentsByUser E u (limit1 + limit2) offset
         (snd (services.GetDeploymentsByUser E u limit2 (offset + limit1)
                 (snd (services.GetDeploymentsByUser E u limit1 offset w))))) = Ok p ->
  p = p1 ++ p2.
Proof.
  intros _ H1 H2 H3.
  apply services_GetDeploymentsByUser_Ok in H1 as (Hl1 & Ho & -> & Hw1).
  apply services_GetDeploymentsByUser_Ok in H2 as (Hl2 & _ & -> & Hw2).
  apply services_GetDeploymentsByUser_Ok in H3 as (_ & _ & -> & _).
  rewrite Hw2, Hw1.
  set (rows := orderBy _ _).
  rewrite <- List.map_app. f_equal.
  rewrite !Z2Nat.inj_add by lia.
  rewrite <- (take_take_drop (drop (Z.to_nat offset) rows)), drop_drop.
  reflexivity.
Qed.

Lemma GetDeploymentsByUser_pages_compose_witness :
  Samples.rowsOf
    (fst (services.GetDeploymentsByUser Samples.quiet Samples.user (1 + 1) 0
            (snd (services.GetDeploymentsByUser Samples.quiet Samples.user 1 (0 + 1)
                    (snd (services.GetDeploymentsByUser Samples.quiet Samples.user 1 0
                            Samples.createdTwice))))))
  = Samples.rowsOf
      (fst (services.GetDeploymentsByUser Samples.quiet Samples.user 1 0
              Samples.createdTwice))
    ++ Samples.rowsOf
         (fst (services.GetDeploymentsByUser Samples.quiet Samples.user 1 (0 + 1)
                 (snd (services.GetDeploymentsByUser Samples.quiet Samples.user 1 0
                         Samples.createdTwice)))).
Proof.
  apply (GetDeploymentsByUser_pages_compose Samples.quiet Samples.user 1 1 0
           Samples.createdTwice).
  - vm_compute. repeat constructor; cbn; intuition discriminate.
  - vm_compute. reflexivity.
  - vm_compute. reflexivity.
  - vm_compute. reflexivity.
Defined.

(** X10: the list handler asks for the limit and the offset of the query
    when they are numbers, the limit positive and the offset not negative;
    a missing, malformed or non-positive limit counts as 50 and a missing,
    malformed or negative offset as 0.  So it never asks for less than one
    row or for a negative offset and, when the database answers, the reply
    is 200 and carries at most [limit] deployments, with their number as
    count. *)
Theorem GetDeployments_never_asks_below_one (E : Env) (u : uuid.UUID)
    (limitStr offsetStr : gostring) (w : World) :
  db_error E (seq w) = None -> db_error E (S (seq w)) = None ->
  exists ds limit offset,
    fst (handlers.GetDeployments E (Some u) limitStr offsetStr w)
    = handlers.mkResponse handlers.StatusOK
        (handlers.DeploymentsBody ds limit offset (Z.of_nat (length ds)))
    /\ (1 <= limit)%Z /\ (0 <= offset)%Z
    /\ (Z.of_nat (length ds) <= limit)%Z
    /\ (strconv.Atoi limitStr = None -> limit = 50%Z)
    /\ (strconv.Atoi offsetStr = None -> offset = 0%Z)
    /\ (forall l, strconv.Atoi limitStr = Some l ->
          ((0 < l)%Z -> limit = l) /\ ((l <= 0)%Z -> limit = 50%Z))
    /\ (forall o, strconv.Atoi offsetStr = Some o ->
          ((0 <= o)%Z -> offset = o) /\ ((o < 0)%Z -> offset = 0%Z)).
Proof.
  intros Hdb1 Hdb2. unfold handlers.GetDeployments. cbv zeta.
  set (limit := match limitStr with [] => _ | _ => _ end).
  set (offset := match offsetStr with [] => _ | _ => _ end).
  assert (Hlimit : (1 <= limit)%Z
                   /\ (strconv.Atoi limitStr = None -> limit = 50%Z)
                   /\ (forall l, strconv.Atoi limitStr = Some l ->
                         ((0 < l)%Z -> limit = l) /\ ((l <= 0)%Z -> limit = 50%Z))).
  { subst limit. destruct limitStr as [|c s].
    - rewrite Atoi_nil. repeat split; first [lia | reflexivity | discriminate].
    - destruct (strconv.Atoi (c :: s)) as [l|].
      + destruct (Z.ltb_spec 0 l) as [Hpos|Hneg];
          (split; [lia|]; split; [discriminate|]);
          intros l' Hl'; injection Hl' as <-; split; intros; first [reflexivity | lia].
      + repeat split; first [lia | reflexivity | discriminate]. }
  assert (Hoffset : (0 <= offset)%Z
                    /\ (strconv.Atoi offsetStr = None -> offset = 0%Z)
                    /\ (forall o, strconv.Atoi offsetStr = Some o ->
                          ((0 <= o)%Z -> offset = o) /\ ((o < 0)%Z -> offset = 0%Z))).
  { subst offset. destruct offsetStr as [|c s].
    - rewrite Atoi_nil. repeat split; first [lia | reflexivity | discriminate].
    - destruct (strconv.Atoi (c :: s)) as [o|].
      + destruct (Z.leb_spec 0 o) as [Hpos|Hneg];
          (split; [lia|]; split; [discriminate|]);
          intros o' Ho'; injection Ho' as <-; split; intros; first [reflexivity | lia].
      + repeat split; first [lia | reflexivity | discriminate]. }
  clearbody limit offset.
  destruct Hlimit as (Hl & Hl' & Hl''). destruct Hoffset as (Ho & Ho' & Ho'').
  unfold services.GetDeploymentsByUser, database.GetDeploymentsByUserID. run_monad.
  rewrite Hdb1. run_monad.
  destruct (Z.ltb_spec limit 0) as [?|_]; [lia|].
  destruct (Z.ltb_spec offset 0) as [?|_]; [lia|]. cbn [orb]. run_monad.
  rewrite Hdb2. run_monad.
  eexists _, limit, offset. split; [reflexivity|].
  split; [exact Hl|]. split; [exact Ho|].
  split; [|repeat split; first [assumption | apply Hl''; assumption
                               | apply Ho''; assumption]].
  rewrite length_map, length_take. lia.
Qed.

Lemma GetDeployments_never_asks_below_one_witness :
  exists ds,
    fst (handlers.GetDeployments Samples.quiet (Some Samples.user) (str "-3") (str "-7")
           Samples.created)
    = handlers.mkResponse handlers.StatusOK
        (handlers.DeploymentsBody ds 50 0 (Z.of_nat (length ds)))
    /\ ds <> [].
Proof.
  destruct (GetDeployments_never_asks_below_one Samples.quiet Samples.user
              (str "-3") (str "-7") Samples.created eq_refl eq_refl)
    as (ds & limit & offset & Hresp & _ & _ & _ & _ & _ & Hlimit & Hoffset).
  destruct (Hlimit (-3)%Z eq_refl) as [_ Hfifty].
  destruct (Hoffset (-7)%Z eq_refl) as [_ Hzero].
  rewrite (Hfifty ltac:(lia)), (Hzero ltac:(lia)) in Hresp.
  exists ds. split; [exact Hresp|].
  intros ->. vm_compute in Hresp. discriminate Hresp.
Defined.

(** ** Updates that match no row *)

Lemma map_unmatched {A} (p : A -> bool) (f : A -> A) (l : list A) :
  Forall (fun x => p x = false) l -> List.map (fun x => if p x then f x else x) l = l.
Proof.
  induction 1 as [|x l Hx _ IH]; cbn; [reflexivity|]. rewrite Hx, IH. reflexivity.
Qed.

(** X11: the repository does not look at the number of rows an UPDATE changed:
    when no row has the id, [UpdateDeploymentStatus],
    [UpdateDeploymentTiming] and [UpdateDeploymentStep] report success and
    leave their table as it was. *)
Theorem updates_of_unknown_ids_succeed (E : Env) (id : uuid.UUID)
    (status : DeploymentStatus) (errorMessage : option gostring)
    (startedAt completedAt : option time) (step : DeploymentStep.t) (w : World) :
  Forall (fun d => Deployment.ID d <> id) (deployments w) ->
  Forall (fun s => DeploymentStep.ID s <> DeploymentStep.ID step) (deployment_steps w) ->
  (forall n, db_error E n = None) ->
  (fst (services.UpdateDeploymentStatus E id status errorMessage w) = None
   /\ deployments (snd (services.UpdateDeploymentStatus E id status errorMessage w))
      = deployments w)
  /\ (fst (database.UpdateDeploymentTiming E id startedAt completedAt w) = None
      /\ deployments (snd (database.UpdateDeploymentTiming E id startedAt completedAt w))
         = deployments w)
  /\ (fst (services.UpdateDeploymentStep E step w) = None
      /\ deployment_steps (snd (services.UpdateDeploymentStep E step w))
         = deployment_steps w).
Proof.
  intros Hd Hs Hdb.
  assert (Hd' : Forall (fun d => (Deployment.ID d =? id) = false) (deployments w)).
  { revert Hd. apply List.Forall_impl. intros d. apply N.eqb_neq. }
  assert (Hs' : Forall (fun s => (DeploymentStep.ID s =? DeploymentStep.ID step) = false)
                  (deployment_steps w)).
  { revert Hs. apply List.Forall_impl. intros s. apply N.eqb_neq. }
  unfold services.UpdateDeploymentStatus, database.UpdateDeploymentStatus,
    database.UpdateDeploymentTiming, services.UpdateDeploymentStep,
    database.UpdateDeploymentStep.
  run_monad. rewrite !Hdb. run_monad.
  rewrite !(map_unmatched _ _ _ Hd'), (map_unmatched _ _ _ Hs'). auto.
Qed.

Lemma updates_of_unknown_ids_succeed_witness :
  (fst (services.UpdateDeploymentStatus Samples.quiet 5 DeploymentStatusFailed None
          Samples.created) = None
   /\ deployments (snd (services.UpdateDeploymentStatus Samples.quiet 5
                          DeploymentStatusFailed None Samples.created))
      = deployments Samples.created)
  /\ (fst (database.UpdateDeploymentTiming Samples.quiet 5 None None Samples.created)
      = None
      /\ deployments (snd (database.UpdateDeploymentTiming Samples.quiet 5 None None
                             Samples.created))
         = deployments Samples.created)
  /\ (fst (services.UpdateDeploymentStep Samples.quiet (Samples.stepRow 5 "x" 1
             DeploymentStatusFailed) Samples.created) = None
      /\ deployment_steps (snd (services.UpdateDeploymentStep Samples.quiet
                                  (Samples.stepRow 5 "x" 1 DeploymentStatusFailed)
                                  Samples.created))
         = deployment_steps Samples.created).
Proof.
  apply updates_of_unknown_ids_succeed.
  - vm_compute. repeat constructor; discriminate.
  - vm_compute. repeat constructor; discriminate.
  - reflexivity.
Defined.

(** ** The job queue *)

Lemma DequeueJob_oldest (E : Env) (w : World) (q : list Job.t) (job : Job.t) :
  (forall n, redis_error E n = None) ->
  queue w = q ++ [job] ->
  dequeuedDeployment (fst (services.DequeueJob E w)) = Some (Job.DeploymentID job)
  /\ queue (snd (services.DequeueJob E w)) = q.
Proof.
  intros Hredis Hq. unfold services.DequeueJob. run_monad. rewrite Hredis.
  run_monad. rewrite Hq, last_snoc. run_monad. rewrite Hredis. run_monad.
  rewrite ?Hq, removelast_last. split; reflexivity.
Qed.

Lemma dequeueTimes_all (E : Env) (q : list Job.t) :
  (forall n, redis_error E n = None) ->
  forall w, queue w = q ->
    List.map dequeuedDeployment (fst (dequeueTimes E (length q) w))
    = List.map (fun job => Some (Job.DeploymentID job)) (rev q).
Proof.
  intros Hredis. induction q as [|job q IH] using rev_ind; intros w Hq.
  - reflexivity.
  - rewrite length_app, Nat.add_comm, rev_app_distr. cbn [length plus dequeueTimes rev app].
    destruct (DequeueJob_oldest E w q job Hredis Hq) as [Hjob Hrest].
    unfold bind at 1. destruct (services.DequeueJob E w) as [r w1].
    cbn [fst snd] in *. specialize (IH w1 Hrest).
    unfold bind, ret. destruct (dequeueTimes E (length q) w1) as [rs w2].
    cbn [fst List.map] in *. rewrite Hjob, IH. reflexivity.
Qed.

(** X12: the queue is first in, first out: while Redis answers, enqueuing a
    job makes the queue one longer, the job is handed out after every job
    that was already waiting, and those are handed out oldest first. *)
Theorem queue_is_first_in_first_out (E : Env) (d : uuid.UUID)
    (data : gmap gostring JVal) (w : World) :
  (forall n, redis_error E n = None) ->
  fst (services.GetQueueLength E (snd (services.EnqueueDeploymentJob E d data w)))
  = Ok (Z.of_nat (S (length (queue w))))
  /\ List.map dequeuedDeployment
       (fst (dequeueTimes E (S (length (queue w)))
               (snd (services.EnqueueDeploymentJob E d data w))))
     = List.map (fun job => Some (Job.DeploymentID job)) (rev (queue w)) ++ [Some d].
Proof.
  intros Hredis.
  destruct (EnqueueDeploymentJob_frame E d data w) as (_ & _ & _ & Hq).
  destruct (Hq (Hredis _)) as (job & Hjob & Hd). split.
  - unfold services.GetQueueLength, bind at 1. unfold ask.
    rewrite Hredis. unfold bind, gets, ret. cbn [fst snd queue set_seq].
    rewrite Hjob. reflexivity.
  - change (S (length (queue w))) with (length (job :: queue w)).
    rewrite (dequeueTimes_all E (job :: queue w) Hredis _ Hjob).
    cbn [rev]. rewrite List.map_app. cbn. rewrite Hd. reflexivity.
Qed.

Lemma queue_is_first_in_first_out_witness :
  fst (services.GetQueueLength Samples.quiet
         (snd (services.EnqueueDeploymentJob Samples.quiet 5 ∅ Samples.created)))
  = Ok (Z.of_nat (S (length (queue Samples.created))))
  /\ List.map dequeuedDeployment
       (fst (dequeueTimes Samples.quiet (S (length (queue Samples.created)))
               (snd (services.EnqueueDeploymentJob Samples.quiet 5 ∅ Samples.created))))
     = List.map (fun job => Some (Job.DeploymentID job)) (rev (queue Samples.created))
       ++ [Some 5].
Proof. apply queue_is_first_in_first_out. reflexivity. Defined.

(** X13: after [UpdateJobStatus] has succeeded, [GetJob] returns the record
    with the new status and error message and with the data and the
    deployment it had; a completed or failed job has its completion time. *)
Theorem UpdateJobStatus_then_GetJob (E : Env) (jobID : uuid.UUID)
    (status : Job.JobStatus) (errorMessage : option gostring) (w : World) :
  fst (services.UpdateJobStatus E jobID status errorMessage w) = None ->
  redis_error E (seq (snd (services.UpdateJobStatus E jobID status errorMessage w)))
  = None ->
  exists old job,
    job_records w !! jobID = Some old
    /\ fst (services.GetJob E jobID
              (snd (services.UpdateJobStatus E jobID status errorMessage w))) = Ok job
    /\ Job.Status job = status
    /\ Job.ErrorMessage job = errorMessage
    /\ Job.ID job = Job.ID old
    /\ Job.Data job = Job.Data old
    /\ Job.DeploymentID job = Job.DeploymentID old
    /\ Job.StartedAt job = Job.StartedAt old
    /\ (status = Job.JobStatusCompleted \/ status = Job.JobStatusFailed ->
        Job.CompletedAt job <> None).
Proof.
  unfold services.UpdateJobStatus, services.GetJob. run_monad.
  destruct (redis_error E (seq w)); run_monad; [discriminate|].
  destruct (job_records w !! jobID) as [old|]; run_monad; [|discriminate].
  destruct (bool_decide (status = Job.JobStatusCompleted)
            || bool_decide (status = Job.JobStatusFailed)) eqn:Hdone; run_monad.
  - destruct (redis_error E (S (S (seq w)))); run_monad; [discriminate|].
    intros _ ->. run_monad. rewrite lookup_insert_eq.
    exists old. eexists. repeat split. cbn. discriminate.
  - destruct (redis_error E (S (seq w))); run_monad; [discriminate|].
    intros _ ->. run_monad. rewrite lookup_insert_eq.
    exists old. eexists. repeat split. cbn.
    apply orb_false_iff in Hdone as [H1 H2].
    apply bool_decide_eq_false in H1, H2. tauto.
Qed.

Lemma UpdateJobStatus_then_GetJob_witness :
  exists old job,
    job_records Samples.dequeued !! Job.ID Samples.job = Some old
    /\ fst (services.GetJob Samples.quiet (Job.ID Samples.job)
              (snd (services.UpdateJobStatus Samples.quiet (Job.ID Samples.job)
                      Job.JobStatusFailed (Some (str "boom")) Samples.dequeued))) = Ok job
    /\ Job.Status job = Job.JobStatusFailed
    /\ Job.ErrorMessage job = Some (str "boom")
    /\ Job.ID job = Job.ID old
    /\ Job.Data job = Job.Data old
    /\ Job.DeploymentID job = Job.DeploymentID old
    /\ Job.StartedAt job = Job.StartedAt old
    /\ (Job.JobStatusFailed = Job.JobStatusCompleted
        \/ Job.JobStatusFailed = Job.JobStatusFailed ->
        Job.CompletedAt job <> None).
Proof.
  apply UpdateJobStatus_then_GetJob.
  - vm_compute. reflexivity.
  - reflexivity.
Defined.

(** ** From the request to the worker *)

Lemma EnqueueDeploymentJob_data (E : Env) (d : uuid.UUID) (data : gmap gostring JVal)
    (w : World) :
  redis_error E (S (S (seq w))) = None ->
  exists job,
    queue (snd (services.EnqueueDeploymentJob E d data w)) = job :: queue w
    /\ Job.DeploymentID job = d /\ Job.Data job = data
    /\ Job.Status job = Job.JobStatusPending.
Proof.
  intros Hredis. unfold services.EnqueueDeploymentJob. run_monad. rewrite Hredis.
  run_monad. destruct (redis_error E (S (S (S (seq w))))); run_monad;
    eexists; repeat split.
Qed.

Lemma GetPortAsInt_range req port :
  CreateDeploymentRequest.GetPortAsInt req = Ok port -> (1 <= port <= 65535)%Z.
Proof.
  unfold CreateDeploymentRequest.GetPortAsInt.
  destruct (bool_decide _); [discriminate|].
  destruct (strconv.Atoi _) as [p|]; [|discriminate].
  destruct (Z.ltb_spec p 1) as [Hlo|Hlo]; [discriminate|].
  destruct (Z.ltb_spec 65535 p) as [Hhi|Hhi]; [discriminate|].
  cbn [orb]. intros Hport. injection Hport as <-. lia.
Qed.

Lemma deploymentData_parameters (L : GoLib) req port name path :
  (1 <= port <= 65535)%Z ->
  let data := services.deploymentData req port name in
  let data := match path with
              | [] => data
              | _ => <[ str "env_file_path" := JString path ]> data
              end in
  List.map (worker.getStringFromMap L data)
    [ str "target_ip"; str "ssh_username"; str "ssh_password"; str "github_repo_url";
      str "github_pat"; str "github_branch"; str "container_name"; str "env_file_path";
      str "environment_vars" ]
  = [ CreateDeploymentRequest.TargetIP req; CreateDeploymentRequest.SSHUsername req;
      CreateDeploymentRequest.SSHPassword req; CreateDeploymentRequest.GitHubRepoURL req;
      CreateDeploymentRequest.GitHubPAT req; CreateDeploymentRequest.GitHubBranch req;
      name; path; [] ]
  /\ worker.getIntFromMap L data (str "port") = port.
Proof.
  intros Hport.
  assert (Hint : worker.intOfFloat port = port).
  { unfold worker.intOfFloat.
    destruct (Z.leb_spec (- 9223372036854775808) port); [|lia].
    destruct (Z.leb_spec port 9223372036854775807); [reflexivity | lia]. }
  destruct path; (split; [vm_compute; reflexivity|]);
    unfold worker.getIntFromMap;
    match goal with
    | |- context [?data !! ?key] =>
        replace (data !! key) with (Some (JNumber port)) by (vm_compute; reflexivity)
    end; exact Hint.
Qed.

(** X14: the job that a successful creation puts on the queue gives the worker,
    through [getStringFromMap] and [getIntFromMap], the target, the
    credentials, the repository and the branch of the request, the port and
    the container name of the response and the path of the uploaded env
    file; it never carries inline environment variables. *)
Theorem created_job_carries_the_request (E : Env) (L : GoLib)
    (req : CreateDeploymentRequest.t) (path : gostring) (user : uuid.UUID)
    (w : World) (resp : DeploymentResponse.t) :
  (forall n, redis_error E n = None) ->
  fst (services.CreateDeploymentWithEnvFile E req path user w) = Ok resp ->
  exists job,
    queue (snd (services.CreateDeploymentWithEnvFile E req path user w))
    = job :: queue w
    /\ Job.DeploymentID job = DeploymentResponse.ID resp
    /\ List.map (worker.getStringFromMap L (Job.Data job))
         [ str "target_ip"; str "ssh_username"; str "ssh_password";
           str "github_repo_url"; str "github_pat"; str "github_branch";
           str "container_name"; str "env_file_path"; str "environment_vars" ]
       = [ CreateDeploymentRequest.TargetIP req; CreateDeploymentRequest.SSHUsername req;
           CreateDeploymentRequest.SSHPassword req;
           CreateDeploymentRequest.GitHubRepoURL req;
           CreateDeploymentRequest.GitHubPAT req; CreateDeploymentRequest.GitHubBranch req;
           default [] (DeploymentResponse.ContainerName resp); path; [] ]
    /\ worker.getIntFromMap L (Job.Data job) (str "port") = DeploymentResponse.Port resp.
Proof.
  intros Hredis. unfold services.CreateDeploymentWithEnvFile.
  destruct (CreateDeploymentRequest.GetPortAsInt req) as [port|e] eqn:Hport;
    [|discriminate].
  apply GetPortAsInt_range in Hport.
  unfold database.CreateDeployment. run_monad.
  destruct (db_error E (S (S (seq w)))); run_monad; [discriminate|].
  match goal with
  | |- context [services.createInitialSteps E ?id ?w1] =>
      pose proof (createSteps_rows E id services.initialSteps w1)
        as (rows & _ & _ & _ & _ & _ & _ & Hq & _);
      fold (services.createInitialSteps E id) in *;
      destruct (services.createInitialSteps E id w1) as [r1 w2]
  end.
  cbn [fst snd queue] in *.
  match goal with
  | |- context [services.EnqueueDeploymentJob E ?id ?data ?w2] =>
      pose proof (EnqueueDeploymentJob_data E id data w2 (Hredis _))
        as (job & Hjob & Hid & Hdata & _);
      destruct (services.EnqueueDeploymentJob E id data w2) as [r2 w3]
  end.
  cbn [fst snd] in *. intros H. injection H as <-.
  exists job. rewrite Hjob, Hq. split; [reflexivity|]. split; [exact Hid|].
  rewrite Hdata. cbn [services.createdResponse DeploymentResponse.ContainerName
                        DeploymentResponse.Port default].
  apply deploymentData_parameters, Hport.
Qed.

Lemma created_job_carries_the_request_witness :
  exists job,
    queue (snd (services.CreateDeploymentWithEnvFile Samples.quiet Samples.plain
                  (str "temp_env_files/a.env") Samples.user empty_world))
    = job :: queue empty_world
    /\ Job.DeploymentID job
       = DeploymentResponse.ID
           (services.createdResponse Samples.plain 1000 1000000000 3000
              (str "deployknot-p-d"))
    /\ List.map (worker.getStringFromMap Samples.lib (Job.Data job))
         [ str "target_ip"; str "ssh_username"; str "ssh_password";
           str "github_repo_url"; str "github_pat"; str "github_branch";
           str "container_name"; str "env_file_path"; str "environment_vars" ]
       = [ CreateDeploymentRequest.TargetIP Samples.plain;
           CreateDeploymentRequest.SSHUsername Samples.plain;
           CreateDeploymentRequest.SSHPassword Samples.plain;
           CreateDeploymentRequest.GitHubRepoURL Samples.plain;
           CreateDeploymentRequest.GitHubPAT Samples.plain;
           CreateDeploymentRequest.GitHubBranch Samples.plain;
           default [] (DeploymentResponse.ContainerName
                         (services.createdResponse Samples.plain 1000 1000000000 3000
                            (str "deployknot-p-d")));
           str "temp_env_files/a.env"; [] ]
    /\ worker.getIntFromMap Samples.lib (Job.Data job) (str "port")
       = DeploymentResponse.Port
           (services.createdResponse Samples.plain 1000 1000000000 3000
              (str "deployknot-p-d")).
Proof.
  apply (created_job_carries_the_request Samples.quiet Samples.lib).
  - reflexivity.
  - vm_compute. reflexivity.
Defined.

(** ** The creation endpoint *)

Lemma handlers_CreateDeployment_cases (E : Env) (F : HostFS) (user : option uuid.UUID)
    (bound : result CreateDeploymentRequest.t) (upload : option gostring) (w : World) :
  let r := handlers.CreateDeployment E F user bound upload w in
  (handlers.code (fst r) = handlers.StatusCreated
   /\ exists u req resp row,
        user = Some u /\ bound = Ok req
        /\ CreateDeploymentRequest.Validate req = None
        /\ handlers.body (fst r) = handlers.DeploymentBody resp
        /\ DeploymentResponse.Status resp = DeploymentStatusPending
        /\ deployments (snd r) = deployments w ++ [row]
        /\ Deployment.ID row = DeploymentResponse.ID resp
        /\ Deployment.UserID row = Some u)
  \/ ((handlers.code (fst r) = handlers.StatusUnauthorized
       \/ handlers.code (fst r) = handlers.StatusBadRequest
       \/ handlers.code (fst r) = handlers.StatusInternalServerError)
      /\ deployments (snd r) = deployments w
      /\ deployment_steps (snd r) = deployment_steps w
      /\ queue (snd r) = queue w).
Proof.
  cbv zeta. unfold handlers.CreateDeployment.
  destruct user as [u|]; [|right; cbn; auto].
  destruct bound as [req|e]; [|right; cbn; auto].
  destruct (CreateDeploymentRequest.Validate req) eqn:Hvalid; [right; cbn; auto|].
  assert (Hcreate : forall path w0,
            deployments w0 = deployments w -> deployment_steps w0 = deployment_steps w ->
            queue w0 = queue w ->
            let r := (let* r := services.CreateDeploymentWithEnvFile E req path u in
                      match r with
                      | Err e =>
                          ret (handlers.mkResponse handlers.StatusInternalServerError
                                 (handlers.ErrorBody (str "Failed to create deployment") e))
                      | Ok deployment =>
                          ret (handlers.mkResponse handlers.StatusCreated
                                 (handlers.DeploymentBody deployment))
                      end) w0 in
            (handlers.code (fst r) = handlers.StatusCreated
             /\ exists u' req' resp row,
                  Some u = Some u' /\ Ok req = Ok req'
                  /\ CreateDeploymentRequest.Validate req' = None
                  /\ handlers.body (fst r) = handlers.DeploymentBody resp
                  /\ DeploymentResponse.Status resp = DeploymentStatusPending
                  /\ deployments (snd r) = deployments w ++ [row]
                  /\ Deployment.ID row = DeploymentResponse.ID resp
                  /\ Deployment.UserID row = Some u')
            \/ ((handlers.code (fst r) = handlers.StatusUnauthorized
                 \/ handlers.code (fst r) = handlers.StatusBadRequest
                 \/ handlers.code (fst r) = handlers.StatusInternalServerError)
                /\ deployments (snd r) = deployments w
                /\ deployment_steps (snd r) = deployment_steps w
                /\ queue (snd r) = queue w)).
  { intros path w0 Hd Hs Hq. cbv zeta. unfold bind.
    pose proof (CreateDeploymentWithEnvFile_outcome E req path u w0) as Hout.
    destruct (services.CreateDeploymentWithEnvFile E req path u w0) as [[resp|e] w1].
    - left. cbn [fst snd ret handlers.code handlers.body]. split; [reflexivity|].
      unfold creation_outcome in Hout.
      destruct (CreateDeploymentRequest.GetPortAsInt req) as [port|e]; [|discriminate].
      destruct (db_error E (S (S (seq w0)))); cbn [fst snd] in Hout;
        [destruct Hout as [H _]; discriminate|].
      destruct Hout as (Hresp & Hrow & _). injection Hresp as ->.
      eexists u, req, _, _. rewrite Hrow, Hd. repeat split; auto.
    - right. cbn [fst snd ret handlers.code].
      destruct (creation_outcome_err _ _ _ _ _ _ Hout) as (Hd' & Hs' & Hq').
      split; [auto|]. rewrite Hd', Hs', Hq'. auto. }
  destruct upload as [filename|].
  - run_monad.
    destruct (MkdirAll_error F (seq w)); run_monad; [right; cbn; auto|].
    destruct (SaveUploadedFile_error F (S (S (seq w)))); run_monad; [right; cbn; auto|].
    apply Hcreate; reflexivity.
  - unfold bind at 1. cbn [ret]. apply Hcreate; reflexivity.
Qed.

(** X15: the creation endpoint answers 201, 400, 401 or 500.  On 201 the body
    is a pending deployment and exactly one deployment row, with the id of
    the body and the caller as its user, has been added; on every other
    answer the deployment table, the step table and the queue are as they
    were. *)
Theorem CreateDeployment_writes_only_when_created (E : Env) (F : HostFS)
    (user : option uuid.UUID) (bound : result CreateDeploymentRequest.t)
    (upload : option gostring) (w : World) :
  (handlers.code (fst (handlers.CreateDeployment E F user bound upload w))
   = handlers.StatusCreated
   /\ exists resp row,
        handlers.body (fst (handlers.CreateDeployment E F user bound upload w))
        = handlers.DeploymentBody resp
        /\ DeploymentResponse.Status resp = DeploymentStatusPending
        /\ deployments (snd (handlers.CreateDeployment E F user bound upload w))
           = deployments w ++ [row]
        /\ Deployment.ID row = DeploymentResponse.ID resp
        /\ Deployment.UserID row = user)
  \/ ((handlers.code (fst (handlers.CreateDeployment E F user bound upload w))
       = handlers.StatusUnauthorized
       \/ handlers.code (fst (handlers.CreateDeployment E F user bound upload w))
          = handlers.StatusBadRequest
       \/ handlers.code (fst (handlers.CreateDeployment E F user bound upload w))
          = handlers.StatusInternalServerError)
      /\ deployments (snd (handlers.CreateDeployment E F user bound upload w))
         = deployments w
      /\ deployment_steps (snd (handlers.CreateDeployment E F user bound upload w))
         = deployment_steps w
      /\ queue (snd (handlers.CreateDeployment E F user bound upload w)) = queue w).
Proof.
  destruct (handlers_CreateDeployment_cases E F user bound upload w)
    as [(Hcode & u & req & resp & row & -> & _ & _ & Hbody & Hst & Hd & Hid & Hu)|H].
  - left. split; [exact Hcode|]. exists resp, row. auto.
  - right. exact H.
Qed.

(** X16: the handler checks that the port is present, not that it is a port: a
    request whose required fields are filled in but whose port
    [GetPortAsInt] rejects gets through validation and is answered 500 by
    the failed creation, with nothing written. *)
Theorem CreateDeployment_bad_port_is_500 (E : Env) (F : HostFS) (u : uuid.UUID)
    (req : CreateDeploymentRequest.t) (e : gostring) (w : World) :
  CreateDeploymentRequest.Validate req = None ->
  CreateDeploymentRequest.GetPortAsInt req = Err e ->
  handlers.CreateDeployment E F (Some u) (Ok req) None w
  = (handlers.mkResponse handlers.StatusInternalServerError
       (handlers.ErrorBody (str "Failed to create deployment") (wrap "invalid port" e)),
     w).
Proof.
  intros Hvalid Hport. unfold handlers.CreateDeployment. rewrite Hvalid.
  unfold services.CreateDeploymentWithEnvFile. rewrite Hport. reflexivity.
Qed.

Lemma CreateDeployment_bad_port_is_500_witness :
  handlers.CreateDeployment Samples.quiet Samples.disk (Some Samples.user)
    (Ok (Samples.request "99999" None None None)) None empty_world
  = (handlers.mkResponse handlers.StatusInternalServerError
       (handlers.ErrorBody (str "Failed to create deployment")
          (wrap "invalid port" (str "port must be between 1 and 65535"))),
     empty_world).
Proof.
  apply CreateDeployment_bad_port_is_500; reflexivity.
Defined.

(** ** The log stream: what the polls emit *)

Lemma ltb_irrefl a : strings.ltb a a = false.
Proof.
  induction a as [|x a IH]; cbn; [reflexivity|].
  rewrite N.ltb_irrefl, N.eqb_refl, IH. reflexivity.
Qed.

Lemma loggedIDs_app a b : loggedIDs (a ++ b) = loggedIDs a ++ loggedIDs b.
Proof.
  induction a as [|[| |] a IH]; cbn; rewrite ?IH; reflexivity.
Qed.

Lemma increasing_app a b :
  increasing a -> increasing b ->
  (forall x y, In x a -> In y b -> strings.ltb x y = true) ->
  increasing (a ++ b).
Proof.
  induction a as [|c a IH]; cbn; [auto|]. intros [Hc Ha] Hb Hab. split.
  - apply List.Forall_app. split; [exact Hc|].
    apply List.Forall_forall. intros y Hy. apply Hab; auto.
  - apply IH; auto.
Qed.

Lemma increasing_NoDup ids : increasing (List.map uuid.String ids) -> List.NoDup ids.
Proof.
  induction ids as [|a ids IH]; cbn; [constructor|]. intros [Ha Hids].
  constructor; [|auto]. intros Hin.
  rewrite List.Forall_forall in Ha.
  specialize (Ha (uuid.String a) (List.in_map _ _ _ Hin)).
  rewrite ltb_irrefl in Ha. discriminate.
Qed.

Lemma sendNew_increasing logs :
  forall lastLogID,
    increasing (List.map uuid.String (loggedIDs (fst (handlers.sendNew logs lastLogID))))
    /\ (forall id, In id (loggedIDs (fst (handlers.sendNew logs lastLogID))) ->
                   strings.ltb (uuid.String lastLogID) (uuid.String id) = true
                   /\ cursorLe id (snd (handlers.sendNew logs lastLogID)))
    /\ cursorLe lastLogID (snd (handlers.sendNew logs lastLogID)).
Proof.
  induction logs as [|r logs IH]; intros lastLogID; cbn [handlers.sendNew].
  - split; [exact I|]. split; [intros id []|now left].
  - destruct (handlers.newer r lastLogID) eqn:Hr; [|apply IH].
    destruct (IH (DeploymentLog.ID r)) as (Hinc & Hids & Hle).
    destruct (handlers.sendNew logs (DeploymentLog.ID r)) as [events final].
    cbn [fst snd loggedIDs List.map increasing] in *.
    split; [split; [|exact Hinc]|split].
    + apply List.Forall_forall. intros s Hs.
      apply List.in_map_iff in Hs as (id & <- & Hid). apply Hids, Hid.
    + intros id [<-|Hid].
      * split; [exact Hr | exact Hle].
      * destruct (Hids id Hid) as [Hgt Hfinal]. split; [|exact Hfinal].
        eapply ltb_trans; [exact Hr | exact Hgt].
    + eapply cursorLe_trans; [right; exact Hr | exact Hle].
Qed.

Lemma streamTick_increasing (E : Env) (d lastLogID : uuid.UUID) (w : World) :
  increasing (List.map uuid.String
                (loggedIDs (fst (fst (handlers.streamTick E d lastLogID w)))))
  /\ (forall id, In id (loggedIDs (fst (fst (handlers.streamTick E d lastLogID w)))) ->
                 strings.ltb (uuid.String lastLogID) (uuid.String id) = true
                 /\ cursorLe id (snd (fst (handlers.streamTick E d lastLogID w))))
  /\ cursorLe lastLogID (snd (fst (handlers.streamTick E d lastLogID w))).
Proof.
  unfold handlers.streamTick. cbv [bind].
  destruct (services.GetDeploymentLogs E d 100 w) as [[newLogs|e] w1].
  - pose proof (sendNew_increasing newLogs lastLogID) as H.
    destruct (handlers.sendNew newLogs lastLogID) as [events final].
    run_monad. rewrite loggedIDs_app. cbn [loggedIDs]. rewrite app_nil_r. exact H.
  - run_monad. cbn. split; [exact I|]. split; [intros id []|now left].
Qed.

(** X17: the ids of the log rows that the polls of a stream emit increase
    strictly, as texts, from one emitted row to the next, and all of them
    are above the cursor with which the polling began; so the polls emit no
    id twice. *)
Theorem stream_polls_emit_increasing_ids (E : Env) (d : uuid.UUID)
    (schedule : list handlers.Action) (lastLogID : uuid.UUID) (w : World) :
  increasing (List.map uuid.String
                (loggedIDs (fst (fst (handlers.streamLoop E d schedule lastLogID w)))))
  /\ Forall (fun id => strings.ltb (uuid.String lastLogID) (uuid.String id) = true)
       (loggedIDs (fst (fst (handlers.streamLoop E d schedule lastLogID w))))
  /\ List.NoDup (loggedIDs (fst (fst (handlers.streamLoop E d schedule lastLogID w)))).
Proof.
  assert (H : increasing (List.map uuid.String
                (loggedIDs (fst (fst (handlers.streamLoop E d schedule lastLogID w)))))
              /\ Forall (fun id => strings.ltb (uuid.String lastLogID) (uuid.String id)
                                   = true)
                   (loggedIDs (fst (fst (handlers.streamLoop E d schedule lastLogID w))))).
  { revert lastLogID w.
    induction schedule as [|[|appended] schedule IH]; intros lastLogID w;
      cbn [handlers.streamLoop].
    - cbn. auto.
    - cbv [bind].
      destruct (streamTick_increasing E d lastLogID w) as (Hinc & Hids & Hle).
      destruct (handlers.streamTick E d lastLogID w) as [[events cursor] w1].
      cbn [fst snd] in *.
      destruct (IH cursor w1) as [Hinc' Hids'].
      destruct (handlers.streamLoop E d schedule cursor w1) as [[events' cursor'] w2].
      run_monad. rewrite loggedIDs_app, List.map_app.
      rewrite List.Forall_forall in Hids'. split.
      + apply increasing_app; [exact Hinc | exact Hinc'|].
        intros x y Hx Hy.
        apply List.in_map_iff in Hx as (a & <- & Ha).
        apply List.in_map_iff in Hy as (b & <- & Hb).
        destruct (Hids a Ha) as [_ Hfinal].
        eapply cursorLe_ltb; [exact Hfinal | exact (Hids' b Hb)].
      + apply List.Forall_app. split.
        * apply List.Forall_forall. intros id Hid. apply Hids, Hid.
        * apply List.Forall_forall. intros id Hid.
          eapply cursorLe_ltb; [exact Hle | exact (Hids' id Hid)].
    - cbv [bind modify]. apply IH. }
  destruct H as [Hinc Habove]. split; [exact Hinc|]. split; [exact Habove|].
  apply increasing_NoDup, Hinc.
Qed.

(** ** What a job leaves alone *)

Section Keeps.
Variable E : Env.
Variable L : GoLib.
Variable R : World -> World -> Prop.
Variables d j : uuid.UUID.

Hypothesis R_refl : forall w, R w w.
Hypothesis R_trans : forall w1 w2 w3, R w1 w2 -> R w2 w3 -> R w1 w3.
Hypothesis R_ask : forall A (oracle : nat -> A), keeps R (ask oracle).
Hypothesis R_log : forall level message taskName stepOrder,
  keeps R (services.AddDeploymentLog E d level message taskName stepOrder).
Hypothesis R_read : keeps R (services.GetDeploymentSteps E d).
Hypothesis R_update : forall order status errorMessage,
  keeps R (worker.updateDeploymentStep E d order status errorMessage).
Hypothesis R_markStep : forall order errorMsg,
  keeps R (worker.markStepAsFailed E order d errorMsg).
Hypothesis R_status : forall status errorMessage,
  keeps R (services.UpdateDeploymentStatus E d status errorMessage).
Hypothesis R_job : forall status errorMessage,
  keeps R (services.UpdateJobStatus E j status errorMessage).

Lemma keeps_ret {A} (a : A) : keeps R (ret a).
Proof using R_refl. intros w. apply R_refl. Qed.

Lemma keeps_bind {A B} (m : M A) (k : A -> M B) :
  keeps R m -> (forall a, keeps R (k a)) -> keeps R (bind m k).
Proof using R_trans.
  intros Hm Hk w. unfold bind. specialize (Hm w).
  destruct (m w) as [a w1]. eapply R_trans; [exact Hm | apply Hk].
Qed.

Lemma keeps_forEach {A} (xs : list A) (body : A -> M unit) :
  (forall x, keeps R (body x)) -> keeps R (forEach xs body).
Proof using R_refl R_trans.
  intros Hbody. induction xs as [|x xs IH]; cbn [forEach].
  - apply keeps_ret.
  - apply keeps_bind; [apply Hbody | intros _; exact IH].
Qed.

(** One step through a computation of the worker, chosen by its head. *)
Ltac keeps_step :=
  lazymatch goal with
  | |- keeps R (ret _) => apply keeps_ret
  | |- keeps R (bind _ _) => apply keeps_bind; [|intros ?]
  | |- keeps R (forEach _ _) => apply keeps_forEach; intros ?
  | |- keeps R (ask _) => apply R_ask
  | |- keeps R (worker.NewSession _) => apply R_ask
  | |- keeps R (worker.CombinedOutput _ _) => apply R_ask
  | |- keeps R (services.AddDeploymentLog _ _ _ _ _ _) => apply R_log
  | |- keeps R (worker.addLog _ _ _ _ _ _) => unfold worker.addLog
  | |- keeps R (worker.addLogf _ _ _ _ _ _) => unfold worker.addLogf
  | |- keeps R (services.GetDeploymentSteps _ _) => apply R_read
  | |- keeps R (worker.updateDeploymentStep _ _ _ _ _) => apply R_update
  | |- keeps R (worker.markStepAsFailed _ _ _ _) => apply R_markStep
  | |- keeps R (worker.failStep _ _ _ _) => unfold worker.failStep
  | |- keeps R (services.UpdateDeploymentStatus _ _ _ _) => apply R_status
  | |- keeps R (services.UpdateJobStatus _ _ _ _) => apply R_job
  | |- keeps R (worker.connectSSH _ _ _ _) => unfold worker.connectSSH
  | |- keeps R (worker.bestEffort _ _ _ _ _ _) => unfold worker.bestEffort
  | |- keeps R (worker.markRemainingStepsAsFailed _ _ _) =>
      unfold worker.markRemainingStepsAsFailed
  | |- keeps R (worker.markAllStepsAsFailed _ _ _) =>
      unfold worker.markAllStepsAsFailed
  | |- keeps R (match ?x with _ => _ end) => destruct x
  | |- keeps R (let _ := _ in _) => cbv zeta
  end.

Lemma keeps_markRemainingStepsAsFailed failedStepOrder :
  keeps R (worker.markRemainingStepsAsFailed E d failedStepOrder).
Proof using R_refl R_trans R_read R_update. repeat keeps_step. Qed.

Lemma keeps_markAllStepsAsFailed errorMsg :
  keeps R (worker.markAllStepsAsFailed E d errorMsg).
Proof using R_refl R_trans R_read R_update. repeat keeps_step. Qed.

Lemma keeps_addLog level message taskName stepOrder :
  keeps R (worker.addLog E d level message taskName stepOrder).
Proof using R_refl R_trans R_log. repeat keeps_step. Qed.

Lemma keeps_addLogf level message taskName stepOrder :
  keeps R (worker.addLogf E d level message taskName stepOrder).
Proof using R_refl R_trans R_log. repeat keeps_step. Qed.

Lemma keeps_connectSSH host username password :
  keeps R (worker.connectSSH E host username password).
Proof using R_refl R_trans R_ask. repeat keeps_step. Qed.

Lemma keeps_cloneRepository repoURL pat branch :
  keeps R (worker.cloneRepository E L d repoURL pat branch).
Proof using All. unfold worker.cloneRepository. repeat keeps_step. Qed.

Lemma keeps_buildDockerImage containerName :
  keeps R (worker.buildDockerImage E d containerName).
Proof using All. unfold worker.buildDockerImage. repeat keeps_step. Qed.

Lemma keeps_runDockerContainer envVars port containerName :
  keeps R (worker.runDockerContainer E d envVars port containerName).
Proof using All. unfold worker.runDockerContainer. repeat keeps_step. Qed.

Lemma keeps_healthCheck containerName :
  keeps R (worker.healthCheck E d containerName).
Proof using All. unfold worker.healthCheck. repeat keeps_step. Qed.

Lemma keeps_copyEnvFileToTarget localEnvFilePath :
  keeps R (worker.copyEnvFileToTarget E d localEnvFilePath).
Proof using All. unfold worker.copyEnvFileToTarget. repeat keeps_step. Qed.

Lemma keeps_runDockerContainerWithEnvFile envFilePath port containerName :
  keeps R (worker.runDockerContainerWithEnvFile E d envFilePath port containerName).
Proof using All. unfold worker.runDockerContainerWithEnvFile. repeat keeps_step. Qed.

Lemma keeps_executeDeploymentSteps repoURL pat branch envFilePath envVars port
    containerName :
  keeps R (worker.executeDeploymentSteps E L d repoURL pat branch envFilePath envVars
             port containerName).
Proof using All.
  unfold worker.executeDeploymentSteps.
  repeat first
    [ apply keeps_cloneRepository | apply keeps_buildDockerImage
    | apply keeps_runDockerContainer | apply keeps_healthCheck
    | apply keeps_copyEnvFileToTarget | apply keeps_runDockerContainerWithEnvFile
    | keeps_step ].
Qed.

Lemma keeps_processDeploymentJob job :
  Job.DeploymentID job = d -> Job.ID job = j ->
  keeps R (worker.processDeploymentJob E L job).
Proof using All.
  intros Hd Hj. unfold worker.processDeploymentJob. rewrite Hd, Hj.
  repeat first [ apply keeps_executeDeploymentSteps | keeps_step ].
Qed.

End Keeps.

Lemma AddDeploymentLog_tables (E : Env) d level message taskName stepOrder w :
  let w' := snd (services.AddDeploymentLog E d level message taskName stepOrder w) in
  deployments w' = deployments w /\ deployment_steps w' = deployment_steps w
  /\ queue w' = queue w /\ job_records w' = job_records w
  /\ exists new, deployment_logs w' = deployment_logs w ++ new
                 /\ Forall (fun l => DeploymentLog.DeploymentID l = d) new.
Proof.
  unfold services.AddDeploymentLog, database.CreateDeploymentLog. run_monad.
  destruct (db_error E (S (S (seq w)))); run_monad; repeat split.
  - exists []. rewrite app_nil_r. split; [reflexivity | constructor].
  - eexists [_]. split; [reflexivity|]. repeat constructor.
Qed.

Lemma GetDeploymentSteps_same (E : Env) d w :
  snd (services.GetDeploymentSteps E d w) = set_seq S w.
Proof.
  unfold services.GetDeploymentSteps, database.GetDeploymentSteps. run_monad.
  destruct (db_error E (seq w)); reflexivity.
Qed.

Lemma UpdateDeploymentStatus_tables (E : Env) d status errorMessage w :
  let w' := snd (services.UpdateDeploymentStatus E d status errorMessage w) in
  deployment_steps w' = deployment_steps w /\ deployment_logs w' = deployment_logs w
  /\ queue w' = queue w /\ job_records w' = job_records w
  /\ (deployments w' = deployments w
      \/ exists stamp,
           deployments w'
           = List.map (fun r => if Deployment.ID r =? d
                                then database.with_status status stamp errorMessage r
                                else r) (deployments w)).
Proof.
  unfold services.UpdateDeploymentStatus, database.UpdateDeploymentStatus. run_monad.
  destruct (db_error E (S (seq w))); run_monad; repeat split; eauto.
Qed.

Lemma UpdateJobStatus_tables (E : Env) j status errorMessage w :
  let w' := snd (services.UpdateJobStatus E j status errorMessage w) in
  deployments w' = deployments w /\ deployment_steps w' = deployment_steps w
  /\ deployment_logs w' = deployment_logs w /\ queue w' = queue w
  /\ forall k, k <> j -> job_records w' !! k = job_records w !! k.
Proof.
  unfold services.UpdateJobStatus. run_monad.
  destruct (redis_error E (seq w)); run_monad; [auto 10|].
  destruct (job_records w !! j); run_monad; [|auto 10].
  destruct (bool_decide (status = Job.JobStatusCompleted)
            || bool_decide (status = Job.JobStatusFailed)); run_monad;
    match goal with
    | |- context [redis_error E ?n] => destruct (redis_error E n)
    end; run_monad; repeat split; auto;
    intros k Hk; apply lookup_insert_ne; congruence.
Qed.

(** What the two step-updating helpers of the worker do to the world: they
    leave it, or rewrite through [UpdateDeploymentStep] a row that they
    found among the steps of the deployment. *)
Lemma step_update_tables (E : Env) d w w' :
  (exists order status errorMessage,
     w' = snd (worker.updateDeploymentStep E d order status errorMessage w))
  \/ (exists order errorMsg, w' = snd (worker.markStepAsFailed E order d errorMsg w)) ->
  deployments w' = deployments w /\ deployment_logs w' = deployment_logs w
  /\ queue w' = queue w /\ job_records w' = job_records w
  /\ (deployment_steps w' = deployment_steps w
      \/ exists target step,
           In target (deployment_steps w)
           /\ DeploymentStep.DeploymentID target = d
           /\ DeploymentStep.ID step = DeploymentStep.ID target
           /\ deployment_steps w'
              = List.map (fun row => if DeploymentStep.ID row =? DeploymentStep.ID step
                                     then database.updated_step step row else row)
                  (deployment_steps w)).
Proof.
  intros [(order & status & errorMessage & ->)|(order & errorMsg & ->)].
  - unfold worker.updateDeploymentStep, services.GetDeploymentSteps,
      database.GetDeploymentSteps, services.UpdateDeploymentStep,
      database.UpdateDeploymentStep.
    run_monad. destruct (db_error E (seq w)); run_monad; [auto 10|].
    fold (stepsOf d (deployment_steps w)).
    destruct (worker.findStep (stepsOf d (deployment_steps w)) order) as [target|] eqn:Hfind;
      run_monad; [|auto 10].
    destruct (db_error E (S (S (seq w)))); run_monad; [auto 10|].
    repeat split. right.
    apply findStep_Some in Hfind as [Htarget _].
    apply stepsOf_In in Htarget as [Htarget Hd].
    eexists target, _. split; [exact Htarget|]. split; [exact Hd|].
    split; [|reflexivity].
    unfold worker.transition. destruct (bool_decide _); [reflexivity|].
    destruct (_ || _); reflexivity.
  - unfold worker.markStepAsFailed, services.GetDeploymentSteps,
      database.GetDeploymentSteps, services.UpdateDeploymentStep,
      database.UpdateDeploymentStep.
    run_monad. destruct (db_error E (seq w)); run_monad; [auto 10|].
    fold (stepsOf d (deployment_steps w)).
    destruct (worker.findStep (stepsOf d (deployment_steps w)) order) as [target|] eqn:Hfind;
      run_monad; [|auto 10].
    destruct (db_error E (S (S (seq w)))); run_monad; [auto 10|].
    repeat split. right.
    apply findStep_Some in Hfind as [Htarget _].
    apply stepsOf_In in Htarget as [Htarget Hd].
    eexists target, _. split; [exact Htarget|]. split; [exact Hd|].
    split; [|reflexivity]. reflexivity.
Qed.

Lemma sameRows_of_tables w w' :
  deployment_steps w' = deployment_steps w -> deployments w' = deployments w ->
  sameRows w w'.
Proof. intros Hs Hd. unfold sameRows. rewrite Hs, Hd. auto. Qed.

Lemma sameRows_trans w1 w2 w3 : sameRows w1 w2 -> sameRows w2 w3 -> sameRows w1 w3.
Proof. intros [H1 H2] [H3 H4]. split; congruence. Qed.

Lemma sameRows_step_update (E : Env) d w w' :
  (exists order status errorMessage,
     w' = snd (worker.updateDeploymentStep E d order status errorMessage w))
  \/ (exists order errorMsg, w' = snd (worker.markStepAsFailed E order d errorMsg w)) ->
  sameRows w w'.
Proof.
  intros H. destruct (step_update_tables E d w w' H) as (Hd & _ & _ & _ & Hs).
  destruct Hs as [Hs|(target & step & _ & _ & _ & Hs)].
  - apply sameRows_of_tables; assumption.
  - split; [|rewrite Hd; reflexivity]. rewrite Hs, List.map_map.
    apply List.map_ext. intros row. destruct (_ =? _); reflexivity.
Qed.

Lemma sameRows_refl w : sameRows w w.
Proof. split; reflexivity. Qed.

Lemma sameRows_ask {A} (oracle : nat -> A) : keeps sameRows (ask oracle).
Proof. intros w. split; reflexivity. Qed.

Lemma sameRows_AddDeploymentLog (E : Env) d level message taskName stepOrder :
  keeps sameRows (services.AddDeploymentLog E d level message taskName stepOrder).
Proof.
  intros w.
  destruct (AddDeploymentLog_tables E d level message taskName stepOrder w)
    as (Hd & Hs & _).
  apply sameRows_of_tables; assumption.
Qed.

Lemma sameRows_GetDeploymentSteps (E : Env) d :
  keeps sameRows (services.GetDeploymentSteps E d).
Proof. intros w. rewrite GetDeploymentSteps_same. split; reflexivity. Qed.

Lemma sameRows_updateDeploymentStep (E : Env) d order status errorMessage :
  keeps sameRows (worker.updateDeploymentStep E d order status errorMessage).
Proof. intros w. apply (sameRows_step_update E d). left. eauto. Qed.

Lemma sameRows_markStepAsFailed (E : Env) d order errorMsg :
  keeps sameRows (worker.markStepAsFailed E order d errorMsg).
Proof. intros w. apply (sameRows_step_update E d). right. eauto. Qed.

Lemma sameRows_UpdateDeploymentStatus (E : Env) d status errorMessage :
  keeps sameRows (services.UpdateDeploymentStatus E d status errorMessage).
Proof.
  intros w.
  destruct (UpdateDeploymentStatus_tables E d status errorMessage w)
    as (Hs & _ & _ & _ & Hd).
  split; [rewrite Hs; reflexivity|].
  destruct Hd as [Hd|[stamp Hd]]; rewrite Hd; [reflexivity|].
  rewrite List.map_map. apply List.map_ext. intros r. destruct (_ =? _); reflexivity.
Qed.

Lemma sameRows_UpdateJobStatus (E : Env) j status errorMessage :
  keeps sameRows (services.UpdateJobStatus E j status errorMessage).
Proof.
  intros w.
  destruct (UpdateJobStatus_tables E j status errorMessage w) as (Hd & Hs & _).
  apply sameRows_of_tables; assumption.
Qed.

(** The rules of the section above, for [sameRows]. *)
Ltac sameRows_rule rule E L d :=
  apply (rule E L sameRows d 0 sameRows_refl sameRows_trans (@sameRows_ask)
           (sameRows_AddDeploymentLog E d) (sameRows_GetDeploymentSteps E d)
           (sameRows_updateDeploymentStep E d)
           (fun order errorMsg => sameRows_markStepAsFailed E d order errorMsg)
           (sameRows_UpdateDeploymentStatus E d) (sameRows_UpdateJobStatus E 0)).

(** X18: whatever a job carries and whatever fails while it is processed, the
    worker adds no row to the step table and the deployment table, removes
    none and moves none: step rows change at most in status, times,
    duration and error message, deployment rows at most in status,
    updated_at and error message. *)
Theorem processDeploymentJob_keeps_the_rows (E : Env) (L : GoLib) (job : Job.t)
    (w : World) :
  sameRows w (snd (worker.processDeploymentJob E L job w)).
Proof.
  apply (keeps_processDeploymentJob E L sameRows (Job.DeploymentID job) (Job.ID job)
           sameRows_refl sameRows_trans (@sameRows_ask)
           (sameRows_AddDeploymentLog E _) (sameRows_GetDeploymentSteps E _)
           (sameRows_updateDeploymentStep E _)
           (fun order errorMsg => sameRows_markStepAsFailed E _ order errorMsg)
           (sameRows_UpdateDeploymentStatus E _) (sameRows_UpdateJobStatus E _));
    reflexivity.
Qed.

Lemma confinedTo_of_tables d j w w' :
  deployment_steps w' = deployment_steps w -> deployments w' = deployments w ->
  deployment_logs w' = deployment_logs w -> queue w' = queue w ->
  job_records w' = job_records w ->
  confinedTo d j w w'.
Proof.
  intros Hs Hd Hl Hq Hj. unfold confinedTo. rewrite Hs, Hd, Hl, Hq, Hj.
  split; [auto|]. split; [reflexivity|].
  split; [exists []; rewrite app_nil_r; split; [reflexivity | constructor]|].
  split; reflexivity.
Qed.

Lemma confinedTo_trans d j w1 w2 w3 :
  confinedTo d j w1 w2 -> confinedTo d j w2 w3 -> confinedTo d j w1 w3.
Proof.
  intros (Hs & Hd & (new & Hl & Hnew) & Hq & Hj) (Hs' & Hd' & (new' & Hl' & Hnew') & Hq' & Hj').
  split; [|split; [|split; [|split]]].
  - intros Hids. destruct (Hs Hids) as [Hids2 Heq]. destruct (Hs' Hids2) as [Hids3 Heq'].
    split; [exact Hids3 | congruence].
  - congruence.
  - exists (new ++ new'). rewrite Hl', Hl, <- app_assoc. split; [reflexivity|].
    apply List.Forall_app. split; assumption.
  - congruence.
  - intros k Hk. rewrite (Hj' k Hk). apply Hj, Hk.
Qed.

Lemma filter_others_updated d (step : DeploymentStep.t) rows :
  (forall row, In row rows -> DeploymentStep.ID row = DeploymentStep.ID step ->
               DeploymentStep.DeploymentID row = d) ->
  List.filter (fun s => negb (DeploymentStep.DeploymentID s =? d))
    (List.map (fun row => if DeploymentStep.ID row =? DeploymentStep.ID step
                          then database.updated_step step row else row) rows)
  = List.filter (fun s => negb (DeploymentStep.DeploymentID s =? d)) rows.
Proof.
  induction rows as [|row rows IH]; intros Hrows; [reflexivity|].
  cbn [List.map List.filter].
  rewrite IH by (intros r Hr; apply Hrows; now right).
  destruct (N.eqb_spec (DeploymentStep.ID row) (DeploymentStep.ID step)) as [Heq|_];
    [|reflexivity].
  cbn [database.updated_step DeploymentStep.DeploymentID].
  rewrite (Hrows row (or_introl eq_refl) Heq), N.eqb_refl. reflexivity.
Qed.

Lemma filter_others_with_status d status stamp errorMessage rows :
  List.filter (fun r => negb (Deployment.ID r =? d))
    (List.map (fun r => if Deployment.ID r =? d
                        then database.with_status status stamp errorMessage r
                        else r) rows)
  = List.filter (fun r => negb (Deployment.ID r =? d)) rows.
Proof.
  induction rows as [|r rows IH]; [reflexivity|].
  cbn [List.map List.filter]. rewrite IH.
  destruct (N.eqb_spec (Deployment.ID r) d) as [Heq|Hne].
  - cbn [database.with_status Deployment.ID]. rewrite Heq, N.eqb_refl. reflexivity.
  - apply N.eqb_neq in Hne. rewrite Hne. reflexivity.
Qed.

Lemma confinedTo_step_update (E : Env) d j w w' :
  (exists order status errorMessage,
     w' = snd (worker.updateDeploymentStep E d order status errorMessage w))
  \/ (exists order errorMsg, w' = snd (worker.markStepAsFailed E order d errorMsg w)) ->
  confinedTo d j w w'.
Proof.
  intros H. destruct (step_update_tables E d w w' H) as (Hd & Hl & Hq & Hj & Hs).
  destruct Hs as [Hs|(target & step & Htarget & Hdep & Hid & Hs)].
  - apply confinedTo_of_tables; assumption.
  - unfold confinedTo. rewrite Hd, Hl, Hq, Hj.
    split; [|split; [reflexivity|split; [|split; reflexivity]]].
    + intros Hids. rewrite Hs. split.
      * rewrite map_ID_updated; [exact Hids|].
        intros row. destruct (_ =? _); reflexivity.
      * apply filter_others_updated. intros row Hrow Heq.
        rewrite (NoDup_map_inj DeploymentStep.ID _ row target Hids Hrow Htarget);
          [exact Hdep | congruence].
    + exists []. rewrite app_nil_r. split; [reflexivity | constructor].
Qed.

(** X19: processing a job touches nothing that belongs to another deployment or
    to another job: the step rows and the deployment rows of the other
    deployments stay as they are (step ids being unique), every log row
    that is written is a row of the job's deployment, the queue is not
    touched and neither are the records of other jobs. *)
Theorem processDeploymentJob_is_confined_to_its_deployment (E : Env) (L : GoLib)
    (job : Job.t) (w : World) :
  confinedTo (Job.DeploymentID job) (Job.ID job) w
    (snd (worker.processDeploymentJob E L job w)).
Proof.
  apply (keeps_processDeploymentJob E L
           (confinedTo (Job.DeploymentID job) (Job.ID job))
           (Job.DeploymentID job) (Job.ID job)); try reflexivity.
  - intros w0. apply confinedTo_of_tables; reflexivity.
  - apply confinedTo_trans.
  - intros A oracle w0. apply confinedTo_of_tables; reflexivity.
  - intros level message taskName stepOrder w0.
    destruct (AddDeploymentLog_tables E (Job.DeploymentID job) level message taskName
                stepOrder w0) as (Hd & Hs & Hq & Hj & Hl).
    unfold confinedTo. rewrite Hd, Hs, Hq, Hj. auto 10.
  - intros w0. rewrite GetDeploymentSteps_same. apply confinedTo_of_tables; reflexivity.
  - intros order status errorMessage w0. apply (confinedTo_step_update E). left. eauto.
  - intros order errorMsg w0. apply (confinedTo_step_update E). right. eauto.
  - intros status errorMessage w0.
    destruct (UpdateDeploymentStatus_tables E (Job.DeploymentID job) status errorMessage w0)
      as (Hs & Hl & Hq & Hj & Hd).
    unfold confinedTo. rewrite Hs, Hl, Hq, Hj.
    split; [auto|]. split; [|split; [|split; reflexivity]].
    + destruct Hd as [Hd|[stamp Hd]]; rewrite Hd; [reflexivity|].
      apply filter_others_with_status.
    + exists []. rewrite app_nil_r. split; [reflexivity | constructor].
  - intros status errorMessage w0.
    destruct (UpdateJobStatus_tables E (Job.ID job) status errorMessage w0)
      as (Hd & Hs & Hl & Hq & Hj).
    unfold confinedTo. rewrite Hd, Hs, Hl, Hq.
    split; [auto|]. split; [reflexivity|].
    split; [exists []; rewrite app_nil_r; split; [reflexivity | constructor]|].
    split; [reflexivity | exact Hj].
Qed.

(** ** Marking steps as failed *)

Section MarkLoop.
Variable E : Env.
Variable d : uuid.UUID.
Variable p : DeploymentStep.t -> bool.
Variable msg : gostring.

Lemma forEach_markLoop (steps : list DeploymentStep.t) :
  forall w,
    (forall n, db_error E n = None) ->
    markLoop d p msg steps (deployment_steps w)
      (deployment_steps
         (snd (forEach steps (fun step =>
                 if p step
                 then worker.updateDeploymentStep E d (DeploymentStep.StepOrder step)
                        DeploymentStatusFailed (Some msg)
                      >> ret tt
                 else ret tt) w))).
Proof.
  induction steps as [|step steps IH]; intros w Hdb.
  - constructor.
  - cbn [forEach]. unfold bind at 1.
    destruct (p step) eqn:Hp.
    + unfold bind at 1.
      destruct (updateDeploymentStep_failByOrder E d (DeploymentStep.StepOrder step)
                  msg w (fun n _ => Hdb n)) as [Hsteps _].
      destruct (worker.updateDeploymentStep E d (DeploymentStep.StepOrder step)
                  DeploymentStatusFailed (Some msg) w) as [err w1].
      cbn [snd] in Hsteps. unfold ret at 1.
      eapply markLoop_fail; [exact Hp|]. rewrite <- Hsteps. apply IH, Hdb.
    + unfold ret at 1. apply markLoop_skip; [exact Hp|]. apply IH, Hdb.
Qed.

Lemma failedIf_keys marked row row' :
  failedIf msg marked row row' ->
  DeploymentStep.ID row' = DeploymentStep.ID row
  /\ DeploymentStep.DeploymentID row' = DeploymentStep.DeploymentID row
  /\ DeploymentStep.StepOrder row' = DeploymentStep.StepOrder row.
Proof.
  unfold failedIf, failedRow. destruct (marked row).
  - tauto.
  - intros ->. auto.
Qed.

Lemma markLoop_marks l T T' :
  markLoop d p msg l T T' ->
  forall (T0 : list DeploymentStep.t) (marked : DeploymentStep.t -> bool),
    List.NoDup (List.map DeploymentStep.ID T0) ->
    List.NoDup (List.map DeploymentStep.StepOrder
                  (List.filter (fun s => DeploymentStep.DeploymentID s =? d) T0)) ->
    List.NoDup (List.map DeploymentStep.ID l) ->
    (forall s, In s l ->
       In s T0 /\ DeploymentStep.DeploymentID s = d /\ marked s = false) ->
    Forall2 (failedIf msg marked) T0 T ->
    Forall2 (failedIf msg (fun r =>
               marked r
               || existsb (fun s => (DeploymentStep.ID s =? DeploymentStep.ID r) && p s) l))
      T0 T'.
Proof.
  induction 1 as [T | s l T T' Hp _ IH | s l now T T' Hp _ IH];
    intros T0 marked Hids Horders Hl Hin HF.
  - eapply Forall2_impl_In; [|exact HF]. intros a b _ H.
    unfold failedIf in *. cbn [existsb]. rewrite orb_false_r. exact H.
  - apply List.NoDup_cons_iff in Hl as [Hs Hl].
    specialize (IH T0 marked Hids Horders Hl
                  (fun s' Hs' => Hin s' (or_intror Hs')) HF).
    eapply Forall2_impl_In; [|exact IH]. intros a b _ H.
    unfold failedIf in *. cbn [existsb]. rewrite Hp, andb_false_r. exact H.
  - apply List.NoDup_cons_iff in Hl as [Hs Hl].
    destruct (Hin s (or_introl eq_refl)) as (Hs0 & Hsd & Hsm).
    set (marked1 := fun r => marked r || (DeploymentStep.ID s =? DeploymentStep.ID r)).
    assert (HF1 : Forall2 (failedIf msg marked1) T0
                    (failByOrder d (DeploymentStep.StepOrder s) msg now T)).
    { assert (HsT : In s T).
      { destruct (Forall2_In_l _ _ _ _ HF Hs0) as (b & Hb & Hm).
        unfold failedIf in Hm. rewrite Hsm in Hm. subst b. exact Hb. }
      unfold failByOrder.
      destruct (findStep_In (stepsOf d T) s) as [t Ht].
      { apply stepsOf_In. auto. }
      rewrite Ht. apply findStep_Some in Ht as [HtT Hto].
      apply stepsOf_In in HtT as [HtT Htd].
      assert (t = s) as ->.
      { destruct (Forall2_In_r _ _ _ _ HF HtT) as (t0 & Ht0 & Hm).
        destruct (failedIf_keys _ _ _ Hm) as (Hid & Hdep & Hord).
        assert (t0 = s) as ->.
        { apply (NoDup_map_inj DeploymentStep.StepOrder _ _ _ Horders).
          - apply List.filter_In. split; [exact Ht0|]. apply N.eqb_eq. congruence.
          - apply List.filter_In. split; [exact Hs0|]. apply N.eqb_eq. congruence.
          - congruence. }
        unfold failedIf in Hm. rewrite Hsm in Hm. exact Hm. }
      eapply Forall2_map_r_In; [|exact HF]. intros a b Ha Hm.
      destruct (failedIf_keys _ _ _ Hm) as (Hid & _ & _).
      unfold failedIf, marked1 in *.
      destruct (N.eqb_spec (DeploymentStep.ID b) (DeploymentStep.ID s)) as [Heq|Hne].
      - assert (a = s) as ->.
        { apply (NoDup_map_inj DeploymentStep.ID _ _ _ Hids Ha Hs0). congruence. }
        rewrite Hsm in Hm. subst b. rewrite Hsm, N.eqb_refl. cbn [orb].
        repeat split.
      - replace (DeploymentStep.ID s =? DeploymentStep.ID a) with false.
        + rewrite orb_false_r. exact Hm.
        + symmetry. apply N.eqb_neq. congruence. }
    assert (Hin1 : forall s', In s' l ->
              In s' T0 /\ DeploymentStep.DeploymentID s' = d /\ marked1 s' = false).
    { intros s' Hs'. destruct (Hin s' (or_intror Hs')) as (H1 & H2 & H3).
      split; [exact H1|]. split; [exact H2|]. unfold marked1. rewrite H3. cbn [orb].
      apply N.eqb_neq. intros Heq. apply Hs. rewrite Heq. apply List.in_map, Hs'. }
    specialize (IH T0 marked1 Hids Horders Hl Hin1 HF1).
    eapply Forall2_impl_In; [|exact IH]. intros a b _ H.
    unfold failedIf, marked1 in *. cbn [existsb]. rewrite Hp, andb_true_r.
    rewrite orb_assoc. exact H.
Qed.

(** The loop over the steps of the deployment, run on the table it was
    read from. *)
Lemma mark_loop_failedIf (w : World) :
  (forall n, db_error E n = None) ->
  List.NoDup (List.map DeploymentStep.ID (deployment_steps w)) ->
  List.NoDup (List.map DeploymentStep.StepOrder
                (List.filter (fun s => DeploymentStep.DeploymentID s =? d)
                   (deployment_steps w))) ->
  Forall2 (failedIf msg (fun row => (DeploymentStep.DeploymentID row =? d) && p row))
    (deployment_steps w)
    (deployment_steps
       (snd (forEach (stepsOf d (deployment_steps w)) (fun step =>
               if p step
               then worker.updateDeploymentStep E d (DeploymentStep.StepOrder step)
                      DeploymentStatusFailed (Some msg)
                    >> ret tt
               else ret tt) (set_seq S w)))).
Proof.
  intros Hdb Hids Horders.
  pose proof (forEach_markLoop (stepsOf d (deployment_steps w)) (set_seq S w) Hdb) as Hloop.
  cbn [set_seq deployment_steps] in Hloop.
  pose proof (markLoop_marks _ _ _ Hloop (deployment_steps w) (fun _ => false)
                Hids Horders (stepsOf_NoDup d _ Hids)) as Hmarks.
  eapply Forall2_impl_In; [|apply Hmarks].
  - intros a b Ha Hm. unfold failedIf in *. cbn [orb] in Hm.
    match type of Hm with
    | if ?x then _ else _ =>
        replace ((DeploymentStep.DeploymentID a =? d) && p a) with x; [exact Hm|]
    end.
    apply eq_true_iff_eq. rewrite existsb_exists, andb_true_iff, N.eqb_eq. split.
    + intros (s & Hs & Hcond). apply andb_true_iff in Hcond as [Hid Hp].
      apply N.eqb_eq in Hid. apply stepsOf_In in Hs as [Hs Hsd].
      assert (s = a) as -> by (apply (NoDup_map_inj _ _ _ _ Hids Hs Ha Hid)).
      auto.
    + intros [Hd Hp]. exists a. split; [apply stepsOf_In; auto|].
      rewrite N.eqb_refl, Hp. reflexivity.
  - intros s Hs. apply stepsOf_In in Hs. tauto.
  - clear. induction (deployment_steps w); constructor; [reflexivity | assumption].
Qed.

End MarkLoop.

Lemma markAllStepsAsFailed_marks (E : Env) (d : uuid.UUID) (errorMsg : gostring)
    (w : World) :
  (forall n, db_error E n = None) ->
  List.NoDup (List.map DeploymentStep.ID (deployment_steps w)) ->
  List.NoDup (List.map DeploymentStep.StepOrder
                (List.filter (fun s => DeploymentStep.DeploymentID s =? d)
                   (deployment_steps w))) ->
  Forall2 (failedIf errorMsg
             (fun row => (DeploymentStep.DeploymentID row =? d) && unfinished row))
    (deployment_steps w)
    (deployment_steps (snd (worker.markAllStepsAsFailed E d errorMsg w)))
  /\ Forall (fun row => DeploymentStep.DeploymentID row = d ->
                        DeploymentStep.Status row = DeploymentStatusCompleted
                        \/ DeploymentStep.Status row = DeploymentStatusFailed)
       (deployment_steps (snd (worker.markAllStepsAsFailed E d errorMsg w))).
Proof.
  intros Hdb Hids Horders.
  assert (HF : Forall2 (failedIf errorMsg
                 (fun row => (DeploymentStep.DeploymentID row =? d) && unfinished row))
                 (deployment_steps w)
                 (deployment_steps (snd (worker.markAllStepsAsFailed E d errorMsg w)))).
  { unfold worker.markAllStepsAsFailed, services.GetDeploymentSteps,
      database.GetDeploymentSteps.
    run_monad. rewrite Hdb. run_monad.
    apply (mark_loop_failedIf E d unfinished errorMsg w Hdb Hids Horders). }
  split; [exact HF|].
  apply List.Forall_forall. intros row' Hrow' Hd.
  destruct (Forall2_In_r _ _ _ _ HF Hrow') as (row & _ & Hm).
  unfold failedIf in Hm.
  destruct ((DeploymentStep.DeploymentID row =? d) && unfinished row) eqn:Hmark.
  - right. apply Hm.
  - subst row'. apply andb_false_iff in Hmark as [Hne|Hfin].
    + apply N.eqb_neq in Hne. contradiction.
    + unfold unfinished in Hfin.
      apply andb_false_iff in Hfin as [H|H]; apply negb_false_iff in H;
        apply bool_decide_eq_true in H; auto.
Qed.

(** X20: when no database call fails, step ids are unique and the step orders
    of the deployment are pairwise different, [markAllStepsAsFailed]
    rewrites exactly the rows of the deployment that are neither completed
    nor failed: each gets status failed and the given message and keeps its
    id, name, order and start time.  Afterwards every step of the
    deployment is completed or failed. *)
Theorem markAllStepsAsFailed_finishes_every_step (E : Env) (d : uuid.UUID)
    (errorMsg : gostring) (w : World) :
  (forall n, db_error E n = None) ->
  List.NoDup (List.map DeploymentStep.ID (deployment_steps w)) ->
  List.NoDup (List.map DeploymentStep.StepOrder
                (List.filter (fun s => DeploymentStep.DeploymentID s =? d)
                   (deployment_steps w))) ->
  Forall2 (failedIf errorMsg
             (fun row => (DeploymentStep.DeploymentID row =? d) && unfinished row))
    (deployment_steps w)
    (deployment_steps (snd (worker.markAllStepsAsFailed E d errorMsg w)))
  /\ Forall (fun row => DeploymentStep.DeploymentID row = d ->
                        DeploymentStep.Status row = DeploymentStatusCompleted
                        \/ DeploymentStep.Status row = DeploymentStatusFailed)
       (deployment_steps (snd (worker.markAllStepsAsFailed E d errorMsg w))).
Proof. apply markAllStepsAsFailed_marks. Qed.

Lemma markAllStepsAsFailed_finishes_every_step_witness :
  Forall2 (failedIf (str "missing required deployment parameters")
             (fun row => (DeploymentStep.DeploymentID row =? 1) && unfinished row))
    (deployment_steps Samples.midway)
    (deployment_steps
       (snd (worker.markAllStepsAsFailed Samples.quiet 1
               (str "missing required deployment parameters") Samples.midway)))
  /\ Forall (fun row => DeploymentStep.DeploymentID row = 1 ->
                        DeploymentStep.Status row = DeploymentStatusCompleted
                        \/ DeploymentStep.Status row = DeploymentStatusFailed)
       (deployment_steps
          (snd (worker.markAllStepsAsFailed Samples.quiet 1
                  (str "missing required deployment parameters") Samples.midway))).
Proof.
  apply markAllStepsAsFailed_finishes_every_step.
  - reflexivity.
  - cbn. repeat constructor; cbn; intuition discriminate.
  - cbn. repeat constructor; cbn; intuition discriminate.
Defined.

(** ** Jobs that fail *)

Lemma filter_map_keys {A B} (f : A -> B) (q : B -> bool) (l : list A) :
  List.filter q (List.map f l) = List.map f (List.filter (fun x => q (f x)) l).
Proof.
  induction l as [|x l IH]; cbn; [reflexivity|]. rewrite IH.
  destruct (q (f x)); reflexivity.
Qed.

Lemma sameRows_wellKeyed d w w' :
  sameRows w w' -> stepsWellKeyed d w -> stepsWellKeyed d w'.
Proof.
  intros [Hkeys _] [Hids Horders]. split.
  - replace (List.map DeploymentStep.ID (deployment_steps w'))
      with (List.map (fun k => fst (fst (fst k))) (List.map stepKey (deployment_steps w')))
      by (rewrite List.map_map; reflexivity).
    rewrite Hkeys, List.map_map. exact Hids.
  - replace (List.map DeploymentStep.StepOrder
               (List.filter (fun s => DeploymentStep.DeploymentID s =? d)
                  (deployment_steps w')))
      with (List.map snd
              (List.filter (fun k => snd (fst (fst k)) =? d)
                 (List.map stepKey (deployment_steps w'))))
      by (rewrite filter_map_keys, List.map_map; reflexivity).
    rewrite Hkeys, filter_map_keys, List.map_map. exact Horders.
Qed.

Lemma markRemainingStepsAsFailed_noneRunning (E : Env) d k w :
  (forall n, db_error E n = None) -> stepsWellKeyed d w ->
  noneRunning d (snd (worker.markRemainingStepsAsFailed E d k w)).
Proof.
  intros Hdb [Hids Horders].
  assert (HF : Forall2 (failedIf (worker.abandonReason k)
                 (fun row => (DeploymentStep.DeploymentID row =? d) && worker.abandoned k row))
                 (deployment_steps w)
                 (deployment_steps (snd (worker.markRemainingStepsAsFailed E d k w)))).
  { unfold worker.markRemainingStepsAsFailed, services.GetDeploymentSteps,
      database.GetDeploymentSteps.
    run_monad. rewrite Hdb. run_monad.
    apply (mark_loop_failedIf E d (worker.abandoned k) (worker.abandonReason k) w
             Hdb Hids Horders). }
  apply List.Forall_forall. intros row' Hrow' Hd.
  destruct (Forall2_In_r _ _ _ _ HF Hrow') as (row & _ & Hm).
  unfold failedIf in Hm.
  destruct ((DeploymentStep.DeploymentID row =? d) && worker.abandoned k row) eqn:Hmark.
  - destruct Hm as [Hst _]. rewrite Hst. discriminate.
  - subst row'. apply andb_false_iff in Hmark as [Hne|Hab].
    + apply N.eqb_neq in Hne. contradiction.
    + intros Hrun. unfold worker.abandoned in Hab. rewrite Hrun in Hab.
      rewrite (bool_decide_eq_true_2 (DeploymentStatusRunning = DeploymentStatusRunning))
        in Hab by reflexivity.
      rewrite orb_true_r in Hab. discriminate.
Qed.

Section FailurePath.
Variable E : Env.
Variable L : GoLib.
Variable d : uuid.UUID.
Hypothesis Hdb : forall n, db_error E n = None.

Lemma stopsSteps_keeps {A} (m : M A) (k : A -> M (option gostring)) :
  keeps sameRows m -> (forall a, stopsSteps d (k a)) -> stopsSteps d (bind m k).
Proof using Type.
  intros Hm Hk w Hw. unfold bind. specialize (Hm w).
  destruct (m w) as [a w1]. apply Hk, (sameRows_wellKeyed d w w1 Hm Hw).
Qed.

Lemma stopsSteps_nil : stopsSteps d (ret None).
Proof using Type. intros w Hw. split; [exact Hw | intros H; now destruct H]. Qed.

Lemma stopsSteps_mark k e :
  stopsSteps d (worker.markRemainingStepsAsFailed E d k >> ret (Some e)).
Proof using Hdb.
  intros w Hw. unfold bind, ret.
  pose proof (markRemainingStepsAsFailed_noneRunning E d k w Hdb Hw) as Hnone.
  assert (Hsame : sameRows w (snd (worker.markRemainingStepsAsFailed E d k w))).
  { apply (keeps_markRemainingStepsAsFailed E sameRows d sameRows_refl sameRows_trans
             (sameRows_GetDeploymentSteps E d) (sameRows_updateDeploymentStep E d)). }
  destruct (worker.markRemainingStepsAsFailed E d k w) as [[] w1]. cbn [fst snd] in *.
  split; [exact (sameRows_wellKeyed d w w1 Hsame Hw) | intros _; exact Hnone].
Qed.

Lemma stopsSteps_pass (m : M (option gostring))
    (k : option gostring -> M (option gostring)) :
  stopsSteps d m -> (forall e, k (Some e) = ret (Some e)) -> stopsSteps d (k None) ->
  stopsSteps d (bind m k).
Proof using Type.
  intros Hm Hpass Hk w Hw. unfold bind. specialize (Hm w Hw).
  destruct (m w) as [[e|] w1]; cbn [fst snd] in Hm; destruct Hm as [Hw1 Hnone].
  - rewrite Hpass. cbn [ret fst snd]. split; [exact Hw1|].
    intros _. apply Hnone. discriminate.
  - apply Hk, Hw1.
Qed.

Lemma stopsSteps_executeDeploymentSteps repoURL pat branch envFilePath envVars port
    containerName :
  stopsSteps d (worker.executeDeploymentSteps E L d repoURL pat branch envFilePath
                  envVars port containerName).
Proof using Hdb.
  unfold worker.executeDeploymentSteps.
  apply stopsSteps_keeps; [sameRows_rule keeps_cloneRepository E L d|].
  intros [e|]; [apply stopsSteps_mark|].
  apply stopsSteps_keeps; [sameRows_rule keeps_buildDockerImage E L d|].
  intros [e|]; [apply stopsSteps_mark|].
  apply stopsSteps_pass.
  - destruct envFilePath.
    + apply stopsSteps_keeps; [sameRows_rule keeps_runDockerContainer E L d|].
      intros [e|]; [apply stopsSteps_mark | apply stopsSteps_nil].
    + apply stopsSteps_keeps; [sameRows_rule keeps_copyEnvFileToTarget E L d|].
      intros [e|]; [apply stopsSteps_mark|].
      apply stopsSteps_keeps; [sameRows_rule keeps_runDockerContainerWithEnvFile E L d|].
      intros [e|]; [apply stopsSteps_mark | apply stopsSteps_nil].
  - reflexivity.
  - apply stopsSteps_keeps; [sameRows_rule keeps_healthCheck E L d|].
    intros [e|]; [apply stopsSteps_mark | apply stopsSteps_nil].
Qed.

Lemma UpdateDeploymentStatus_applied status errorMessage w :
  fst (services.UpdateDeploymentStatus E d status errorMessage w) = None
  /\ deploymentHasStatus d status
       (snd (services.UpdateDeploymentStatus E d status errorMessage w))
  /\ deployment_steps (snd (services.UpdateDeploymentStatus E d status errorMessage w))
     = deployment_steps w.
Proof using Hdb.
  unfold services.UpdateDeploymentStatus, database.UpdateDeploymentStatus. run_monad.
  rewrite Hdb. run_monad. split; [reflexivity|]. split; [|reflexivity].
  intros dep Hdep Hid. cbn [deployments set_deployments set_seq] in Hdep.
  apply List.in_map_iff in Hdep as [dep0 [Heq _]].
  destruct (N.eqb_spec (Deployment.ID dep0) d) as [Hd|Hd].
  - subst dep. reflexivity.
  - subst dep. contradiction.
Qed.

End FailurePath.

Lemma addLog_tables (E : Env) d level message taskName stepOrder w :
  deployments (snd (worker.addLog E d level message taskName stepOrder w)) = deployments w
  /\ deployment_steps (snd (worker.addLog E d level message taskName stepOrder w))
     = deployment_steps w.
Proof.
  unfold worker.addLog. unfold bind, ret.
  destruct (AddDeploymentLog_tables E d (str level) (str message) (str taskName)
              stepOrder w) as (Hd & Hs & _).
  destruct (services.AddDeploymentLog E d _ _ _ stepOrder w). auto.
Qed.

Lemma addLogf_tables (E : Env) d level message taskName stepOrder w :
  deployments (snd (worker.addLogf E d level message taskName stepOrder w)) = deployments w
  /\ deployment_steps (snd (worker.addLogf E d level message taskName stepOrder w))
     = deployment_steps w.
Proof.
  unfold worker.addLogf. unfold bind, ret.
  destruct (AddDeploymentLog_tables E d (str level) message (str taskName)
              stepOrder w) as (Hd & Hs & _).
  destruct (services.AddDeploymentLog E d _ _ _ stepOrder w). auto.
Qed.

Lemma stepsWellKeyed_of_steps d w w' :
  deployment_steps w' = deployment_steps w -> stepsWellKeyed d w -> stepsWellKeyed d w'.
Proof. unfold stepsWellKeyed. intros ->. auto. Qed.

Lemma markAllStepsAsFailed_deployments (E : Env) d errorMsg w :
  deployments (snd (worker.markAllStepsAsFailed E d errorMsg w)) = deployments w.
Proof.
  apply (keeps_markAllStepsAsFailed E (fun w w' => deployments w' = deployments w) d).
  - reflexivity.
  - intros w1 w2 w3 H12 H23. congruence.
  - intros w0. rewrite GetDeploymentSteps_same. reflexivity.
  - intros order status errorMessage w0.
    apply (step_update_tables E d w0). left. eauto.
Qed.

(** X21: a job whose data lacks one of the six required strings is refused
    with the error "missing required deployment parameters": when the
    database works and the steps are well keyed, every step of its
    deployment is then completed or failed, and the deployment row stays in
    status running, where the first update of the job has put it. *)
Theorem job_without_parameters_leaves_the_deployment_running (E : Env) (L : GoLib)
    (job : Job.t) (w : World) :
  (forall n, db_error E n = None) ->
  stepsWellKeyed (Job.DeploymentID job) w ->
  missingParameters L job = true ->
  fst (worker.processDeploymentJob E L job w)
  = Some (str "missing required deployment parameters")
  /\ deploymentHasStatus (Job.DeploymentID job) DeploymentStatusRunning
       (snd (worker.processDeploymentJob E L job w))
  /\ Forall (fun row => DeploymentStep.DeploymentID row = Job.DeploymentID job ->
                        DeploymentStep.Status row = DeploymentStatusCompleted
                        \/ DeploymentStep.Status row = DeploymentStatusFailed)
       (deployment_steps (snd (worker.processDeploymentJob E L job w))).
Proof.
  intros Hdb Hw Hmissing. unfold missingParameters in Hmissing.
  destruct (worker.processDeploymentJob E L job w) as [result w'] eqn:Hrun.
  cbn [fst snd]. revert Hrun.
  unfold worker.processDeploymentJob. cbv zeta. rewrite Hmissing.
  set (d := Job.DeploymentID job) in *.
  unfold bind at 1.
  destruct (UpdateDeploymentStatus_applied E d Hdb DeploymentStatusRunning None w)
    as (Hnil & Hstatus & Hsteps).
  destruct (services.UpdateDeploymentStatus E d DeploymentStatusRunning None w)
    as [r w1]. cbn [fst snd] in *. subst r.
  unfold bind at 1.
  destruct (addLog_tables E d "info" "Starting deployment process" "deployment_start"
              None w1) as [Hd2 Hs2].
  destruct (worker.addLog E d "info" "Starting deployment process" "deployment_start"
              None w1) as [[] w2]. cbn [fst snd] in *.
  unfold bind, ret.
  assert (Hw2 : stepsWellKeyed d w2).
  { apply (stepsWellKeyed_of_steps d w); [congruence | exact Hw]. }
  destruct Hw2 as [Hids Horders].
  pose proof (markAllStepsAsFailed_marks E d
                (str "missing required deployment parameters") w2 Hdb Hids Horders)
    as [_ Hfinished].
  pose proof (markAllStepsAsFailed_deployments E d
                (str "missing required deployment parameters") w2) as Hd3.
  destruct (worker.markAllStepsAsFailed E d
              (str "missing required deployment parameters") w2) as [[] w3].
  cbn [fst snd] in *. intros Hrun. injection Hrun as <- <-.
  split; [reflexivity|]. split; [|exact Hfinished].
  unfold deploymentHasStatus in *. rewrite Hd3, Hd2. exact Hstatus.
Qed.


Lemma job_without_parameters_leaves_the_deployment_running_witness :
  fst (worker.processDeploymentJob Samples.quiet Samples.lib Samples.jobWithoutTarget
         Samples.dequeued)
  = Some (str "missing required deployment parameters")
  /\ deploymentHasStatus (Job.DeploymentID Samples.jobWithoutTarget)
       DeploymentStatusRunning
       (snd (worker.processDeploymentJob Samples.quiet Samples.lib
               Samples.jobWithoutTarget Samples.dequeued))
  /\ Forall (fun row => DeploymentStep.DeploymentID row
                        = Job.DeploymentID Samples.jobWithoutTarget ->
                        DeploymentStep.Status row = DeploymentStatusCompleted
                        \/ DeploymentStep.Status row = DeploymentStatusFailed)
       (deployment_steps
          (snd (worker.processDeploymentJob Samples.quiet Samples.lib
                  Samples.jobWithoutTarget Samples.dequeued))).
Proof.
  apply job_without_parameters_leaves_the_deployment_running.
  - reflexivity.
  - split; vm_compute; repeat constructor; cbn; intuition discriminate.
  - vm_compute. reflexivity.
Defined.

(** The same on the run of the witness: the deployment of the job has a
    row, which says running, and five steps, which all say failed. *)
Example job_without_target_on_a_created_deployment :
  List.map (fun row => (Deployment.ID row, Deployment.Status row))
    (deployments
       (snd (worker.processDeploymentJob Samples.quiet Samples.lib
               Samples.jobWithoutTarget Samples.dequeued)))
  = [ (Job.DeploymentID Samples.jobWithoutTarget, DeploymentStatusRunning) ]
  /\ List.map (fun row => (DeploymentStep.DeploymentID row, DeploymentStep.Status row))
       (deployment_steps
          (snd (worker.processDeploymentJob Samples.quiet Samples.lib
                  Samples.jobWithoutTarget Samples.dequeued)))
     = List.repeat (Job.DeploymentID Samples.jobWithoutTarget, DeploymentStatusFailed) 5.
Proof. split; vm_compute; reflexivity. Qed.

(** X22: a job that has its parameters and fails, while the database works and
    the steps are well keyed, leaves its deployment marked failed and none
    of the deployment's steps running. *)
Theorem failed_job_marks_the_deployment_failed (E : Env) (L : GoLib) (job : Job.t)
    (w : World) (e : gostring) :
  (forall n, db_error E n = None) ->
  stepsWellKeyed (Job.DeploymentID job) w ->
  missingParameters L job = false ->
  fst (worker.processDeploymentJob E L job w) = Some e ->
  deploymentHasStatus (Job.DeploymentID job) DeploymentStatusFailed
    (snd (worker.processDeploymentJob E L job w))
  /\ noneRunning (Job.DeploymentID job) (snd (worker.processDeploymentJob E L job w)).
Proof.
  intros Hdb Hw Hmissing. unfold missingParameters in Hmissing.
  destruct (worker.processDeploymentJob E L job w) as [result w'] eqn:Hrun.
  cbn [fst snd]. intros ->. revert Hrun.
  unfold worker.processDeploymentJob. cbv zeta. rewrite Hmissing.
  set (d := Job.DeploymentID job) in *.
  unfold bind at 1.
  destruct (UpdateDeploymentStatus_applied E d Hdb DeploymentStatusRunning None w)
    as (Hnil & _ & Hsteps).
  destruct (services.UpdateDeploymentStatus E d DeploymentStatusRunning None w)
    as [r w1]. cbn [fst snd] in *. subst r.
  apply (stepsWellKeyed_of_steps d w w1 Hsteps) in Hw. clear Hsteps.
  unfold bind at 1.
  destruct (addLog_tables E d "info" "Starting deployment process" "deployment_start"
              None w1) as [_ Hs2].
  destruct (worker.addLog E d "info" "Starting deployment process" "deployment_start"
              None w1) as [[] w2]. cbn [fst snd] in *.
  apply (stepsWellKeyed_of_steps d w1 w2 Hs2) in Hw. clear Hs2.
  unfold bind at 1.
  match goal with
  | |- context [worker.connectSSH E ?h ?u ?p w2] =>
      pose proof (keeps_connectSSH E sameRows sameRows_refl sameRows_trans
                    (@sameRows_ask) h u p w2) as Hssh;
      destruct (worker.connectSSH E h u p w2) as [[e1|] w3]
  end; cbn [fst snd] in *; apply (sameRows_wellKeyed d w2 w3 Hssh) in Hw; clear Hssh.
  - (* the connection failed *)
    cbv zeta. unfold bind at 1.
    match goal with
    | |- context [worker.addLogf E d ?lv ?m ?t ?o w3] =>
        destruct (addLogf_tables E d lv m t o w3) as [_ Hs4];
        destruct (worker.addLogf E d lv m t o w3) as [[] w4]
    end. cbn [fst snd] in *.
    apply (stepsWellKeyed_of_steps d w3 w4 Hs4) in Hw. clear Hs4.
    unfold bind at 1.
    match goal with
    | |- context [worker.markStepAsFailed E ?o d ?m w4] =>
        pose proof (sameRows_markStepAsFailed E d o m w4) as Hmark;
        destruct (worker.markStepAsFailed E o d m w4) as [r5 w5]
    end. cbn [fst snd] in *.
    apply (sameRows_wellKeyed d w4 w5 Hmark) in Hw. clear Hmark.
    unfold bind at 1.
    pose proof (markRemainingStepsAsFailed_noneRunning E d 1 w5 Hdb Hw) as Hnone.
    destruct (worker.markRemainingStepsAsFailed E d 1 w5) as [[] w6]. cbn [fst snd] in *.
    unfold bind, ret.
    match goal with
    | |- context [services.UpdateDeploymentStatus E d ?st ?m w6] =>
        destruct (UpdateDeploymentStatus_applied E d Hdb st m w6) as (_ & Hfailed & Hs7);
        destruct (services.UpdateDeploymentStatus E d st m w6) as [r7 w7]
    end. cbn [fst snd] in *. intros Hrun. injection Hrun as _ <-.
    split; [exact Hfailed|]. unfold noneRunning. rewrite Hs7. exact Hnone.
  - (* the connection is there *)
    unfold bind at 1.
    match goal with
    | |- context [worker.addLog E d ?lv ?m ?t ?o w3] =>
        destruct (addLog_tables E d lv m t o w3) as [_ Hs4];
        destruct (worker.addLog E d lv m t o w3) as [[] w4]
    end. cbn [fst snd] in *.
    apply (stepsWellKeyed_of_steps d w3 w4 Hs4) in Hw. clear Hs4.
    unfold bind at 1.
    match goal with
    | |- context [worker.executeDeploymentSteps E L d ?a1 ?a2 ?a3 ?a4 ?a5 ?a6 ?a7 w4] =>
        destruct (stopsSteps_executeDeploymentSteps E L d Hdb a1 a2 a3 a4 a5 a6 a7 w4 Hw)
          as [_ Hnone];
        destruct (worker.executeDeploymentSteps E L d a1 a2 a3 a4 a5 a6 a7 w4)
          as [[e5|] w5]
    end; cbn [fst snd] in *.
    + cbv zeta. specialize (Hnone ltac:(discriminate)).
      unfold bind at 1.
      match goal with
      | |- context [worker.addLogf E d ?lv ?m ?t ?o w5] =>
          destruct (addLogf_tables E d lv m t o w5) as [_ Hs6];
          destruct (worker.addLogf E d lv m t o w5) as [[] w6]
      end. cbn [fst snd] in *.
      unfold bind, ret.
      match goal with
      | |- context [services.UpdateDeploymentStatus E d ?st ?m w6] =>
          destruct (UpdateDeploymentStatus_applied E d Hdb st m w6)
            as (_ & Hfailed & Hs7);
          destruct (services.UpdateDeploymentStatus E d st m w6) as [r7 w7]
      end. cbn [fst snd] in *. intros Hrun. injection Hrun as _ <-.
      split; [exact Hfailed|]. unfold noneRunning. rewrite Hs7, Hs6. exact Hnone.
    + unfold bind at 1.
      destruct (UpdateDeploymentStatus_applied E d Hdb DeploymentStatusCompleted None w5)
        as (Hnil5 & _).
      destruct (services.UpdateDeploymentStatus E d DeploymentStatusCompleted None w5)
        as [r6 w6]. cbn [fst snd] in *. subst r6.
      unfold bind, ret.
      destruct (worker.addLog E d _ _ _ None w6) as [[] w7].
      destruct (services.UpdateJobStatus E (Job.ID job) _ None w7) as [r8 w8].
      discriminate.
Qed.

Lemma failed_job_marks_the_deployment_failed_witness :
  deploymentHasStatus (Job.DeploymentID Samples.job) DeploymentStatusFailed
    (snd (worker.processDeploymentJob Samples.sshDown Samples.lib Samples.job
            Samples.dequeued))
  /\ noneRunning (Job.DeploymentID Samples.job)
       (snd (worker.processDeploymentJob Samples.sshDown Samples.lib Samples.job
               Samples.dequeued)).
Proof.
  apply (failed_job_marks_the_deployment_failed Samples.sshDown Samples.lib Samples.job
           Samples.dequeued
           (wrap "failed to connect to target server"
              (wrap "failed to dial SSH" (str "connection refused")))).
  - reflexivity.
  - split; vm_compute; repeat constructor; cbn; intuition discriminate.
  - vm_compute. reflexivity.
  - vm_compute. reflexivity.
Defined.

(** ** Prefixes and suffixes: the bearer token and the repository path *)

Lemma HasPrefix_app p r : strings.HasPrefix (p ++ r) p = true.
Proof.
  induction p as [|c p IH]; cbn; [apply HasPrefix_nil|].
  rewrite N.eqb_refl. exact IH.
Qed.

Lemma HasPrefix_inv s p : strings.HasPrefix s p = true -> exists r, s = p ++ r.
Proof.
  revert s. induction p as [|c p IH]; intros s; [exists s; reflexivity|].
  destruct s as [|x s]; cbn; [discriminate|].
  intros H. apply andb_true_iff in H as [Hx Hs]. apply N.eqb_eq in Hx. subst x.
  destruct (IH s Hs) as [r ->]. exists r. reflexivity.
Qed.

Lemma TrimPrefix_app p r : strings.TrimPrefix (p ++ r) p = r.
Proof.
  unfold strings.TrimPrefix. rewrite HasPrefix_app. apply drop_app_length.
Qed.

Lemma TrimSuffix_app p s : strings.TrimSuffix (p ++ s) s = p.
Proof.
  unfold strings.TrimSuffix, strings.HasSuffix.
  rewrite rev_app_distr, HasPrefix_app, length_app.
  replace (length p + length s - length s)%nat with (length p) by lia.
  apply take_app_length.
Qed.

(** X23: [extractToken] returns a token exactly for the headers that consist of
    "Bearer " followed by that token: a non-empty [t] is returned for the
    header [h] if and only if [h] is "Bearer " followed by [t]. *)
Theorem extractToken_reads_bearer_headers (h t : gostring) :
  t <> [] ->
  (middleware.extractToken h = t <-> h = str "Bearer " ++ t).
Proof.
  intros Ht. unfold middleware.extractToken. split.
  - case_bool_decide; [congruence|].
    destruct (strings.HasPrefix h (str "Bearer ")) eqn:Hp; cbn [negb]; [|congruence].
    destruct (HasPrefix_inv _ _ Hp) as [r ->]. rewrite TrimPrefix_app. congruence.
  - intros ->. rewrite bool_decide_eq_false_2 by discriminate.
    rewrite HasPrefix_app, TrimPrefix_app. reflexivity.
Qed.

Lemma extractToken_reads_bearer_headers_witness :
  middleware.extractToken (str "Bearer abc.def.ghi") = str "abc.def.ghi"
  <-> str "Bearer abc.def.ghi" = str "Bearer " ++ str "abc.def.ghi".
Proof. apply extractToken_reads_bearer_headers. discriminate. Defined.

(** X24: for a URL that [url.Parse] splits into a host and the path
    [/owner/repo.git], [normalizeRepoURL] gives [owner/repo]; so does it for
    the bare text [owner/repo.git] or [/owner/repo.git], in which
    [url.Parse] finds no host. *)
Theorem normalizeRepoURL_strips_host_slash_and_git (L : GoLib) (raw host repo : gostring) :
  strings.HasPrefix repo (str "/") = false ->
  (url_Parse L raw = Some (host, str "/" ++ repo ++ str ".git") /\ host <> []
   \/ (raw = repo ++ str ".git" \/ raw = str "/" ++ repo ++ str ".git")
      /\ (url_Parse L raw = None \/ exists path, url_Parse L raw = Some ([], path))) ->
  worker.normalizeRepoURL L raw = repo.
Proof.
  intros Hrepo H. unfold worker.normalizeRepoURL.
  assert (Hstrip : forall x, x = repo ++ str ".git" \/ x = str "/" ++ repo ++ str ".git" ->
            strings.TrimSuffix (strings.TrimPrefix x (str "/")) (str ".git") = repo).
  { intros x [->| ->].
    - unfold strings.TrimPrefix at 1.
      replace (strings.HasPrefix (repo ++ str ".git") (str "/")) with false.
      + apply TrimSuffix_app.
      + destruct repo as [|c repo]; [reflexivity|].
        change (str "/") with [47] in *. cbn [app strings.HasPrefix] in *.
        rewrite HasPrefix_nil in *. symmetry. exact Hrepo.
    - rewrite TrimPrefix_app. apply TrimSuffix_app. }
  destruct H as [[Hparse Hhost]|[Hraw Hparse]].
  - rewrite Hparse. destruct host as [|c host]; [congruence|].
    rewrite TrimPrefix_app. apply Hstrip. now left.
  - destruct Hparse as [Hparse|[path Hparse]]; rewrite Hparse; apply Hstrip, Hraw.
Qed.

Lemma normalizeRepoURL_strips_host_slash_and_git_witness :
  worker.normalizeRepoURL Samples.lib (str "https://github.com/x/y.git") = str "x/y".
Proof.
  apply (normalizeRepoURL_strips_host_slash_and_git Samples.lib
           (str "https://github.com/x/y.git") (str "github.com") (str "x/y")).
  - reflexivity.
  - left. split; [reflexivity | discriminate].
Defined.

(** ** One turn of the worker *)

Lemma UpdateJobStatus_record (E : Env) j status errorMessage w old :
  (forall n, redis_error E n = None) ->
  job_records w !! j = Some old ->
  bool_decide (status = Job.JobStatusCompleted)
  || bool_decide (status = Job.JobStatusFailed) = true ->
  exists now,
    job_records (snd (services.UpdateJobStatus E j status errorMessage w))
    = <[ j := Job.mk (Job.ID old) status (Job.Data old) (Job.CreatedAt old)
                     (Job.StartedAt old) (Some now) errorMessage
                     (Job.DeploymentID old) ]> (job_records w)
    /\ queue (snd (services.UpdateJobStatus E j status errorMessage w)) = queue w.
Proof.
  intros Hredis Hold Hdone. unfold services.UpdateJobStatus. run_monad.
  rewrite Hredis. run_monad. rewrite Hold, Hdone. run_monad. rewrite Hredis. run_monad.
  eexists. split; reflexivity.
Qed.

Lemma UpdateJobStatus_absent (E : Env) j status errorMessage w :
  job_records w !! j = None ->
  job_records (snd (services.UpdateJobStatus E j status errorMessage w)) = job_records w.
Proof.
  intros Hnone. unfold services.UpdateJobStatus. run_monad.
  destruct (redis_error E (seq w)); run_monad; [reflexivity|].
  rewrite Hnone. reflexivity.
Qed.

Lemma jobRecorded_UpdateJobStatus (E : Env) job status errorMessage w :
  jobRecorded job w ->
  jobRecorded job (snd (services.UpdateJobStatus E (Job.ID job) status errorMessage w)).
Proof.
  intros (rec & Hrec & Hd & Hdata & Hstart).
  unfold services.UpdateJobStatus. run_monad.
  destruct (redis_error E (seq w)); run_monad; [exists rec; auto|].
  rewrite Hrec.
  destruct (bool_decide (status = Job.JobStatusCompleted)
            || bool_decide (status = Job.JobStatusFailed)); run_monad;
    match goal with
    | |- context [redis_error E ?n] => destruct (redis_error E n)
    end; run_monad;
    first [ exists rec; split; [exact Hrec | auto]
          | eexists; split; [apply lookup_insert_eq | auto] ].
Qed.

Lemma processDeploymentJob_queue_and_record (E : Env) (L : GoLib) (job job0 : Job.t)
    (w : World) :
  Job.ID job0 = Job.ID job ->
  queue (snd (worker.processDeploymentJob E L job w)) = queue w
  /\ (jobRecorded job0 w -> jobRecorded job0 (snd (worker.processDeploymentJob E L job w))).
Proof.
  intros Hid.
  apply (keeps_processDeploymentJob E L
           (fun w w' => queue w' = queue w /\ (jobRecorded job0 w -> jobRecorded job0 w'))
           (Job.DeploymentID job) (Job.ID job)); try reflexivity.
  - intros w0. auto.
  - intros w1 w2 w3 [Hq1 Hr1] [Hq2 Hr2]. split; [congruence | auto].
  - intros A oracle w0. split; [reflexivity | auto].
  - intros level message taskName stepOrder w0.
    destruct (AddDeploymentLog_tables E (Job.DeploymentID job) level message taskName
                stepOrder w0) as (_ & _ & Hq & Hj & _).
    split; [exact Hq|]. unfold jobRecorded. rewrite Hj. auto.
  - intros w0. rewrite GetDeploymentSteps_same. split; [reflexivity | auto].
  - intros order status errorMessage w0.
    edestruct (step_update_tables E (Job.DeploymentID job) w0) as (_ & _ & Hq & Hj & _);
      [left; eauto|].
    split; [exact Hq|]. unfold jobRecorded. rewrite Hj. auto.
  - intros order errorMsg w0.
    edestruct (step_update_tables E (Job.DeploymentID job) w0) as (_ & _ & Hq & Hj & _);
      [right; eauto|].
    split; [exact Hq|]. unfold jobRecorded. rewrite Hj. auto.
  - intros status errorMessage w0.
    destruct (UpdateDeploymentStatus_tables E (Job.DeploymentID job) status errorMessage w0)
      as (_ & _ & Hq & Hj & _).
    split; [exact Hq|]. unfold jobRecorded. rewrite Hj. auto.
  - intros status errorMessage w0.
    destruct (UpdateJobStatus_tables E (Job.ID job) status errorMessage w0)
      as (_ & _ & _ & Hq & _).
    split; [exact Hq|]. rewrite <- Hid. apply jobRecorded_UpdateJobStatus.
Qed.

Lemma processDeploymentJob_nil_recorded (E : Env) (L : GoLib) (job : Job.t) (w : World) :
  (forall n, redis_error E n = None) ->
  fst (worker.processDeploymentJob E L job w) = None ->
  recordedCompleted (Job.ID job) (snd (worker.processDeploymentJob E L job w)).
Proof.
  intros Hredis. revert w. unfold worker.processDeploymentJob. cbv zeta.
  apply nil_post_bind. intros [e|]; [apply nil_post_fails, fails_ret|].
  apply nil_post_bind. intros _.
  destruct (_ || _); [apply nil_post_fails; repeat fails_step|].
  apply nil_post_bind. intros [e|]; [apply nil_post_fails; repeat fails_step|].
  apply nil_post_bind. intros _.
  apply nil_post_bind. intros [e|]; [apply nil_post_fails; repeat fails_step|].
  apply nil_post_bind. intros [e|]; [apply nil_post_fails, fails_ret|].
  apply nil_post_bind. intros _.
  intros w _. unfold bind, ret.
  destruct (job_records w !! Job.ID job) as [old|] eqn:Hold.
  - destruct (UpdateJobStatus_record E (Job.ID job) Job.JobStatusCompleted None w old
                Hredis Hold eq_refl) as (now & Hrec & _).
    destruct (services.UpdateJobStatus E (Job.ID job) Job.JobStatusCompleted None w)
      as [r w1]. cbn [fst snd] in *.
    intros rec. rewrite Hrec, lookup_insert_eq. intros H. injection H as <-.
    cbn. repeat split. discriminate.
  - pose proof (UpdateJobStatus_absent E (Job.ID job) Job.JobStatusCompleted None w Hold)
      as Hrec.
    destruct (services.UpdateJobStatus E (Job.ID job) Job.JobStatusCompleted None w)
      as [r w1]. cbn [fst snd] in *.
    intros rec. rewrite Hrec, Hold. discriminate.
Qed.

Lemma DequeueJob_starts (E : Env) (w : World) (q : list Job.t) (job0 : Job.t) :
  (forall n, redis_error E n = None) ->
  queue w = q ++ [job0] ->
  exists job,
    fst (services.DequeueJob E w) = Ok (Some job)
    /\ Job.ID job = Job.ID job0
    /\ queue (snd (services.DequeueJob E w)) = q
    /\ jobRecorded job0 (snd (services.DequeueJob E w)).
Proof.
  intros Hredis Hq. unfold services.DequeueJob. run_monad. rewrite Hredis.
  run_monad. rewrite Hq, last_snoc. run_monad. rewrite Hredis. run_monad.
  rewrite ?Hq, removelast_last.
  eexists. split; [reflexivity|]. split; [reflexivity|]. split; [reflexivity|].
  eexists. split; [apply lookup_insert_eq|]. cbn. repeat split. discriminate.
Qed.

(** X25: while Redis answers, one turn of the worker takes the oldest job off
    the queue and settles its record: at the end of the turn the record
    carries the deployment and the data of the job, a start time and a
    completion time, and its error message is what [processDeploymentJob]
    returned for the job: without one the record says completed, with one
    it says failed. *)
Theorem worker_turn_settles_the_job (E : Env) (L : GoLib) (w : World)
    (q : list Job.t) (job0 : Job.t) :
  (forall n, redis_error E n = None) ->
  queue w = q ++ [job0] ->
  queue (snd (worker.StartIteration E L w)) = q
  /\ exists job rec,
       fst (services.DequeueJob E w) = Ok (Some job)
       /\ Job.ID job = Job.ID job0
       /\ job_records (snd (worker.StartIteration E L w)) !! Job.ID job0 = Some rec
       /\ Job.DeploymentID rec = Job.DeploymentID job0
       /\ Job.Data rec = Job.Data job0
       /\ Job.StartedAt rec <> None
       /\ Job.CompletedAt rec <> None
       /\ Job.ErrorMessage rec
          = fst (worker.processDeploymentJob E L job (snd (services.DequeueJob E w)))
       /\ Job.Status rec
          = match Job.ErrorMessage rec with
            | None => Job.JobStatusCompleted
            | Some _ => Job.JobStatusFailed
            end.
Proof.
  intros Hredis Hq.
  destruct (worker.StartIteration E L w) as [u w'] eqn:Hrun. cbn [snd]. revert Hrun.
  unfold worker.StartIteration. unfold bind at 1.
  destruct (DequeueJob_starts E w q job0 Hredis Hq) as (job & Hjob & Hid & Hq1 & Hrec1).
  destruct (services.DequeueJob E w) as [r w1]. cbn [fst snd] in *. subst r.
  unfold bind at 1.
  destruct (processDeploymentJob_queue_and_record E L job job0 w1 (eq_sym Hid))
    as [Hq2 Hrec2].
  pose proof (processDeploymentJob_nil_recorded E L job w1 Hredis) as Hdone.
  destruct (worker.processDeploymentJob E L job w1) as [[e|] w2] eqn:Hproc;
    cbn [fst snd] in *.
  - destruct (Hrec2 Hrec1) as (old & Hold & Hd & Hdata & Hstart).
    rewrite <- Hid in Hold.
    destruct (UpdateJobStatus_record E (Job.ID job) Job.JobStatusFailed (Some e) w2 old
                Hredis Hold eq_refl) as (now & Hrec & Hq3).
    unfold bind, ret.
    destruct (services.UpdateJobStatus E (Job.ID job) Job.JobStatusFailed (Some e) w2)
      as [r3 w3]. cbn [fst snd] in *. intros Hrun. injection Hrun as _ <-.
    split; [congruence|]. rewrite <- Hid, Hrec, lookup_insert_eq.
    exists job. eexists. rewrite Hproc. split; [reflexivity|]. split; [reflexivity|].
    split; [reflexivity|]. cbn. repeat split; auto; discriminate.
  - unfold ret. intros Hrun. injection Hrun as _ <-. split; [congruence|].
    destruct (Hrec2 Hrec1) as (rec & Hrec & Hd & Hdata & Hstart).
    rewrite Hid in Hdone. destruct (Hdone eq_refl rec Hrec) as (Hst & Hmsg & Hcompl).
    exists job, rec. rewrite Hproc, Hmsg. repeat split; auto.
Qed.

Lemma worker_turn_settles_the_job_witness :
  queue (snd (worker.StartIteration Samples.sshDown Samples.lib Samples.created)) = []
  /\ exists job rec,
       fst (services.DequeueJob Samples.sshDown Samples.created) = Ok (Some job)
       /\ Job.ID job = Job.ID Samples.queuedJob
       /\ job_records (snd (worker.StartIteration Samples.sshDown Samples.lib
                              Samples.created))
          !! Job.ID Samples.queuedJob = Some rec
       /\ Job.DeploymentID rec = Job.DeploymentID Samples.queuedJob
       /\ Job.Data rec = Job.Data Samples.queuedJob
       /\ Job.StartedAt rec <> None
       /\ Job.CompletedAt rec <> None
       /\ Job.ErrorMessage rec
          = fst (worker.processDeploymentJob Samples.sshDown Samples.lib job
                   (snd (services.DequeueJob Samples.sshDown Samples.created)))
       /\ Job.Status rec
          = match Job.ErrorMessage rec with
            | None => Job.JobStatusCompleted
            | Some _ => Job.JobStatusFailed
            end.
Proof.
  apply (worker_turn_settles_the_job Samples.sshDown Samples.lib Samples.created []
           Samples.queuedJob).
  - reflexivity.
  - vm_compute. reflexivity.
Defined.

(** On the run of the witness the target refuses the connection: the
    record says failed, with the error of the connection. *)
Example refused_connection_is_recorded :
  (fun rec => (Job.Status <$> rec, Job.ErrorMessage <$> rec))
    (job_records (snd (worker.StartIteration Samples.sshDown Samples.lib Samples.created))
     !! Job.ID Samples.queuedJob)
  = (Some Job.JobStatusFailed,
     Some (Some (str "failed to connect to target server: failed to dial SSH: "
                 ++ str "connection refused"))).
Proof. vm_compute. reflexivity. Qed.

(** ** Jobs that succeed *)

(** The pipeline steps under a relation that is only known to hold for the
    updates of some step orders. *)
Section Orders.
Variable E : Env.
Variable L : GoLib.
Variable R : World -> World -> Prop.
Variable d : uuid.UUID.
Variable touched : Z -> bool.

Hypothesis R_refl : forall w, R w w.
Hypothesis R_trans : forall w1 w2 w3, R w1 w2 -> R w2 w3 -> R w1 w3.
Hypothesis R_ask : forall A (oracle : nat -> A), keeps R (ask oracle).
Hypothesis R_log : forall level message taskName stepOrder,
  keeps R (services.AddDeploymentLog E d level message taskName stepOrder).
Hypothesis R_update : forall order status errorMessage,
  touched order = true ->
  keeps R (worker.updateDeploymentStep E d order status errorMessage).

Ltac orders_step :=
  lazymatch goal with
  | |- keeps R (ret _) => apply keeps_ret; exact R_refl
  | |- keeps R (bind _ _) => apply keeps_bind; [exact R_trans | | intros ?]
  | |- keeps R (ask _) => apply R_ask
  | |- keeps R (worker.NewSession _) => apply R_ask
  | |- keeps R (worker.CombinedOutput _ _) => apply R_ask
  | |- keeps R (services.AddDeploymentLog _ _ _ _ _ _) => apply R_log
  | |- keeps R (worker.addLog _ _ _ _ _ _) => unfold worker.addLog
  | |- keeps R (worker.addLogf _ _ _ _ _ _) => unfold worker.addLogf
  | |- keeps R (worker.updateDeploymentStep _ _ _ _ _) => apply R_update; assumption
  | |- keeps R (worker.failStep _ _ _ _) => unfold worker.failStep
  | |- keeps R (worker.bestEffort _ _ _ _ _ _) => unfold worker.bestEffort
  | |- keeps R (match ?x with _ => _ end) => destruct x
  | |- keeps R (let _ := _ in _) => cbv zeta
  end.

Lemma orders_cloneRepository repoURL pat branch :
  touched 1 = true -> keeps R (worker.cloneRepository E L d repoURL pat branch).
Proof using All. intros H. unfold worker.cloneRepository. repeat orders_step. Qed.

Lemma orders_buildDockerImage containerName :
  touched 2 = true -> keeps R (worker.buildDockerImage E d containerName).
Proof using All. intros H. unfold worker.buildDockerImage. repeat orders_step. Qed.

Lemma orders_runDockerContainer envVars port containerName :
  touched 3 = true -> keeps R (worker.runDockerContainer E d envVars port containerName).
Proof using All. intros H. unfold worker.runDockerContainer. repeat orders_step. Qed.

Lemma orders_copyEnvFileToTarget localEnvFilePath :
  keeps R (worker.copyEnvFileToTarget E d localEnvFilePath).
Proof using All. unfold worker.copyEnvFileToTarget. repeat orders_step. Qed.

Lemma orders_runDockerContainerWithEnvFile envFilePath port containerName :
  touched 3 = true ->
  keeps R (worker.runDockerContainerWithEnvFile E d envFilePath port containerName).
Proof using All.
  intros H. unfold worker.runDockerContainerWithEnvFile. repeat orders_step.
Qed.

Lemma orders_healthCheck containerName :
  touched 4 = true -> keeps R (worker.healthCheck E d containerName).
Proof using All. intros H. unfold worker.healthCheck. repeat orders_step. Qed.

End Orders.

Lemma updated_step_keys step row :
  DeploymentStep.ID (database.updated_step step row) = DeploymentStep.ID row
  /\ DeploymentStep.DeploymentID (database.updated_step step row)
     = DeploymentStep.DeploymentID row
  /\ DeploymentStep.StepOrder (database.updated_step step row)
     = DeploymentStep.StepOrder row.
Proof. repeat split. Qed.

(** What [updateDeploymentStep] does to the step table: nothing, or it
    rewrites the rows that carry the id of the first step of the deployment
    with the given order; while the database answers it does the latter
    whenever there is such a step. *)
Lemma updateDeploymentStep_effect (E : Env) d order status errorMessage w :
  let w' := snd (worker.updateDeploymentStep E d order status errorMessage w) in
  (deployment_steps w' = deployment_steps w
   /\ ((forall n, db_error E n = None) ->
       worker.findStep (stepsOf d (deployment_steps w)) order = None))
  \/ exists target now,
       worker.findStep (stepsOf d (deployment_steps w)) order = Some target
       /\ deployment_steps w'
          = List.map (fun row =>
              if DeploymentStep.ID row =? DeploymentStep.ID target
              then database.updated_step
                     (worker.transition target status errorMessage now) row
              else row) (deployment_steps w).
Proof.
  unfold worker.updateDeploymentStep, services.GetDeploymentSteps,
    database.GetDeploymentSteps, services.UpdateDeploymentStep,
    database.UpdateDeploymentStep.
  run_monad.
  destruct (db_error E (seq w)) eqn:Hdb1; run_monad.
  { left. split; [reflexivity|]. intros Hdb. rewrite Hdb in Hdb1. discriminate. }
  fold (stepsOf d (deployment_steps w)).
  destruct (worker.findStep (stepsOf d (deployment_steps w)) order) as [target|] eqn:Hfind;
    run_monad; [|left; auto].
  destruct (db_error E (S (S (seq w)))) eqn:Hdb2; run_monad.
  { left. split; [reflexivity|]. intros Hdb. rewrite Hdb in Hdb2. discriminate. }
  right. exists target, (clock E (S (seq w))). split; [reflexivity|].
  apply List.map_ext. intros row.
  replace (DeploymentStep.ID (worker.transition target status errorMessage
                                (clock E (S (seq w)))))
    with (DeploymentStep.ID target); [reflexivity|].
  unfold worker.transition. destruct (bool_decide _); [reflexivity|].
  destruct (_ || _); reflexivity.
Qed.

Lemma wellKeyed_same_order d w row1 row2 :
  stepsWellKeyed d w ->
  In row1 (deployment_steps w) -> In row2 (deployment_steps w) ->
  DeploymentStep.DeploymentID row1 = d -> DeploymentStep.DeploymentID row2 = d ->
  DeploymentStep.StepOrder row1 = DeploymentStep.StepOrder row2 ->
  row1 = row2.
Proof.
  intros [_ Horders] H1 H2 Hd1 Hd2 Ho.
  apply (NoDup_map_inj DeploymentStep.StepOrder _ _ _ Horders).
  - apply List.filter_In. split; [exact H1 | apply N.eqb_eq, Hd1].
  - apply List.filter_In. split; [exact H2 | apply N.eqb_eq, Hd2].
  - exact Ho.
Qed.

Lemma updateDeploymentStep_completes (E : Env) d order w :
  (forall n, db_error E n = None) -> stepsWellKeyed d w ->
  stepCompleted d order
    (snd (worker.updateDeploymentStep E d order DeploymentStatusCompleted None w)).
Proof.
  intros Hdb Hw row' Hrow' Hd Ho.
  destruct (updateDeploymentStep_effect E d order DeploymentStatusCompleted None w)
    as [[Hsame Hnone]|(target & now & Hfind & Hsteps)].
  - exfalso. rewrite Hsame in Hrow'.
    destruct (findStep_In (stepsOf d (deployment_steps w)) row') as [t Ht].
    { apply stepsOf_In. auto. }
    rewrite Ho, (Hnone Hdb) in Ht. discriminate.
  - rewrite Hsteps in Hrow'. apply List.in_map_iff in Hrow' as (row & Hrow' & Hrow).
    apply findStep_Some in Hfind as [Htarget Hto].
    apply stepsOf_In in Htarget as [Htarget Htd].
    assert (row = target) as ->.
    { apply (wellKeyed_same_order d w); auto.
      - destruct (DeploymentStep.ID row =? DeploymentStep.ID target);
          subst row'; exact Hd.
      - destruct (DeploymentStep.ID row =? DeploymentStep.ID target);
          subst row'; cbn in Ho; congruence. }
    rewrite N.eqb_refl in Hrow'. subst row'.
    cbn. repeat split. discriminate.
Qed.

Lemma updateDeploymentStep_keeps_completed (E : Env) d order status errorMessage
    other w :
  order <> other -> stepsWellKeyed d w -> stepCompleted d other w ->
  stepCompleted d other
    (snd (worker.updateDeploymentStep E d order status errorMessage w)).
Proof.
  intros Hne Hw Hdone row' Hrow' Hd Ho.
  destruct (updateDeploymentStep_effect E d order status errorMessage w)
    as [[Hsame _]|(target & now & Hfind & Hsteps)].
  - rewrite Hsame in Hrow'. apply Hdone; assumption.
  - rewrite Hsteps in Hrow'. apply List.in_map_iff in Hrow' as (row & Hrow' & Hrow).
    apply findStep_Some in Hfind as [Htarget Hto].
    apply stepsOf_In in Htarget as [Htarget Htd].
    destruct (N.eqb_spec (DeploymentStep.ID row) (DeploymentStep.ID target)) as [Heq|_].
    + exfalso. destruct Hw as [Hids _].
      assert (row = target) as ->
        by (apply (NoDup_map_inj DeploymentStep.ID _ _ _ Hids Hrow Htarget Heq)).
      subst row'. cbn in Ho. congruence.
    + subst row'. apply Hdone; assumption.
Qed.

Lemma staysCompleted_refl d orders w : staysCompleted d orders w w.
Proof. split; [apply sameRows_refl | auto]. Qed.

Lemma staysCompleted_trans d orders w1 w2 w3 :
  staysCompleted d orders w1 w2 -> staysCompleted d orders w2 w3 ->
  staysCompleted d orders w1 w3.
Proof.
  intros [Hs1 Hc1] [Hs2 Hc2]. split; [exact (sameRows_trans _ _ _ Hs1 Hs2)|].
  intros Hw order Hin Hdone.
  apply Hc2; [exact (sameRows_wellKeyed d w1 w2 Hs1 Hw) | exact Hin | auto].
Qed.

(** A computation that keeps the rows and does not write the step table. *)
Lemma staysCompleted_same_steps {A} d orders (m : M A) :
  keeps sameRows m ->
  (forall w, deployment_steps (snd (m w)) = deployment_steps w) ->
  keeps (staysCompleted d orders) m.
Proof.
  intros Hrows Hsteps w. split; [apply Hrows|].
  intros _ order _ Hdone row. rewrite Hsteps. apply Hdone.
Qed.

Lemma staysCompleted_ask d orders {A} (oracle : nat -> A) :
  keeps (staysCompleted d orders) (ask oracle).
Proof. apply staysCompleted_same_steps; [apply sameRows_ask | reflexivity]. Qed.

Lemma staysCompleted_AddDeploymentLog (E : Env) d orders level message taskName
    stepOrder :
  keeps (staysCompleted d orders)
    (services.AddDeploymentLog E d level message taskName stepOrder).
Proof.
  apply staysCompleted_same_steps; [apply sameRows_AddDeploymentLog|].
  intros w. apply (AddDeploymentLog_tables E d level message taskName stepOrder w).
Qed.

Lemma staysCompleted_updateDeploymentStep (E : Env) d orders order status errorMessage :
  negb (existsb (Z.eqb order) orders) = true ->
  keeps (staysCompleted d orders)
    (worker.updateDeploymentStep E d order status errorMessage).
Proof.
  intros Hfree w. split; [apply sameRows_updateDeploymentStep|].
  intros Hw other Hin Hdone.
  apply updateDeploymentStep_keeps_completed; [|exact Hw|exact Hdone].
  intros ->. apply negb_true_iff in Hfree.
  assert (existsb (Z.eqb other) orders = true); [|congruence].
  apply existsb_exists. exists other. split; [exact Hin | apply Z.eqb_refl].
Qed.

(** The rules of the section above, for [staysCompleted]. *)
Ltac stays_rule rule E L d orders :=
  apply (rule E L (staysCompleted d orders) d
           (fun order => negb (existsb (Z.eqb order) orders))
           (staysCompleted_refl d orders) (staysCompleted_trans d orders)
           (@staysCompleted_ask d orders)
           (staysCompleted_AddDeploymentLog E d orders)
           (staysCompleted_updateDeploymentStep E d orders));
  try reflexivity.

Section SuccessPath.
Variable E : Env.
Variable L : GoLib.
Variable d : uuid.UUID.
Hypothesis Hdb : forall n, db_error E n = None.

Lemma completesStep_bind {A} order (m : M A) (k : A -> M (option gostring)) :
  keeps sameRows m -> (forall a, completesStep d order (k a)) ->
  completesStep d order (bind m k).
Proof using Type.
  intros Hm Hk w Hw. unfold bind. specialize (Hm w).
  destruct (m w) as [a w1]. apply Hk, (sameRows_wellKeyed d w w1 Hm Hw).
Qed.

Lemma completesStep_error order e : completesStep d order (ret (Some e)).
Proof using Type. intros w _ H. discriminate. Qed.

Lemma completesStep_update order :
  completesStep d order
    (worker.updateDeploymentStep E d order DeploymentStatusCompleted None >> ret None).
Proof using Hdb.
  intros w Hw _. unfold bind, ret.
  pose proof (updateDeploymentStep_completes E d order w Hdb Hw) as Hdone.
  destruct (worker.updateDeploymentStep E d order DeploymentStatusCompleted None w).
  exact Hdone.
Qed.

Ltac sameRows_step :=
  lazymatch goal with
  | |- keeps sameRows (ret _) => apply keeps_ret, sameRows_refl
  | |- keeps sameRows (bind _ _) => apply keeps_bind; [exact sameRows_trans | | intros ?]
  | |- keeps sameRows (ask _) => apply sameRows_ask
  | |- keeps sameRows (worker.NewSession _) => apply sameRows_ask
  | |- keeps sameRows (worker.CombinedOutput _ _) => apply sameRows_ask
  | |- keeps sameRows (services.AddDeploymentLog _ _ _ _ _ _) =>
      apply sameRows_AddDeploymentLog
  | |- keeps sameRows (worker.addLog _ _ _ _ _ _) => unfold worker.addLog
  | |- keeps sameRows (worker.addLogf _ _ _ _ _ _) => unfold worker.addLogf
  | |- keeps sameRows (worker.updateDeploymentStep _ _ _ _ _) =>
      apply sameRows_updateDeploymentStep
  | |- keeps sameRows (worker.failStep _ _ _ _) => unfold worker.failStep
  | |- keeps sameRows (worker.bestEffort _ _ _ _ _ _) => unfold worker.bestEffort
  | |- keeps sameRows (match ?x with _ => _ end) => destruct x
  | |- keeps sameRows (let _ := _ in _) => cbv zeta
  end.

(** One step along a pipeline step: its last action completes the step,
    every branch that leaves earlier returns an error. *)
Ltac completes_step :=
  lazymatch goal with
  | |- completesStep _ _
         (bind (worker.updateDeploymentStep _ _ _ DeploymentStatusCompleted None)
               (fun _ => ret None)) => apply completesStep_update
  | |- completesStep _ _ (ret (Some _)) => apply completesStep_error
  | |- completesStep _ _ (bind _ _) =>
      apply completesStep_bind; [solve [repeat sameRows_step] | intros ?]
  | |- completesStep _ _ (match ?x with _ => _ end) => destruct x
  | |- completesStep _ _ (let _ := _ in _) => cbv zeta
  end.

Lemma completesStep_cloneRepository repoURL pat branch :
  completesStep d 1 (worker.cloneRepository E L d repoURL pat branch).
Proof using Hdb. unfold worker.cloneRepository. repeat completes_step. Qed.

Lemma completesStep_buildDockerImage containerName :
  completesStep d 2 (worker.buildDockerImage E d containerName).
Proof using Hdb. unfold worker.buildDockerImage. repeat completes_step. Qed.

Lemma completesStep_runDockerContainer envVars port containerName :
  completesStep d 3 (worker.runDockerContainer E d envVars port containerName).
Proof using Hdb. unfold worker.runDockerContainer. repeat completes_step. Qed.

Lemma completesStep_runDockerContainerWithEnvFile envFilePath port containerName :
  completesStep d 3
    (worker.runDockerContainerWithEnvFile E d envFilePath port containerName).
Proof using Hdb. unfold worker.runDockerContainerWithEnvFile. repeat completes_step. Qed.

Lemma completesStep_healthCheck containerName :
  completesStep d 4 (worker.healthCheck E d containerName).
Proof using Hdb. unfold worker.healthCheck. repeat completes_step. Qed.

End SuccessPath.

Section Advances.
Variable E : Env.
Variable L : GoLib.
Variable d : uuid.UUID.
Hypothesis Hdb : forall n, db_error E n = None.

Lemma advances_ret before : advances d before before (ret None).
Proof using Type. intros w Hw Hdone _. auto. Qed.

Lemma advances_fails before after (m : M (option gostring)) :
  fails m -> advances d before after m.
Proof using Type. intros Hm w _ _ Hnil. destruct (Hm w Hnil). Qed.

Lemma advances_prefix {A} before after (m : M A) (k : A -> M (option gostring)) :
  keeps (staysCompleted d before) m -> (forall a, advances d before after (k a)) ->
  advances d before after (bind m k).
Proof using Type.
  intros Hm Hk w Hw Hdone. unfold bind. destruct (Hm w) as [Hrows Hstay].
  destruct (m w) as [a w1]. cbn [snd] in *.
  apply Hk; [exact (sameRows_wellKeyed d w w1 Hrows Hw) | auto].
Qed.

Lemma advances_seq before between after (m : M (option gostring))
    (k : option gostring -> M (option gostring)) :
  advances d before between m -> (forall e, fails (k (Some e))) ->
  advances d between after (k None) ->
  advances d before after (bind m k).
Proof using Type.
  intros Hm Hfail Hk w Hw Hdone. unfold bind. specialize (Hm w Hw Hdone).
  destruct (m w) as [[e|] w1]; cbn [fst snd] in *.
  - intros Hnil. destruct (Hfail e w1 Hnil).
  - destruct (Hm eq_refl) as [Hw1 Hdone1]. apply Hk; assumption.
Qed.

Lemma advances_step before order (m : M (option gostring)) :
  keeps (staysCompleted d before) m -> completesStep d order m ->
  advances d before (order :: before) m.
Proof using Type.
  intros Hstay Hm w Hw Hdone Hnil. destruct (Hstay w) as [Hrows Hkept].
  split; [exact (sameRows_wellKeyed d w _ Hrows Hw)|].
  intros o [<-|Hin]; [apply Hm; assumption | auto].
Qed.

Lemma advances_executeDeploymentSteps repoURL pat branch envFilePath envVars port
    containerName :
  advances d [] [4; 3; 2; 1]%Z
    (worker.executeDeploymentSteps E L d repoURL pat branch envFilePath envVars port
       containerName).
Proof using Hdb.
  unfold worker.executeDeploymentSteps.
  apply (advances_seq [] [1%Z]).
  { apply advances_step; [stays_rule orders_cloneRepository E L d (@nil Z)|].
    apply completesStep_cloneRepository, Hdb. }
  { intros e. repeat fails_step. }
  apply (advances_seq _ [2; 1]%Z).
  { apply advances_step; [stays_rule orders_buildDockerImage E L d [1%Z]|].
    apply completesStep_buildDockerImage, Hdb. }
  { intros e. repeat fails_step. }
  apply (advances_seq _ [3; 2; 1]%Z).
  - destruct envFilePath.
    + apply (advances_seq _ [3; 2; 1]%Z).
      * apply advances_step; [stays_rule orders_runDockerContainer E L d [2; 1]%Z|].
        apply completesStep_runDockerContainer, Hdb.
      * intros e. repeat fails_step.
      * apply advances_ret.
    + apply advances_prefix; [stays_rule orders_copyEnvFileToTarget E L d [2; 1]%Z|].
      intros [e|]; [apply advances_fails; repeat fails_step|].
      apply (advances_seq _ [3; 2; 1]%Z).
      * apply advances_step;
          [stays_rule orders_runDockerContainerWithEnvFile E L d [2; 1]%Z|].
        apply completesStep_runDockerContainerWithEnvFile, Hdb.
      * intros e. repeat fails_step.
      * apply advances_ret.
  - intros e. apply fails_ret.
  - apply (advances_seq _ [4; 3; 2; 1]%Z).
    + apply advances_step; [stays_rule orders_healthCheck E L d [3; 2; 1]%Z|].
      apply completesStep_healthCheck, Hdb.
    + intros e. repeat fails_step.
    + apply advances_ret.
Qed.

Lemma staysCompleted_UpdateDeploymentStatus orders status errorMessage :
  keeps (staysCompleted d orders)
    (services.UpdateDeploymentStatus E d status errorMessage).
Proof using Type.
  apply staysCompleted_same_steps; [apply sameRows_UpdateDeploymentStatus|].
  intros w. apply (UpdateDeploymentStatus_tables E d status errorMessage w).
Qed.

Lemma staysCompleted_addLog orders level message taskName stepOrder :
  keeps (staysCompleted d orders) (worker.addLog E d level message taskName stepOrder).
Proof using Type.
  apply staysCompleted_same_steps.
  - apply (keeps_addLog E sameRows d sameRows_refl sameRows_trans
             (sameRows_AddDeploymentLog E d)).
  - intros w. apply addLog_tables.
Qed.

Lemma staysCompleted_connectSSH orders host username password :
  keeps (staysCompleted d orders) (worker.connectSSH E host username password).
Proof using Type.
  apply staysCompleted_same_steps.
  - apply (keeps_connectSSH E sameRows sameRows_refl sameRows_trans (@sameRows_ask)).
  - intros w. unfold worker.connectSSH. run_monad.
    destruct (ssh_dial_error E (seq w)); reflexivity.
Qed.

Lemma staysCompleted_UpdateJobStatus orders j status errorMessage :
  keeps (staysCompleted d orders) (services.UpdateJobStatus E j status errorMessage).
Proof using Type.
  apply staysCompleted_same_steps; [apply sameRows_UpdateJobStatus|].
  intros w. apply (UpdateJobStatus_tables E j status errorMessage w).
Qed.

Lemma advances_processDeploymentJob job :
  Job.DeploymentID job = d ->
  advances d [] [4; 3; 2; 1]%Z (worker.processDeploymentJob E L job).
Proof using Hdb.
  intros Hd. unfold worker.processDeploymentJob. rewrite Hd. cbv zeta.
  apply advances_prefix; [apply staysCompleted_UpdateDeploymentStatus|].
  intros [e|]; [apply advances_fails, fails_ret|].
  apply advances_prefix; [apply staysCompleted_addLog | intros _].
  match goal with |- advances _ _ _ (if ?c then _ else _) => destruct c end;
    [apply advances_fails; repeat fails_step|].
  apply advances_prefix; [apply staysCompleted_connectSSH|].
  intros [e|]; [apply advances_fails; repeat fails_step|].
  apply advances_prefix; [apply staysCompleted_addLog | intros _].
  apply (advances_seq _ [4; 3; 2; 1]%Z).
  - apply advances_executeDeploymentSteps.
  - intros e. repeat fails_step.
  - apply advances_prefix; [apply staysCompleted_UpdateDeploymentStatus|].
    intros [e|]; [apply advances_fails, fails_ret|].
    apply advances_prefix; [apply staysCompleted_addLog | intros _].
    apply advances_prefix; [apply staysCompleted_UpdateJobStatus | intros _].
    apply advances_ret.
Qed.

End Advances.

(** X26: when [processDeploymentJob] returns nil, the database has answered
    every call and the steps were well keyed (unique ids, distinct orders
    within the deployment), every step row of the job's deployment with an
    order from 1 to 4 is completed: it has the status completed, a
    completion time and no error message. *)
Theorem successful_job_completes_steps_one_to_four (E : Env) (L : GoLib) (job : Job.t)
    (w : World) (row : DeploymentStep.t) :
  (forall n, db_error E n = None) ->
  stepsWellKeyed (Job.DeploymentID job) w ->
  fst (worker.processDeploymentJob E L job w) = None ->
  In row (deployment_steps (snd (worker.processDeploymentJob E L job w))) ->
  DeploymentStep.DeploymentID row = Job.DeploymentID job ->
  pipelineOrder (DeploymentStep.StepOrder row) = true ->
  DeploymentStep.Status row = DeploymentStatusCompleted
  /\ DeploymentStep.CompletedAt row <> None
  /\ DeploymentStep.ErrorMessage row = None.
Proof.
  intros Hdb Hw Hnil Hrow Hd Horder.
  destruct (advances_processDeploymentJob E L (Job.DeploymentID job) Hdb job eq_refl w Hw)
    as [_ Hdone]; [intros order [] | exact Hnil |].
  apply (Hdone (DeploymentStep.StepOrder row)); [|exact Hrow|exact Hd|reflexivity].
  unfold pipelineOrder in Horder. apply andb_true_iff in Horder as [Hlo Hhi].
  apply Z.leb_le in Hlo, Hhi. cbn [In]. lia.
Qed.

Lemma successful_job_completes_steps_one_to_four_witness :
  DeploymentStep.Status Samples.fourthRowDone = DeploymentStatusCompleted
  /\ DeploymentStep.CompletedAt Samples.fourthRowDone <> None
  /\ DeploymentStep.ErrorMessage Samples.fourthRowDone = None.
Proof.
  apply (successful_job_completes_steps_one_to_four Samples.quiet Samples.lib
           Samples.job Samples.dequeued Samples.fourthRowDone).
  - intros n. reflexivity.
  - split; vm_compute; repeat constructor; cbn; intuition discriminate.
  - vm_compute. reflexivity.
  - vm_compute. do 3 right. left. reflexivity.
  - reflexivity.
  - reflexivity.
Defined.

(** ** Creation and the keys of the steps *)

(** The rows that the loop of [createInitialSteps] appends: their ids are
    drawn at different times, none before the loop starts; they belong to
    the deployment and carry the orders of a prefix of the list. *)
Lemma createSteps_keys (E : Env) (d : uuid.UUID) (steps : list (string * Z)) :
  forall w : World,
  exists (rows : list DeploymentStep.t) (times : list nat) (k : nat),
    deployment_steps (snd (services.createSteps E d steps w))
    = deployment_steps w ++ rows
    /\ List.map DeploymentStep.ID rows = List.map (rand E) times
    /\ List.NoDup times
    /\ Forall (fun n => (seq w <= n)%nat) times
    /\ Forall (fun s => DeploymentStep.DeploymentID s = d) rows
    /\ List.map DeploymentStep.StepOrder rows = take k (List.map snd steps).
Proof.
  induction steps as [|[name order] rest IH]; intros w.
  - exists [], [], 0%nat. simpl. rewrite app_nil_r.
    repeat split; constructor.
  - cbn [services.createSteps].
    unfold database.CreateDeploymentStep. run_monad.
    destruct (db_error E (S (seq w))) as [e|] eqn:Hdb.
    + exists [], [], 0%nat. run_monad. rewrite app_nil_r.
      repeat split; constructor.
    + match goal with
      | |- context [services.createSteps E d rest ?w2] =>
          destruct (IH w2) as (rows & times & k & Hrows & Hids & Hnodup & Hlate & Hd & Ho)
      end.
      run_monad.
      cbn [deployment_steps set_deployment_steps set_seq seq] in *.
      eexists (_ :: rows), (seq w :: times), (S k).
      rewrite Hrows, <- app_assoc. cbn [app List.map DeploymentStep.ID
        DeploymentStep.DeploymentID DeploymentStep.StepOrder snd take].
      split; [reflexivity|]. split; [rewrite Hids; reflexivity|].
      split.
      { constructor; [|exact Hnodup]. intros Hin.
        rewrite List.Forall_forall in Hlate. specialize (Hlate _ Hin). lia. }
      split.
      { constructor; [lia|]. eapply List.Forall_impl; [|exact Hlate].
        cbn. intros n Hn. lia. }
      split; [constructor; [reflexivity | exact Hd]|].
      rewrite Ho. reflexivity.
Qed.

Lemma NoDup_map_rand (E : Env) (from : nat) (times : list nat) :
  (forall n m, (from <= n)%nat -> (from <= m)%nat -> rand E n = rand E m -> n = m) ->
  List.NoDup times -> Forall (fun n => (from <= n)%nat) times ->
  List.NoDup (List.map (rand E) times).
Proof.
  intros Hinj Hnodup Hlate. induction Hnodup as [|n times Hn _ IH]; [constructor|].
  apply List.Forall_cons_iff in Hlate as [Hfrom Hlate].
  cbn. constructor; [|apply IH, Hlate].
  intros Hin. apply List.in_map_iff in Hin as (m & Hm & Hin).
  rewrite List.Forall_forall in Hlate.
  assert (m = n) by (apply Hinj; auto). subst m. contradiction.
Qed.

Lemma NoDup_take_list {A} (k : nat) (l : list A) :
  List.NoDup l -> List.NoDup (take k l).
Proof.
  revert k. induction l as [|x l IH]; intros [|k] H; cbn; try constructor.
  - apply List.NoDup_cons_iff in H as [Hx _]. intros Hin. apply Hx.
    clear -Hin. revert k Hin. induction l as [|y l IH]; intros [|k]; cbn; try tauto.
    intros [->|Hin]; [left; reflexivity | right; eapply IH, Hin].
  - apply IH. apply List.NoDup_cons_iff in H as [_ H]. exact H.
Qed.

(** Appending new rows of deployment [new], with fresh ids and distinct
    orders, to a table without rows of [new] keeps the steps well keyed. *)
Lemma stepsWellKeyed_app (new : uuid.UUID) (old rows : list DeploymentStep.t) :
  List.NoDup (List.map DeploymentStep.ID old) ->
  List.NoDup (List.map DeploymentStep.ID rows) ->
  (forall s r, In s old -> In r rows -> DeploymentStep.ID s <> DeploymentStep.ID r) ->
  (forall s, In s old -> DeploymentStep.DeploymentID s <> new) ->
  Forall (fun s => DeploymentStep.DeploymentID s = new) rows ->
  List.NoDup (List.map DeploymentStep.StepOrder rows) ->
  List.NoDup (List.map DeploymentStep.ID (old ++ rows))
  /\ forall d,
       List.NoDup (List.map DeploymentStep.StepOrder
                     (List.filter (fun s => DeploymentStep.DeploymentID s =? d) old)) ->
       List.NoDup (List.map DeploymentStep.StepOrder
                     (List.filter (fun s => DeploymentStep.DeploymentID s =? d)
                        (old ++ rows))).
Proof.
  intros Hold Hrows Hdisjoint Hfresh Hnew Horders. split.
  - rewrite List.map_app. apply List.NoDup_app; repeat split; auto.
    intros id Hin1 Hin2.
    apply List.in_map_iff in Hin1 as (s & <- & Hs).
    apply List.in_map_iff in Hin2 as (r & Heq & Hr).
    exact (Hdisjoint s r Hs Hr (eq_sym Heq)).
  - intros d Hd. rewrite List.filter_app.
    destruct (N.eqb_spec d new) as [->|Hne].
    + replace (List.filter (fun s => DeploymentStep.DeploymentID s =? new) old)
        with (@nil DeploymentStep.t).
      * cbn [app].
        replace (List.filter (fun s => DeploymentStep.DeploymentID s =? new) rows)
          with rows; [exact Horders|].
        clear -Hnew. induction Hnew as [|r rows Hr _ IH]; cbn; [reflexivity|].
        rewrite Hr, N.eqb_refl, <- IH. reflexivity.
      * clear -Hfresh. induction old as [|s old IH]; cbn; [reflexivity|].
        destruct (N.eqb_spec (DeploymentStep.DeploymentID s) new) as [Heq|_].
        -- destruct (Hfresh s (or_introl eq_refl) Heq).
        -- apply IH. intros s' Hs'. apply Hfresh. right. exact Hs'.
    + replace (List.filter (fun s => DeploymentStep.DeploymentID s =? d) rows)
        with (@nil DeploymentStep.t); [rewrite app_nil_r; exact Hd|].
      clear -Hnew Hne. induction Hnew as [|r rows Hr _ IH]; cbn; [reflexivity|].
      rewrite Hr. destruct (N.eqb_spec new d) as [Heq|_]; [congruence | exact IH].
Qed.

(** X27: creation keeps the step table well keyed.  If the step ids are
    unique and [uuid.New] gives fresh ids, then after a successful
    [CreateDeploymentWithEnvFile] the step ids are still unique and the
    steps of the new deployment have pairwise different orders (whether or
    not every step row could be written); deployments whose steps had
    different orders keep them. *)
Theorem creation_keeps_the_steps_well_keyed (E : Env) (req : CreateDeploymentRequest.t)
    (path : gostring) (user : uuid.UUID) (w : World) (resp : DeploymentResponse.t)
    (w' : World) :
  List.NoDup (List.map DeploymentStep.ID (deployment_steps w)) ->
  freshIDs E w ->
  services.CreateDeploymentWithEnvFile E req path user w = (Ok resp, w') ->
  stepsWellKeyed (DeploymentResponse.ID resp) w'
  /\ forall d, stepsWellKeyed d w -> stepsWellKeyed d w'.
Proof.
  intros Hold [Hinj Hfresh] Hrun.
  assert (Hsteps : exists rows times k,
            deployment_steps w' = deployment_steps w ++ rows
            /\ List.map DeploymentStep.ID rows = List.map (rand E) times
            /\ List.NoDup times
            /\ Forall (fun n => (seq w <= n)%nat) times
            /\ Forall (fun s => DeploymentStep.DeploymentID s = DeploymentResponse.ID resp)
                 rows
            /\ List.map DeploymentStep.StepOrder rows
               = take k (List.map snd services.initialSteps)
            /\ DeploymentResponse.ID resp = rand E (seq w)).
  { revert Hrun. unfold services.CreateDeploymentWithEnvFile.
    destruct (CreateDeploymentRequest.GetPortAsInt req) as [port|e]; [|discriminate].
    unfold database.CreateDeployment. run_monad.
    destruct (db_error E (S (S (seq w)))); run_monad; [discriminate|].
    match goal with
    | |- context [services.createInitialSteps E ?id ?w1] =>
        pose proof (createSteps_keys E id services.initialSteps w1)
          as (rows & times & k & Hrows & Hids & Hnodup & Hlate & Hd & Ho);
        fold (services.createInitialSteps E id) in *;
        destruct (services.createInitialSteps E id w1) as [err1 w2]
    end.
    match goal with
    | |- context [services.EnqueueDeploymentJob E ?id ?data ?w2] =>
        pose proof (EnqueueDeploymentJob_frame E id data w2) as (_ & Hs' & _);
        destruct (services.EnqueueDeploymentJob E id data w2) as [err2 w3]
    end.
    run_monad. cbn [fst snd deployment_steps set_deployments set_seq seq] in *.
    intros Hrun. injection Hrun as <- <-.
    exists rows, times, k. rewrite Hs', Hrows.
    cbn [DeploymentResponse.ID services.createdResponse].
    repeat split; auto.
    eapply List.Forall_impl; [|exact Hlate]. cbn. intros n Hn. lia. }
  destruct Hsteps as (rows & times & k & Hrows & Hids & Hnodup & Hlate & Hd & Ho & Hid).
  destruct (stepsWellKeyed_app (DeploymentResponse.ID resp) (deployment_steps w) rows)
    as [Hkeys Horders]; auto.
  - rewrite Hids. apply (NoDup_map_rand E (seq w)); assumption.
  - intros s r Hs Hr Heq.
    assert (Hin : In (DeploymentStep.ID r) (List.map (rand E) times))
      by (rewrite <- Hids; apply List.in_map, Hr).
    apply List.in_map_iff in Hin as (n & Hn & Hin).
    rewrite List.Forall_forall in Hlate.
    destruct (Hfresh n s (Hlate n Hin) Hs) as [Hne _]. congruence.
  - intros s Hs. rewrite Hid. apply (Hfresh (seq w) s); [lia | exact Hs].
  - rewrite Ho. apply NoDup_take_list. vm_compute.
    repeat constructor; cbn; intuition discriminate.
  - unfold stepsWellKeyed. rewrite Hrows. split.
    + split; [exact Hkeys|]. apply Horders.
      replace (List.filter _ (deployment_steps w)) with (@nil DeploymentStep.t);
        [constructor|].
      assert (Hnone : forall s, In s (deployment_steps w) ->
                DeploymentStep.DeploymentID s <> DeploymentResponse.ID resp).
      { intros s Hs. rewrite Hid. apply (Hfresh (seq w) s); [lia | exact Hs]. }
      clear -Hnone. induction (deployment_steps w) as [|s old IH]; cbn; [reflexivity|].
      destruct (N.eqb_spec (DeploymentStep.DeploymentID s) (DeploymentResponse.ID resp))
        as [Heq|_].
      * destruct (Hnone s (or_introl eq_refl) Heq).
      * apply IH. intros s' Hs'. apply Hnone. right. exact Hs'.
    + intros d [_ Hdo]. split; [exact Hkeys | apply Horders, Hdo].
Qed.

Lemma creation_keeps_the_steps_well_keyed_witness :
  stepsWellKeyed 1000 Samples.created
  /\ forall d, stepsWellKeyed d empty_world -> stepsWellKeyed d Samples.created.
Proof.
  apply (creation_keeps_the_steps_well_keyed Samples.quiet Samples.plain []
           Samples.user empty_world
           (services.createdResponse Samples.plain 1000 1000000000%Z 3000%Z
              (str "deployknot-p-d"))
           Samples.created).
  - constructor.
  - split.
    + intros n m _ _ H. cbn in H. lia.
    + intros n s _ [].
  - vm_compute. reflexivity.
Defined.
